(* ===== verification/_CoqProject ===== *)
-Q . S2P
Prelude.v
Bytes.v
BTree.v
External.v
Protocol.v
Concrete.v
Schedule.v
Codec.v
Statement.v
Records.v
State.v
Reducer.v
Journal.v
Ledger.v
Invariant.v
Keys.v
Safety.v
Lifecycle.v
Ruleset.v
Deployment.v
Resolver.v
Lockstep.v
Snapshot.v
ExactSnapshot.v
SemanticTrace.v
TraceFacts.v
Reference.v
ReferenceFacts.v
Transport.v
Publication.v
Routes.v
Orchard.v
Pczt.v
Builder.v
BuilderFacts.v
Authorizations.v
ProofSystem.v
Recovery.v
Checkpoint.v
Replacement.v
Preparation.v
Store.v
StoreFacts.v
Mirror.v
Scenario.v
TraceScenario.v
Corpus.v
ReferenceScenario.v
SnapshotScenario.v
PoseidonRef.v
Vectors.v
TransportScenario.v
RouteScenario.v
StoreScenario.v
WalletConcrete.v
WalletScenario.v
