(* ===== verification/Prelude.v ===== *)
(** * Coppice Names: verification of the naming protocol

    The repository implements a name registry on top of Zcash's Ironwood (Orchard)
    pool.  A name is registered in two steps: a COMMIT publishes a hiding
    commitment, and after a maturity delay a REVEAL, inside the name's own
    operation window, binds the name to a unified address and to a bond note; a
    REFRESH extends the lease by moving the bond to a successor note; spending the
    bond ends the lease, and the name becomes available again after a cooldown.
    Every replica replays the chain and must reach the same state.

    ** The parts, and how they interact

    Replay side ([src/crates/coppice-names/src/]).  A block of the chain is
    converted by [transport.rs] (which authenticates positions and decodes the
    envelopes of a rendezvous) into a [BlockInput] of operations and actions.
    [reducer.rs] applies it: it expires and compacts heads, then runs every
    transaction in order, checking [schedule.rs] windows, rebuilding the
    [statement.rs] statement that the proof must satisfy, and asking a
    [ProofVerifier] ([proof.rs]); everything it writes is journaled, so that
    [rollback_tip] undoes a block and [finalize_through] forgets old journals.
    [resolver.rs] replays the same blocks for one name.  Both are stored as
    snapshots.  [codec.rs] is the wire format of operations, [protocol.rs] their
    validated values, [deployment.rs] and [ruleset.rs] the identities of what is
    being replayed, and [publication.rs] the outbound encoding.

    Host side ([src/crates/coppice-names-sqlite/src/lib.rs]): a SQLite store that
    receives the delta of each applied block, for the replay host and for wallets.

    Wallet side ([src/crates/coppice-names-wallet/src/]): [recovery.rs] derives
    keys, openings and notes from the seed; [replacement.rs] prepares COMMIT,
    REVEAL and REFRESH; [builder.rs] builds, proves, signs and extracts their
    transactions in checked stages; [checkpoint.rs] authenticates a replay
    checkpoint and [bond.rs] classifies the notes of the wallet.

    ** The files

    Shared:
    - this file: the three-valued result [res] ([Ok], [Err], [Panic]: a Rust panic
      is an outcome, never excluded by assumption), its monad notation, loops over
      results ([res_fold], [res_map]), and lemmas and tactics on them;
    - [Bytes]: machine integers with their checked operations, byte strings, UTF-8; [BTree]: the iteration order of
      [BTreeMap] and [BTreeSet] over stdpp's [gmap] and [gset];
    - [External], [Orchard], [Pczt]: one class per third-party dependency.

    Replay:
    - [Protocol] ([protocol.rs]), [Schedule] ([schedule.rs]), [Codec] ([codec.rs]),
      [Statement] ([statement.rs]), [ProofSystem] ([proof.rs]);
    - [Records], [State], [Reducer] ([reducer.rs]): the data, the maps with their
      four derived indexes and journal, and the block-level operations; [Journal],
      [Ledger], [Invariant], [Keys], [Safety], [Lifecycle] are its proofs: what a
      journal restores, the specification without indexes and its refinement, the
      invariants of reachable states, what a journal mentions, the safety
      statements, the lease state machine;
    - [Resolver] ([resolver.rs]), with the agreement of the two replays on a block,
      and [Lockstep], on any sequence of calls;
    - [Ruleset] ([ruleset.rs], [src/ruleset/names.json]), [Deployment]
      ([deployment.rs], [lib.rs]), [Transport] ([transport.rs]), [Publication]
      ([publication.rs]);
    - [Routes] composes the block conversion of [Transport] with the two replays;
    - [Snapshot] and [ExactSnapshot]: the snapshot code of [reducer.rs] and
      [resolver.rs].

    Comparison: [SemanticTrace] ([bin/names-semantic-trace.rs]) models the binary that
    runs a corpus of histories through both replays and prints their answers,
    [TraceFacts] proves on which cases they never diverge.  [Reference]
    ([src/scripts/verify-semantic-histories.py]) models the independent checker, a second
    implementation of the reducer, and [ReferenceFacts] proves that the two agree.

    Wallet: [Recovery], [Checkpoint] (with [Bond]), [Replacement], [Builder] model
    the file of the same name; [BuilderFacts] and [Authorizations] hold the theorems
    about construction, [Preparation] the composition of the wallet with replay.

    Host: [Store] models the tables and every operation on them (replay host and
    wallet extension), [StoreFacts] compares its two rollbacks and proves that they
    end, [Mirror] is the simulation between reducer and store.

    Scenarios: [Concrete] and [WalletConcrete] instantiate the third-party classes
    (BLAKE2b is RFC 7693's and the Pallas field is exact; the other instances are small
    functions with the required laws), [PoseidonRef] is the Poseidon hash P128Pow5T3;
    [Scenario], [TraceScenario], [ReferenceScenario], [SnapshotScenario],
    [TransportScenario], [RouteScenario], [StoreScenario] and [WalletScenario] run one name through its life and apply
    the theorems to the states met on the way.

    Conformance: [Vectors] ([test-vectors/protocol.json] and its test
    [tests/protocol_vectors.rs]) and [Corpus] ([test-vectors/semantic_histories.json] and
    [tests/semantic_history_agreement.rs]) run the model on the data the repository
    checks its code with.  They are examples: closed computations, no theorems about
    the program.

    ** State and operations

    [State.Reducer] is the struct [Reducer], with [commits], [heads], the four
    indexes (COMMITs by height, heads by future nullifier, active heads by expiry,
    terminal heads by height) and the journal, a list of [Undo].  A method with
    [&mut self] takes the state and returns the new one next to its result, so the
    state an error leaves behind is part of the model.
    [Reducer.apply_block_detailed] has the phases of the code: [check_block] (the
    checks before any write), [begin_block] (heads expire, terminal heads are
    compacted, old COMMITs are pruned, evidence is admitted), then [apply_next] on
    each transaction.  Reachable states are those obtained from [Reducer::new] by
    the steps of [Safety.step] (blocks, rollbacks, finalizations); a [Host] is what
    is assumed of the blocks: fields in the ranges of their Rust types, and for the
    store 32-byte identifiers.

    A store is a record of maps keyed by the primary keys of the schema.  An
    [INSERT] of a present key and a required row that is absent are errors, a
    transaction that fails leaves the tables as they were, and deleting a journaled
    block cascades.

    The wallet threads the state of its random generator ([Rng]) explicitly; the
    stages of [Builder] return the object the Rust code passes on.

    ** What the theorems show

    Reducer.  [Safety.reachable_safe]: in every reachable state the invariant holds
    (the indexes agree with the maps, the journal is that of the last blocks,
    commitments and heads have the heights their rules allow) and no call panics.  [Safety.apply_block_refines]: a block computes what
    the index-free [Ledger] specifies.  [Journal.rollback_restores] and
    [Safety.reorganization_exact]: rollback is exact, for a block and for a chain.
    [Lifecycle.name_evolution]: a name only moves along the lease state machine.
    [Safety.compactions_ordered], [Safety.resolve_authenticated_exact]: the order and the
    answers observers see.  [ReferenceFacts.reference_agrees]: the independent checker
    answers every sequence of blocks and rollbacks as the reducer does, and raises
    nothing.  Four conditions bound that agreement.  Values are in the range of their
    Rust types and names have an identifier, as the checker raises where the crate has
    no value; addresses are those of regtest, as the checker takes every address for
    one ([ReferenceScenario.foreign_address_raises]).  Blocks stay below the height
    where a lease leaves [u32], as the checker has unbounded integers
    ([ReferenceScenario.accepted_beyond_horizon]).  The terminations of a block are
    compared up to their order, as the checker reports those of a transaction in the
    order its dictionary was filled
    ([ReferenceScenario.terminations_in_another_order]).  [Ruleset.decisions_documented]: every decision names a clause
    of the checked-in ruleset.

    Resolver, snapshots, store.  [Lockstep.replays_in_lockstep] and
    [Resolver.evidence_suffices]: the single-name replay answers as the full one, on full
    blocks whose evidence is about the name, rollbacks and finalizations, and on
    stripped blocks with evidence; [Lockstep.evidence_decides]: a block with evidence
    about other names, which the full replay applies, it refuses.
    [TraceFacts.trace_never_diverges]: the comparison of the two in the trace binary
    succeeds on every case whose advances end below [u32::MAX] and whose evidence is
    about every tracked name.  Without the first condition the binary loops
    ([TraceFacts.advance_never_ends]); without the second it reports a divergence
    ([TraceScenario.other_evidence_diverges]).  [Corpus.semantic_histories_conform]: on
    the checked-in histories it prints what the repository's test asserts of it.  [Snapshot.snapshot_roundtrip],
    [Snapshot.load_snapshot_sound], [ExactSnapshot.exact_snapshot_roundtrip]: saving and
    loading is the identity on reachable states, and whatever loads is safe to replay.
    [Mirror.store_follows_blocks], [Mirror.store_follows_rollbacks],
    [Mirror.finalize_store_retains]: the store simulates the reducer;
    [StoreFacts.wallet_rollback_equivalent], [StoreFacts.rewind_terminates]: its second
    rollback has the outcome of the first, and rewinding ends on any database.

    Encodings and hashes.  The codec accepts exactly the encodings of well-formed
    operations ([Codec.decode_exact], [Codec.codec_roundtrip], [Codec.encode_total]), up to
    the [.zec] suffix that it strips ([Codec.decode_not_injective], which is where the
    code and its specification differ).  Digests and identifiers bind every
    public fact up to an explicit collision of the hash: a theorem of this kind
    exhibits two colliding inputs that are computed from the two values compared
    ([Deployment.deployment_collision], [Statement.reveal_collision]), it assumes no
    collision resistance.
    [Vectors.positive_vectors_reproduced]: with the published hashes, the model
    computes every frozen vector, from the name identifier to the operation bytes and
    the head at the end of the replay.

    Schedule and transport.  [Schedule.operation_windows_exact] and
    [Schedule.refresh_opportunity]: the windows enumerated are the accepted heights, and
    a head always meets a refresh window before it expires.
    [Transport.transport_is_host]: what the transport emits satisfies what the reducer
    assumes of its input; [Publication.publication_read_back]: what is published is read
    back, on its own route only.  [Routes.routes_in_lockstep]: an exact resolver that is
    fed from the generic route and its name's route stays in lockstep with a complete
    replay of all routes, if no transaction has messages on two of them; without this
    condition they part ([RouteScenario.ambiguity_is_judged_per_name]).

    Wallet.  [Preparation.prepared_reveal_accepted] and
    [Preparation.prepared_refresh_accepted]: the operation the wallet proves, in any
    transaction its stages let through, is accepted by the reducer.
    [BuilderFacts.names_transaction_designated] and [Authorizations.real_spends_authorized]:
    the checks of the builder guarantee the shape of the transaction and the
    authorization of its real spends, for any behaviour of the third-party roles.
    [Recovery.commit_opening_recoverable], [Recovery.bond_note_recoverable],
    [Checkpoint.checkpoint_authentic]: what a wallet recovers from its seed.

    ** Bounds and fuel

    Heights, indices and values are [Z] with the checked arithmetic of the code
    written out: [checked_add] is [None] past the maximum, an unchecked overflow is
    [Panic] (the profile with overflow checks), an index out of range is [Panic].
    - [NameRoute::derive] and the name identifier retry over a one-byte counter: the
      loop is structural in the list of its 256 values, and its exhaustion is the
      outcome of the code.
    - The retry loops of [Recovery] run over every [u32] counter: the loop is by
      binary splitting of the 2^32 values, so it is the whole loop, with no fuel to
      run out, and it evaluates on concrete seeds.
    - The loops of the store that delete a row or a block at each turn take as fuel
      one more than the number of rows; running out is a [Panic], and
      [StoreFacts.rewind_terminates] shows that it does not happen on any database.
    - The [AdvanceEmpty] loop of the trace binary takes as fuel one more than the
      number of heights up to its target; [TraceFacts.advance_loop_settled] shows that
      it ends below [u32::MAX], and [TraceFacts.advance_never_ends] that at [u32::MAX]
      no fuel is enough.
    - Every other loop is structural in the list or the range it visits.

    ** What is not modelled

    - Third-party code: BLAKE2b, the Pallas field, Poseidon, unified addresses, the
      carrier envelope, [serde_json], the Orchard keys, notes, circuit and builder,
      the PCZT roles and the consensus transaction are parameters.  What is relied
      on is stated as fields of their classes and laws: lengths of digests,
      canonical encodings, a proof made for a statement verifies for it, a
      serializer is inverted by its parser.  Of the PCZT roles nothing is assumed.
    - SQLite itself: an integer column holds the [u32] that was stored in it; the
      integrity check, the secondary indexes and the file format belong to the
      engine.  The cost of a query is not modelled.
    - An [anyhow] error of the wallet is its outermost message.
    - Memory clearing ([Zeroizing], [Drop]) and [Debug] output have no functional
      content, and accessors that return a field are the field.
    - Reading the file and the arguments of the trace binary: its model starts from
      the contents of the corpus; hexadecimal and JSON text are parameters.
    - Proving and key generation in [tests/protocol_vectors.rs]: the recorded proofs
      and key fingerprints are data of [Vectors], and its verifier accepts these proofs
      for the recorded digests.
    - The JSON decoding, the driving loop and the printing of the independent checker,
      which repeat those of the trace binary: [Reference] starts from decoded
      hexadecimal, and models what the checker then asks of every value.
    - The run of the independent checker on the checked-in histories, and the equality
      of its output with that of the trace binary, which
      [tests/semantic_history_agreement.rs] asserts.
    - [examples/accepted_population.rs] is a benchmark of the store. *)

From Stdlib Require Export ZArith Strings.Byte Strings.String Lia.
From stdpp Require Export base gmap sets list sorting strings.
From stdpp Require Import fin_maps.

#[global] Open Scope Z_scope.

(** ** Results

    [Result<A, E>] with a third outcome for a Rust panic ([expect], an indexing
    of an absent key, an arithmetic check, an assertion). *)
Inductive res (E A : Type) : Type :=
  | Ok (a : A)
  | Err (e : E)
  | Panic.
Arguments Ok {E A} a.
Arguments Err {E A} e.
Arguments Panic {E A}.

Declare Scope res_scope.
Delimit Scope res_scope with res.
#[global] Open Scope res_scope.

Definition res_bind {E A B : Type} (m : res E A) (k : A → res E B) : res E B :=
  match m with
  | Ok a => k a
  | Err e => Err e
  | Panic => Panic
  end.

Notation "'let?' x ':=' m 'in' k" := (res_bind m (λ x, k))
  (at level 10, x pattern, m at level 100, k at level 200,
   format "'[v' 'let?'  x  ':='  m  'in' '/' k ']'") : res_scope.

(** [.map_err(f)] *)
Definition map_err {E F A : Type} (f : E → F) (m : res E A) : res F A :=
  match m with
  | Ok a => Ok a
  | Err e => Err (f e)
  | Panic => Panic
  end.

(** [.ok_or(e)] *)
Definition ok_or {E A : Type} (o : option A) (e : E) : res E A :=
  match o with Some a => Ok a | None => Err e end.

(** [.expect(_)], and indexing of a key that must be present. *)
Definition expect {E A : Type} (o : option A) : res E A :=
  match o with Some a => Ok a | None => Panic end.

(** [if c { return Err(e) }] *)
Definition ensure {E : Type} (c : bool) (e : E) : res E unit :=
  if c then Ok tt else Err e.

(** [anyhow]: an error is its outermost message; [.context(m)], and
    [ensure!(c, m)]. *)
Definition with_context {A : Type} (o : option A) (m : string) : res string A :=
  match o with Some a => Ok a | None => Err m end.
Definition ensures (c : bool) (m : string) : res string unit :=
  if c then Ok tt else Err m.
Arguments with_context {A} o m%_string.
Arguments ensures c m%_string.

(** A [Result] that is not the crate's own, its error mapped. *)
Definition lift_err {E F A : Type} (f : F → E) (m : F + A) : res E A :=
  match m with inr a => Ok a | inl e => Err (f e) end.

(** [Option::map(..).transpose()] *)
Definition transpose {A B E : Type} (f : A → res E B) (o : option A) : res E (option B) :=
  match o with
  | Some a => let? b := f a in Ok (Some b)
  | None => Ok None
  end.

(** [.iter().enumerate()], from an index. *)
Fixpoint enumerate_from {A : Type} (index : Z) (l : list A) : list (Z * A) :=
  match l with
  | [] => []
  | x :: l => (index, x) :: enumerate_from (index + 1) l
  end.
Definition enumerate {A : Type} (l : list A) : list (Z * A) := enumerate_from 0 l.

Fixpoint res_mapM {E A B : Type} (f : A → res E B) (l : list A) : res E (list B) :=
  match l with
  | [] => Ok []
  | x :: l =>
      let? y := f x in
      let? ys := res_mapM f l in
      Ok (y :: ys)
  end.

Fixpoint res_fold {E A B : Type} (f : B → A → res E B) (b : B) (l : list A) : res E B :=
  match l with
  | [] => Ok b
  | x :: l => let? b' := f b x in res_fold f b' l
  end.

Definition is_ok {E A : Type} (m : res E A) : bool :=
  match m with Ok _ => true | _ => false end.

Definition ok_default {E A : Type} (a : A) (m : res E A) : A :=
  match m with Ok a => a | _ => a end.

Lemma is_ok_default {E A : Type} (a : A) (m : res E A) : is_ok m = true → m = Ok (ok_default a m).
Proof. by destruct m. Qed.

#[global] Instance res_eq_dec {E A : Type} `{EqDecision E} `{EqDecision A} :
  EqDecision (res E A).
Proof. solve_decision. Defined.

Lemma Ok_inj {E A : Type} (a b : A) : Ok (E := E) a = Ok b → a = b.
Proof. by intros [= ->]. Qed.

Lemma res_bind_Ok {E A B : Type} (m : res E A) (k : A → res E B) (b : B) :
  res_bind m k = Ok b ↔ ∃ a, m = Ok a ∧ k a = Ok b.
Proof. destruct m; simpl; naive_solver. Qed.

Lemma map_err_Ok {E F A : Type} (f : E → F) (m : res E A) (a : A) :
  map_err f m = Ok a ↔ m = Ok a.
Proof. destruct m; simpl; naive_solver. Qed.

Lemma ok_or_Ok {E A : Type} (o : option A) (e : E) (a : A) :
  ok_or o e = Ok a ↔ o = Some a.
Proof. destruct o; simpl; naive_solver. Qed.

Lemma expect_Ok {E A : Type} (o : option A) (a : A) :
  expect (E := E) o = Ok a ↔ o = Some a.
Proof. destruct o; simpl; naive_solver. Qed.

Lemma ensure_Ok {E : Type} (c : bool) (e : E) (u : unit) :
  ensure c e = Ok u ↔ c = true.
Proof. destruct c, u; simpl; naive_solver. Qed.

Lemma with_context_Ok {A : Type} (o : option A) (m : string) (a : A) :
  with_context o m = Ok a ↔ o = Some a.
Proof. destruct o; simpl; naive_solver. Qed.

Lemma ensures_Ok (c : bool) (m : string) (u : unit) : ensures c m = Ok u ↔ c = true.
Proof. destruct c, u; simpl; naive_solver. Qed.

Lemma lift_err_Ok {E F A : Type} (f : F → E) (m : F + A) (a : A) :
  lift_err f m = Ok a ↔ m = inr a.
Proof. destruct m; simpl; naive_solver. Qed.

Lemma lift_err_no_panic {E F A : Type} (f : F → E) (m : F + A) : lift_err f m ≠ Panic.
Proof. by destruct m. Qed.

Lemma enumerate_from_lookup {A : Type} (index : Z) (l : list A) (i : nat) :
  enumerate_from index l !! i = pair (index + Z.of_nat i) <$> l !! i.
Proof.
  revert index i. induction l as [|x l IH]; intros index [|i]; simpl; [done..| |].
  - by rewrite Z.add_0_r.
  - rewrite IH. by replace (index + 1 + Z.of_nat i) with (index + Z.of_nat (S i)) by lia.
Qed.

Lemma enumerate_from_length {A : Type} (index : Z) (l : list A) :
  length (enumerate_from index l) = length l.
Proof. revert index. induction l; intros; simpl; auto. Qed.

Lemma res_mapM_Ok {E A B : Type} (f : A → res E B) (l : list A) (k : list B) :
  res_mapM f l = Ok k ↔ Forall2 (λ a b, f a = Ok b) l k.
Proof.
  revert k; induction l as [|x l IH]; intros k; simpl.
  - split; [intros [= <-]; constructor | intros H; inversion H; done].
  - rewrite res_bind_Ok. setoid_rewrite res_bind_Ok. split.
    + intros (y & Hy & ys & Hys & [= <-]). constructor; [done | by apply IH].
    + intros H. inversion H; subst. eexists; split; [done|].
      eexists; split; [by apply IH | done].
Qed.

(** A [collect] whose function never fails. *)
Lemma res_mapM_total {E A B : Type} (f : A → res E B) (g : A → B) (l : list A) :
  (∀ x, x ∈ l → f x = Ok (g x)) → res_mapM f l = Ok (map g l).
Proof.
  induction l as [|x l IH]; intros H; simpl; [done|].
  rewrite H by set_solver. simpl. rewrite IH by set_solver. done.
Qed.

Lemma res_mapM_map {E A B C : Type} (f : B → res E C) (g : A → B) (l : list A) :
  res_mapM f (map g l) = res_mapM (λ x, f (g x)) l.
Proof. induction l as [|x l IH]; simpl; [done|]. by rewrite IH. Qed.

Lemma omap_ext_in {A B : Type} (f g : A → option B) (l : list A) :
  (∀ x, x ∈ l → f x = g x) → omap f l = omap g l.
Proof.
  induction l as [|x l IH]; intros Hfg; simpl; [done|].
  rewrite Hfg by apply list_elem_of_here.
  assert (omap f l = omap g l) as E by (apply IH; intros; by apply Hfg, list_elem_of_further).
  destruct (g x); [f_equal|]; exact E.
Qed.

Lemma omap_fst {A B C : Type} (f : A * B → option C) (g : A → option C) (l : list (A * B)) :
  (∀ a b, (a, b) ∈ l → f (a, b) = g a) → omap f l = omap g l.*1.
Proof.
  induction l as [|[a b] l IH]; intros Hfg; simpl; [done|].
  rewrite Hfg by apply list_elem_of_here.
  assert (omap f l = omap g l.*1) as E by (apply IH; intros; by apply Hfg, list_elem_of_further).
  destruct (g a); [f_equal|]; exact E.
Qed.

Lemma omap_filter_in {A B : Type} (P : A → Prop) `{∀ x, Decision (P x)} (g : A → option B) (l : list A) :
  (∀ x, x ∈ l → ¬ P x → g x = None) → omap g (filter P l) = omap g l.
Proof.
  induction l as [|x l IH]; intros Hg; [done|].
  assert (omap g (filter P l) = omap g l) as E by (apply IH; intros; apply Hg; [by right|done]).
  destruct (decide (P x)).
  - rewrite filter_cons_True by done. simpl. destruct (g x); [f_equal|]; exact E.
  - rewrite filter_cons_False by done. rewrite E. simpl. by rewrite Hg by (left || done).
Qed.

Lemma StronglySorted_filter {A : Type} (R : A → A → Prop) (P : A → Prop) `{∀ x, Decision (P x)}
  (l : list A) :
  StronglySorted R l → StronglySorted R (filter P l).
Proof.
  induction 1 as [|x l Hs IH Hx]; [constructor|].
  destruct (decide (P x)); [rewrite filter_cons_True by done|by rewrite filter_cons_False].
  constructor; [done|]. rewrite Forall_forall in *. intros y [_ Hy]%list_elem_of_filter. auto.
Qed.

Lemma Forall2_in_l {A B : Type} (P : A → B → Prop) (l : list A) (k : list B) (x : A) :
  Forall2 P l k → x ∈ l → ∃ y, y ∈ k ∧ P x y.
Proof.
  intros Hf (i & Hi)%list_elem_of_lookup_1. destruct (Forall2_lookup_l _ _ _ _ _ Hf Hi) as (y & Hy & HP).
  exists y. split; [by eapply list_elem_of_lookup_2|done].
Qed.

Lemma Forall2_in_r {A B : Type} (P : A → B → Prop) (l : list A) (k : list B) (y : B) :
  Forall2 P l k → y ∈ k → ∃ x, x ∈ l ∧ P x y.
Proof.
  intros Hf (i & Hi)%list_elem_of_lookup_1. destruct (Forall2_lookup_r _ _ _ _ _ Hf Hi) as (x & Hx & HP).
  exists x. split; [by eapply list_elem_of_lookup_2|done].
Qed.

Lemma fold_left_sim {S T A : Type} (f : S → A → S) (g : T → A → T) (π : S → T) l s :
  (∀ s x, π (f s x) = g (π s) x) → π (fold_left f l s) = fold_left g l (π s).
Proof.
  intros Hfg. revert s. induction l as [|x l IH]; intros s; simpl; [done|]. by rewrite IH, Hfg.
Qed.

Lemma fold_left_const {S A : Type} (l : list A) (s : S) : fold_left (λ s _, s) l s = s.
Proof. induction l; simpl; auto. Qed.

Lemma fold_left_fst {S A B : Type} (f : S → A → S) (l : list (A * B)) s :
  fold_left (λ s '(a, _), f s a) l s = fold_left f l.*1 s.
Proof. revert s. induction l as [|[a b] l IH]; intros s; simpl; auto. Qed.

(** An invariant of a fold. *)
Lemma res_fold_inv {E A B : Type} (P : B → Prop) (f : B → A → res E B) (l : list A) (b b' : B) :
  (∀ b x b', P b → f b x = Ok b' → P b') → P b → res_fold f b l = Ok b' → P b'.
Proof.
  intros Hf. revert b. induction l as [|x l IH]; intros b Hb Hr; simpl in Hr.
  - by injection Hr as <-.
  - apply res_bind_Ok in Hr as (b1 & H1 & Hr). eauto.
Qed.

(** Computations that do not panic. *)
Lemma bind_no_panic {E A B : Type} (m : res E A) (k : A → res E B) :
  m ≠ Panic → (∀ a, m = Ok a → k a ≠ Panic) → res_bind m k ≠ Panic.
Proof. destruct m; simpl; auto; done. Qed.
Lemma map_err_no_panic {E F A : Type} (f : E → F) (m : res E A) : m ≠ Panic → map_err f m ≠ Panic.
Proof. by destruct m. Qed.
Lemma ok_or_no_panic {E A : Type} (o : option A) (e : E) : ok_or o e ≠ Panic.
Proof. by destruct o. Qed.
Lemma ensure_no_panic {E : Type} (c : bool) (e : E) : ensure c e ≠ Panic.
Proof. by destruct c. Qed.
Lemma Ok_no_panic {E A : Type} (a : A) : Ok (E := E) a ≠ Panic.
Proof. done. Qed.
Lemma expect_no_panic {E A : Type} (o : option A) : is_Some o → expect (E := E) o ≠ Panic.
Proof. by intros [? ->]. Qed.

(** Two computations with the same outcome, up to [R] on their values. *)
Definition res_sim {E A B : Type} (R : A → B → Prop) (m : res E A) (n : res E B) : Prop :=
  match m, n with
  | Ok a, Ok b => R a b
  | Err e, Err e' => e = e'
  | Panic, Panic => True
  | _, _ => False
  end.

Lemma res_sim_bind {E A B C D : Type} (R : A → B → Prop) (S : C → D → Prop)
  (m : res E A) (n : res E B) (f : A → res E C) (g : B → res E D) :
  res_sim R m n → (∀ a b, m = Ok a → n = Ok b → R a b → res_sim S (f a) (g b)) →
  res_sim S (res_bind m f) (res_bind n g).
Proof. destruct m, n; simpl; naive_solver. Qed.

Lemma res_sim_Ok {E A B : Type} (R : A → B → Prop) (m : res E A) (n : res E B) (b : B) :
  res_sim R m n → n = Ok b → ∃ a, m = Ok a ∧ R a b.
Proof. destruct m, n; simpl; naive_solver. Qed.

Create HintDb names.
#[export] Hint Rewrite @res_bind_Ok @map_err_Ok @ok_or_Ok @expect_Ok @ensure_Ok @lift_err_Ok : names.

Create HintDb panics.
#[export] Hint Resolve map_err_no_panic ok_or_no_panic ensure_no_panic Ok_no_panic
  lift_err_no_panic : panics.
#[export] Hint Extern 2 (res_bind _ _ ≠ Panic) => apply bind_no_panic; [|intros ? ?] : panics.

(** [inv_res] opens hypotheses that say a chain of [let?] succeeded. *)
Ltac inv_res :=
  repeat match goal with
  | H : Ok _ = Ok _ |- _ => injection H as H; try subst
  | H : Err _ = Ok _ |- _ => discriminate H
  | H : Ok _ = Err _ |- _ => discriminate H
  | H : Err _ = Err _ |- _ => injection H as H; try subst
  | H : Panic = _ |- _ => discriminate H
  | H : _ = Panic |- _ => discriminate H
  | H : res_bind _ _ = Ok _ |- _ =>
      apply res_bind_Ok in H;
      let a := fresh "a" in let Ha := fresh "H" in destruct H as (a & Ha & H)
  | H : map_err _ _ = Ok _ |- _ => apply map_err_Ok in H
  | H : ok_or _ _ = Ok _ |- _ => apply ok_or_Ok in H
  | H : expect _ = Ok _ |- _ => apply expect_Ok in H
  | H : lift_err _ _ = Ok _ |- _ => apply lift_err_Ok in H
  | H : ensure _ _ = Ok _ |- _ => apply ensure_Ok in H
  | H : with_context _ _ = Ok _ |- _ => apply with_context_Ok in H
  | H : ensures _ _ = Ok _ |- _ => apply ensures_Ok in H
  end.

(** ** Stateful fallible code

    A method [&mut self -> Result<A, E>] is a function from the state to the
    outcome and the state left behind; an early return keeps every write made
    before it. *)
Definition M (S E A : Type) : Type := S → res E A * S.

Definition mret {S E A : Type} (a : A) : M S E A := λ s, (Ok a, s).
Definition mfail {S E A : Type} (e : E) : M S E A := λ s, (Err e, s).
Definition mget {S E : Type} : M S E S := λ s, (Ok s, s).
Definition mmodify {S E : Type} (f : S → S) : M S E unit := λ s, (Ok tt, f s).
Definition mlift {S E A : Type} (m : res E A) : M S E A := λ s, (m, s).

(** Not called [mbind]: that is the name of stdpp's class. *)
Definition sbind {S E A B : Type} (m : M S E A) (k : A → M S E B) : M S E B := λ s,
  match m s with
  | (Ok a, s') => k a s'
  | (Err e, s') => (Err e, s')
  | (Panic, s') => (Panic, s')
  end.

Notation "'let!' x ':=' m 'in' k" := (sbind m (λ x, k))
  (at level 10, x pattern, m at level 100, k at level 200,
   format "'[v' 'let!'  x  ':='  m  'in' '/' k ']'") : res_scope.

(** A block with a local variable [u] passed on as [&mut]. *)
Definition with_local {S U E A : Type} (u : U) (m : M (S * U) E A) : M S E (A * U) := λ s,
  match m (s, u) with
  | (Ok a, (s', u')) => (Ok (a, u'), s')
  | (Err e, (s', _)) => (Err e, s')
  | (Panic, (s', _)) => (Panic, s')
  end.

(** A [for] loop that carries local variables. *)
Fixpoint mfold {S E A B : Type} (f : B → A → M S E B) (b : B) (l : list A) : M S E B :=
  match l with
  | [] => mret b
  | x :: l => let! b' := f b x in mfold f b' l
  end.

Lemma sbind_Ok {S E A B : Type} (m : M S E A) (k : A → M S E B) (s s' : S) (b : B) :
  sbind m k s = (Ok b, s') ↔ ∃ a s1, m s = (Ok a, s1) ∧ k a s1 = (Ok b, s').
Proof. unfold sbind. destruct (m s) as [[a|e|] s1]; naive_solver. Qed.

Lemma with_local_Ok {S U E A : Type} (u : U) (m : M (S * U) E A) (s s' : S) (a : A) (u' : U) :
  with_local u m s = (Ok (a, u'), s') ↔ m (s, u) = (Ok a, (s', u')).
Proof. unfold with_local. destruct (m (s, u)) as [[x|e|] [s1 u1]]; naive_solver. Qed.

Lemma mlift_Ok {S E A : Type} (m : res E A) (s s' : S) (a : A) :
  mlift m s = (Ok a, s') ↔ m = Ok a ∧ s = s'.
Proof. unfold mlift. naive_solver. Qed.

(** Rule of a loop: an invariant on the carried value and the state. *)
Lemma mfold_inv {S E A B : Type} (f : B → A → M S E B) (P : B → S → Prop) (l : list A) :
  (∀ b x s b' s', x ∈ l → P b s → f b x s = (Ok b', s') → P b' s') →
  ∀ b s b' s', P b s → mfold f b l s = (Ok b', s') → P b' s'.
Proof.
  induction l as [|x l IH]; intros Hf b s b' s' HP Hrun; simpl in Hrun.
  - unfold mret in Hrun. naive_solver.
  - apply sbind_Ok in Hrun as (b1 & s1 & H1 & H2).
    eapply IH; [..|done].
    + intros b2 y t b3 t' Hy. apply Hf. by apply list_elem_of_further.
    + eapply Hf; [apply list_elem_of_here|done|done].
Qed.
