(* ===== verification/Bytes.v ===== *)
(** * Machine integers, byte strings and UTF-8

    Rust's unsigned integers are [Z] with their width written out in the
    checked operations; [u8] arrays and vectors, and the bytes of a [str], are
    [list byte].  The standard-library functions the crates call are defined
    here: big- and little-endian conversions, [strip_suffix], [is_ascii] and
    [from_utf8]. *)

From S2P Require Import Prelude.

Notation bytes := (list byte) (only parsing).
Notation u32 := Z (only parsing).

(** ** Checked unsigned arithmetic *)

Definition u8_max : Z := 255.
Definition u16_max : Z := 65535.
Definition u32_max : Z := 4294967295.
Definition u64_max : Z := 18446744073709551615.

Definition is_u32 (z : Z) : Prop := 0 ≤ z ≤ u32_max.

Definition u32_checked_add (a b : Z) : option Z :=
  if a + b <=? u32_max then Some (a + b) else None.
Definition u32_checked_sub (a b : Z) : option Z :=
  if b <=? a then Some (a - b) else None.
Definition u32_checked_mul (a b : Z) : option Z :=
  if a * b <=? u32_max then Some (a * b) else None.
(** [u32::try_from] of a [usize] or [u64]. *)
Definition u32_try_from (z : Z) : option Z :=
  if z <=? u32_max then Some z else None.
Definition u8_try_from (z : Z) : option Z :=
  if z <=? u8_max then Some z else None.
Definition u16_try_from (z : Z) : option Z :=
  if z <=? u16_max then Some z else None.

(** [usize] and [u64], of 64 bits. *)
Definition usize_checked_add (a b : Z) : option Z :=
  if a + b <=? u64_max then Some (a + b) else None.
Definition usize_checked_sub (a b : Z) : option Z :=
  if b <=? a then Some (a - b) else None.

(** [u64::try_from] of an [i64], and [i64::checked_neg] and [try_from]. *)
Definition i64_min : Z := -9223372036854775808.
Definition i64_max : Z := 9223372036854775807.
Definition u64_try_from (z : Z) : option Z :=
  if (0 <=? z) && (z <=? u64_max) then Some z else None.
Definition i64_checked_neg (z : Z) : option Z :=
  if z =? i64_min then None else Some (- z).
Definition i64_try_from (z : Z) : option Z :=
  if z <=? i64_max then Some z else None.

#[global] Instance is_u32_dec z : Decision (is_u32 z).
Proof. unfold is_u32. apply _. Defined.

Lemma u32_checked_add_Some a b c :
  u32_checked_add a b = Some c ↔ c = a + b ∧ a + b ≤ u32_max.
Proof.
  unfold u32_checked_add. destruct (Z.leb_spec (a + b) u32_max); split.
  - intros [= <-]. done.
  - by intros [-> _].
  - done.
  - intros [_ ?]. lia.
Qed.

Lemma u32_checked_add_None a b : u32_checked_add a b = None ↔ u32_max < a + b.
Proof.
  unfold u32_checked_add. destruct (Z.leb_spec (a + b) u32_max); split; intros; try done; lia.
Qed.

Lemma u32_checked_sub_Some a b c : u32_checked_sub a b = Some c ↔ c = a - b ∧ b ≤ a.
Proof.
  unfold u32_checked_sub. destruct (Z.leb_spec b a); split.
  - intros [= <-]. done.
  - by intros [-> _].
  - done.
  - intros [_ ?]. lia.
Qed.

Lemma u32_checked_sub_None a b : u32_checked_sub a b = None ↔ a < b.
Proof. unfold u32_checked_sub. destruct (Z.leb_spec b a); split; intros; try done; lia. Qed.

Lemma u32_checked_mul_Some a b c :
  u32_checked_mul a b = Some c ↔ c = a * b ∧ a * b ≤ u32_max.
Proof.
  unfold u32_checked_mul. destruct (Z.leb_spec (a * b) u32_max); split.
  - intros [= <-]. done.
  - by intros [-> _].
  - done.
  - intros [_ ?]. lia.
Qed.

(** ** Bytes *)

#[global] Instance byte_eq_dec : EqDecision byte.
Proof.
  intros x y. destruct (Byte.eqb x y) eqn:E.
  - left. by apply Byte.byte_dec_bl.
  - right. intros ->. rewrite Byte.byte_dec_lb in E; done.
Defined.

#[global] Instance byte_countable : Countable byte :=
  inj_countable Byte.to_N Byte.of_N Byte.of_to_N.

Definition byte_val (b : byte) : Z := Z.of_N (Byte.to_N b).
(** [z as u8] *)
Definition byte_of (z : Z) : byte :=
  match Byte.of_N (Z.to_N (z mod 256)) with Some b => b | None => x00 end.

Lemma byte_val_range b : 0 ≤ byte_val b < 256.
Proof. unfold byte_val. pose proof (Byte.to_N_bounded b). lia. Qed.

Lemma byte_of_val b : byte_of (byte_val b) = b.
Proof.
  unfold byte_of. rewrite Z.mod_small by apply byte_val_range.
  unfold byte_val. rewrite N2Z.id, Byte.of_to_N. done.
Qed.

Lemma byte_val_of z : byte_val (byte_of z) = z mod 256.
Proof.
  unfold byte_of. pose proof (Z.mod_pos_bound z 256 ltac:(lia)) as Hm.
  destruct (Byte.of_N (Z.to_N (z mod 256))) as [b|] eqn:E.
  - apply Byte.to_of_N in E. unfold byte_val. rewrite E. lia.
  - apply Byte.of_N_None_iff in E. lia.
Qed.

Lemma byte_val_inj b c : byte_val b = byte_val c → b = c.
Proof. intros H. rewrite <- (byte_of_val b), <- (byte_of_val c). by rewrite H. Qed.

(** ** Big- and little-endian integers *)

(** [z.to_be_bytes()] of an [n]-byte unsigned integer. *)
Fixpoint be_bytes (n : nat) (z : Z) : bytes :=
  match n with
  | O => []
  | S n => byte_of (z / 256 ^ Z.of_nat n) :: be_bytes n z
  end.

(** [from_be_bytes] *)
Fixpoint be_val (l : bytes) : Z :=
  match l with
  | [] => 0
  | b :: l => byte_val b * 256 ^ Z.of_nat (length l) + be_val l
  end.

(** [from_le_bytes] *)
Fixpoint le_val (l : bytes) : Z :=
  match l with
  | [] => 0
  | b :: l => byte_val b + 256 * le_val l
  end.

Lemma length_be_bytes n z : length (be_bytes n z) = n.
Proof. induction n; simpl; congruence. Qed.

Lemma be_val_range l : 0 ≤ be_val l < 256 ^ Z.of_nat (length l).
Proof.
  induction l as [|b l IH]; cbn [be_val length]; [lia|].
  pose proof (byte_val_range b). rewrite Nat2Z.inj_succ, Z.pow_succ_r by lia. nia.
Qed.

Lemma be_val_be_bytes n z : be_val (be_bytes n z) = z mod 256 ^ Z.of_nat n.
Proof.
  induction n as [|n IH]; cbn [be_val be_bytes]; [by rewrite Z.mod_1_r|].
  rewrite IH, byte_val_of, length_be_bytes, Nat2Z.inj_succ, Z.pow_succ_r by lia.
  rewrite (Z.mul_comm 256), Z.rem_mul_r by lia. lia.
Qed.

Lemma be_bytes_mod n z : be_bytes n (z mod 256 ^ Z.of_nat n) = be_bytes n z.
Proof.
  enough (∀ m w, (n ≤ m)%nat → be_bytes n (w mod 256 ^ Z.of_nat m) = be_bytes n w) as H.
  { by apply H. }
  induction n as [|n IH]; intros m w Hle; cbn [be_bytes]; [done|].
  rewrite IH by lia. f_equal. apply byte_val_inj. rewrite !byte_val_of.
  replace (256 ^ Z.of_nat m) with (256 ^ Z.of_nat n * (256 * 256 ^ (Z.of_nat m - Z.of_nat n - 1))).
  2:{ rewrite <- Z.pow_succ_r, <- Z.pow_add_r by lia. f_equal. lia. }
  rewrite Z.rem_mul_r by lia.
  rewrite Z.add_comm, Z.mul_comm, Z.div_add_l by lia.
  rewrite (Z.div_small (w mod _)) by (apply Z.mod_pos_bound; lia).
  rewrite Z.add_0_r, Z.rem_mul_r by lia.
  rewrite Z.mul_comm, Z.mod_add by lia. by rewrite Z.mod_mod by lia.
Qed.

Lemma be_bytes_be_val l : be_bytes (length l) (be_val l) = l.
Proof.
  induction l as [|b l IH]; cbn [be_val be_bytes length]; [done|].
  pose proof (be_val_range l). f_equal.
  - rewrite Z.div_add_l, Z.div_small, Z.add_0_r by lia. apply byte_of_val.
  - rewrite <- be_bytes_mod, Z.add_comm, Z.mod_add by lia.
    by rewrite be_bytes_mod, IH.
Qed.

Lemma be_bytes_inj n a b :
  0 ≤ a < 256 ^ Z.of_nat n → 0 ≤ b < 256 ^ Z.of_nat n → be_bytes n a = be_bytes n b → a = b.
Proof.
  intros Ha Hb H. apply (f_equal be_val) in H.
  rewrite !be_val_be_bytes, !Z.mod_small in H by done. done.
Qed.

Lemma le_val_nonneg l : 0 ≤ le_val l.
Proof. induction l as [|b l IH]; cbn [le_val]; [lia|]. pose proof (byte_val_range b). lia. Qed.

#[global] Arguments be_bytes : simpl never.
#[global] Arguments be_val : simpl never.
#[global] Arguments byte_of : simpl never.

(** [u32::to_be_bytes] and [u16::to_be_bytes]. *)
Notation u32_be := (be_bytes 4) (only parsing).
Notation u16_be := (be_bytes 2) (only parsing).
Notation u64_be := (be_bytes 8) (only parsing).

Lemma u32_be_val z : is_u32 z → be_val (u32_be z) = z.
Proof.
  intros H. rewrite be_val_be_bytes. apply Z.mod_small.
  unfold is_u32, u32_max in H. change (256 ^ Z.of_nat 4) with 4294967296. lia.
Qed.

Lemma u32_be_inj a b : is_u32 a → is_u32 b → u32_be a = u32_be b → a = b.
Proof. intros Ha Hb H. rewrite <- (u32_be_val a), <- (u32_be_val b) by done. by rewrite H. Qed.

Lemma be_val_u32 l : length l = 4%nat → is_u32 (be_val l).
Proof.
  intros H. pose proof (be_val_range l) as Hr. rewrite H in Hr.
  unfold is_u32, u32_max. change (256 ^ Z.of_nat 4) with 4294967296 in Hr. lia.
Qed.

(** ** Strings *)

(** The bytes of a literal. *)
Definition lit (s : string) : bytes := list_byte_of_string s.

(** [str::strip_suffix] *)
Definition strip_suffix (suffix value : bytes) : option bytes :=
  let n := (length value - length suffix)%nat in
  if bool_decide ((length suffix ≤ length value)%nat ∧ drop n value = suffix)
  then Some (take n value) else None.

(** [str::strip_prefix] *)
Definition strip_prefix (prefix value : bytes) : option bytes :=
  if bool_decide (take (length prefix) value = prefix)
  then Some (drop (length prefix) value) else None.

(** [str::is_ascii] *)
Definition is_ascii (l : bytes) : bool := forallb (λ b, byte_val b <? 128) l.

Definition is_ascii_lowercase (b : byte) : bool := (97 <=? byte_val b) && (byte_val b <=? 122).
Definition is_ascii_digit (b : byte) : bool := (48 <=? byte_val b) && (byte_val b <=? 57).

Lemma strip_suffix_Some suffix value rest :
  strip_suffix suffix value = Some rest ↔ value = rest ++ suffix.
Proof.
  unfold strip_suffix. case_bool_decide as H; split.
  - intros [= <-]. destruct H as [_ H]. by rewrite <- H at 2; rewrite take_drop.
  - intros ->. rewrite length_app, Nat.add_sub, take_app_length. done.
  - done.
  - intros ->. contradict H. rewrite length_app, Nat.add_sub, drop_app_length. split; [lia|done].
Qed.

Lemma strip_prefix_Some p b x : strip_prefix p b = Some x ↔ b = p ++ x.
Proof.
  unfold strip_prefix. case_bool_decide as E; split.
  - intros [= <-]. rewrite <- E at 1. by rewrite take_drop.
  - intros ->. by rewrite drop_app_length.
  - done.
  - intros ->. by rewrite take_app_length in E.
Qed.

Lemma strip_suffix_not_in suffix value b :
  b ∈ suffix → b ∉ value → strip_suffix suffix value = None.
Proof.
  intros Hin Hnot. destruct (strip_suffix suffix value) eqn:E; [|done].
  apply strip_suffix_Some in E as ->. set_solver.
Qed.

(** [core::str::from_utf8]: the well-formed byte sequences of the Unicode
    standard (no overlong form, no surrogate, nothing above U+10FFFF). *)
Definition in_range (lo hi : Z) (b : byte) : bool := (lo <=? byte_val b) && (byte_val b <=? hi).
Definition utf8_cont (b : byte) : bool := in_range 128 191 b.

Fixpoint utf8_valid (l : bytes) : bool :=
  match l with
  | [] => true
  | b0 :: l1 =>
      if in_range 0 127 b0 then utf8_valid l1 else
      match l1 with
      | [] => false
      | b1 :: l2 =>
          if in_range 194 223 b0 then utf8_cont b1 && utf8_valid l2 else
          match l2 with
          | [] => false
          | b2 :: l3 =>
              if in_range 224 224 b0 then in_range 160 191 b1 && utf8_cont b2 && utf8_valid l3
              else if in_range 225 236 b0 || in_range 238 239 b0
              then utf8_cont b1 && utf8_cont b2 && utf8_valid l3
              else if in_range 237 237 b0
              then in_range 128 159 b1 && utf8_cont b2 && utf8_valid l3
              else
              match l3 with
              | [] => false
              | b3 :: l4 =>
                  if in_range 240 240 b0
                  then in_range 144 191 b1 && utf8_cont b2 && utf8_cont b3 && utf8_valid l4
                  else if in_range 241 243 b0
                  then utf8_cont b1 && utf8_cont b2 && utf8_cont b3 && utf8_valid l4
                  else if in_range 244 244 b0
                  then in_range 128 143 b1 && utf8_cont b2 && utf8_cont b3 && utf8_valid l4
                  else false
              end
          end
      end
  end.

Lemma utf8_ascii l : is_ascii l = true → utf8_valid l = true.
Proof.
  induction l as [|b l IH]; intros H; [done|]. simpl in H. apply andb_true_iff in H as [Hb Hl].
  simpl. unfold in_range. pose proof (byte_val_range b).
  destruct (Z.leb_spec 0 (byte_val b)); [|lia].
  destruct (Z.leb_spec (byte_val b) 127); [by apply IH|lia].
Qed.

(** ** Fixed-size concatenation *)

(** Two equal concatenations with a first field of fixed size. *)
Lemma app_inj_length {A : Type} (a b c d : list A) :
  length a = length b → a ++ c = b ++ d → a = b ∧ c = d.
Proof. intros Hl H. by apply app_inj_1. Qed.

#[export] Hint Rewrite length_be_bytes @length_app : names.
