(* ===== verification/BTree.v ===== *)
(** * Ordered maps and sets

    [BTreeMap] and [BTreeSet] are stdpp's [gmap] and [gset]; what the crates
    also rely on is that they iterate in the derived [Ord] of the keys.  [OrdKey]
    is that order: a key is compared as the list of its fields, which is how
    [#[derive(Ord)]] compares structs and arrays. *)

From S2P Require Import Prelude Bytes.

(** ** Lexicographic order *)

Fixpoint lex_leb (a b : list Z) : bool :=
  match a, b with
  | [], _ => true
  | _ :: _, [] => false
  | x :: a, y :: b => (x <? y) || ((x =? y) && lex_leb a b)
  end.

(** The derived [Ord] of a key type. *)
Class OrdKey (K : Type) := {
  ord_key : K → list Z;
  ord_key_inj : Inj (=) (=) ord_key;
}.
#[export] Existing Instance ord_key_inj.
#[global] Hint Mode OrdKey ! : typeclass_instances.

Definition key_le {K : Type} `{OrdKey K} (a b : K) : Prop :=
  lex_leb (ord_key a) (ord_key b) = true.

#[export] Instance key_le_dec {K : Type} `{OrdKey K} : RelDecision (key_le (K := K)).
Proof. intros a b. unfold key_le. apply _. Defined.

Lemma lex_leb_total a b : lex_leb a b = true ∨ lex_leb b a = true.
Proof.
  revert b; induction a as [|x a IH]; intros [|y b]; simpl; auto.
  destruct (IH b) as [H|H]; rewrite H; destruct (Z.ltb_spec x y), (Z.ltb_spec y x),
    (Z.eqb_spec x y), (Z.eqb_spec y x); simpl; auto; lia.
Qed.

Lemma lex_leb_trans a b c : lex_leb a b = true → lex_leb b c = true → lex_leb a c = true.
Proof.
  revert b c; induction a as [|x a IH]; intros [|y b] [|z c]; simpl; auto; try done.
  rewrite !orb_true_iff, !andb_true_iff, !Z.ltb_lt, !Z.eqb_eq.
  intros [?|[-> ?]] [?|[? ?]]; subst; auto; [left; lia | right; eauto].
Qed.

Lemma lex_leb_antisymm a b : lex_leb a b = true → lex_leb b a = true → a = b.
Proof.
  revert b; induction a as [|x a IH]; intros [|y b]; simpl; auto; try done.
  rewrite !orb_true_iff, !andb_true_iff, !Z.ltb_lt, !Z.eqb_eq.
  intros [?|[-> ?]] [?|[? ?]]; subst; try lia. f_equal. auto.
Qed.

Section KeyOrder.
Context {K : Type} `{OrdKey K}.

#[export] Instance key_le_total : Total (key_le (K := K)).
Proof. intros a b. apply lex_leb_total. Qed.
#[export] Instance key_le_trans : Transitive (key_le (K := K)).
Proof. intros a b c. apply lex_leb_trans. Qed.
#[export] Instance key_le_antisymm : AntiSymm (=) (key_le (K := K)).
Proof. intros a b H1 H2. apply (inj ord_key). by apply lex_leb_antisymm. Qed.
End KeyOrder.

(** Unsigned integers and byte arrays. *)
#[export] Instance Z_ord_key : OrdKey Z.
Proof. exists (λ z, [z]). by intros x y [= ->]. Defined.

Lemma map_byte_val_inj (a b : list byte) : map byte_val a = map byte_val b → a = b.
Proof. apply list_fmap_eq_inj. intros x y. apply byte_val_inj. Qed.

(** ** Iteration *)

Section Iteration.
Context {K : Type} `{Countable K} `{!OrdKey K}.

(** [set.iter()] *)
Definition bset_iter (s : gset K) : list K := merge_sort key_le (elements s).

(** [map.keys()] *)
Definition btree_keys {V : Type} (m : gmap K V) : list K := bset_iter (dom m).

(** [map.iter()] *)
Definition btree_iter {V : Type} (m : gmap K V) : list (K * V) :=
  omap (λ k, pair k <$> m !! k) (btree_keys m).

Lemma elem_of_bset_iter s k : k ∈ bset_iter s ↔ k ∈ s.
Proof. unfold bset_iter. rewrite merge_sort_Permutation. apply elem_of_elements. Qed.

Lemma NoDup_bset_iter s : NoDup (bset_iter s).
Proof. unfold bset_iter. rewrite merge_sort_Permutation. apply NoDup_elements. Qed.

Lemma Sorted_bset_iter s : StronglySorted key_le (bset_iter s).
Proof. apply StronglySorted_merge_sort; apply _. Qed.

(** The order is that of the keys alone: any sorted enumeration is the
    iteration. *)
Lemma bset_iter_unique s l :
  NoDup l → (∀ k, k ∈ l ↔ k ∈ s) → StronglySorted key_le l → l = bset_iter s.
Proof.
  intros Hnd Hin Hs. eapply (StronglySorted_unique key_le); [done|apply Sorted_bset_iter|].
  apply NoDup_Permutation; [done|apply NoDup_bset_iter|].
  intros k. by rewrite Hin, elem_of_bset_iter.
Qed.

(** Iterating a subset visits the same order. *)
Lemma bset_iter_filter (P : K → Prop) `{∀ x, Decision (P x)} s t :
  (∀ k, k ∈ s ↔ k ∈ t ∧ P k) → bset_iter s = filter P (bset_iter t).
Proof.
  intros Hst. symmetry. apply bset_iter_unique.
  - apply NoDup_filter, NoDup_bset_iter.
  - intros k. rewrite list_elem_of_filter, elem_of_bset_iter, Hst. tauto.
  - apply StronglySorted_filter, Sorted_bset_iter.
Qed.

Lemma bset_iter_empty : bset_iter ∅ = [].
Proof. unfold bset_iter. by rewrite elements_empty. Qed.

Lemma elem_of_btree_keys {V} (m : gmap K V) k : k ∈ btree_keys m ↔ is_Some (m !! k).
Proof. unfold btree_keys. by rewrite elem_of_bset_iter, elem_of_dom. Qed.

Lemma NoDup_btree_keys {V} (m : gmap K V) : NoDup (btree_keys m).
Proof. apply NoDup_bset_iter. Qed.

Lemma elem_of_btree_iter {V} (m : gmap K V) k v : (k, v) ∈ btree_iter m ↔ m !! k = Some v.
Proof.
  unfold btree_iter. rewrite list_elem_of_omap. split.
  - intros (k' & _ & Hk). destruct (m !! k') eqn:E; naive_solver.
  - intros Hk. exists k. rewrite elem_of_btree_keys, Hk. by eauto.
Qed.

Lemma btree_iter_keys {V} (m : gmap K V) : (btree_iter m).*1 = btree_keys m.
Proof.
  unfold btree_iter.
  assert (∀ k, k ∈ btree_keys m → is_Some (m !! k)) as Hin.
  { intros k. by rewrite elem_of_btree_keys. }
  induction (btree_keys m) as [|k l IH]; simpl; [done|].
  destruct (Hin k ltac:(set_solver)) as [v Hv]. rewrite Hv. simpl.
  f_equal. apply IH. set_solver.
Qed.

Lemma NoDup_btree_iter {V} (m : gmap K V) : NoDup (btree_iter m).*1.
Proof. rewrite btree_iter_keys. apply NoDup_btree_keys. Qed.

(** Iteration is a function of the domain. *)
Lemma btree_keys_dom {V W} (m : gmap K V) (n : gmap K W) :
  dom m = dom n → btree_keys m = btree_keys n.
Proof. unfold btree_keys. by intros ->. Qed.

Lemma btree_iter_empty {V} : btree_iter (∅ : gmap K V) = [].
Proof. unfold btree_iter, btree_keys. by rewrite dom_empty_L, bset_iter_empty. Qed.

(** Mapping over an iteration in terms of its keys. *)
Lemma btree_iter_map {V B} (m : gmap K V) (f : K * V → B) (g : K → B) :
  (∀ k v, m !! k = Some v → f (k, v) = g k) → map f (btree_iter m) = map g (btree_keys m).
Proof.
  intros Hfg. rewrite <- btree_iter_keys. rewrite map_map.
  apply map_ext_in. intros [k v] Hin. simpl. apply Hfg.
  apply elem_of_btree_iter. by apply list_elem_of_In.
Qed.

Lemma btree_iter_fmap {V W} (f : V → W) (m : gmap K V) :
  btree_iter (f <$> m) = map (λ '(k, v), (k, f v)) (btree_iter m).
Proof.
  unfold btree_iter. rewrite (btree_keys_dom (f <$> m) m) by apply dom_fmap_L.
  induction (btree_keys m) as [|k l IH]; simpl; [done|]. rewrite lookup_fmap.
  destruct (m !! k); simpl; [f_equal|]; exact IH.
Qed.

(** [map.entry(k).or_insert_with(|| v)] *)
Definition entry_or_insert {V : Type} (k : K) (v : V) (m : gmap K V) : gmap K V :=
  match m !! k with Some _ => m | None => <[k := v]> m end.

Lemma lookup_entry_or_insert {V} (k i : K) (v : V) (m : gmap K V) :
  entry_or_insert k v m !! i =
    if decide (i = k) then Some (default v (m !! k)) else m !! i.
Proof.
  unfold entry_or_insert. case_decide; subst.
  - destruct (m !! k) eqn:E; simpl; [done|by rewrite lookup_insert_eq].
  - destruct (m !! k); [done|]. by rewrite lookup_insert_ne.
Qed.

(** [iter.collect::<BTreeMap<_, _>>()]: a later entry replaces an earlier. *)
Definition btree_collect {V : Type} (l : list (K * V)) : gmap K V :=
  fold_left (λ m '(k, v), <[k := v]> m) l ∅.

Lemma btree_collect_snoc {V} (l : list (K * V)) k v :
  btree_collect (l ++ [(k, v)]) = <[k := v]> (btree_collect l).
Proof. unfold btree_collect. by rewrite fold_left_app. Qed.

Lemma lookup_btree_collect {V} (l : list (K * V)) k v :
  NoDup l.*1 → btree_collect l !! k = Some v ↔ (k, v) ∈ l.
Proof.
  induction l as [|[i w] l IH] using rev_ind; intros Hnd.
  - unfold btree_collect. simpl. rewrite lookup_empty. set_solver.
  - rewrite fmap_app in Hnd. simpl in Hnd.
    apply NoDup_app in Hnd as (Hnd & Hi & _).
    rewrite btree_collect_snoc, elem_of_app, list_elem_of_singleton.
    destruct (decide (i = k)) as [->|Hne].
    + rewrite lookup_insert_eq. split; [intros [= ->]; by right|].
      intros [Hin|[= ->]]; [|done]. exfalso.
      apply (Hi k); [apply list_elem_of_fmap; by exists (k, v)|set_solver].
    + rewrite lookup_insert_ne, IH by done. naive_solver.
Qed.

(** With repeated keys, the last entry wins. *)
Lemma lookup_btree_collect_in {V} (l : list (K * V)) k v :
  btree_collect l !! k = Some v → (k, v) ∈ l.
Proof.
  induction l as [|[i w] l IH] using rev_ind; [unfold btree_collect; simpl; by rewrite lookup_empty|].
  rewrite btree_collect_snoc, elem_of_app, list_elem_of_singleton.
  destruct (decide (i = k)) as [->|Hne]; [rewrite lookup_insert_eq; naive_solver|].
  rewrite lookup_insert_ne by done. naive_solver.
Qed.

Lemma dom_btree_collect {V} (l : list (K * V)) : dom (btree_collect l) = list_to_set l.*1.
Proof.
  induction l as [|[i w] l IH] using rev_ind; [done|].
  rewrite btree_collect_snoc, dom_insert_L, IH, fmap_app, list_to_set_app_L. simpl. set_solver.
Qed.

Lemma lookup_btree_collect_fun {V} (l : list (K * V)) k v :
  (k, v) ∈ l → (∀ w, (k, w) ∈ l → w = v) → btree_collect l !! k = Some v.
Proof.
  intros Hin Hf. destruct (btree_collect l !! k) as [w|] eqn:E.
  - apply lookup_btree_collect_in in E. by rewrite (Hf w E).
  - exfalso. apply not_elem_of_dom in E. apply E. rewrite dom_btree_collect, elem_of_list_to_set.
    apply list_elem_of_fmap. by exists (k, v).
Qed.

Lemma btree_collect_iter {V} (m : gmap K V) : btree_collect (btree_iter m) = m.
Proof.
  apply map_eq. intros k. apply option_eq. intros v.
  rewrite lookup_btree_collect by apply NoDup_btree_iter. apply elem_of_btree_iter.
Qed.

(** The entries after the first, and the number of entries. *)
Lemma btree_iter_cons {V} (m : gmap K V) k v l :
  btree_iter m = (k, v) :: l → m !! k = Some v ∧ btree_iter (delete k m) = l.
Proof.
  intros E. assert (m !! k = Some v) as Hk by (apply elem_of_btree_iter; rewrite E; by left).
  split; [done|]. pose proof (NoDup_btree_keys m) as Hnd.
  assert (btree_keys m = k :: l.*1) as Ek by by rewrite <- btree_iter_keys, E.
  assert (btree_keys (delete k m) = l.*1) as Ed.
  { rewrite Ek in Hnd. apply NoDup_cons in Hnd as [Hnk Hnd]. symmetry. unfold btree_keys.
    apply bset_iter_unique; [done| |].
    - intros i. rewrite dom_delete_L, elem_of_difference, elem_of_singleton, <- elem_of_bset_iter.
      fold (btree_keys m). rewrite Ek, elem_of_cons. split; [|naive_solver].
      intros Hi. split; [by right|]. by intros ->.
    - pose proof (Sorted_bset_iter (dom m)) as Hs. fold (btree_keys m) in Hs. rewrite Ek in Hs.
      by apply StronglySorted_inv in Hs as [? _]. }
  assert (∀ i w, (i, w) ∈ l → delete k m !! i = Some w) as Hl.
  { intros i w Hin. rewrite lookup_delete_ne.
    - apply elem_of_btree_iter. rewrite E. by right.
    - intros <-. rewrite Ek in Hnd. apply NoDup_cons in Hnd as [Hn _]. apply Hn, list_elem_of_fmap.
      by exists (k, w). }
  unfold btree_iter. rewrite Ed. clear E Ek Ed. induction l as [|[i w] l IH]; simpl; [done|].
  rewrite (Hl i w) by by left. simpl. f_equal. apply IH. intros; apply Hl. by right.
Qed.

(** Writes of values, or deletions, one key after another. *)
Definition assign {V : Type} (l : list (K * option V)) (m : gmap K V) : gmap K V :=
  fold_left (λ m '(k, v), partial_alter (λ _, v) k m) l m.

Lemma lookup_assign {V} (l : list (K * option V)) (m : gmap K V) k :
  assign l m !! k = default (m !! k) (btree_collect l !! k).
Proof.
  induction l as [|[i v] l IH] using rev_ind; [done|].
  unfold assign. rewrite fold_left_app. fold (assign l m). simpl. rewrite btree_collect_snoc.
  destruct (decide (i = k)) as [->|Hne].
  - by rewrite lookup_partial_alter_eq, lookup_insert_eq.
  - by rewrite lookup_partial_alter_ne, lookup_insert_ne, IH by done.
Qed.

Lemma lookup_assign_notin {V} (l : list (K * option V)) (m : gmap K V) k :
  k ∉ l.*1 → assign l m !! k = m !! k.
Proof.
  revert m. induction l as [|[i v] l IH]; intros m Hk; [done|].
  apply not_elem_of_cons in Hk as [Hne Hk]. unfold assign in *. simpl. rewrite IH by exact Hk.
  by apply lookup_partial_alter_ne.
Qed.

(** Values computed from the entries of a map. *)
Lemma lookup_collect_map {V W} (f : K → V → W) (m : gmap K V) k :
  btree_collect (map (λ '(i, v), (i, f i v)) (btree_iter m)) !! k = f k <$> m !! k.
Proof.
  assert (NoDup (map (λ '(i, v), (i, f i v)) (btree_iter m)).*1) as Hnd.
  { rewrite <- (list_fmap_compose (λ '(i, v), (i, f i v)) fst).
    erewrite list_fmap_ext; [exact (NoDup_btree_iter m)|]. by intros ? [i v] _. }
  apply option_eq. intros w. rewrite lookup_btree_collect by done.
  rewrite list_elem_of_fmap, fmap_Some. split.
  - intros ([i v] & [= <- ->] & Hin%elem_of_btree_iter). by exists v.
  - intros (v & Hv & ->). exists (k, v). split; [done|]. by apply elem_of_btree_iter.
Qed.
End Iteration.
