(* ===== verification/External.v ===== *)
(** * Third-party code the crates call

    One class per dependency, with what the crates rely on as fields: the
    BLAKE2b implementation, the Pallas base field, Poseidon, ZIP-316 unified
    addresses, Orchard viewing keys and serde_json.  No definition of these is
    made up here: the development is stated for every instance, and
    [Concrete] has the instances the witnesses run. *)

From S2P Require Import Prelude Bytes.

(** [blake2b_simd::Params::new().hash_length(n).personal(p).key(k).hash(input)].
    The digest has the requested length, so the [try_into().expect(..)] that
    follows each use in the crates does not fail. *)
Class Blake2b := {
  blake2b (hash_length : nat) (personal key input : list byte) : list byte;
  blake2b_length n p k i : length (blake2b n p k i) = n;
}.

(** [pasta_curves::pallas::Base]. *)
Class Pallas := {
  base : Type;
  base_eq_dec :: EqDecision base;
  base_zero : base;
  (** [Base::from(u64)] *)
  base_from_u64 : Z → base;
  (** [from_repr], which rejects non-canonical encodings, and [to_repr]. *)
  from_repr : list byte → option base;
  to_repr : base → list byte;
  (** [from_uniform_bytes] of 64 bytes. *)
  from_uniform_bytes : list byte → base;
  (** The modulus exceeds [2^64]. *)
  base_from_u64_inj a b :
    0 ≤ a ≤ u64_max → 0 ≤ b ≤ u64_max → base_from_u64 a = base_from_u64 b → a = b;
  to_repr_length x : length (to_repr x) = 32%nat;
  from_repr_to_repr x : from_repr (to_repr x) = Some x;
  to_repr_from_repr b x : from_repr b = Some x → to_repr x = b;
}.

(** [halo2_gadgets]' Poseidon [P128Pow5T3] hash of two field elements. *)
Class Poseidon `{Pallas} := {
  poseidon_hash : base → base → base;
}.

(** [zcash_address::unified::Address]: [decode] gives the network and the
    address; [encode] writes one back. *)
Class UnifiedAddress := {
  ua_network : Type;
  ua_address : Type;
  ua_decode : list byte → option (ua_network * ua_address);
  ua_encode : ua_address → ua_network → list byte;
}.

(** [orchard::keys::IncomingViewingKey]: [from_bytes] of [dk || ivk], and the
    43 raw bytes of [address_at(0)]. *)
Class OrchardKeys := {
  ivk_address : list byte → option (list byte);
}.

(** Every nonzero incoming viewing key has a default address. *)
Class OrchardKeysLaws `{Pallas} `{OrchardKeys} := {
  ivk_address_nonzero dk x :
    length dk = 32%nat → x ≠ base_zero → is_Some (ivk_address (dk ++ to_repr x));
}.

(** [serde_json::{to_vec, from_slice}] at a serializable type. *)
Class SerdeJson (A : Type) := {
  to_vec : A → option (list byte);
  from_slice : list byte → option A;
}.

(** What a snapshot relies on: serialization succeeds and is read back. *)
Class SerdeJsonLaws (A : Type) `{!SerdeJson A} := {
  from_slice_to_vec (a : A) : ∃ b, to_vec a = Some b ∧ from_slice b = Some a;
}.

(** [coppice::application::MAX_APPLICATION_PAYLOAD_LEN]. *)
Class CoppicePayload := {
  MAX_APPLICATION_PAYLOAD_LEN : Z;
}.

(** [coppice::identity] and [coppice::application]: runtime identifiers, and
    application identifiers derived from a nonempty identity. *)
Class CoppiceIdentity := {
  CoreRuntimeId : Type;
  CoreRuntimeId_eq_dec :: EqDecision CoreRuntimeId;
  (** [as_bytes], [to_bytes] *)
  runtime_id_bytes : CoreRuntimeId → list byte;
  runtime_id_length i : length (runtime_id_bytes i) = 32%nat;
  runtime_id_inj i j : runtime_id_bytes i = runtime_id_bytes j → i = j;
  ApplicationId : Type;
  ApplicationId_eq_dec :: EqDecision ApplicationId;
  application_id_bytes : ApplicationId → list byte;
  application_id_length i : length (application_id_bytes i) = 32%nat;
  (** [None] is an error. *)
  derive_application_id : list byte → option ApplicationId;
  derive_application_id_nonempty b : b ≠ [] → is_Some (derive_application_id b);
}.

(** [coppice::application], [coppice::transport] and [coppice::carrier]: envelopes
    of application messages, the frames that carry them, and the rendezvous they
    are sent to.  An envelope returns what it was built from, and its encoding is
    unambiguous. *)
Class CoppiceCarrier `{CoppiceIdentity} := {
  ApplicationKey : Type;
  ApplicationKey_eq_dec :: EqDecision ApplicationKey;
  application_key : ApplicationId → ApplicationKey;
  ApplicationEnvelope : Type;
  ApplicationEnvelopeError : Type;
  (** [ApplicationEnvelope::new], and its [key], [payload] and [encode]. *)
  envelope_new : ApplicationKey → list byte → ApplicationEnvelopeError + ApplicationEnvelope;
  envelope_key : ApplicationEnvelope → ApplicationKey;
  envelope_payload : ApplicationEnvelope → list byte;
  envelope_encode : ApplicationEnvelope → list byte;
  envelope_new_inr k p e : envelope_new k p = inr e → envelope_key e = k ∧ envelope_payload e = p;
  envelope_encode_inj e f : envelope_encode e = envelope_encode f → e = f;
  CarrierError : Type;
  (** [transport::encode_frames] of a runtime identifier and an envelope. *)
  encode_frames : list byte → list byte → CarrierError + list (list byte);
  CoreRendezvous : Type;
  RendezvousError : Type;
  (** [CoreRendezvous::try_new] of an incoming viewing key and a receiver. *)
  rendezvous_new : list byte → list byte → RendezvousError + CoreRendezvous;
  (** The error of a message that is not an envelope. *)
  EnvelopeParseError : Type;
}.

(** [coppice::runtime::ApplicationMessageStatus] *)
Inductive ApplicationMessageStatus `{CoppiceCarrier} :=
  | NotCandidate
  | NoMessage
  | MalformedTransport (error : CarrierError)
  | MalformedEnvelopeMessage (error : EnvelopeParseError)
  | Message (envelope : ApplicationEnvelope).

(** [coppice::replay], [coppice::identity] and [coppice::runtime]: authenticated
    transactions and blocks, by their accessors, and the inspection of a
    transaction at a rendezvous: the values of the frames routed there and the
    message they make up. *)
Class CoppiceReplay `{CoppiceCarrier} := {
  RuntimeParameters : Type;
  runtime_core_id : RuntimeParameters → CoreRuntimeId;
  (** [CoreRendezvous::from_validated] *)
  rendezvous_from_validated : RuntimeParameters → CoreRendezvous;
  FullTransaction : Type;
  inspect_transaction_at_rendezvous :
    FullTransaction → CoreRendezvous → CoreRuntimeId → list Z * ApplicationMessageStatus;
  CoreTransaction : Type;
  ct_nullifiers : CoreTransaction → list (list byte);
  ct_commitments : CoreTransaction → list (list byte);
  ct_tx_index : CoreTransaction → Z;
  ct_txid : CoreTransaction → list byte;
  (** [full_transaction_status().validated_full_transaction()] *)
  ct_full : CoreTransaction → option FullTransaction;
  (** [CoreBlockContext], with the tree size of its post-block checkpoint. *)
  CoreBlock : Type;
  cb_height : CoreBlock → Z;
  cb_hash : CoreBlock → list byte;
  cb_prev_hash : CoreBlock → list byte;
  cb_transactions : CoreBlock → list CoreTransaction;
  cb_tree_size : CoreBlock → Z;
  (** [CorePositionedBlockContext], with its pre-block tree size. *)
  CorePositionedBlock : Type;
  pb_height : CorePositionedBlock → Z;
  pb_hash : CorePositionedBlock → list byte;
  pb_prev_hash : CorePositionedBlock → list byte;
  pb_transactions : CorePositionedBlock → list CoreTransaction;
  pb_pre_tree_size : CorePositionedBlock → Z;
}.
