(* ===== verification/Protocol.v ===== *)
(** * Canonical protocol values ([crates/coppice-names/src/protocol.rs])

    Names, identifiers, commitments, field elements and unified addresses, each
    a newtype whose constructor validates; [NameRoute::derive]; the transaction
    and action positions. *)

From S2P Require Import Prelude Bytes BTree External.

Definition MAX_NAME_BYTES : Z := 63.
Definition MAX_UA_BYTES : Z := 1024.
Definition BOND_ZATOSHIS : Z := 100000000.

Inductive Network := Main | Test | Regtest.

#[global] Instance Network_eq_dec : EqDecision Network.
Proof. solve_decision. Defined.

Definition matches_hrp (self : Network) (address : list byte) : bool :=
  let hrp := match self with
             | Main => lit "u"
             | Test => lit "utest"
             | Regtest => lit "uregtest"
             end in
  match strip_prefix hrp address with
  | Some suffix => bool_decide (head suffix = head (lit "1"))
  | None => false
  end.

Inductive ValueError :=
  | InvalidName | InvalidField | ZeroField | InvalidUa | NonCanonicalUa
  | WrongNetwork | UaTooLong | HashToFieldExhausted.

#[global] Instance ValueError_eq_dec : EqDecision ValueError.
Proof. solve_decision. Defined.

(** ** Newtypes *)

Record Name := MkName { name_bytes : list byte }.
Record NameId := MkNameId { name_id_bytes : list byte }.
Record Commitment := MkCommitment { commitment_bytes : list byte }.
Record FieldElement := MkFieldElement { field_bytes : list byte }.
Record CanonicalUa := MkCanonicalUa { ua_bytes : list byte }.
Record NameRoute := MkNameRoute {
  incoming_viewing_key : list byte;
  receiver : list byte;
}.

Record CommitRef := MkCommitRef {
  cr_height : Z;
  cr_tx_index : Z;
  cr_txid : list byte;
}.

Record StateRef := MkStateRef {
  sr_height : Z;
  sr_tx_index : Z;
  sr_txid : list byte;
  sr_action_index : Z;
}.

#[global] Instance Name_eq_dec : EqDecision Name.
Proof. solve_decision. Defined.
#[global] Instance NameId_eq_dec : EqDecision NameId.
Proof. solve_decision. Defined.
#[global] Instance Commitment_eq_dec : EqDecision Commitment.
Proof. solve_decision. Defined.
#[global] Instance FieldElement_eq_dec : EqDecision FieldElement.
Proof. solve_decision. Defined.
#[global] Instance CanonicalUa_eq_dec : EqDecision CanonicalUa.
Proof. solve_decision. Defined.
#[global] Instance NameRoute_eq_dec : EqDecision NameRoute.
Proof. solve_decision. Defined.
#[global] Instance CommitRef_eq_dec : EqDecision CommitRef.
Proof. solve_decision. Defined.
#[global] Instance StateRef_eq_dec : EqDecision StateRef.
Proof. solve_decision. Defined.

(** Map keys: countable, and ordered as [#[derive(Ord)]] orders them. *)
#[global] Instance NameId_countable : Countable NameId :=
  inj_countable name_id_bytes (λ b, Some (MkNameId b)) ltac:(by intros []).

#[global] Instance CommitRef_countable : Countable CommitRef :=
  inj_countable (λ r, (cr_height r, cr_tx_index r, cr_txid r))
    (λ '(h, i, t), Some (MkCommitRef h i t)) ltac:(by intros []).

#[global] Instance NameId_ord : OrdKey NameId.
Proof.
  exists (λ i, map byte_val (name_id_bytes i)). intros [x] [y] Hxy. f_equal.
  by apply map_byte_val_inj.
Defined.

#[global] Instance CommitRef_ord : OrdKey CommitRef.
Proof.
  exists (λ r, cr_height r :: cr_tx_index r :: map byte_val (cr_txid r)).
  intros [h i t] [h' i' t'] [= -> -> Ht]. f_equal.
  by apply map_byte_val_inj.
Defined.

(** ** Names *)

Definition name_byte (b : byte) : bool :=
  is_ascii_lowercase b || is_ascii_digit b || bool_decide (Some b = head (lit "-")).

(** The condition of [Name::parse]'s early return. *)
Definition name_rejected (bare : list byte) : bool :=
  bool_decide (bare = [])
  || (MAX_NAME_BYTES <? Z.of_nat (length bare))
  || negb (is_ascii bare)
  || bool_decide (head bare = head (lit "-"))
  || bool_decide (last bare = head (lit "-"))
  || negb (forallb name_byte bare).

(** [Name::parse]: a bare name or one lowercase [.zec] suffix. *)
Definition Name_parse (value : list byte) : res ValueError Name :=
  let bare := default value (strip_suffix (lit ".zec") value) in
  if name_rejected bare then Err InvalidName else Ok (MkName bare).

Section Hashing.
Context `{Blake2b} `{Pallas}.

(** [canonical_field] *)
Definition canonical_field (b : list byte) : res ValueError base :=
  ok_or (from_repr b) InvalidField.

(** [wide_field], whose [assert!] bounds the personalization. *)
Definition wide_field {E : Type} (personalization input : list byte) : res E base :=
  if Z.of_nat (length personalization) <=? 16
  then Ok (from_uniform_bytes (blake2b 64 personalization [] input))
  else Panic.

(** The [for counter in 0..=u8::MAX] loop of [Name::id]. *)
Fixpoint Name_id_loop (self : Name) (counters : list Z) : res ValueError NameId :=
  match counters with
  | [] => Err HashToFieldExhausted
  | counter :: counters =>
      let? len := expect (u8_try_from (Z.of_nat (length (name_bytes self)))) in
      let input := byte_of len :: name_bytes self ++ [byte_of counter] in
      let? candidate := wide_field (lit "CoppiceNmName") input in
      if bool_decide (candidate ≠ base_zero)
      then Ok (MkNameId (to_repr candidate))
      else Name_id_loop self counters
  end.

(** [Name::id] *)
Definition Name_id (self : Name) : res ValueError NameId :=
  Name_id_loop self (seqZ 0 256).

(** [NameId::from_bytes], [Commitment::from_bytes]: canonical and nonzero. *)
Definition NameId_from_bytes (b : list byte) : res ValueError NameId :=
  let? field := canonical_field b in
  if bool_decide (field = base_zero) then Err ZeroField else Ok (MkNameId b).

Definition Commitment_from_bytes (b : list byte) : res ValueError Commitment :=
  let? field := canonical_field b in
  if bool_decide (field = base_zero) then Err ZeroField else Ok (MkCommitment b).

(** [FieldElement::from_bytes]: canonical, zero allowed. *)
Definition FieldElement_from_bytes (b : list byte) : res ValueError FieldElement :=
  let? _ := canonical_field b in Ok (MkFieldElement b).

(** The [field()] accessors, which [expect] a canonical encoding. *)
Definition NameId_field {E : Type} (self : NameId) : res E base :=
  expect (from_repr (name_id_bytes self)).
Definition Commitment_field {E : Type} (self : Commitment) : res E base :=
  expect (from_repr (commitment_bytes self)).
Definition FieldElement_field {E : Type} (self : FieldElement) : res E base :=
  expect (from_repr (field_bytes self)).
End Hashing.

Section Routes.
Context `{Blake2b} `{Pallas} `{OrchardKeys}.

Fixpoint NameRoute_derive_loop (common dk : list byte) (counters : list Z)
  : res ValueError NameRoute :=
  match counters with
  | [] => Err HashToFieldExhausted
  | counter :: counters =>
      let? ivk := wide_field (lit "CoppiceNmRteI") (common ++ [byte_of counter]) in
      if bool_decide (ivk = base_zero) then NameRoute_derive_loop common dk counters
      else
        let key := dk ++ to_repr ivk in
        let? address := expect (ivk_address key) in
        Ok (MkNameRoute key address)
  end.

(** [NameRoute::derive] *)
Definition NameRoute_derive (deployment_id : list byte) (name_id : NameId)
  : res ValueError NameRoute :=
  let common := deployment_id ++ name_id_bytes name_id in
  let dk := blake2b 32 (lit "CoppiceNmRteD") [] common in
  NameRoute_derive_loop common dk (seqZ 0 256).
End Routes.

Section Addresses.
Context `{UnifiedAddress}.

(** [CanonicalUa::parse] *)
Definition CanonicalUa_parse (network : Network) (value : list byte)
  : res ValueError CanonicalUa :=
  if bool_decide (value = []) || (MAX_UA_BYTES <? Z.of_nat (length value))
  then Err UaTooLong
  else if negb (matches_hrp network value) then Err WrongNetwork
  else
    let? (parsed_network, address) := ok_or (ua_decode value) InvalidUa in
    if bool_decide (ua_encode address parsed_network ≠ value)
    then Err NonCanonicalUa
    else Ok (MkCanonicalUa value).
End Addresses.

(** ** Properties *)

(** The grammar of section 2.1 of the specification. *)
Definition canonical_label (b : list byte) : Prop :=
  1 ≤ Z.of_nat (length b) ≤ MAX_NAME_BYTES
  ∧ (∀ x, x ∈ b → is_ascii_lowercase x ∨ is_ascii_digit x ∨ byte_val x = 45)
  ∧ (∀ x, head b = Some x → byte_val x ≠ 45)
  ∧ (∀ x, last b = Some x → byte_val x ≠ 45).

(** A value a [Name] can hold: [parse] is the only constructor. *)
Definition Name_ok (n : Name) : Prop := canonical_label (name_bytes n).

Lemma name_byte_spec b :
  name_byte b = true ↔ is_ascii_lowercase b ∨ is_ascii_digit b ∨ byte_val b = 45.
Proof.
  unfold name_byte. rewrite !orb_true_iff, bool_decide_eq_true, !Is_true_true.
  assert (Some b = head (lit "-") ↔ byte_val b = 45) as ->; [|tauto].
  change (head (lit "-")) with (Some (byte_of 45)). split.
  - by intros [= ->].
  - intros H. f_equal. apply byte_val_inj. done.
Qed.

Lemma name_byte_range b : name_byte b = true → 45 ≤ byte_val b ≤ 122 ∧ byte_val b ≠ 46.
Proof.
  rewrite name_byte_spec. unfold is_ascii_lowercase, is_ascii_digit.
  rewrite !Is_true_true, !andb_true_iff, !Z.leb_le. lia.
Qed.

Lemma canonical_label_bytes b : canonical_label b → forallb name_byte b = true.
Proof.
  intros (_ & Hin & _). apply forallb_forall. intros x Hx.
  apply name_byte_spec, Hin. by apply list_elem_of_In.
Qed.

(** No canonical label holds a dot, so none ends with [.zec]. *)
Lemma canonical_label_no_suffix b : canonical_label b → strip_suffix (lit ".zec") b = None.
Proof.
  intros Hb. apply (strip_suffix_not_in _ _ (byte_of 46)); [vm_compute; left|].
  intros Hin. apply canonical_label_bytes in Hb. rewrite forallb_forall in Hb.
  apply list_elem_of_In, Hb, name_byte_range in Hin. vm_compute in Hin. naive_solver.
Qed.

Lemma Name_parse_guard b :
  name_rejected b = false ↔ canonical_label b.
Proof.
  unfold name_rejected. change (head (lit "-")) with (Some (byte_of 45)).
  rewrite !orb_false_iff, !bool_decide_eq_false, !negb_false_iff, Z.ltb_ge.
  split.
  - intros (((((Hne & Hlen) & _) & Hh) & Hl) & Hall). repeat split.
    + destruct b; [done|simpl; lia].
    + done.
    + intros x Hx. rewrite forallb_forall in Hall.
      by apply name_byte_spec, Hall, list_elem_of_In.
    + intros x Hx H45. apply Hh. rewrite Hx. f_equal. by apply byte_val_inj.
    + intros x Hx H45. apply Hl. rewrite Hx. f_equal. by apply byte_val_inj.
  - intros Hc. pose proof (canonical_label_bytes b Hc) as Hall.
    destruct Hc as ((H1 & H63) & _ & Hh & Hl). repeat split; try done.
    + intros ->. simpl in H1. lia.
    + apply forallb_forall. intros x Hx. rewrite forallb_forall in Hall.
      apply Hall, name_byte_range in Hx. apply Z.ltb_lt. lia.
    + intros Hx. by apply (Hh _ Hx).
    + intros Hx. by apply (Hl _ Hx).
Qed.

Lemma Name_parse_bare b : canonical_label b → Name_parse b = Ok (MkName b).
Proof.
  intros Hb. unfold Name_parse. rewrite canonical_label_no_suffix by done. simpl.
  apply Name_parse_guard in Hb. by rewrite Hb.
Qed.

Lemma Name_parse_Ok value n :
  Name_parse value = Ok n ↔
    canonical_label (name_bytes n)
    ∧ (value = name_bytes n ∨ value = name_bytes n ++ lit ".zec").
Proof.
  split.
  - unfold Name_parse. destruct (strip_suffix (lit ".zec") value) as [bare|] eqn:E; simpl.
    + apply strip_suffix_Some in E as ->. destruct (name_rejected _) eqn:G; [done|].
      intros [= <-]. apply Name_parse_guard in G. simpl. auto.
    + destruct (name_rejected _) eqn:G; [done|]. intros [= <-]. apply Name_parse_guard in G. simpl. auto.
  - destruct n as [b]. simpl. intros [Hb [-> | ->]]; [by apply Name_parse_bare|].
    unfold Name_parse. rewrite (proj2 (strip_suffix_Some _ _ b) eq_refl). simpl.
    apply Name_parse_guard in Hb. by rewrite Hb.
Qed.

Lemma Name_parse_ok value n : Name_parse value = Ok n → Name_ok n.
Proof. intros H. by apply Name_parse_Ok in H as [? _]. Qed.

Lemma Name_parse_name n : Name_ok n → Name_parse (name_bytes n) = Ok n.
Proof. destruct n. apply Name_parse_bare. Qed.

Lemma Name_parse_no_panic value : Name_parse value ≠ Panic.
Proof. unfold Name_parse. by destruct (name_rejected _). Qed.

(** Positions of a chain. *)
Definition CommitRef_ok (r : CommitRef) : Prop :=
  is_u32 (cr_height r) ∧ is_u32 (cr_tx_index r) ∧ length (cr_txid r) = 32%nat.
Definition StateRef_ok (r : StateRef) : Prop :=
  is_u32 (sr_height r) ∧ is_u32 (sr_tx_index r) ∧ length (sr_txid r) = 32%nat
  ∧ is_u32 (sr_action_index r).

Section HashingFacts.
Context `{Blake2b} `{Pallas}.

Lemma NameId_from_bytes_Ok b i :
  NameId_from_bytes b = Ok i ↔
    ∃ x, from_repr b = Some x ∧ x ≠ base_zero ∧ i = MkNameId b.
Proof.
  unfold NameId_from_bytes, canonical_field. destruct (from_repr b) as [x|]; simpl; [|naive_solver].
  case_bool_decide; naive_solver.
Qed.

Lemma Commitment_from_bytes_Ok b c :
  Commitment_from_bytes b = Ok c ↔
    ∃ x, from_repr b = Some x ∧ x ≠ base_zero ∧ c = MkCommitment b.
Proof.
  unfold Commitment_from_bytes, canonical_field. destruct (from_repr b) as [x|]; simpl; [|naive_solver].
  case_bool_decide; naive_solver.
Qed.

Lemma FieldElement_from_bytes_Ok b f :
  FieldElement_from_bytes b = Ok f ↔ is_Some (from_repr b) ∧ f = MkFieldElement b.
Proof.
  unfold FieldElement_from_bytes, canonical_field, is_Some.
  destruct (from_repr b) as [x|]; simpl; naive_solver.
Qed.

Lemma from_repr_length b x : from_repr b = Some x → length b = 32%nat.
Proof. intros Hb. apply to_repr_from_repr in Hb as <-. apply to_repr_length. Qed.

(** Values of the validated newtypes. *)
Definition NameId_ok (i : NameId) : Prop := NameId_from_bytes (name_id_bytes i) = Ok i.
Definition Commitment_ok (c : Commitment) : Prop :=
  Commitment_from_bytes (commitment_bytes c) = Ok c.
Definition FieldElement_ok (f : FieldElement) : Prop :=
  FieldElement_from_bytes (field_bytes f) = Ok f.

Lemma NameId_ok_length i : NameId_ok i → length (name_id_bytes i) = 32%nat.
Proof. intros (x & Hx & _)%NameId_from_bytes_Ok. by eapply from_repr_length. Qed.
Lemma Commitment_ok_length c : Commitment_ok c → length (commitment_bytes c) = 32%nat.
Proof. intros (x & Hx & _)%Commitment_from_bytes_Ok. by eapply from_repr_length. Qed.
Lemma FieldElement_ok_length f : FieldElement_ok f → length (field_bytes f) = 32%nat.
Proof. intros [(x & Hx) _]%FieldElement_from_bytes_Ok. by eapply from_repr_length. Qed.

Lemma wide_field_short {E} p input :
  Z.of_nat (length p) ≤ 16 →
  wide_field (E := E) p input = Ok (from_uniform_bytes (blake2b 64 p [] input)).
Proof. intros Hp. unfold wide_field. by rewrite (proj2 (Z.leb_le _ _) Hp). Qed.

Lemma Name_id_loop_Ok n l i :
  Name_id_loop n l = Ok i → ∃ x, x ≠ base_zero ∧ i = MkNameId (to_repr x).
Proof.
  induction l as [|c l IH]; cbn [Name_id_loop]; [done|]. intros Hr.
  inv_res. case_bool_decide; [|by apply IH]. inv_res. eauto.
Qed.

Lemma Name_id_ok n i : Name_id n = Ok i → NameId_ok i.
Proof.
  intros (x & Hx & ->)%Name_id_loop_Ok. apply NameId_from_bytes_Ok. simpl.
  exists x. by rewrite from_repr_to_repr.
Qed.

Lemma Name_id_no_panic n : Name_ok n → Name_id n ≠ Panic.
Proof.
  intros ((_ & Hlen) & _). unfold Name_id. induction (seqZ 0 256) as [|c l IH];
    cbn [Name_id_loop]; [done|].
  unfold u8_try_from, u8_max, MAX_NAME_BYTES in *.
  destruct (Z.leb_spec (Z.of_nat (length (name_bytes n))) 255); [|lia].
  cbn [expect res_bind]. rewrite wide_field_short by (vm_compute; done). cbn [res_bind].
  by case_bool_decide.
Qed.

Lemma NameRoute_derive_no_panic `{!OrchardKeys} `{!OrchardKeysLaws} deployment_id name_id :
  NameRoute_derive deployment_id name_id ≠ Panic.
Proof.
  unfold NameRoute_derive. cbv zeta. pose proof (blake2b_length 32 (lit "CoppiceNmRteD") []
    (deployment_id ++ name_id_bytes name_id)) as Hl. revert Hl.
  generalize (blake2b 32 (lit "CoppiceNmRteD") [] (deployment_id ++ name_id_bytes name_id)).
  intros dk Hl. induction (seqZ 0 256) as [|c l IH]; cbn [NameRoute_derive_loop]; [done|].
  rewrite wide_field_short by (vm_compute; done). cbn [res_bind].
  case_bool_decide as Hz; [done|]. destruct (ivk_address_nonzero dk _ Hl Hz) as [a Ha].
  by rewrite Ha.
Qed.
End HashingFacts.

Section AddressFacts.
Context `{UnifiedAddress}.

Lemma CanonicalUa_parse_Ok network value ua :
  CanonicalUa_parse network value = Ok ua ↔
    1 ≤ Z.of_nat (length value) ≤ MAX_UA_BYTES
    ∧ matches_hrp network value = true
    ∧ (∃ net a, ua_decode value = Some (net, a) ∧ ua_encode a net = value)
    ∧ ua = MkCanonicalUa value.
Proof.
  unfold CanonicalUa_parse. destruct (bool_decide (value = []) || _) eqn:G.
  { split; [done|]. intros ((H1 & H2) & _). exfalso. apply orb_true_iff in G as [G|G].
    - apply bool_decide_eq_true in G as ->. simpl in H1. lia.
    - apply Z.ltb_lt in G. lia. }
  apply orb_false_iff in G as [G1 G2]. apply bool_decide_eq_false in G1. apply Z.ltb_ge in G2.
  assert (1 ≤ Z.of_nat (length value)) as Hl by (destruct value; [done|simpl; lia]).
  destruct (matches_hrp network value); simpl; [|naive_solver].
  destruct (ua_decode value) as [[net a]|]; simpl; [|naive_solver].
  case_bool_decide; naive_solver.
Qed.

(** A value a [CanonicalUa] of the network can hold. *)
Definition CanonicalUa_ok (network : Network) (ua : CanonicalUa) : Prop :=
  CanonicalUa_parse network (ua_bytes ua) = Ok ua.

Lemma CanonicalUa_parse_ok network value ua :
  CanonicalUa_parse network value = Ok ua → CanonicalUa_ok network ua ∧ ua_bytes ua = value.
Proof.
  intros Hp. pose proof Hp as (_ & _ & _ & ->)%CanonicalUa_parse_Ok. split; [exact Hp|done].
Qed.

Lemma CanonicalUa_ok_length network ua :
  CanonicalUa_ok network ua → 1 ≤ Z.of_nat (length (ua_bytes ua)) ≤ MAX_UA_BYTES.
Proof. by intros (? & _)%CanonicalUa_parse_Ok. Qed.
End AddressFacts.

#[export] Hint Resolve Name_parse_ok Name_id_ok NameId_ok_length Commitment_ok_length
  FieldElement_ok_length : names.
