(* ===== verification/Concrete.v ===== *)
(** * Concrete instances of the third-party classes

    What the witnesses and examples run: BLAKE2b as RFC 7693 defines it (with
    key and personalization), the Pallas base field with its canonical
    little-endian encoding, and simple functions in the place of the Poseidon
    permutation, ZIP-316 decoding and Orchard key derivation. Nothing in the
    theorems depends on this file. *)

From Stdlib Require Import Uint63.
From S2P Require Import Prelude Bytes External.

(** ** BLAKE2b *)

Module Blake2bRef.

(** A 64-bit word, by its two 32-bit halves. *)
Record word := W { hi : int; lo : int }.

Definition low (x : int) : int := PrimInt63.land x 0xffffffff.
Definition add (x y : word) : word :=
  let l := PrimInt63.add (lo x) (lo y) in
  W (low (PrimInt63.add (PrimInt63.add (hi x) (hi y)) (PrimInt63.lsr l 32))) (low l).
Definition xor (x y : word) : word := W (PrimInt63.lxor (hi x) (hi y)) (PrimInt63.lxor (lo x) (lo y)).

(** Rotation to the right by less than 32 bits, and by 32 and more. *)
Definition rotate (n : int) (x : word) : word :=
  let m := PrimInt63.sub 32 n in
  W (PrimInt63.lor (PrimInt63.lsr (hi x) n) (low (PrimInt63.lsl (lo x) m)))
    (PrimInt63.lor (PrimInt63.lsr (lo x) n) (low (PrimInt63.lsl (hi x) m))).
Definition swap (x : word) : word := W (lo x) (hi x).

Definition word_of (z : Z) : word := W (of_Z (z / 2 ^ 32 mod 2 ^ 32)) (of_Z (z mod 2 ^ 32)).
Definition word_val (x : word) : Z := to_Z (hi x) * 2 ^ 32 + to_Z (lo x).

Definition IV : list word := Eval vm_compute in map word_of
  [0x6a09e667f3bcc908; 0xbb67ae8584caa73b; 0x3c6ef372fe94f82b; 0xa54ff53a5f1d36f1;
   0x510e527fade682d1; 0x9b05688c2b3e6c1f; 0x1f83d9abfb41bd6b; 0x5be0cd19137e2179].

Definition SIGMA : list (list nat) :=
  [[0;1;2;3;4;5;6;7;8;9;10;11;12;13;14;15];
   [14;10;4;8;9;15;13;6;1;12;0;2;11;7;5;3];
   [11;8;12;0;5;2;15;13;10;14;3;6;7;1;9;4];
   [7;9;3;1;13;12;11;14;2;6;5;10;4;0;15;8];
   [9;0;5;7;2;4;10;15;14;1;11;12;6;8;3;13];
   [2;12;6;10;0;11;8;3;4;13;7;5;15;14;1;9];
   [12;5;1;15;14;13;4;10;0;7;6;3;9;2;8;11];
   [13;11;7;14;12;1;3;9;5;0;15;4;8;6;2;10];
   [6;15;14;9;11;3;0;8;12;2;13;7;1;4;10;5];
   [10;2;8;4;7;6;1;5;15;11;9;14;3;12;13;0];
   [0;1;2;3;4;5;6;7;8;9;10;11;12;13;14;15];
   [14;10;4;8;9;15;13;6;1;12;0;2;11;7;5;3]]%nat.

(** The mixing function on one column: [a], [b], [c], [d] and two message words. *)
Definition mix (a b c d x y : word) : word * word * word * word :=
  let a := add (add a b) x in
  let d := swap (xor d a) in
  let c := add c d in
  let b := rotate 24 (xor b c) in
  let a := add (add a b) y in
  let d := rotate 16 (xor d a) in
  let c := add c d in
  let b := rotate 31 (swap (xor b c)) in
  (a, b, c, d).

(** The working vector by its four rows; a column step mixes the columns. *)
Definition rows : Type := list word * list word * list word * list word.

Fixpoint columns (m : list word) (s : list nat) (a b c d : list word) : rows :=
  match s, a, b, c, d with
  | i :: j :: s, wa :: a, wb :: b, wc :: c, wd :: d =>
      let at_ k := nth k m (W 0 0) in
      let '(wa, wb, wc, wd) := mix wa wb wc wd (at_ i) (at_ j) in
      let '(a, b, c, d) := columns m s a b c d in
      (wa :: a, wb :: b, wc :: c, wd :: d)
  | _, _, _, _, _ => ([], [], [], [])
  end.

Definition turn (n : nat) (l : list word) : list word := drop n l ++ take n l.

(** A round: the columns, then the diagonals. *)
Definition round (m : list word) (v : rows) (s : list nat) : rows :=
  let '(a, b, c, d) := v in
  let '(a, b, c, d) := columns m (take 8 s) a b c d in
  let '(a, b, c, d) := columns m (drop 8 s) a (turn 1 b) (turn 2 c) (turn 3 d) in
  (a, turn 3 b, turn 2 c, turn 1 d).

Fixpoint words (n : nat) (l : list byte) : list word :=
  match n with
  | O => []
  | S n => word_of (le_val (take 8 l)) :: words n (drop 8 l)
  end.

Definition pad (n : nat) (l : list byte) : list byte :=
  take n (l ++ repeat x00 n).

Definition compress (h : list word) (block : list byte) (t : Z) (final : bool) : list word :=
  let m := words 16 (pad 128 block) in
  let flags := [word_of t; W 0 0; if final then W 0xffffffff 0xffffffff else W 0 0; W 0 0] in
  let '(a, b, c, d) := fold_left (round m) SIGMA
    (take 4 h, drop 4 h, take 4 IV, zip_with xor (drop 4 IV) flags) in
  zip_with xor h (zip_with xor (a ++ b) (c ++ d)).

(** [fuel] blocks are enough for an input of at most [128 * fuel] bytes. *)
Fixpoint absorb (fuel : nat) (h : list word) (t : Z) (l : list byte) : list word :=
  match fuel with
  | O => h
  | S fuel =>
      if (length l <=? 128)%nat then compress h l (t + Z.of_nat (length l)) true
      else absorb fuel (compress h (take 128 l) (t + 128) false) (t + 128) (drop 128 l)
  end.

Fixpoint le_bytes (n : nat) (z : Z) : list byte :=
  match n with
  | O => []
  | S n => byte_of z :: le_bytes n (z / 256)
  end.

Definition hash (n : nat) (personal key input : list byte) : list byte :=
  let parameters :=
    byte_of (Z.of_nat n) :: byte_of (Z.of_nat (length key)) :: x01 :: x01
      :: repeat x00 44 ++ pad 16 personal in
  let h := zip_with xor IV (words 8 parameters) in
  let data := (if bool_decide (key = []) then [] else pad 128 key) ++ input in
  let h := absorb (S (length data)) h 0 data in
  pad n (flat_map (λ x, le_bytes 8 (word_val x)) h).

Lemma length_le_bytes n z : length (le_bytes n z) = n.
Proof. revert z; induction n; simpl; congruence. Qed.

Lemma length_pad n l : length (pad n l) = n.
Proof. unfold pad. rewrite length_take, length_app, repeat_length. lia. Qed.

Lemma le_val_le_bytes n z : le_val (le_bytes n z) = z mod 256 ^ Z.of_nat n.
Proof.
  revert z; induction n as [|n IH]; intros z; cbn [le_val le_bytes]; [by rewrite Z.mod_1_r|].
  rewrite IH, byte_val_of, Nat2Z.inj_succ, Z.pow_succ_r, Z.rem_mul_r by lia. done.
Qed.

Lemma le_bytes_le_val l : le_bytes (length l) (le_val l) = l.
Proof.
  induction l as [|b l IH]; cbn [le_val le_bytes length]; [done|].
  pose proof (byte_val_range b). f_equal.
  - apply byte_val_inj. rewrite byte_val_of, Z.mul_comm, Z.mod_add, Z.mod_small by lia. done.
  - rewrite Z.mul_comm, Z.div_add, Z.div_small by lia. apply IH.
Qed.

Lemma le_val_range l : 0 ≤ le_val l < 256 ^ Z.of_nat (length l).
Proof.
  induction l as [|b l IH]; cbn [le_val length]; [lia|].
  pose proof (byte_val_range b). rewrite Nat2Z.inj_succ, Z.pow_succ_r by lia. nia.
Qed.
End Blake2bRef.

#[export] Instance blake2b_ref : Blake2b := {|
  blake2b := Blake2bRef.hash;
  blake2b_length n p k i := Blake2bRef.length_pad n _ |}.

(** ** The Pallas base field *)

Module PallasRef.
Import Blake2bRef.

Definition modulus : Z :=
  0x40000000000000000000000000000000224698fc094cf91b992d30ed00000001.

Definition elt : Type := dsig (λ z, 0 ≤ z < modulus).

Definition reduce (z : Z) : elt :=
  dexist (z mod modulus) (Z.mod_pos_bound z modulus eq_refl).

Lemma reduce_inj a b :
  0 ≤ a ≤ u64_max → 0 ≤ b ≤ u64_max → reduce a = reduce b → a = b.
Proof.
  intros Ha Hb E. apply (f_equal proj1_sig) in E. cbn [proj1_sig reduce dexist] in E.
  assert (u64_max < modulus) by by vm_compute.
  rewrite !Z.mod_small in E by lia. done.
Qed.

Definition decode (b : list byte) : option elt :=
  if bool_decide (length b = 32%nat) then
    match decide (0 ≤ le_val b < modulus) with
    | left H => Some (dexist (le_val b) H)
    | right _ => None
    end
  else None.

Definition encode (x : elt) : list byte := le_bytes 32 (proj1_sig x).

Lemma decode_encode x : decode (encode x) = Some x.
Proof.
  destruct x as [z Hz]. unfold decode, encode. simpl proj1_sig.
  rewrite bool_decide_true by apply length_le_bytes.
  assert (0 ≤ z < modulus) as Hr by (by apply bool_decide_unpack in Hz).
  assert (le_val (le_bytes 32 z) = z) as Hv.
  { rewrite le_val_le_bytes. apply Z.mod_small. split; [lia|].
    etrans; [apply Hr|]. vm_compute. done. }
  destruct (decide _) as [H|H].
  - f_equal. apply dsig_eq. simpl. done.
  - exfalso. apply H. by rewrite Hv.
Qed.

Lemma encode_decode b x : decode b = Some x → encode x = b.
Proof.
  unfold decode. case_bool_decide as Hl; [|done]. destruct (decide _); [|done].
  intros [= <-]. unfold encode. simpl proj1_sig. rewrite <- Hl. apply le_bytes_le_val.
Qed.
End PallasRef.

#[export] Instance pallas_ref : Pallas := {|
  base := PallasRef.elt;
  base_zero := PallasRef.reduce 0;
  base_from_u64 := PallasRef.reduce;
  from_repr := PallasRef.decode;
  to_repr := PallasRef.encode;
  from_uniform_bytes b := PallasRef.reduce (le_val b);
  base_from_u64_inj := PallasRef.reduce_inj;
  to_repr_length x := Blake2bRef.length_le_bytes 32 _;
  from_repr_to_repr := PallasRef.decode_encode;
  to_repr_from_repr := PallasRef.encode_decode |}.

#[export] Instance poseidon_ref : Poseidon := {|
  poseidon_hash x y := PallasRef.reduce (5 * proj1_sig x * proj1_sig x + 3 * proj1_sig y + 1) |}.

(** Any nonempty string decodes to itself on its own network. *)
#[export] Instance ua_ref : UnifiedAddress := {|
  ua_network := unit;
  ua_address := list byte;
  ua_decode b := Some (tt, b);
  ua_encode a _ := a |}.

#[export] Instance orchard_ref : OrchardKeys := {|
  ivk_address key := Some (take 43 key) |}.

#[export] Instance orchard_ref_laws : OrchardKeysLaws.
Proof. split. intros. by eexists. Defined.

(** Hexadecimal literals. *)
Definition hex_digit (b : byte) : Z :=
  let z := byte_val b in if z <? 58 then z - 48 else z - 87.
Fixpoint hex_decode (l : list byte) : list byte :=
  match l with
  | a :: b :: l => byte_of (16 * hex_digit a + hex_digit b) :: hex_decode l
  | _ => []
  end.
Definition hex (s : string) : list byte := hex_decode (lit s).

(** The test vector of RFC 7693, appendix A. *)
Example blake2b_abc : blake2b 64 [] [] (lit "abc") = hex (
  "ba80a53f981c4d0d6a2797b69f12f6e94c212f14685ac4b74b12bb6fdbffa2d1" +:+
  "7d87c5392aab792dc252d5de4533cc9518d38aa8dbf1925ab92386edd4009923").
Proof. vm_compute. reflexivity. Qed.

#[export] Instance payload_ref : CoppicePayload := {| MAX_APPLICATION_PAYLOAD_LEN := 16384 |}.

(** ** A serializer for every countable type, in the place of [serde_json] *)

Module CountableJson.
Fixpoint write (p : positive) : list byte :=
  match p with
  | xH => []
  | xO p => x00 :: write p
  | xI p => x01 :: write p
  end.

Fixpoint read (b : list byte) : positive :=
  match b with
  | [] => xH
  | x :: b => if bool_decide (x = x00) then xO (read b) else xI (read b)
  end.

Lemma read_write p : read (write p) = p.
Proof. induction p as [p IH|p IH|]; simpl; [by rewrite IH..|done]. Qed.
End CountableJson.

Section CountableJson.
Context {A : Type} `{Countable A}.

Definition countable_json : SerdeJson A := {|
  to_vec a := Some (CountableJson.write (encode a));
  from_slice b := decode (CountableJson.read b) |}.

Lemma countable_json_laws : @SerdeJsonLaws A countable_json.
Proof.
  split. intros a. exists (CountableJson.write (encode a)). split; [done|].
  simpl. by rewrite CountableJson.read_write, decode_encode.
Qed.
End CountableJson.

(** ** The Coppice carrier

    Identifiers are 32-byte strings, an envelope is its key and payload, and a
    full transaction is what each rendezvous receives of it. *)

Module CarrierRef.
Definition bytes32 : Type := dsig (λ b : list byte, length b = 32%nat).
Definition application (identity : list byte) : bytes32 :=
  dexist (blake2b 32 (lit "CoppiceAppId") [] identity) (blake2b_length 32 _ _ _).

Lemma bytes32_inj (i j : bytes32) : proj1_sig i = proj1_sig j → i = j.
Proof. apply dsig_eq. Qed.

Lemma encode_inj (e f : bytes32 * list byte) :
  proj1_sig e.1 ++ e.2 = proj1_sig f.1 ++ f.2 → e = f.
Proof.
  destruct e as [[i Hi] p], f as [[j Hj] q]. cbn. intros Eq.
  pose proof (bool_decide_unpack _ Hi) as Li. pose proof (bool_decide_unpack _ Hj) as Lj. cbn in Li, Lj.
  apply app_inj_length in Eq as [E ->]; [|congruence]. f_equal. by apply bytes32_inj.
Qed.

Record Tx (Full : Type) := MkTx {
  tx_nullifiers : list (list byte);
  tx_commitments : list (list byte);
  tx_index : Z;
  tx_id : list byte;
  tx_full : option Full;
}.
Record Blk (T : Type) := MkBlk {
  blk_height : Z;
  blk_hash : list byte;
  blk_prev : list byte;
  blk_txs : list T;
  blk_size : Z;
}.
Arguments MkTx {Full}.
Arguments tx_nullifiers {Full}.
Arguments tx_commitments {Full}.
Arguments tx_index {Full}.
Arguments tx_id {Full}.
Arguments tx_full {Full}.
Arguments MkBlk {T}.
Arguments blk_height {T}.
Arguments blk_hash {T}.
Arguments blk_prev {T}.
Arguments blk_txs {T}.
Arguments blk_size {T}.
End CarrierRef.

#[export] Instance identity_ref : CoppiceIdentity := {|
  CoreRuntimeId := CarrierRef.bytes32;
  runtime_id_bytes := proj1_sig;
  runtime_id_length i := bool_decide_unpack _ (proj2_sig i);
  runtime_id_inj := CarrierRef.bytes32_inj;
  ApplicationId := CarrierRef.bytes32;
  application_id_bytes := proj1_sig;
  application_id_length i := bool_decide_unpack _ (proj2_sig i);
  derive_application_id b := Some (CarrierRef.application b);
  derive_application_id_nonempty b _ := ex_intro _ _ eq_refl |}.

#[export] Instance carrier_ref : CoppiceCarrier.
Proof.
  refine {|
    ApplicationKey := CarrierRef.bytes32;
    application_key i := i;
    ApplicationEnvelope := CarrierRef.bytes32 * list byte;
    ApplicationEnvelopeError := unit;
    envelope_new k p := inr (k, p);
    envelope_key := fst;
    envelope_payload := snd;
    envelope_encode e := proj1_sig e.1 ++ e.2;
    envelope_encode_inj := CarrierRef.encode_inj;
    CarrierError := unit;
    encode_frames runtime b := inr [runtime ++ b];
    CoreRendezvous := list byte;
    RendezvousError := unit;
    rendezvous_new ivk address := inr (ivk ++ address);
    EnvelopeParseError := unit |}.
  by intros k p e [= <-].
Defined.

#[export] Instance replay_ref : CoppiceReplay := {|
  RuntimeParameters := CarrierRef.bytes32;
  runtime_core_id i := i;
  rendezvous_from_validated i := proj1_sig i;
  FullTransaction := list (list byte * (list Z * ApplicationMessageStatus));
  inspect_transaction_at_rendezvous full rendezvous _ :=
    match list_find (λ m, m.1 = rendezvous) full with
    | Some (_, (_, m)) => m
    | None => ([], NotCandidate)
    end;
  CoreTransaction := CarrierRef.Tx (list (list byte * (list Z * ApplicationMessageStatus)));
  ct_nullifiers := CarrierRef.tx_nullifiers;
  ct_commitments := CarrierRef.tx_commitments;
  ct_tx_index := CarrierRef.tx_index;
  ct_txid := CarrierRef.tx_id;
  ct_full := CarrierRef.tx_full;
  CoreBlock := CarrierRef.Blk _;
  cb_height := CarrierRef.blk_height;
  cb_hash := CarrierRef.blk_hash;
  cb_prev_hash := CarrierRef.blk_prev;
  cb_transactions := CarrierRef.blk_txs;
  cb_tree_size := CarrierRef.blk_size;
  CorePositionedBlock := CarrierRef.Blk _;
  pb_height := CarrierRef.blk_height;
  pb_hash := CarrierRef.blk_hash;
  pb_prev_hash := CarrierRef.blk_prev;
  pb_transactions := CarrierRef.blk_txs;
  pb_pre_tree_size := CarrierRef.blk_size |}.
