(* ===== verification/Schedule.v ===== *)
(** * Height schedule and lifecycle arithmetic ([crates/coppice-names/src/schedule.rs])

    Deployment timing, the deterministic per-name operation windows and the
    checked lease arithmetic. *)

From S2P Require Import Prelude Bytes External Protocol Concrete.

Record Parameters := MkParameters {
  deployment_id : list byte;
  activation_height : Z;
  epoch_blocks : Z;
  window_blocks : Z;
  commit_maturity_blocks : Z;
  commit_ttl_blocks : Z;
  lease_blocks : Z;
  cooldown_blocks : Z;
}.

Record Window := MkWindow { w_start : Z; w_end : Z }.

Inductive ScheduleError := InvalidParameters | InvalidRange | BeforeActivation | Overflow.

#[global] Instance Parameters_eq_dec : EqDecision Parameters.
Proof. solve_decision. Defined.
#[global] Instance Window_eq_dec : EqDecision Window.
Proof. solve_decision. Defined.
#[global] Instance ScheduleError_eq_dec : EqDecision ScheduleError.
Proof. solve_decision. Defined.

(** [Parameters::candidate], [Parameters::regtest] *)
Definition candidate (deployment_id : list byte) (activation_height : Z) : Parameters :=
  {| deployment_id := deployment_id;
     activation_height := activation_height;
     epoch_blocks := 1152;
     window_blocks := 24;
     commit_maturity_blocks := 24;
     commit_ttl_blocks := 192;
     lease_blocks := 250000;
     cooldown_blocks := 1152 |}.

Definition regtest (deployment_id : list byte) (activation_height : Z) : Parameters :=
  {| deployment_id := deployment_id;
     activation_height := activation_height;
     epoch_blocks := 32;
     window_blocks := 4;
     commit_maturity_blocks := 4;
     commit_ttl_blocks := 24;
     lease_blocks := 128;
     cooldown_blocks := 32 |}.

(** [Parameters::validate] *)
Definition validate (self : Parameters) : res ScheduleError Parameters :=
  if (window_blocks self =? 0)
     || (commit_maturity_blocks self <? window_blocks self)
     || (commit_ttl_blocks self <=? commit_maturity_blocks self)
     || (epoch_blocks self <=? commit_ttl_blocks self)
     || (lease_blocks self <=? epoch_blocks self)
     || negb (cooldown_blocks self =? epoch_blocks self)
  then Err InvalidParameters
  else Ok self.

(** [Window::contains] *)
Definition contains (self : Window) (height : Z) : bool :=
  (w_start self <=? height) && (height <? w_end self).

(** [Parameters::epoch]; the division panics on a zero epoch length. *)
Definition epoch (self : Parameters) (height : Z) : res ScheduleError Z :=
  if height <? activation_height self then Err BeforeActivation
  else if epoch_blocks self =? 0 then Panic
  else Ok ((height - activation_height self) / epoch_blocks self).

Section Windows.
Context `{Blake2b}.

(** [Parameters::offset]; its unsigned arithmetic is checked. *)
Definition offset {E : Type} (self : Parameters) (name_id : NameId) : res E Z :=
  let input := deployment_id self ++ name_id_bytes name_id in
  let digest := blake2b 32 (lit "CoppiceNmOff") [] input in
  let value := le_val (take 8 digest) in
  let? span := expect (u32_checked_sub (epoch_blocks self) (window_blocks self)) in
  let? span := expect (u32_checked_add span 1) in
  expect (u32_try_from (value mod span)).

(** [Parameters::window] *)
Definition window (self : Parameters) (name_id : NameId) (epoch : Z)
  : res ScheduleError Window :=
  let? _ := validate self in
  let? epoch_offset := ok_or (u32_checked_mul epoch (epoch_blocks self)) Overflow in
  let? epoch_start :=
    ok_or (u32_checked_add (activation_height self) epoch_offset) Overflow in
  let? off := offset self name_id in
  let? start := ok_or (u32_checked_add epoch_start off) Overflow in
  let? end_ := ok_or (u32_checked_add start (window_blocks self)) Overflow in
  Ok (MkWindow start end_).

(** [Parameters::accepts_operation] *)
Definition accepts_operation {E : Type} (self : Parameters) (name_id : NameId) (height : Z)
  : res E bool :=
  match (let? e := epoch self height in window self name_id e) with
  | Ok w => Ok (contains w height)
  | Err _ => Ok false
  | Panic => Panic
  end.

(** The loop body of [Parameters::operation_windows_descending]: [windows]
    grows by the clipped window of one epoch. *)
Definition push_clipped (self : Parameters) (name_id : NameId) (effective_start end_ : Z)
  (windows : list Window) (e : Z) : res ScheduleError (list Window) :=
  let? w := window self name_id e in
  let clipped := MkWindow (Z.max (w_start w) effective_start) (Z.min (w_end w) end_) in
  if w_start clipped <? w_end clipped then Ok (windows ++ [clipped]) else Ok windows.

Definition operation_windows_descending (self : Parameters) (name_id : NameId)
  (start end_ : Z) : res ScheduleError (list Window) :=
  let? _ := validate self in
  if end_ <=? start then Err InvalidRange
  else
    let effective_start := Z.max start (activation_height self) in
    if end_ <=? effective_start then Ok []
    else
      let? first_epoch := epoch self effective_start in
      let? last_epoch := epoch self (end_ - 1) in
      res_fold (push_clipped self name_id effective_start end_) []
        (reverse (seqZ first_epoch (last_epoch - first_epoch + 1))).
End Windows.

(** [Parameters::accepts_commit] *)
Definition accepts_commit (self : Parameters) (commit_height reveal_height : Z) : bool :=
  if (commit_height <? activation_height self) || (reveal_height <? commit_height) then false
  else
    let age := reveal_height - commit_height in
    (commit_maturity_blocks self <=? age) && (age <? commit_ttl_blocks self).

(** [Parameters::expiry], [Parameters::claimable] *)
Definition expiry (self : Parameters) (producer_height : Z) : res ScheduleError Z :=
  ok_or (u32_checked_add producer_height (lease_blocks self)) Overflow.
Definition claimable (self : Parameters) (terminal_height : Z) : res ScheduleError Z :=
  ok_or (u32_checked_add terminal_height (cooldown_blocks self)) Overflow.

(** ** Properties *)

(** The inequalities of section 3.1 of the specification, and the type of the
    fields. *)
Record Parameters_ok (p : Parameters) : Prop := {
  ok_activation : is_u32 (activation_height p);
  ok_lease_u32 : lease_blocks p ≤ u32_max;
  ok_window : 0 < window_blocks p;
  ok_maturity : window_blocks p ≤ commit_maturity_blocks p;
  ok_ttl : commit_maturity_blocks p < commit_ttl_blocks p;
  ok_epoch : commit_ttl_blocks p < epoch_blocks p;
  ok_lease : epoch_blocks p < lease_blocks p;
  ok_cooldown : cooldown_blocks p = epoch_blocks p;
}.

(** The fields are [u32]. *)
Definition Parameters_typed (p : Parameters) : Prop :=
  is_u32 (activation_height p) ∧ is_u32 (epoch_blocks p) ∧ is_u32 (window_blocks p)
  ∧ is_u32 (commit_maturity_blocks p) ∧ is_u32 (commit_ttl_blocks p)
  ∧ is_u32 (lease_blocks p) ∧ is_u32 (cooldown_blocks p).

Lemma validate_Ok p q :
  Parameters_typed p → validate p = Ok q ↔ q = p ∧ Parameters_ok p.
Proof.
  unfold Parameters_typed, is_u32. intros Ht. unfold validate.
  destruct (_ || _) eqn:G.
  - split; [done|]. intros [-> []]. rewrite !orb_true_iff, negb_true_iff in G.
    rewrite !Z.leb_le, Z.ltb_lt, Z.eqb_eq, Z.eqb_neq in G. lia.
  - rewrite !orb_false_iff, negb_false_iff in G.
    rewrite !Z.leb_gt, Z.ltb_ge, Z.eqb_eq, Z.eqb_neq in G.
    split; [|by intros [-> _]]. intros [= <-]. split; [done|]. constructor; unfold is_u32; lia.
Qed.

(** Validation of well-formed parameters. *)
Lemma validate_ok p : Parameters_ok p → validate p = Ok p.
Proof.
  intros []. unfold validate.
  replace (_ || _) with false; [done|]. symmetry.
  rewrite !orb_false_iff, negb_false_iff, !Z.leb_gt, Z.ltb_ge, Z.eqb_eq, Z.eqb_neq. lia.
Qed.

Lemma epoch_Ok p h e :
  Parameters_ok p →
  epoch p h = Ok e ↔
    activation_height p ≤ h
    ∧ activation_height p + e * epoch_blocks p ≤ h < activation_height p + (e + 1) * epoch_blocks p.
Proof.
  intros []. unfold epoch. destruct (Z.ltb_spec h (activation_height p)).
  { split; [done|]. intros [? _]. lia. }
  destruct (Z.eqb_spec (epoch_blocks p) 0); [lia|]. split.
  - intros [= <-]. split; [done|].
    pose proof (Z.div_mod (h - activation_height p) (epoch_blocks p) ltac:(lia)).
    pose proof (Z.mod_pos_bound (h - activation_height p) (epoch_blocks p) ltac:(lia)). lia.
  - intros [_ ?]. f_equal. symmetry. eapply (Z.div_unique _ _ _ (h - activation_height p - e * epoch_blocks p)); lia.
Qed.

Lemma epoch_total p h :
  Parameters_ok p → activation_height p ≤ h →
  epoch p h = Ok ((h - activation_height p) / epoch_blocks p).
Proof.
  intros [] Hh. unfold epoch. destruct (Z.ltb_spec h (activation_height p)); [lia|].
  destruct (Z.eqb_spec (epoch_blocks p) 0); [lia|done].
Qed.

Section WindowFacts.
Context `{Blake2b}.

(** The value [offset] computes for well-formed parameters. *)
Definition offset_value (p : Parameters) (i : NameId) : Z :=
  le_val (take 8 (blake2b 32 (lit "CoppiceNmOff") [] (deployment_id p ++ name_id_bytes i)))
    mod (epoch_blocks p - window_blocks p + 1).

Lemma offset_ok {E} p i :
  Parameters_ok p → offset (E := E) p i = Ok (offset_value p i)
    ∧ 0 ≤ offset_value p i ≤ epoch_blocks p - window_blocks p.
Proof.
  intros []. unfold offset, offset_value, u32_checked_sub, u32_checked_add, u32_try_from.
  destruct (Z.leb_spec (window_blocks p) (epoch_blocks p)); [|lia]. simpl.
  destruct (Z.leb_spec (epoch_blocks p - window_blocks p + 1) u32_max); [|lia]. simpl.
  set (d := le_val _).
  pose proof (Z.mod_pos_bound d (epoch_blocks p - window_blocks p + 1) ltac:(lia)).
  destruct (Z.leb_spec (d mod (epoch_blocks p - window_blocks p + 1)) u32_max); [|lia].
  simpl. split; [done|lia].
Qed.

Definition window_start (p : Parameters) (i : NameId) (e : Z) : Z :=
  activation_height p + e * epoch_blocks p + offset_value p i.

(** [window] is the interval of the specification, unless its end is beyond
    [u32]. *)
Lemma window_Ok p i e w :
  Parameters_ok p → 0 ≤ e →
  window p i e = Ok w ↔
    w = MkWindow (window_start p i e) (window_start p i e + window_blocks p)
    ∧ window_start p i e + window_blocks p ≤ u32_max.
Proof.
  intros Hp He. destruct (offset_ok (E := ScheduleError) p i Hp) as [Ho Hr].
  unfold window, window_start. rewrite validate_ok by done. cbn [res_bind].
  pose proof (ok_activation _ Hp) as [??]. destruct Hp.
  unfold u32_checked_mul, u32_checked_add.
  destruct (Z.leb_spec (e * epoch_blocks p) u32_max); cbn [ok_or res_bind];
    [|split; [done|intros [_ ?]; lia]].
  destruct (Z.leb_spec (activation_height p + e * epoch_blocks p) u32_max); cbn [ok_or res_bind];
    [|split; [done|intros [_ ?]; lia]].
  rewrite Ho. cbn [res_bind].
  destruct (Z.leb_spec (activation_height p + e * epoch_blocks p + offset_value p i) u32_max);
    cbn [ok_or res_bind]; [|split; [done|intros [_ ?]; lia]].
  destruct (Z.leb_spec (activation_height p + e * epoch_blocks p + offset_value p i + window_blocks p) u32_max);
    cbn [ok_or res_bind]; [|split; [done|intros [_ ?]; lia]].
  split; [intros [= <-]; auto|]. by intros [-> _].
Qed.

Lemma window_no_panic p i e : Parameters_ok p → window p i e ≠ Panic.
Proof.
  intros Hp. destruct (offset_ok (E := ScheduleError) p i Hp) as [Ho _].
  unfold window. rewrite validate_ok by done. cbn [res_bind].
  destruct (u32_checked_mul _ _); [|done]. cbn [ok_or res_bind].
  destruct (u32_checked_add _ _); [|done]. cbn [ok_or res_bind]. rewrite Ho. cbn [res_bind].
  destruct (u32_checked_add _ _); [|done]. cbn [ok_or res_bind].
  by destruct (u32_checked_add _ _).
Qed.

(** What [accepts_operation] decides: membership in the window of the
    height's own epoch. *)
Definition accepts_b (p : Parameters) (i : NameId) (h : Z) : bool :=
  match accepts_operation (E := unit) p i h with Ok b => b | _ => false end.

Lemma accepts_operation_total {E} p i h :
  Parameters_ok p → accepts_operation (E := E) p i h = Ok (accepts_b p i h).
Proof.
  intros Hp. unfold accepts_b, accepts_operation. unfold epoch.
  destruct (h <? activation_height p); [done|].
  destruct (Z.eqb_spec (epoch_blocks p) 0); [destruct Hp; lia|]. simpl.
  pose proof (window_no_panic p i ((h - activation_height p) / epoch_blocks p) Hp) as Hw.
  by destruct (window _ _ _).
Qed.

Lemma accepts_b_spec p i h :
  Parameters_ok p →
  accepts_b p i h = true ↔
    ∃ e, 0 ≤ e ∧ window_start p i e ≤ h < window_start p i e + window_blocks p
      ∧ window_start p i e + window_blocks p ≤ u32_max.
Proof.
  intros Hp. unfold accepts_b, accepts_operation. destruct (offset_ok (E := unit) p i Hp) as [_ Hr].
  assert (∀ e, window_start p i e ≤ h < window_start p i e + window_blocks p →
    0 ≤ e → epoch p h = Ok e) as Hone.
  { intros e He H0. apply epoch_Ok; [done|]. unfold window_start in He. destruct Hp. nia. }
  split.
  - destruct (epoch p h) as [e|?|] eqn:Ee; simpl; [|done..].
    assert (0 ≤ e) as He0.
    { apply epoch_Ok in Ee as (? & ?); [|done]. destruct Hp. nia. }
    destruct (window p i e) as [w|?|] eqn:Ew; simpl; [|done..].
    apply window_Ok in Ew as [-> Hmax]; [|done..].
    unfold contains. simpl. rewrite andb_true_iff, Z.leb_le, Z.ltb_lt. eauto.
  - intros (e & He0 & He & Hmax). rewrite (Hone e He He0). simpl.
    rewrite (proj2 (window_Ok p i e _ Hp He0) (conj eq_refl Hmax)).
    unfold contains. simpl. rewrite andb_true_iff, Z.leb_le, Z.ltb_lt. done.
Qed.
End WindowFacts.

(** A window lies inside its epoch. *)
Lemma window_in_epoch `{Blake2b} p i e :
  Parameters_ok p →
  activation_height p + e * epoch_blocks p ≤ window_start p i e
  ∧ window_start p i e + window_blocks p ≤ activation_height p + (e + 1) * epoch_blocks p.
Proof.
  intros Hp. destruct (offset_ok (E := unit) p i Hp) as [_ Hr]. unfold window_start.
  rewrite Z.mul_add_distr_r. lia.
Qed.

Lemma accepts_commit_spec p c r :
  accepts_commit p c r = true ↔
    activation_height p ≤ c ∧ c ≤ r
    ∧ commit_maturity_blocks p ≤ r - c < commit_ttl_blocks p.
Proof.
  unfold accepts_commit. destruct (_ || _) eqn:G.
  - split; [done|]. rewrite orb_true_iff, !Z.ltb_lt in G. lia.
  - rewrite orb_false_iff, !Z.ltb_ge in G. rewrite andb_true_iff, Z.leb_le, Z.ltb_lt. lia.
Qed.

Lemma expiry_Ok p h e :
  expiry p h = Ok e ↔ e = h + lease_blocks p ∧ h + lease_blocks p ≤ u32_max.
Proof. unfold expiry. by rewrite ok_or_Ok, u32_checked_add_Some. Qed.

#[export] Hint Resolve validate_ok : names.

(** ** The acquisition windows of a range *)

Section Descending.
Context `{Blake2b}.
Context (p : Parameters) (i : NameId) (Hp : Parameters_ok p).

Definition clip (s t e : Z) : Window :=
  MkWindow (Z.max (window_start p i e) s) (Z.min (window_start p i e + window_blocks p) t).

(** The windows of a list of epochs, clipped and without the empty ones. *)
Definition clipped_windows (s t : Z) (l : list Z) : list Window :=
  filter (λ w, w_start w < w_end w) (map (clip s t) l).

Lemma push_clipped_fold s t l acc :
  (∀ e, e ∈ l → 0 ≤ e ∧ window_start p i e + window_blocks p ≤ u32_max) →
  res_fold (push_clipped p i s t) acc l = Ok (acc ++ clipped_windows s t l).
Proof.
  revert acc. induction l as [|e l IH]; intros acc Hl; cbn [res_fold].
  - unfold clipped_windows. simpl. by rewrite app_nil_r.
  - destruct (Hl e ltac:(left)) as [He Hmax].
    unfold push_clipped at 1. rewrite (proj2 (window_Ok p i e _ Hp He) (conj eq_refl Hmax)).
    cbn [res_bind w_start w_end]. unfold clipped_windows in *. rewrite map_cons.
    change (MkWindow _ _) with (clip s t e).
    destruct (Z.ltb_spec (Z.max (window_start p i e) s)
      (Z.min (window_start p i e + window_blocks p) t)); cbn [res_bind].
    + rewrite filter_cons_True by done. rewrite IH by (intros; apply Hl; by right).
      by rewrite <- app_assoc.
    + rewrite filter_cons_False by (simpl; lia). apply IH. intros; apply Hl; by right.
Qed.

(** Later epochs have later windows, disjoint from the earlier ones. *)
Lemma window_start_mono a b :
  a < b → window_start p i a + window_blocks p ≤ window_start p i b.
Proof.
  intros Hab. destruct (offset_ok (E := unit) p i Hp) as [_ Hr].
  unfold window_start. destruct Hp. nia.
Qed.

Lemma clipped_windows_sorted s t a n :
  StronglySorted (λ v w, w_end w ≤ w_start v) (clipped_windows s t (reverse (seqZ a n))).
Proof.
  unfold clipped_windows.
  destruct (decide (0 ≤ n)) as [Hn|Hn]; [|by rewrite seqZ_nil by lia; constructor].
  revert n Hn. apply natlike_ind.
  - constructor.
  - intros n Hn IH. rewrite <- Z.add_1_r, seqZ_app by lia.
    rewrite (seqZ_cons (a + n) 1), (seqZ_nil _ (Z.pred 1)) by lia.
    rewrite reverse_snoc, map_cons.
    destruct (decide (w_start (clip s t (a + n)) < w_end (clip s t (a + n)))).
    + rewrite filter_cons_True by done. constructor; [done|].
      apply Forall_forall. intros w [_ Hw]%list_elem_of_filter.
      apply list_elem_of_fmap in Hw as (e & -> & He).
      rewrite elem_of_reverse, elem_of_seqZ in He.
      pose proof (window_start_mono e (a + n)). simpl. lia.
    + by rewrite filter_cons_False.
Qed.

Lemma elem_of_clipped_windows s t l w :
  w ∈ clipped_windows s t l ↔ ∃ e, e ∈ l ∧ w = clip s t e ∧ w_start w < w_end w.
Proof.
  unfold clipped_windows. rewrite list_elem_of_filter, list_elem_of_fmap. naive_solver.
Qed.
End Descending.

(** C37: the windows handed to a resolver are exactly the accepted heights of the
    range, newest first and disjoint; the call returns whenever the windows of
    the range are representable. *)
Lemma operation_windows_exact `{Blake2b} (p : Parameters) (i : NameId) (s t : Z) :
  Parameters_ok p → 0 ≤ s < t →
  activation_height p + (t - activation_height p + epoch_blocks p) ≤ u32_max →
  ∃ ws, operation_windows_descending p i s t = Ok ws
    ∧ (∀ h, (∃ w, w ∈ ws ∧ contains w h = true)
            ↔ s ≤ h < t ∧ accepts_operation (E := ScheduleError) p i h = Ok true)
    ∧ StronglySorted (λ v w, w_end w ≤ w_start v) ws.
Proof.
  intros Hp Hst Hmax. unfold operation_windows_descending.
  rewrite validate_ok by done. cbn [res_bind].
  destruct (Z.leb_spec t s); [lia|].
  pose proof (λ e, window_in_epoch p i e Hp) as Hin_epoch.
  pose proof (ok_activation _ Hp) as [Ha _].
  pose proof (ok_window _ Hp). pose proof (ok_maturity _ Hp).
  pose proof (ok_ttl _ Hp). pose proof (ok_epoch _ Hp).
  destruct (Z.leb_spec t (Z.max s (activation_height p))) as [Ht|Ht].
  { exists []. split; [done|]. split; [|constructor]. intros h.
    rewrite accepts_operation_total by done. split; [intros (w & Hw & _); set_solver|].
    intros [Hh [= (e & He & ? & ?)%accepts_b_spec]]; [|done].
    specialize (Hin_epoch e). pose proof (Z.mul_nonneg_nonneg e (epoch_blocks p)). lia. }
  rewrite !epoch_total by (done || lia). cbn [res_bind].
  set (A := activation_height p) in *. set (E := epoch_blocks p) in *.
  set (m := Z.max s A) in *.
  pose proof (Z.div_mod (t - 1 - A) E ltac:(lia)).
  pose proof (Z.mod_pos_bound (t - 1 - A) E ltac:(lia)).
  assert (0 ≤ (m - A) / E) by (apply Z.div_pos; lia).
  set (fst_e := (m - A) / E) in *. set (lst := (t - 1 - A) / E) in *.
  rewrite (push_clipped_fold p i Hp).
  2:{ intros e [? ?]%elem_of_reverse%elem_of_seqZ. split; [lia|].
      specialize (Hin_epoch e). pose proof (Z.mul_le_mono_nonneg_r (e + 1) (lst + 1) E). lia. }
  eexists. split; [done|]. split; [|by apply clipped_windows_sorted].
  intros h. rewrite accepts_operation_total by done. simpl. split.
  - intros (w & (e & [? ?]%elem_of_reverse%elem_of_seqZ & -> & Hw)%elem_of_clipped_windows & Hc).
    unfold contains, clip in *. simpl in *. rewrite andb_true_iff, Z.leb_le, Z.ltb_lt in Hc.
    split; [lia|]. f_equal. apply accepts_b_spec; [done|]. exists e.
    specialize (Hin_epoch e). pose proof (Z.mul_le_mono_nonneg_r (e + 1) (lst + 1) E). lia.
  - intros [Hh [= (e & He & Hin & Hm)%accepts_b_spec]]; [|done].
    specialize (Hin_epoch e). pose proof (Z.mul_nonneg_nonneg e E).
    exists (clip p i m t e). unfold contains, clip. simpl.
    rewrite andb_true_iff, Z.leb_le, Z.ltb_lt.
    split; [|lia]. apply elem_of_clipped_windows. exists e.
    rewrite elem_of_reverse, elem_of_seqZ. simpl.
    split; [|split; [done|lia]].
    assert (fst_e < e + 1) by (apply Z.div_lt_upper_bound; lia).
    assert (e ≤ lst) by (apply Z.div_le_lower_bound; lia). lia.
Qed.

(** C36: a head produced in its window meets its window of the next epoch before the
    lease ends, if that window is representable. *)
Lemma refresh_opportunity `{Blake2b} (p : Parameters) (i : NameId) (h e x : Z) :
  Parameters_ok p → accepts_operation (E := ScheduleError) p i h = Ok true →
  epoch p h = Ok e → expiry p h = Ok x → h + 2 * epoch_blocks p ≤ u32_max →
  ∃ r, h < r < x ∧ epoch p r = Ok (e + 1)
    ∧ accepts_operation (E := ScheduleError) p i r = Ok true.
Proof.
  intros Hp Hacc He [-> Hx]%expiry_Ok Hmax.
  rewrite accepts_operation_total in Hacc by done. injection Hacc as Hacc.
  apply accepts_b_spec in Hacc as (e' & He' & Hin & _); [|done].
  destruct (offset_ok (E := unit) p i Hp) as [_ Ho].
  apply epoch_Ok in He as (Hah & He); [|done].
  assert (e' = e) as ->.
  { unfold window_start in Hin. destruct Hp. nia. }
  exists (window_start p i (e + 1)). rewrite accepts_operation_total by done.
  assert (window_start p i (e + 1) = window_start p i e + epoch_blocks p) as Hs
    by (unfold window_start; lia).
  split; [destruct Hp; lia|]. split.
  - apply epoch_Ok; [done|]. unfold window_start. destruct Hp. nia.
  - f_equal. apply accepts_b_spec; [done|]. exists (e + 1). destruct Hp. lia.
Qed.

(** ** Instances *)

Module ScheduleSamples.
Definition params : Parameters := regtest (repeat x0f 32) 100.
Definition id : NameId := MkNameId (repeat x01 32).

Lemma sample_params_ok : Parameters_ok params.
Proof. constructor; by vm_compute. Qed.
End ScheduleSamples.

Lemma operation_windows_exact_witness :
  ∃ ws, operation_windows_descending ScheduleSamples.params ScheduleSamples.id 100 200 = Ok ws
    ∧ (∀ h, (∃ w, w ∈ ws ∧ contains w h = true)
            ↔ 100 ≤ h < 200
              ∧ accepts_operation (E := ScheduleError) ScheduleSamples.params ScheduleSamples.id h = Ok true)
    ∧ StronglySorted (λ v w, w_end w ≤ w_start v) ws.
Proof.
  apply (operation_windows_exact ScheduleSamples.params ScheduleSamples.id 100 200);
    [apply ScheduleSamples.sample_params_ok|lia|by vm_compute].
Defined.

Lemma refresh_opportunity_witness :
  ∃ r, 112 < r < 240 ∧ epoch ScheduleSamples.params r = Ok (0 + 1)
    ∧ accepts_operation (E := ScheduleError) ScheduleSamples.params ScheduleSamples.id r = Ok true.
Proof.
  apply (refresh_opportunity ScheduleSamples.params ScheduleSamples.id 112 0 240);
    [apply ScheduleSamples.sample_params_ok|by vm_compute..].
Defined.
