(* ===== verification/Codec.v ===== *)
(** * The wire codec ([crates/coppice-names/src/codec.rs])

    Operations, [encode], and [decode] as a parser over the remaining bytes. *)

From S2P Require Import Prelude Bytes External Protocol Concrete.

Definition COMMIT_TAG : Z := 0.
Definition REVEAL_TAG : Z := 1.
Definition REFRESH_TAG : Z := 2.
Definition MAX_REVEAL_PROOF_BYTES : Z := 14890.
Definition MAX_REFRESH_PROOF_BYTES : Z := 14886.

Record CodecParameters := MkCodecParameters {
  reveal_proof_bytes : Z;
  refresh_proof_bytes : Z;
}.

Inductive Operation :=
  | Commit (commitment : Commitment)
  | Reveal (name : Name) (commit : CommitRef) (ua : CanonicalUa) (action_index : Z)
      (successor_future_nf : FieldElement) (proof : list byte)
  | Refresh (name : Name) (predecessor : StateRef) (ua : CanonicalUa) (action_index : Z)
      (successor_future_nf : FieldElement) (proof : list byte).

#[global] Instance Operation_eq_dec : EqDecision Operation.
Proof. solve_decision. Defined.

Inductive CodecError :=
  | InvalidTag | Truncated | TrailingBytes | CodecInvalidName | CodecInvalidUa
  | CodecInvalidField | InvalidProofLength | TooLarge.

#[global] Instance CodecError_eq_dec : EqDecision CodecError.
Proof. solve_decision. Defined.

(** [CodecParameters::validate] *)
Definition CodecParameters_validate (self : CodecParameters) : res CodecError CodecParameters :=
  if (MAX_REVEAL_PROOF_BYTES <? reveal_proof_bytes self)
     || (MAX_REFRESH_PROOF_BYTES <? refresh_proof_bytes self)
  then Err TooLarge
  else Ok self.

(** ** Encoding *)

Definition encode_name (out : list byte) (name : Name) : res CodecError (list byte) :=
  let? len := expect (u8_try_from (Z.of_nat (length (name_bytes name)))) in
  Ok (out ++ [byte_of len] ++ name_bytes name).

Definition encode_ua (out : list byte) (ua : CanonicalUa) : res CodecError (list byte) :=
  let? len := ok_or (u16_try_from (Z.of_nat (length (ua_bytes ua)))) CodecInvalidUa in
  Ok (out ++ u16_be len ++ ua_bytes ua).

Section Encode.
Context `{CoppicePayload}.

(** The [match] of [encode], before the final size check. *)
Definition encode_body (operation : Operation) (parameters : CodecParameters)
  : res CodecError (list byte) :=
  match operation with
  | Commit commitment => Ok ([byte_of COMMIT_TAG] ++ commitment_bytes commitment)
  | Reveal name commit ua action_index successor_future_nf proof =>
      let? _ := ensure (bool_decide (Z.of_nat (length proof) = reveal_proof_bytes parameters))
                  InvalidProofLength in
      let? out := encode_name [byte_of REVEAL_TAG] name in
      let out := out ++ u32_be (cr_height commit) ++ u32_be (cr_tx_index commit)
                     ++ cr_txid commit in
      let? out := encode_ua out ua in
      Ok (out ++ u32_be action_index ++ field_bytes successor_future_nf ++ proof)
  | Refresh name predecessor ua action_index successor_future_nf proof =>
      let? _ := ensure (bool_decide (Z.of_nat (length proof) = refresh_proof_bytes parameters))
                  InvalidProofLength in
      let? out := encode_name [byte_of REFRESH_TAG] name in
      let out := out ++ u32_be (sr_height predecessor) ++ u32_be (sr_tx_index predecessor)
                     ++ sr_txid predecessor ++ u32_be (sr_action_index predecessor) in
      let? out := encode_ua out ua in
      Ok (out ++ u32_be action_index ++ field_bytes successor_future_nf ++ proof)
  end.

Definition encode (operation : Operation) (parameters : CodecParameters)
  : res CodecError (list byte) :=
  let? _ := CodecParameters_validate parameters in
  let? out := encode_body operation parameters in
  if MAX_APPLICATION_PAYLOAD_LEN <? Z.of_nat (length out) then Err TooLarge else Ok out.
End Encode.

(** ** Decoding *)

(** The state of a [Decoder] is its [remaining] slice. *)
Definition Decoder (A : Type) : Type := M (list byte) CodecError A.

(** [Decoder::bytes], and [Decoder::take] of an array. *)
Definition dec_bytes (length_ : Z) : Decoder (list byte) := λ remaining,
  if Z.of_nat (length remaining) <? length_ then (Err Truncated, remaining)
  else (Ok (take (Z.to_nat length_) remaining), drop (Z.to_nat length_) remaining).

Definition dec_u8 : Decoder Z := let! b := dec_bytes 1 in mret (be_val b).
Definition dec_u16 : Decoder Z := let! b := dec_bytes 2 in mret (be_val b).
Definition dec_u32 : Decoder Z := let! b := dec_bytes 4 in mret (be_val b).

(** [core::str::from_utf8(..).map_err(|_| e)?] *)
Definition from_utf8 (e : CodecError) (b : list byte) : res CodecError (list byte) :=
  let? _ := ensure (utf8_valid b) e in Ok b.

Definition dec_name : Decoder Name :=
  let! length_ := dec_u8 in
  let! raw := dec_bytes length_ in
  let! value := mlift (from_utf8 CodecInvalidName raw) in
  mlift (map_err (λ _, CodecInvalidName) (Name_parse value)).

Definition dec_proof (length_ : Z) : Decoder (list byte) := λ remaining,
  if Z.of_nat (length remaining) <? length_ then (Err InvalidProofLength, remaining)
  else dec_bytes length_ remaining.

Section Decode.
Context `{Pallas} `{UnifiedAddress}.

Definition dec_ua (network : Network) : Decoder CanonicalUa :=
  let! length_ := dec_u16 in
  let! raw := dec_bytes length_ in
  let! value := mlift (from_utf8 CodecInvalidUa raw) in
  mlift (map_err (λ _, CodecInvalidUa) (CanonicalUa_parse network value)).

Definition dec_field : Decoder FieldElement :=
  let! b := dec_bytes 32 in
  mlift (map_err (λ _, CodecInvalidField) (FieldElement_from_bytes b)).

Definition dec_commit_ref : Decoder CommitRef :=
  let! height := dec_u32 in
  let! tx_index := dec_u32 in
  let! txid := dec_bytes 32 in
  mret (MkCommitRef height tx_index txid).

Definition dec_state_ref : Decoder StateRef :=
  let! height := dec_u32 in
  let! tx_index := dec_u32 in
  let! txid := dec_bytes 32 in
  let! action_index := dec_u32 in
  mret (MkStateRef height tx_index txid action_index).

(** The arms of the [match] of [decode]. *)
Definition decode_tagged (network : Network) (parameters : CodecParameters) (tag : Z)
  : Decoder Operation :=
  if tag =? COMMIT_TAG then
    let! b := dec_bytes 32 in
    let! commitment := mlift (map_err (λ _, CodecInvalidField) (Commitment_from_bytes b)) in
    mret (Commit commitment)
  else if tag =? REVEAL_TAG then
    let! name := dec_name in
    let! commit := dec_commit_ref in
    let! ua := dec_ua network in
    let! action_index := dec_u32 in
    let! successor_future_nf := dec_field in
    let! proof := dec_proof (reveal_proof_bytes parameters) in
    mret (Reveal name commit ua action_index successor_future_nf proof)
  else if tag =? REFRESH_TAG then
    let! name := dec_name in
    let! predecessor := dec_state_ref in
    let! ua := dec_ua network in
    let! action_index := dec_u32 in
    let! successor_future_nf := dec_field in
    let! proof := dec_proof (refresh_proof_bytes parameters) in
    mret (Refresh name predecessor ua action_index successor_future_nf proof)
  else mfail InvalidTag.

(** [match input.u8()? { .. }] *)
Definition decode_operation (network : Network) (parameters : CodecParameters)
  : Decoder Operation :=
  let! tag := dec_u8 in decode_tagged network parameters tag.

Definition decode (b : list byte) (network : Network) (parameters : CodecParameters)
  : res CodecError Operation :=
  let? _ := CodecParameters_validate parameters in
  match decode_operation network parameters b with
  | (Ok operation, remaining) =>
      if bool_decide (remaining = []) then Ok operation else Err TrailingBytes
  | (Err e, _) => Err e
  | (Panic, _) => Panic
  end.
End Decode.

(** ** Properties *)

Create HintDb codec.

Section OperationOk.
Context `{Pallas} `{UnifiedAddress}.

Definition Operation_ok (network : Network) (op : Operation) : Prop :=
  match op with
  | Commit c => Commitment_ok c
  | Reveal name commit ua action_index nf proof =>
      Name_ok name ∧ CommitRef_ok commit ∧ CanonicalUa_ok network ua
      ∧ utf8_valid (ua_bytes ua) = true ∧ is_u32 action_index ∧ FieldElement_ok nf
  | Refresh name predecessor ua action_index nf proof =>
      Name_ok name ∧ StateRef_ok predecessor ∧ CanonicalUa_ok network ua
      ∧ utf8_valid (ua_bytes ua) = true ∧ is_u32 action_index ∧ FieldElement_ok nf
  end.
End OperationOk.

Lemma length_nat_byte z : 0 ≤ z → z ≤ u8_max → be_val [byte_of z] = z.
Proof.
  intros. change (be_val [byte_of z]) with (byte_val (byte_of z) * 256 ^ 0 + 0).
  rewrite byte_val_of, Z.mod_small by (unfold u8_max in *; lia). lia.
Qed.

(** The operation with a suffix left on its name field. *)
Definition add_suffix (sfx : list byte) (op : Operation) : Operation :=
  match op with
  | Commit c => Commit c
  | Reveal name commit ua action_index nf proof =>
      Reveal (MkName (name_bytes name ++ sfx)) commit ua action_index nf proof
  | Refresh name predecessor ua action_index nf proof =>
      Refresh (MkName (name_bytes name ++ sfx)) predecessor ua action_index nf proof
  end.

(** [b] spells [op]: its encoding, with or without [.zec] on the name. *)
Definition encodes (params : CodecParameters) (op : Operation) (b : list byte) : Prop :=
  ∃ sfx, (sfx = [] ∨ sfx = lit ".zec") ∧ encode_body (add_suffix sfx op) params = Ok b.

Lemma add_suffix_nil op : add_suffix [] op = op.
Proof. destruct op as [|[] ?????|[] ?????]; simpl; by rewrite ?app_nil_r. Qed.

(** *** What a parser reads back *)

(** [reads d b a]: [d] reads exactly [b] and gives [a]. *)
Definition reads {A : Type} (d : Decoder A) (b : list byte) (a : A) : Prop :=
  ∀ rest, d (b ++ rest) = (Ok a, rest).

Lemma reads_bind {A B} (d : Decoder A) (k : A → Decoder B) b c a x :
  reads d b a → reads (k a) c x → reads (sbind d k) (b ++ c) x.
Proof. intros Hd Hk rest. unfold sbind. by rewrite <- app_assoc, Hd, Hk. Qed.

Lemma reads_bind_nil {A B} (d : Decoder A) (k : A → Decoder B) b a x :
  reads d [] a → reads (k a) b x → reads (sbind d k) b x.
Proof. intros Hd Hk. apply (reads_bind d k [] b a x); done. Qed.

Lemma reads_bind_ret {A B} (d : Decoder A) (k : A → Decoder B) b a x :
  reads d b a → reads (k a) [] x → reads (sbind d k) b x.
Proof. intros Hd Hk. rewrite <- (app_nil_r b). by eapply reads_bind. Qed.

Lemma reads_ret {A} (a : A) : reads (mret a) [] a.
Proof. by intros rest. Qed.

Lemma reads_lift {A} (m : res CodecError A) a : m = Ok a → reads (mlift m) [] a.
Proof. intros ->. by intros rest. Qed.

Lemma reads_bytes b n : Z.of_nat (length b) = n → reads (dec_bytes n) b b.
Proof.
  intros <- rest. unfold dec_bytes. rewrite length_app.
  destruct (Z.ltb_spec (Z.of_nat (length b + length rest)) (Z.of_nat (length b))); [lia|].
  by rewrite Nat2Z.id, take_app_length, drop_app_length.
Qed.

Lemma reads_proof b n : Z.of_nat (length b) = n → reads (dec_proof n) b b.
Proof.
  intros Hn rest. unfold dec_proof. rewrite length_app.
  destruct (Z.ltb_spec (Z.of_nat (length b + length rest)) n); [lia|]. by apply reads_bytes.
Qed.

Lemma reads_u8 z : 0 ≤ z ≤ u8_max → reads dec_u8 [byte_of z] z.
Proof.
  intros Hz. unfold dec_u8. eapply reads_bind_ret; [by apply reads_bytes|].
  rewrite length_nat_byte by lia. apply reads_ret.
Qed.

Lemma reads_u16 z : 0 ≤ z ≤ u16_max → reads dec_u16 (u16_be z) z.
Proof.
  intros Hz. unfold dec_u16. eapply reads_bind_ret; [by apply reads_bytes|].
  rewrite be_val_be_bytes, Z.mod_small; [apply reads_ret|].
  unfold u16_max in Hz. change (256 ^ Z.of_nat 2) with 65536. lia.
Qed.

Lemma reads_u32 z : is_u32 z → reads dec_u32 (u32_be z) z.
Proof.
  intros Hz. unfold dec_u32. eapply reads_bind_ret; [by apply reads_bytes|].
  rewrite u32_be_val by done. apply reads_ret.
Qed.

Lemma Name_ok_length n : Name_ok n → 1 ≤ Z.of_nat (length (name_bytes n)) ≤ 63.
Proof. by intros [? _]. Qed.

Lemma Name_spelling_utf8 n sfx :
  Name_ok n → sfx = [] ∨ sfx = lit ".zec" → utf8_valid (name_bytes n ++ sfx) = true.
Proof.
  intros Hn Hs. apply utf8_ascii. unfold is_ascii. rewrite forallb_app, andb_true_iff. split.
  - apply Name_parse_guard in Hn. unfold name_rejected in Hn.
    rewrite !orb_false_iff, !negb_false_iff in Hn. tauto.
  - by destruct Hs as [-> | ->].
Qed.

Lemma reads_name n sfx :
  Name_ok n → sfx = [] ∨ sfx = lit ".zec" →
  let raw := name_bytes n ++ sfx in
  reads dec_name ([byte_of (Z.of_nat (length raw))] ++ raw) n.
Proof.
  intros Hn Hs raw. pose proof (Name_ok_length n Hn). unfold dec_name.
  assert (Z.of_nat (length raw) ≤ 67).
  { unfold raw. rewrite length_app. destruct Hs as [-> | ->]; simpl; lia. }
  assert (utf8_valid raw = true) as Hutf by by apply Name_spelling_utf8.
  eapply reads_bind; [apply reads_u8; unfold u8_max; lia|].
  eapply reads_bind_ret; [by apply reads_bytes|].
  eapply reads_bind_nil; [apply reads_lift; unfold from_utf8; by rewrite Hutf|].
  apply reads_lift. apply map_err_Ok, Name_parse_Ok. split; [done|]. unfold raw.
  destruct Hs as [-> | ->]; [left; by rewrite app_nil_r|by right].
Qed.

#[export] Hint Resolve reads_ret reads_bytes reads_proof reads_u8 reads_u16 reads_u32
  reads_name : codec.
#[export] Hint Resolve Name_ok_length : codec.

Section Roundtrip.
#[local] Opaque be_bytes.
Context `{Pallas} `{UnifiedAddress} `{CoppicePayload}.

Lemma reads_ua network ua :
  CanonicalUa_ok network ua → utf8_valid (ua_bytes ua) = true →
  reads (dec_ua network) (u16_be (Z.of_nat (length (ua_bytes ua))) ++ ua_bytes ua) ua.
Proof.
  intros Hua Hutf. pose proof (CanonicalUa_ok_length network ua Hua) as Hl.
  unfold MAX_UA_BYTES in Hl. unfold dec_ua.
  eapply reads_bind; [apply reads_u16; unfold u16_max; lia|].
  eapply reads_bind_ret; [by apply reads_bytes|].
  eapply reads_bind_nil; [apply reads_lift; unfold from_utf8; by rewrite Hutf|].
  apply reads_lift. by rewrite Hua.
Qed.

Lemma reads_field f : FieldElement_ok f → reads dec_field (field_bytes f) f.
Proof.
  intros Hf. unfold dec_field. eapply reads_bind_ret; [apply reads_bytes|apply reads_lift].
  - by rewrite FieldElement_ok_length.
  - by rewrite Hf.
Qed.

Lemma reads_commit_ref r :
  CommitRef_ok r →
  reads dec_commit_ref (u32_be (cr_height r) ++ u32_be (cr_tx_index r) ++ cr_txid r) r.
Proof.
  destruct r as [h t x]. intros (Hh & Ht & Hx).
  cbn [cr_height cr_tx_index cr_txid] in *. unfold dec_commit_ref.
  eapply reads_bind; [auto with codec|]. eapply reads_bind; [auto with codec|].
  eapply reads_bind_ret; [apply reads_bytes; by rewrite Hx|]. apply reads_ret.
Qed.

Lemma reads_state_ref r :
  StateRef_ok r →
  reads dec_state_ref
    (u32_be (sr_height r) ++ u32_be (sr_tx_index r) ++ sr_txid r ++ u32_be (sr_action_index r)) r.
Proof.
  destruct r as [h t x a]. intros (Hh & Ht & Hx & Ha).
  cbn [sr_height sr_tx_index sr_txid sr_action_index] in *. unfold dec_state_ref.
  eapply reads_bind; [auto with codec|]. eapply reads_bind; [auto with codec|].
  eapply reads_bind; [apply reads_bytes; by rewrite Hx|].
  eapply reads_bind_ret; [auto with codec|]. apply reads_ret.
Qed.

Lemma encode_name_Ok out name b :
  encode_name out name = Ok b →
  b = out ++ [byte_of (Z.of_nat (length (name_bytes name)))] ++ name_bytes name.
Proof.
  unfold encode_name, u8_try_from. destruct (_ <=? _); simpl; [|done]. by intros [= <-].
Qed.

Lemma encode_ua_Ok out ua b :
  encode_ua out ua = Ok b →
  b = out ++ u16_be (Z.of_nat (length (ua_bytes ua))) ++ ua_bytes ua.
Proof.
  unfold encode_ua, u16_try_from. destruct (_ <=? _); simpl; [|done]. by intros [= <-].
Qed.

(** The tag selects the branch. *)
Lemma reads_tagged network params tag b op :
  0 ≤ tag ≤ u8_max → reads (decode_tagged network params tag) b op →
  reads (decode_operation network params) ([byte_of tag] ++ b) op.
Proof. intros Ht Hb. eapply reads_bind; [by apply reads_u8|done]. Qed.

Ltac branch :=
  eapply reads_tagged; [done|]; unfold decode_tagged;
  repeat match goal with |- context [?a =? ?b] =>
    let v := eval vm_compute in (a =? b) in change (a =? b) with v end;
  cbv iota.

Lemma encode_body_reads network params op b :
  Operation_ok network op → encodes params op b →
  reads (decode_operation network params) b op.
Proof.
  intros Hop (sfx & Hs & Henc).
  destruct op as [c|name cr ua ai nf pf|name sr ua ai nf pf]; cbn [encode_body add_suffix] in Henc.
  - injection Henc as <-. branch.
    eapply reads_bind_ret; [apply reads_bytes; by rewrite (Commitment_ok_length c Hop)|].
    eapply reads_bind_nil; [apply reads_lift; by rewrite Hop|]. apply reads_ret.
  - destruct Hop as (Hn & Hr & Hu & Hutf & Ha & Hf). inv_res.
    match goal with Hc : bool_decide _ = true |- _ => apply bool_decide_eq_true in Hc end.
    repeat match goal with
    | Hc : encode_name _ _ = Ok _ |- _ => apply encode_name_Ok in Hc as ->
    | Hc : encode_ua _ _ = Ok _ |- _ => apply encode_ua_Ok in Hc as -> end.
    rewrite <- !app_assoc. branch.
    cbn [name_bytes]. rewrite (app_assoc [_] (name_bytes name ++ sfx)).
    eapply reads_bind; [by apply (reads_name name sfx)|].
    rewrite (app_assoc (u32_be (cr_tx_index cr))), (app_assoc (u32_be (cr_height cr))).
    eapply reads_bind; [by apply reads_commit_ref|].
    rewrite (app_assoc (u16_be _)).
    eapply reads_bind; [by apply reads_ua|].
    eapply reads_bind; [by apply reads_u32|].
    eapply reads_bind; [by apply reads_field|].
    eapply reads_bind_ret; [by apply reads_proof|]. apply reads_ret.
  - destruct Hop as (Hn & Hr & Hu & Hutf & Ha & Hf). inv_res.
    match goal with Hc : bool_decide _ = true |- _ => apply bool_decide_eq_true in Hc end.
    repeat match goal with
    | Hc : encode_name _ _ = Ok _ |- _ => apply encode_name_Ok in Hc as ->
    | Hc : encode_ua _ _ = Ok _ |- _ => apply encode_ua_Ok in Hc as -> end.
    rewrite <- !app_assoc. branch.
    cbn [name_bytes]. rewrite (app_assoc [_] (name_bytes name ++ sfx)).
    eapply reads_bind; [by apply (reads_name name sfx)|].
    rewrite (app_assoc (sr_txid sr)), (app_assoc (u32_be (sr_tx_index sr))),
      (app_assoc (u32_be (sr_height sr))).
    eapply reads_bind; [by apply reads_state_ref|].
    rewrite (app_assoc (u16_be _)).
    eapply reads_bind; [by apply reads_ua|].
    eapply reads_bind; [by apply reads_u32|].
    eapply reads_bind; [by apply reads_field|].
    eapply reads_bind_ret; [by apply reads_proof|]. apply reads_ret.
Qed.
End Roundtrip.

(** *** What a successful parse consumed *)

Section Soundness.
Context `{Pallas} `{UnifiedAddress} `{CoppicePayload}.
#[local] Opaque be_bytes.

Lemma dec_bytes_inv n l b r :
  0 ≤ n → dec_bytes n l = (Ok b, r) → l = b ++ r ∧ Z.of_nat (length b) = n.
Proof.
  intros Hn. unfold dec_bytes. destruct (Z.ltb_spec (Z.of_nat (length l)) n); [done|].
  intros [= <- <-]. rewrite take_drop, length_take. split; [done|lia].
Qed.

Lemma dec_u8_inv l z r : dec_u8 l = (Ok z, r) → l = [byte_of z] ++ r ∧ 0 ≤ z ≤ u8_max.
Proof.
  intros (b & l1 & Hb & [= <- <-])%sbind_Ok. apply dec_bytes_inv in Hb as [-> Hl]; [|lia].
  destruct b as [|x [|]]; simpl in Hl; try lia.
  change (be_val [x]) with (byte_val x * 256 ^ 0 + 0).
  rewrite Z.pow_0_r, Z.mul_1_r, Z.add_0_r, byte_of_val.
  pose proof (byte_val_range x). unfold u8_max. split; [done|lia].
Qed.

Lemma dec_u16_inv l z r :
  dec_u16 l = (Ok z, r) → l = u16_be z ++ r ∧ 0 ≤ z ≤ u16_max.
Proof.
  intros (b & l1 & Hb & [= <- <-])%sbind_Ok. apply dec_bytes_inv in Hb as [-> Hl]; [|lia].
  assert (length b = 2%nat) as Hl' by lia. rewrite <- Hl' at 1. rewrite be_bytes_be_val.
  pose proof (be_val_range b) as Hr. rewrite Hl' in Hr. unfold u16_max.
  change (256 ^ Z.of_nat 2) with 65536 in Hr. split; [done|lia].
Qed.

Lemma dec_u32_inv l z r : dec_u32 l = (Ok z, r) → l = u32_be z ++ r ∧ is_u32 z.
Proof.
  intros (b & l1 & Hb & [= <- <-])%sbind_Ok. apply dec_bytes_inv in Hb as [-> Hl]; [|lia].
  assert (length b = 4%nat) as Hl' by lia. rewrite <- Hl' at 1. rewrite be_bytes_be_val.
  split; [done|by apply be_val_u32].
Qed.

Lemma dec_name_inv l n r :
  dec_name l = (Ok n, r) →
  Name_ok n ∧ ∃ raw, l = [byte_of (Z.of_nat (length raw))] ++ raw ++ r
    ∧ ∃ sfx, (sfx = [] ∨ sfx = lit ".zec") ∧ raw = name_bytes n ++ sfx.
Proof.
  intros (z & l1 & [-> Hz]%dec_u8_inv & H2)%sbind_Ok.
  apply sbind_Ok in H2 as (raw & l2 & [-> Hl]%dec_bytes_inv & H3); [|lia].
  apply sbind_Ok in H3 as (v & l3 & [Hv ->]%mlift_Ok & [Hp ->]%mlift_Ok).
  unfold from_utf8 in Hv. inv_res. apply Name_parse_Ok in Hp as [Hn Hraw].
  split; [done|]. eexists. split; [done|].
  destruct Hraw as [-> | ->]; [exists []|exists (lit ".zec")]; rewrite ?app_nil_r; auto.
Qed.

Lemma dec_ua_inv network l ua r :
  dec_ua network l = (Ok ua, r) →
  CanonicalUa_ok network ua ∧ utf8_valid (ua_bytes ua) = true
  ∧ l = u16_be (Z.of_nat (length (ua_bytes ua))) ++ ua_bytes ua ++ r.
Proof.
  intros (z & l1 & [-> Hz]%dec_u16_inv & H2')%sbind_Ok.
  apply sbind_Ok in H2' as (raw & l2 & [-> Hl]%dec_bytes_inv & H3'); [|lia].
  apply sbind_Ok in H3' as (v & l3 & [Hv ->]%mlift_Ok & [Hp ->]%mlift_Ok).
  unfold from_utf8 in Hv. inv_res. apply CanonicalUa_parse_ok in Hp as [Hok <-].
  done.
Qed.

Lemma dec_field_inv l f r :
  dec_field l = (Ok f, r) → FieldElement_ok f ∧ l = field_bytes f ++ r.
Proof.
  intros (b & l1 & [-> Hl]%dec_bytes_inv & [Hf ->]%mlift_Ok)%sbind_Ok; [|lia].
  apply map_err_Ok in Hf. pose proof Hf as [_ ->]%FieldElement_from_bytes_Ok. by split.
Qed.

Lemma dec_commit_ref_inv l c r :
  dec_commit_ref l = (Ok c, r) →
  CommitRef_ok c
  ∧ l = (u32_be (cr_height c) ++ u32_be (cr_tx_index c) ++ cr_txid c) ++ r.
Proof.
  intros (h & l1 & [-> Hh]%dec_u32_inv & H2')%sbind_Ok.
  apply sbind_Ok in H2' as (t & l2 & [-> Ht]%dec_u32_inv & H3').
  apply sbind_Ok in H3' as (x & l3 & [-> Hx]%dec_bytes_inv & [= <- <-]); [|lia].
  rewrite <- !app_assoc. split; [|done]. repeat split; simpl; try apply Hh || apply Ht. lia.
Qed.

Lemma dec_state_ref_inv l c r :
  dec_state_ref l = (Ok c, r) →
  StateRef_ok c
  ∧ l = (u32_be (sr_height c) ++ u32_be (sr_tx_index c) ++ sr_txid c
         ++ u32_be (sr_action_index c)) ++ r.
Proof.
  intros (h & l1 & [-> Hh]%dec_u32_inv & H2')%sbind_Ok.
  apply sbind_Ok in H2' as (t & l2 & [-> Ht]%dec_u32_inv & H3').
  apply sbind_Ok in H3' as (x & l3 & [-> Hx]%dec_bytes_inv & H4'); [|lia].
  apply sbind_Ok in H4' as (a & l4 & [-> Ha]%dec_u32_inv & [= <- <-]).
  rewrite <- !app_assoc. split; [|done].
  repeat split; simpl; try apply Hh || apply Ht || apply Ha. lia.
Qed.

Lemma dec_proof_inv n l b r :
  0 ≤ n → dec_proof n l = (Ok b, r) → l = b ++ r ∧ Z.of_nat (length b) = n.
Proof. intros Hn. unfold dec_proof. destruct (_ <? _); [done|]. by apply dec_bytes_inv. Qed.

Lemma encode_name_ok out n sfx :
  Name_ok n → sfx = [] ∨ sfx = lit ".zec" →
  let raw := name_bytes n ++ sfx in
  encode_name out (MkName raw) = Ok (out ++ [byte_of (Z.of_nat (length raw))] ++ raw).
Proof.
  intros Hn%Name_ok_length Hs raw. unfold encode_name, u8_try_from, u8_max. cbn [name_bytes].
  assert (Z.of_nat (length raw) ≤ 67).
  { unfold raw. rewrite length_app. destruct Hs as [-> | ->]; simpl; lia. }
  by destruct (Z.leb_spec (Z.of_nat (length raw)) 255); [|lia].
Qed.

Lemma encode_name_plain out n :
  Name_ok n →
  encode_name out n = Ok (out ++ [byte_of (Z.of_nat (length (name_bytes n)))] ++ name_bytes n).
Proof.
  intros Hn. pose proof (encode_name_ok out n [] Hn (or_introl eq_refl)) as E.
  rewrite app_nil_r in E. by destruct n.
Qed.

Lemma encode_ua_ok network out ua :
  CanonicalUa_ok network ua →
  encode_ua out ua = Ok (out ++ u16_be (Z.of_nat (length (ua_bytes ua))) ++ ua_bytes ua).
Proof.
  intros Hn%CanonicalUa_ok_length. unfold encode_ua, u16_try_from, u16_max, MAX_UA_BYTES in *.
  by destruct (Z.leb_spec (Z.of_nat (length (ua_bytes ua))) 65535); [|lia].
Qed.

Lemma decode_operation_inv network params l op r :
  0 ≤ reveal_proof_bytes params → 0 ≤ refresh_proof_bytes params →
  decode_operation network params l = (Ok op, r) →
  Operation_ok network op ∧ ∃ b, l = b ++ r ∧ encodes params op b.
Proof.
  intros Hp1 Hp2 (tag & l1 & [-> _]%dec_u8_inv & Hd)%sbind_Ok. unfold decode_tagged in Hd.
  destruct (Z.eqb_spec tag COMMIT_TAG) as [->|_]; [|destruct (Z.eqb_spec tag REVEAL_TAG) as [->|_];
    [|destruct (Z.eqb_spec tag REFRESH_TAG) as [->|_]; [|done]]].
  - apply sbind_Ok in Hd as (b & l2 & [-> _]%dec_bytes_inv & Hd); [|lia].
    apply sbind_Ok in Hd as (c & l3 & [Hc ->]%mlift_Ok & [= <- <-]).
    apply map_err_Ok in Hc. pose proof Hc as (x & _ & _ & ->)%Commitment_from_bytes_Ok.
    split; [exact Hc|]. exists ([byte_of COMMIT_TAG] ++ b). rewrite app_assoc. split; [done|].
    exists []. split; [by left|done].
  - apply sbind_Ok in Hd as (n & l2 & (Hn & raw & -> & Hraw)%dec_name_inv & Hd).
    apply sbind_Ok in Hd as (cr & l3 & [Hcr ->]%dec_commit_ref_inv & Hd).
    apply sbind_Ok in Hd as (ua & l4 & (Hua & Hutf & ->)%dec_ua_inv & Hd).
    apply sbind_Ok in Hd as (ai & l5 & [-> Hai]%dec_u32_inv & Hd).
    apply sbind_Ok in Hd as (nf & l6 & [Hnf ->]%dec_field_inv & Hd).
    apply sbind_Ok in Hd as (pf & l7 & [-> Hpf]%dec_proof_inv & [= <- <-]); [|done].
    split; [done|]. rewrite !app_assoc. eexists; split; [done|]. destruct Hraw as (sfx & Hs & ->).
    exists sfx. split; [done|]. cbn [encode_body add_suffix].
    rewrite bool_decide_true, encode_name_ok by done. cbn [res_bind ensure name_bytes].
    rewrite (encode_ua_ok network) by done. cbn [res_bind]. by rewrite !app_assoc.
  - apply sbind_Ok in Hd as (n & l2 & (Hn & raw & -> & Hraw)%dec_name_inv & Hd).
    apply sbind_Ok in Hd as (sr & l3 & [Hsr ->]%dec_state_ref_inv & Hd).
    apply sbind_Ok in Hd as (ua & l4 & (Hua & Hutf & ->)%dec_ua_inv & Hd).
    apply sbind_Ok in Hd as (ai & l5 & [-> Hai]%dec_u32_inv & Hd).
    apply sbind_Ok in Hd as (nf & l6 & [Hnf ->]%dec_field_inv & Hd).
    apply sbind_Ok in Hd as (pf & l7 & [-> Hpf]%dec_proof_inv & [= <- <-]); [|done].
    split; [done|]. rewrite !app_assoc. eexists; split; [done|]. destruct Hraw as (sfx & Hs & ->).
    exists sfx. split; [done|]. cbn [encode_body add_suffix].
    rewrite bool_decide_true, encode_name_ok by done. cbn [res_bind ensure name_bytes].
    rewrite (encode_ua_ok network) by done. cbn [res_bind]. by rewrite !app_assoc.
Qed.
End Soundness.

(** *** Appending input *)

Section Extension.
Context `{Pallas} `{UnifiedAddress}.

(** A successful parse does not look past what it consumed, except for the
    total length. *)
Definition extends {A : Type} (d : Decoder A) : Prop :=
  ∀ l a r x, d l = (Ok a, r) → d (l ++ x) = (Ok a, r ++ x).

Lemma extends_bind {A B} (d : Decoder A) (k : A → Decoder B) :
  extends d → (∀ a, extends (k a)) → extends (sbind d k).
Proof.
  intros Hd Hk l a r x (b & l1 & H1 & H2)%sbind_Ok.
  apply sbind_Ok. exists b, (l1 ++ x). split; [by apply Hd|by apply Hk].
Qed.

Lemma extends_ret {A} (a : A) : extends (mret a).
Proof. by intros l b r x [= <- <-]. Qed.
Lemma extends_lift {A} (m : res CodecError A) : extends (mlift m).
Proof. intros l b r x [-> ->]%mlift_Ok. done. Qed.
Lemma extends_fail {A} e : extends (mfail (A := A) e).
Proof. done. Qed.

Lemma extends_bytes n : extends (dec_bytes n).
Proof.
  intros l b r x. unfold dec_bytes. rewrite length_app.
  destruct (Z.ltb_spec (Z.of_nat (length l)) n); [done|]. intros [= <- <-].
  destruct (Z.ltb_spec (Z.of_nat (length l + length x)) n); [lia|].
  rewrite take_app_le, drop_app_le by lia. done.
Qed.

Lemma extends_proof n : extends (dec_proof n).
Proof.
  intros l b r x. unfold dec_proof. rewrite length_app.
  destruct (Z.ltb_spec (Z.of_nat (length l)) n); [done|]. intros Hb.
  destruct (Z.ltb_spec (Z.of_nat (length l + length x)) n); [lia|]. by apply extends_bytes.
Qed.

#[local] Hint Resolve extends_ret extends_lift extends_fail extends_bytes extends_proof : codec.

Lemma extends_operation network params : extends (decode_operation network params).
Proof.
  repeat first
    [ progress auto with codec
    | apply extends_bind; [|intros ?]
    | progress unfold decode_operation, decode_tagged, dec_u8, dec_u16, dec_u32, dec_name, dec_ua,
        dec_field, dec_commit_ref, dec_state_ref
    | case_match ].
Qed.

Lemma dec_bytes_no_panic n l : (dec_bytes n l).1 ≠ Panic.
Proof. unfold dec_bytes. by destruct (_ <? _). Qed.

(** Parsers that never panic. *)
Definition calm {A : Type} (d : Decoder A) : Prop := ∀ l, (d l).1 ≠ Panic.

Lemma calm_bind {A B} (d : Decoder A) (k : A → Decoder B) :
  calm d → (∀ a, calm (k a)) → calm (sbind d k).
Proof.
  intros Hd Hk l. unfold sbind. specialize (Hd l). destruct (d l) as [[a|e|] s]; simpl in *; [|done..].
  apply Hk.
Qed.

Lemma calm_lift_err {E A} (f : E → CodecError) (m : res E A) : m ≠ Panic → calm (mlift (map_err f m)).
Proof. intros Hm l. by destruct m. Qed.

Lemma calm_operation network params : calm (decode_operation network params).
Proof.
  assert (∀ e b, calm (mlift (from_utf8 e b))) as Hutf.
  { intros e b l. unfold from_utf8. by destruct (utf8_valid b). }
  assert (∀ b, FieldElement_from_bytes b ≠ Panic) as Hf.
  { intros b. unfold FieldElement_from_bytes, canonical_field. by destruct (from_repr b). }
  assert (∀ b, Commitment_from_bytes b ≠ Panic) as Hc.
  { intros b. unfold Commitment_from_bytes, canonical_field.
    destruct (from_repr b); simpl; [|done]. by case_bool_decide. }
  assert (∀ net b, CanonicalUa_parse net b ≠ Panic) as Hu.
  { intros net b. unfold CanonicalUa_parse. destruct (_ || _); [done|].
    destruct (negb _); [done|]. destruct (ua_decode b) as [[? ?]|]; [|done].
    cbn [ok_or res_bind]. by match goal with |- (if ?c then _ else _) ≠ _ => destruct c end. }
  assert (∀ n, calm (dec_proof n)) as Hp.
  { intros n l. unfold dec_proof. case_match; [done|apply dec_bytes_no_panic]. }
  pose proof dec_bytes_no_panic. pose proof Name_parse_no_panic.
  repeat first
    [ done
    | apply calm_lift_err; by auto
    | apply calm_bind; [|intros ?]
    | progress unfold decode_operation, decode_tagged, dec_u8, dec_u16, dec_u32, dec_name, dec_ua,
        dec_field, dec_commit_ref, dec_state_ref
    | case_match
    | solve [intros l; auto | by intros l; unfold mret, mfail] ].
Qed.
End Extension.

Definition CodecParameters_ok (params : CodecParameters) : Prop :=
  0 ≤ reveal_proof_bytes params ≤ MAX_REVEAL_PROOF_BYTES
  ∧ 0 ≤ refresh_proof_bytes params ≤ MAX_REFRESH_PROOF_BYTES.

Lemma CodecParameters_validate_ok params :
  CodecParameters_ok params → CodecParameters_validate params = Ok params.
Proof.
  intros [[_ H1] [_ H2]]. unfold CodecParameters_validate.
  by rewrite (proj2 (Z.ltb_ge _ _) H1), (proj2 (Z.ltb_ge _ _) H2).
Qed.

Lemma CodecParameters_validate_Ok params q :
  CodecParameters_validate params = Ok q →
  q = params ∧ reveal_proof_bytes params ≤ MAX_REVEAL_PROOF_BYTES
  ∧ refresh_proof_bytes params ≤ MAX_REFRESH_PROOF_BYTES.
Proof.
  unfold CodecParameters_validate. destruct (_ || _) eqn:G; [done|]. intros [= <-].
  rewrite orb_false_iff, !Z.ltb_ge in G. done.
Qed.

(** The proof length a deployment fixes for an operation, and the exact size of
    its encoding (section 6.1 of the specification). *)
Definition proof_fits (params : CodecParameters) (op : Operation) : Prop :=
  match op with
  | Commit _ => True
  | Reveal _ _ _ _ _ proof => Z.of_nat (length proof) = reveal_proof_bytes params
  | Refresh _ _ _ _ _ proof => Z.of_nat (length proof) = refresh_proof_bytes params
  end.

Definition encoded_size (params : CodecParameters) (op : Operation) : Z :=
  match op with
  | Commit _ => 33
  | Reveal name _ ua _ _ _ =>
      1 + (1 + Z.of_nat (length (name_bytes name))) + 40 + (2 + Z.of_nat (length (ua_bytes ua)))
      + 4 + 32 + reveal_proof_bytes params
  | Refresh name _ ua _ _ _ =>
      1 + (1 + Z.of_nat (length (name_bytes name))) + 44 + (2 + Z.of_nat (length (ua_bytes ua)))
      + 4 + 32 + refresh_proof_bytes params
  end.

Section EncodeFacts.
Context `{Pallas} `{UnifiedAddress} `{CoppicePayload}.
#[local] Opaque be_bytes.

Lemma encode_Ok op params b :
  encode op params = Ok b →
  CodecParameters_validate params = Ok params ∧ encode_body op params = Ok b
  ∧ Z.of_nat (length b) ≤ MAX_APPLICATION_PAYLOAD_LEN.
Proof.
  unfold encode. intros He. inv_res.
  match goal with Hv : CodecParameters_validate _ = Ok ?q |- _ =>
    pose proof (CodecParameters_validate_Ok _ _ Hv) as [-> _] end.
  destruct (Z.ltb_spec MAX_APPLICATION_PAYLOAD_LEN (Z.of_nat (length a0))); [done|].
  by inv_res.
Qed.

Lemma encode_body_size network op params :
  Operation_ok network op → proof_fits params op →
  ∃ b, encode_body op params = Ok b ∧ Z.of_nat (length b) = encoded_size params op.
Proof.
  intros Hop Hpf. destruct op as [c|name cr ua ai nf pf|name sr ua ai nf pf]; simpl in Hpf.
  - eexists. split; [done|]. rewrite length_app, (Commitment_ok_length c Hop). done.
  - destruct Hop as (Hn & (_ & _ & Hr) & Hu & Hutf & Ha & Hf). cbn [encode_body encoded_size].
    rewrite bool_decide_true, encode_name_plain by done. cbn [ensure res_bind].
    rewrite (encode_ua_ok network) by done. cbn [res_bind]. eexists. split; [done|].
    rewrite !length_app, !length_be_bytes, Hr, (FieldElement_ok_length nf Hf). simpl. lia.
  - destruct Hop as (Hn & (_ & _ & Hr & _) & Hu & Hutf & Ha & Hf). cbn [encode_body encoded_size].
    rewrite bool_decide_true, encode_name_plain by done. cbn [ensure res_bind].
    rewrite (encode_ua_ok network) by done. cbn [res_bind]. eexists. split; [done|].
    rewrite !length_app, !length_be_bytes, Hr, (FieldElement_ok_length nf Hf). simpl. lia.
Qed.

(** The largest operation the deployment-frozen proof bounds allow. *)
Lemma encoded_size_bound network op params :
  Operation_ok network op → CodecParameters_ok params → encoded_size params op ≤ 16057.
Proof.
  intros Hop [Hp1 Hp2]. unfold MAX_REVEAL_PROOF_BYTES, MAX_REFRESH_PROOF_BYTES in *.
  destruct op as [c|name cr ua ai nf pf|name sr ua ai nf pf]; simpl; [done| |];
    destruct Hop as (Hn%Name_ok_length & _ & Hu%CanonicalUa_ok_length & _);
    unfold MAX_UA_BYTES in *; lia.
Qed.
End EncodeFacts.

(** ** Correctness of the codec *)

Section Correctness.
Context `{Pallas} `{UnifiedAddress} `{CoppicePayload}.

Lemma decode_Ok network params b op :
  CodecParameters_ok params →
  decode b network params = Ok op ↔ decode_operation network params b = (Ok op, []).
Proof.
  intros Hp. unfold decode. rewrite CodecParameters_validate_ok by done. cbn [res_bind].
  destruct (decode_operation network params b) as [[o|e|] [|x r]]; simpl; naive_solver.
Qed.

Lemma decode_encodes network params b op :
  CodecParameters_ok params →
  decode b network params = Ok op ↔ Operation_ok network op ∧ encodes params op b.
Proof.
  intros Hp. rewrite decode_Ok by done. split.
  - intros Hd. apply decode_operation_inv in Hd as (Hop & b' & -> & He); [|apply Hp..].
    by rewrite app_nil_r.
  - intros [Hop He]. pose proof (encode_body_reads network params op b Hop He []) as Hr.
    by rewrite app_nil_r in Hr.
Qed.

Lemma encode_encodes params op b : encode op params = Ok b → encodes params op b.
Proof.
  intros (_ & Hb & _)%encode_Ok. exists []. rewrite add_suffix_nil. by split; [left|].
Qed.
End Correctness.

Lemma decode_no_panic `{Pallas} `{UnifiedAddress} network params b :
  CodecParameters_ok params → decode b network params ≠ Panic.
Proof.
  intros Hp. unfold decode. rewrite CodecParameters_validate_ok by done. cbn [res_bind].
  pose proof (calm_operation network params b) as Hc.
  destruct (decode_operation network params b) as [[o|e|] r]; simpl in Hc; [|done..].
  by destruct (bool_decide _).
Qed.

(** C28: every operation a codec encodes is decoded back to itself. *)
Theorem codec_roundtrip `{Pallas} `{UnifiedAddress} `{CoppicePayload} network params op b :
  Operation_ok network op → CodecParameters_ok params → encode op params = Ok b →
  decode b network params = Ok op.
Proof. intros Hop Hp He%encode_encodes. by apply decode_encodes. Qed.

(** C27: decoding never panics, and accepts exactly the encodings of well-formed
    operations of the network, the name spelled with or without [.zec]. *)
Theorem decode_exact `{Pallas} `{UnifiedAddress} `{CoppicePayload} network params b :
  CodecParameters_ok params →
  decode b network params ≠ Panic
  ∧ ∀ op, decode b network params = Ok op ↔ Operation_ok network op ∧ encodes params op b.
Proof.
  intros Hp. split; [by apply decode_no_panic|intros op; by apply decode_encodes].
Qed.

(** no accepted byte string extends another: bytes after an operation are
    [TrailingBytes], so a strict prefix of an operation is not one. *)
Theorem decode_prefix_free `{Pallas} `{UnifiedAddress} network params b x op :
  CodecParameters_ok params → x ≠ [] → decode b network params = Ok op →
  decode (b ++ x) network params = Err TrailingBytes.
Proof.
  intros Hp Hx Hd%decode_Ok; [|done]. apply (extends_operation _ _ _ _ _ x) in Hd.
  unfold decode. rewrite CodecParameters_validate_ok by done. cbn [res_bind].
  rewrite Hd. by destruct x.
Qed.

(** C39: an operation whose proof has the frozen length is always encoded, in
    exactly the size the specification budgets, at most 16057 bytes. *)
Theorem encode_total `{Pallas} `{UnifiedAddress} `{CoppicePayload} network params op :
  Operation_ok network op → CodecParameters_ok params → proof_fits params op →
  16057 ≤ MAX_APPLICATION_PAYLOAD_LEN →
  ∃ b, encode op params = Ok b ∧ Z.of_nat (length b) = encoded_size params op
    ∧ encoded_size params op ≤ 16057.
Proof.
  intros Hop Hp Hf Hmax. pose proof (encoded_size_bound network op params Hop Hp).
  destruct (encode_body_size network op params Hop Hf) as (b & Hb & Hl). exists b.
  unfold encode. rewrite CodecParameters_validate_ok by done. cbn [res_bind]. rewrite Hb.
  cbn [res_bind]. destruct (Z.ltb_spec MAX_APPLICATION_PAYLOAD_LEN (Z.of_nat (length b))); [lia|].
  done.
Qed.

(** C40: the wire form of an update is not canonical: the decoder takes a name
    field that still carries [.zec], so every encodable REVEAL and REFRESH has a
    second, longer spelling that decodes to the same operation. *)
Theorem decode_not_injective `{Pallas} `{UnifiedAddress} `{CoppicePayload} network params op b :
  Operation_ok network op → CodecParameters_ok params → encode op params = Ok b →
  (∀ c, op ≠ Commit c) →
  ∃ b', b' ≠ b ∧ decode b' network params = Ok op ∧ encode op params ≠ Ok b'.
Proof.
  intros Hop Hp Henc Hnc. pose proof Henc as (_ & Hb & _)%encode_Ok.
  assert (∃ b', encode_body (add_suffix (lit ".zec") op) params = Ok b' ∧ length b' = (length b + 4)%nat)
    as (b' & Hb' & Hlen).
  { destruct op as [c|n cr ua ai nf pf|n sr ua ai nf pf]; [by destruct (Hnc c)|..];
      destruct Hop as (Hn & _ & Hu & _); cbn [add_suffix]; unfold encode_body in *;
      apply res_bind_Ok in Hb as (u & Hu' & Hb); rewrite Hu'; cbn [res_bind];
      rewrite encode_name_plain in Hb by done; rewrite encode_name_ok by auto;
      cbn [res_bind] in *; rewrite (encode_ua_ok network) in Hb by done;
      rewrite (encode_ua_ok network) by done; cbn [res_bind] in *; apply Ok_inj in Hb as <-;
      eexists; (split; [done|]); rewrite !length_app, !length_be_bytes;
      change (length (lit ".zec")) with 4%nat; cbn [length]; lia. }
  assert (b' ≠ b) as Hne by (intros ->; lia).
  exists b'. split; [done|]. split; [|congruence].
  apply decode_encodes; [done|]. split; [done|]. exists (lit ".zec"). auto.
Qed.

(** ** Instances *)

Module Samples.
Definition params : CodecParameters := MkCodecParameters 2 3.
Definition field (z : Z) : FieldElement := MkFieldElement (to_repr (base_from_u64 z)).
Definition ua : CanonicalUa := MkCanonicalUa (lit "uregtest1q").
Definition alice : Name := MkName (lit "alice").
Definition reveal : Operation :=
  Reveal alice (MkCommitRef 7 1 (repeat x55 32)) ua 3 (field 9) [x01; x02].
Definition refresh : Operation :=
  Refresh alice (MkStateRef 7 1 (repeat x55 32) 2) ua 3 (field 9) [x01; x02; x03].

Lemma codec_params_ok : CodecParameters_ok params.
Proof. repeat split; by vm_compute. Qed.

Lemma sample_alice_ok : Name_ok alice.
Proof. by apply Name_parse_guard. Qed.

Lemma reveal_ok : Operation_ok Regtest reveal.
Proof. split; [apply sample_alice_ok|]. repeat split; by vm_compute. Qed.

Lemma refresh_ok : Operation_ok Regtest refresh.
Proof. split; [apply sample_alice_ok|]. repeat split; by vm_compute. Qed.

Definition reveal_bytes : list byte :=
  Eval vm_compute in match encode reveal params with Ok b => b | _ => [] end.
End Samples.

Lemma codec_roundtrip_witness :
  decode Samples.reveal_bytes Regtest Samples.params = Ok Samples.reveal.
Proof.
  apply (codec_roundtrip Regtest Samples.params Samples.reveal Samples.reveal_bytes);
    [apply Samples.reveal_ok|apply Samples.codec_params_ok|by vm_compute].
Defined.

Lemma decode_exact_witness :
  decode [x07] Regtest Samples.params ≠ Panic
  ∧ ∀ op, decode [x07] Regtest Samples.params = Ok op
      ↔ Operation_ok Regtest op ∧ encodes Samples.params op [x07].
Proof. apply (decode_exact Regtest Samples.params [x07] Samples.codec_params_ok). Defined.

Lemma decode_prefix_free_witness :
  decode (Samples.reveal_bytes ++ [x00]) Regtest Samples.params = Err TrailingBytes.
Proof.
  apply (decode_prefix_free Regtest Samples.params Samples.reveal_bytes [x00] Samples.reveal);
    [apply Samples.codec_params_ok|done|by vm_compute].
Defined.

Lemma encode_total_witness :
  ∃ b, encode Samples.refresh Samples.params = Ok b
    ∧ Z.of_nat (length b) = encoded_size Samples.params Samples.refresh
    ∧ encoded_size Samples.params Samples.refresh ≤ 16057.
Proof.
  apply (encode_total Regtest Samples.params Samples.refresh);
    [apply Samples.refresh_ok|apply Samples.codec_params_ok|done|done].
Defined.

Lemma decode_not_injective_witness :
  ∃ b', b' ≠ Samples.reveal_bytes ∧ decode b' Regtest Samples.params = Ok Samples.reveal
    ∧ encode Samples.reveal Samples.params ≠ Ok b'.
Proof.
  apply (decode_not_injective Regtest Samples.params Samples.reveal Samples.reveal_bytes);
    [apply Samples.reveal_ok|apply Samples.codec_params_ok|by vm_compute|done].
Defined.
