(* ===== verification/Statement.v ===== *)
(** * Proof statements ([crates/coppice-names/src/statement.rs])

    The public facts of a REVEAL and of a REFRESH, their digest, and the
    commitments a wallet builds.  A field accessor that meets a non-canonical
    encoding, or a bounded length that does not fit, is a [Panic]. *)

From S2P Require Import Prelude Bytes External Protocol Concrete.

Definition OWNER_DOMAIN : Z := 0x4e324f574e455221.
Definition COMMIT_DOMAIN : Z := 0x4e32434f4d4d4954.
Definition REVEAL_DOMAIN : Z := 0x4e3252455645414c.
Definition REFRESH_DOMAIN : Z := 0x4e32524546525348.

Record RevealStatement := MkRevealStatement {
  rvs_deployment_id : list byte;
  rvs_name_id : NameId;
  rvs_inclusion_epoch : Z;
  rvs_commitment : Commitment;
  rvs_commit_ref : CommitRef;
  rvs_ua : CanonicalUa;
  rvs_action_index : Z;
  rvs_action_nullifier : FieldElement;
  rvs_action_commitment : FieldElement;
  rvs_successor_future_nf : FieldElement;
}.

Record RefreshStatement := MkRefreshStatement {
  rfs_deployment_id : list byte;
  rfs_name_id : NameId;
  rfs_predecessor_ref : StateRef;
  rfs_predecessor_commitment : FieldElement;
  rfs_predecessor_future_nf : FieldElement;
  rfs_predecessor_epoch : Z;
  rfs_inclusion_epoch : Z;
  rfs_ua : CanonicalUa;
  rfs_action_index : Z;
  rfs_action_nullifier : FieldElement;
  rfs_action_commitment : FieldElement;
  rfs_successor_future_nf : FieldElement;
}.

#[global] Instance RevealStatement_eq_dec : EqDecision RevealStatement.
Proof. solve_decision. Defined.
#[global] Instance RefreshStatement_eq_dec : EqDecision RefreshStatement.
Proof. solve_decision. Defined.

Section Digests.
Context `{Blake2b} `{Pallas} `{!Poseidon} {E : Type}.

Definition poseidon_pair (left right : base) : base := poseidon_hash left right.

Definition fold (domain : Z) (fields : list base) : base :=
  foldl poseidon_pair (base_from_u64 domain) fields.

(** The length-prefixed bytes that [bytes_field] hashes. *)
Definition framed (b : list byte) : res E (list byte) :=
  let? len := expect (u32_try_from (Z.of_nat (length b))) in
  Ok (u32_be len ++ b).

Definition bytes_field (personalization b : list byte) : res E base :=
  let? f := framed b in wide_field personalization f.

Definition deployment_field (deployment_id : list byte) : res E base :=
  bytes_field (lit "CoppiceNmDplF") deployment_id.

Definition ua_field (ua : CanonicalUa) : res E base := bytes_field (lit "CoppiceNmUA") (ua_bytes ua).

Definition commit_ref_bytes (r : CommitRef) : list byte :=
  u32_be (cr_height r) ++ u32_be (cr_tx_index r) ++ cr_txid r.

Definition commit_ref_field (r : CommitRef) : res E base :=
  bytes_field (lit "CoppiceNmCRef") (commit_ref_bytes r).

Definition state_ref_bytes (r : StateRef) : list byte :=
  u32_be (sr_height r) ++ u32_be (sr_tx_index r) ++ sr_txid r ++ u32_be (sr_action_index r).

Definition state_ref_field (r : StateRef) : res E base :=
  bytes_field (lit "CoppiceNmSRef") (state_ref_bytes r).

(** [RevealStatement::fields] *)
Definition RevealStatement_fields (self : RevealStatement) : res E (list base) :=
  let? deployment := deployment_field (rvs_deployment_id self) in
  let? name_id := NameId_field (rvs_name_id self) in
  let? commitment := Commitment_field (rvs_commitment self) in
  let? commit_ref := commit_ref_field (rvs_commit_ref self) in
  let? ua := ua_field (rvs_ua self) in
  let? nullifier := FieldElement_field (rvs_action_nullifier self) in
  let? action_commitment := FieldElement_field (rvs_action_commitment self) in
  let? successor := FieldElement_field (rvs_successor_future_nf self) in
  Ok [deployment; base_from_u64 1; name_id; base_from_u64 (rvs_inclusion_epoch self);
      commitment; commit_ref; ua; base_from_u64 (rvs_action_index self); nullifier;
      action_commitment; successor; base_from_u64 BOND_ZATOSHIS].

(** [RefreshStatement::fields] *)
Definition RefreshStatement_fields (self : RefreshStatement) : res E (list base) :=
  let? deployment := deployment_field (rfs_deployment_id self) in
  let? name_id := NameId_field (rfs_name_id self) in
  let? predecessor := state_ref_field (rfs_predecessor_ref self) in
  let? predecessor_commitment := FieldElement_field (rfs_predecessor_commitment self) in
  let? predecessor_nf := FieldElement_field (rfs_predecessor_future_nf self) in
  let? ua := ua_field (rfs_ua self) in
  let? nullifier := FieldElement_field (rfs_action_nullifier self) in
  let? action_commitment := FieldElement_field (rfs_action_commitment self) in
  let? successor := FieldElement_field (rfs_successor_future_nf self) in
  Ok [deployment; base_from_u64 2; name_id; predecessor; predecessor_commitment;
      predecessor_nf; base_from_u64 (rfs_predecessor_epoch self);
      base_from_u64 (rfs_inclusion_epoch self); ua; base_from_u64 (rfs_action_index self);
      nullifier; action_commitment; successor; base_from_u64 BOND_ZATOSHIS].

(** The two [digest] methods. *)
Definition RevealStatement_digest (self : RevealStatement) : res E (list byte) :=
  let? fields := RevealStatement_fields self in Ok (to_repr (fold REVEAL_DOMAIN fields)).

Definition RefreshStatement_digest (self : RefreshStatement) : res E (list byte) :=
  let? fields := RefreshStatement_fields self in Ok (to_repr (fold REFRESH_DOMAIN fields)).

Definition owner_commitment (ak_x nk ivk : FieldElement) : res E (list byte) :=
  let? a := FieldElement_field ak_x in
  let? n := FieldElement_field nk in
  let? i := FieldElement_field ivk in
  Ok (to_repr (fold OWNER_DOMAIN [a; n; i])).

(** The array that [registration_commitment] folds. *)
Definition registration_fields (deployment_id : list byte) (name_id : NameId) (epoch : Z)
  (owner_commit secret : FieldElement) : res E (list base) :=
  let? d := deployment_field deployment_id in
  let? n := NameId_field name_id in
  let? o := FieldElement_field owner_commit in
  let? s := FieldElement_field secret in
  Ok [d; n; base_from_u64 epoch; o; s].

Definition registration_commitment (deployment_id : list byte) (name_id : NameId) (epoch : Z)
  (owner_commit secret : FieldElement) : res E (list byte) :=
  let? fields := registration_fields deployment_id name_id epoch owner_commit secret in
  Ok (to_repr (fold COMMIT_DOMAIN fields)).
End Digests.

(** Conversion unfolds these before [bytes_field]. *)
Strategy -10 [deployment_field ua_field commit_ref_field state_ref_field].

(** ** Properties *)

(** What the validated types of a statement guarantee. *)
Definition RevealStatement_ok `{Pallas} (s : RevealStatement) : Prop :=
  length (rvs_deployment_id s) = 32%nat ∧ NameId_ok (rvs_name_id s)
  ∧ is_u32 (rvs_inclusion_epoch s) ∧ Commitment_ok (rvs_commitment s)
  ∧ CommitRef_ok (rvs_commit_ref s) ∧ Z.of_nat (length (ua_bytes (rvs_ua s))) ≤ MAX_UA_BYTES
  ∧ is_u32 (rvs_action_index s) ∧ FieldElement_ok (rvs_action_nullifier s)
  ∧ FieldElement_ok (rvs_action_commitment s) ∧ FieldElement_ok (rvs_successor_future_nf s).

Definition RefreshStatement_ok `{Pallas} (s : RefreshStatement) : Prop :=
  length (rfs_deployment_id s) = 32%nat ∧ NameId_ok (rfs_name_id s)
  ∧ StateRef_ok (rfs_predecessor_ref s) ∧ FieldElement_ok (rfs_predecessor_commitment s)
  ∧ FieldElement_ok (rfs_predecessor_future_nf s) ∧ is_u32 (rfs_predecessor_epoch s)
  ∧ is_u32 (rfs_inclusion_epoch s) ∧ Z.of_nat (length (ua_bytes (rfs_ua s))) ≤ MAX_UA_BYTES
  ∧ is_u32 (rfs_action_index s) ∧ FieldElement_ok (rfs_action_nullifier s)
  ∧ FieldElement_ok (rfs_action_commitment s) ∧ FieldElement_ok (rfs_successor_future_nf s).

Lemma commit_ref_bytes_inj r s :
  CommitRef_ok r → CommitRef_ok s → commit_ref_bytes r = commit_ref_bytes s → r = s.
Proof.
  destruct r as [h i t], s as [h' i' t']. intros (? & ? & ?) (? & ? & ?) E.
  unfold commit_ref_bytes in E. cbn [cr_height cr_tx_index cr_txid] in *.
  apply app_inj_length in E as [Eh E]; [|by rewrite !length_be_bytes].
  apply app_inj_length in E as [Ei ->]; [|by rewrite !length_be_bytes].
  apply u32_be_inj in Eh as ->; [|done..]. by apply u32_be_inj in Ei as ->.
Qed.

Lemma state_ref_bytes_inj r s :
  StateRef_ok r → StateRef_ok s → state_ref_bytes r = state_ref_bytes s → r = s.
Proof.
  destruct r as [h i t a], s as [h' i' t' a']. intros (? & ? & Ht & ?) (? & ? & Ht' & ?) E.
  unfold state_ref_bytes in E. cbn [sr_height sr_tx_index sr_txid sr_action_index] in *.
  apply app_inj_length in E as [Eh E]; [|by rewrite !length_be_bytes].
  apply app_inj_length in E as [Ei E]; [|by rewrite !length_be_bytes].
  apply app_inj_length in E as [-> Ea]; [|by rewrite Ht, Ht'].
  apply u32_be_inj in Eh as ->; [|done..]. apply u32_be_inj in Ei as ->; [|done..].
  by apply u32_be_inj in Ea as ->.
Qed.

(** [steps_ok] runs a chain of calls that all succeed. *)
Ltac steps_ok :=
  repeat match goal with
  | |- context [res_bind ?m _] =>
      let Hx := fresh "Hx" in
      assert (is_ok m = true) as Hx by eauto with fields;
      let x := fresh "x" in destruct m as [x| |]; [clear Hx; cbn [res_bind]|done..]
  end.

Create HintDb fields.

Section Binding.
Context `{Blake2b} `{Pallas} `{!Poseidon} {E : Type}.

(** *** Explicit collisions

    Two runs that agree on the output but not on the input exhibit one of
    these: no idealised hash is assumed. *)

(** Two different pairs hashed at the same step of two folds. *)
Definition fold_collision (domain : Z) (xs ys : list base) : Prop :=
  ∃ k x y, xs !! k = Some x ∧ ys !! k = Some y
    ∧ (fold domain (take k xs), x) ≠ (fold domain (take k ys), y)
    ∧ poseidon_pair (fold domain (take k xs)) x = poseidon_pair (fold domain (take k ys)) y.

(** Two different byte strings mapped to the same field element. *)
Definition bytes_collision (personalization a b : list byte) : Prop :=
  a ≠ b ∧ ∃ x, bytes_field (E := E) personalization a = Ok x
             ∧ bytes_field (E := E) personalization b = Ok x.

Lemma fold_snoc domain xs x :
  fold domain (xs ++ [x]) = poseidon_pair (fold domain xs) x.
Proof. unfold fold. by rewrite foldl_app. Qed.

Lemma fold_binds domain xs ys :
  length xs = length ys → fold domain xs = fold domain ys →
  xs = ys ∨ fold_collision domain xs ys.
Proof.
  revert ys. induction xs as [|x xs IH] using rev_ind; intros ys Hl Hf.
  { destruct ys; [by left|done]. }
  destruct ys as [|y ys _] using rev_ind; [rewrite length_app in Hl; simpl in Hl; lia|].
  rewrite !length_app in Hl. simpl in Hl. assert (length xs = length ys) as Hl' by lia.
  rewrite !fold_snoc in Hf.
  destruct (decide ((fold domain xs, x) = (fold domain ys, y))) as [[= Ef ->]|Hne].
  - destruct (IH ys Hl' Ef) as [->|(k & a & b & Ha & Hb & Hk)]; [by left|]. right.
    pose proof (lookup_lt_Some _ _ _ Ha). pose proof (lookup_lt_Some _ _ _ Hb).
    exists k, a, b. rewrite !lookup_app_l, !take_app_le by lia. by repeat split; try apply Hk.
  - right. exists (length xs), x, y. rewrite Hl' at 2 4 6.
    rewrite !list_lookup_middle, !take_app_length by done. done.
Qed.

Lemma NameId_field_inj a b (x : base) :
  NameId_field (E := E) a = Ok x → NameId_field (E := E) b = Ok x → a = b.
Proof.
  destruct a, b. intros Ha%expect_Ok%to_repr_from_repr Hb%expect_Ok%to_repr_from_repr.
  simpl in *. congruence.
Qed.

Lemma Commitment_field_inj a b (x : base) :
  Commitment_field (E := E) a = Ok x → Commitment_field (E := E) b = Ok x → a = b.
Proof.
  destruct a, b. intros Ha%expect_Ok%to_repr_from_repr Hb%expect_Ok%to_repr_from_repr.
  simpl in *. congruence.
Qed.

Lemma FieldElement_field_inj a b (x : base) :
  FieldElement_field (E := E) a = Ok x → FieldElement_field (E := E) b = Ok x → a = b.
Proof.
  destruct a, b. intros Ha%expect_Ok%to_repr_from_repr Hb%expect_Ok%to_repr_from_repr.
  simpl in *. congruence.
Qed.

Lemma bytes_field_binds p a b (x : base) :
  bytes_field (E := E) p a = Ok x → bytes_field (E := E) p b = Ok x →
  a = b ∨ bytes_collision p a b.
Proof. intros Ha Hb. destruct (decide (a = b)) as [|Hne]; [by left|right; split; eauto]. Qed.

Lemma u32_field_inj a b :
  is_u32 a → is_u32 b → base_from_u64 a = base_from_u64 b → a = b.
Proof. unfold is_u32, u32_max. intros. apply base_from_u64_inj; unfold u64_max; lia || done. Qed.

Lemma to_repr_inj x y : to_repr x = to_repr y → x = y.
Proof. intros Hr. apply (inj Some). by rewrite <- !from_repr_to_repr, Hr. Qed.

Lemma bytes_field_ok p b :
  Z.of_nat (length p) ≤ 16 → Z.of_nat (length b) ≤ u32_max →
  is_ok (bytes_field (E := E) p b) = true.
Proof.
  intros Hp Hb. unfold bytes_field, framed, u32_try_from.
  destruct (Z.leb_spec (Z.of_nat (length b)) u32_max); [|lia].
  cbn [expect res_bind]. by rewrite wide_field_short.
Qed.

Lemma NameId_field_ok i : NameId_ok i → is_ok (NameId_field (E := E) i) = true.
Proof. intros (x & Hx & _)%NameId_from_bytes_Ok. unfold NameId_field. by rewrite Hx. Qed.
Lemma Commitment_field_ok c : Commitment_ok c → is_ok (Commitment_field (E := E) c) = true.
Proof. intros (x & Hx & _)%Commitment_from_bytes_Ok. unfold Commitment_field. by rewrite Hx. Qed.
Lemma FieldElement_field_ok f : FieldElement_ok f → is_ok (FieldElement_field (E := E) f) = true.
Proof. intros [(x & Hx) _]%FieldElement_from_bytes_Ok. unfold FieldElement_field. by rewrite Hx. Qed.
End Binding.

#[export] Hint Resolve NameId_field_ok Commitment_field_ok FieldElement_field_ok : fields.
#[export] Hint Extern 1 (is_ok (bytes_field _ _) = true) =>
  apply bytes_field_ok; [done|unfold u32_max; rewrite ?length_app, ?length_be_bytes; lia] : fields.

Lemma ua_bytes_inj u v : ua_bytes u = ua_bytes v → u = v.
Proof. destruct u, v. simpl. congruence. Qed.

(** [same_facts] equates the facts behind equal field elements; a collision of a
    byte field is left to [tauto]. *)
Ltac same_facts :=
  repeat match goal with
  | H1 : bytes_field ?p ?a = Ok ?x, H2 : bytes_field ?p ?b = Ok ?x |- _ =>
      destruct (bytes_field_binds p a b x H1 H2) as [?|?]; clear H1; [|tauto]
  | H1 : NameId_field ?a = Ok ?x, H2 : NameId_field ?b = Ok ?x |- _ =>
      pose proof (NameId_field_inj a b x H1 H2); clear H1
  | H1 : Commitment_field ?a = Ok ?x, H2 : Commitment_field ?b = Ok ?x |- _ =>
      pose proof (Commitment_field_inj a b x H1 H2); clear H1
  | H1 : FieldElement_field ?a = Ok ?x, H2 : FieldElement_field ?b = Ok ?x |- _ =>
      pose proof (FieldElement_field_inj a b x H1 H2); clear H1
  | H1 : base_from_u64 ?a = base_from_u64 ?b |- _ =>
      apply u32_field_inj in H1; [|done..]
  | H1 : commit_ref_bytes ?a = commit_ref_bytes ?b |- _ =>
      apply commit_ref_bytes_inj in H1; [|done..]
  | H1 : state_ref_bytes ?a = state_ref_bytes ?b |- _ =>
      apply state_ref_bytes_inj in H1; [|done..]
  | H1 : ua_bytes ?a = ua_bytes ?b |- _ => apply ua_bytes_inj in H1
  end.

Section Digesting.
Context `{Blake2b} `{Pallas} `{!Poseidon} {E : Type}.

(** The collision two statements with one digest exhibit. *)
Definition reveal_collision (s t : RevealStatement) : Prop :=
  (∃ xs ys, RevealStatement_fields (E := E) s = Ok xs ∧ RevealStatement_fields (E := E) t = Ok ys
     ∧ fold_collision REVEAL_DOMAIN xs ys)
  ∨ bytes_collision (E := E) (lit "CoppiceNmDplF") (rvs_deployment_id s) (rvs_deployment_id t)
  ∨ bytes_collision (E := E) (lit "CoppiceNmCRef")
      (commit_ref_bytes (rvs_commit_ref s)) (commit_ref_bytes (rvs_commit_ref t))
  ∨ bytes_collision (E := E) (lit "CoppiceNmUA") (ua_bytes (rvs_ua s)) (ua_bytes (rvs_ua t)).

Definition refresh_collision (s t : RefreshStatement) : Prop :=
  (∃ xs ys, RefreshStatement_fields (E := E) s = Ok xs ∧ RefreshStatement_fields (E := E) t = Ok ys
     ∧ fold_collision REFRESH_DOMAIN xs ys)
  ∨ bytes_collision (E := E) (lit "CoppiceNmDplF") (rfs_deployment_id s) (rfs_deployment_id t)
  ∨ bytes_collision (E := E) (lit "CoppiceNmSRef")
      (state_ref_bytes (rfs_predecessor_ref s)) (state_ref_bytes (rfs_predecessor_ref t))
  ∨ bytes_collision (E := E) (lit "CoppiceNmUA") (ua_bytes (rfs_ua s)) (ua_bytes (rfs_ua t)).

(** Equal fields are equal facts, up to a collision of a byte field. *)
Lemma reveal_fields_bind s t xs :
  RevealStatement_ok s → RevealStatement_ok t →
  RevealStatement_fields (E := E) s = Ok xs → RevealStatement_fields (E := E) t = Ok xs →
  s = t ∨ reveal_collision s t.
Proof.
  intros (? & ? & ? & ? & ? & ? & ? & ? & ? & ?) (? & ? & ? & ? & ? & ? & ? & ? & ? & ?) Hs Ht.
  unfold RevealStatement_fields in Hs, Ht. inv_res.
  destruct s, t.
  unfold reveal_collision, ua_field, deployment_field, commit_ref_field in *.
  cbn [rvs_deployment_id rvs_name_id rvs_inclusion_epoch rvs_commitment rvs_commit_ref rvs_ua
    rvs_action_index rvs_action_nullifier rvs_action_commitment rvs_successor_future_nf] in *.
  same_facts. left. congruence.
Qed.

Lemma refresh_fields_bind s t xs :
  RefreshStatement_ok s → RefreshStatement_ok t →
  RefreshStatement_fields (E := E) s = Ok xs → RefreshStatement_fields (E := E) t = Ok xs →
  s = t ∨ refresh_collision s t.
Proof.
  intros (? & ? & ? & ? & ? & ? & ? & ? & ? & ? & ? & ?)
    (? & ? & ? & ? & ? & ? & ? & ? & ? & ? & ? & ?) Hs Ht.
  unfold RefreshStatement_fields in Hs, Ht. inv_res. destruct s, t.
  unfold refresh_collision, ua_field, deployment_field, state_ref_field in *.
  cbn [rfs_deployment_id rfs_name_id rfs_predecessor_ref rfs_predecessor_commitment
    rfs_predecessor_future_nf rfs_predecessor_epoch rfs_inclusion_epoch rfs_ua
    rfs_action_index rfs_action_nullifier rfs_action_commitment rfs_successor_future_nf] in *.
  same_facts. left. congruence.
Qed.

Lemma RevealStatement_fields_total s :
  RevealStatement_ok s →
  ∃ xs, RevealStatement_fields (E := E) s = Ok xs ∧ length xs = 12%nat.
Proof.
  intros (Hd & Hn & ? & Hc & (? & ? & Hr) & Hu & ? & Ha & Hb & Hf). unfold MAX_UA_BYTES in Hu.
  unfold RevealStatement_fields, deployment_field, commit_ref_field, ua_field.
  unfold commit_ref_bytes. steps_ok. by eexists.
Qed.

Lemma RefreshStatement_fields_total s :
  RefreshStatement_ok s →
  ∃ xs, RefreshStatement_fields (E := E) s = Ok xs ∧ length xs = 14%nat.
Proof.
  intros (Hd & Hn & (? & ? & Hr & ?) & Hc & Hp & ? & ? & Hu & ? & Ha & Hb & Hf).
  unfold MAX_UA_BYTES in Hu.
  unfold RefreshStatement_fields, deployment_field, state_ref_field, ua_field.
  unfold state_ref_bytes. steps_ok. by eexists.
Qed.

Lemma registration_fields_total d n e o c :
  length d = 32%nat → NameId_ok n → FieldElement_ok o → FieldElement_ok c →
  ∃ xs, registration_fields (E := E) d n e o c = Ok xs ∧ length xs = 5%nat.
Proof.
  intros. unfold registration_fields, deployment_field. steps_ok. by eexists.
Qed.
End Digesting.

(** C38: the digest of a REVEAL statement is defined and binds every public fact:
    two statements with one digest are equal, or exhibit a collision of Poseidon
    or of a hash to the field, at inputs computed from the two statements. *)
Theorem reveal_digest_binds `{Blake2b} `{Pallas} `{!Poseidon} (E : Type) (s t : RevealStatement) :
  RevealStatement_ok s → RevealStatement_ok t →
  (∃ d, RevealStatement_digest (E := E) s = Ok d ∧ length d = 32%nat)
  ∧ (RevealStatement_digest (E := E) s = RevealStatement_digest t →
     s = t ∨ reveal_collision (E := E) s t).
Proof.
  intros Hs Ht. destruct (RevealStatement_fields_total (E := E) s Hs) as (xs & Hxs & Lx).
  destruct (RevealStatement_fields_total (E := E) t Ht) as (ys & Hys & Ly).
  unfold RevealStatement_digest. rewrite Hxs, Hys. cbn [res_bind].
  split; [eexists; split; [done|apply to_repr_length]|].
  intros Hf%Ok_inj%to_repr_inj. apply fold_binds in Hf as [<-|Hc]; [| |by rewrite Lx, Ly].
  - by apply (reveal_fields_bind s t xs).
  - right. left. eauto.
Qed.

(** The same of a REFRESH statement. *)
Theorem refresh_digest_binds `{Blake2b} `{Pallas} `{!Poseidon} (E : Type) (s t : RefreshStatement) :
  RefreshStatement_ok s → RefreshStatement_ok t →
  (∃ d, RefreshStatement_digest (E := E) s = Ok d ∧ length d = 32%nat)
  ∧ (RefreshStatement_digest (E := E) s = RefreshStatement_digest t →
     s = t ∨ refresh_collision (E := E) s t).
Proof.
  intros Hs Ht. destruct (RefreshStatement_fields_total (E := E) s Hs) as (xs & Hxs & Lx).
  destruct (RefreshStatement_fields_total (E := E) t Ht) as (ys & Hys & Ly).
  unfold RefreshStatement_digest. rewrite Hxs, Hys. cbn [res_bind].
  split; [eexists; split; [done|apply to_repr_length]|].
  intros Hf%Ok_inj%to_repr_inj. apply fold_binds in Hf as [<-|Hc]; [| |by rewrite Lx, Ly].
  - by apply (refresh_fields_bind s t xs).
  - right. left. eauto.
Qed.

(** C26: a registration commitment is defined and binds its opening: two openings with
    one commitment have the same deployment, name, epoch, owner and secret, or exhibit
    a collision of Poseidon or of the hash of the deployment to the field, at inputs
    computed from the two openings. *)
Theorem registration_commitment_binds `{Blake2b} `{Pallas} `{!Poseidon} (E : Type)
  d1 n1 e1 o1 s1 d2 n2 e2 o2 s2 :
  length d1 = 32%nat → length d2 = 32%nat → NameId_ok n1 → NameId_ok n2 →
  is_u32 e1 → is_u32 e2 → FieldElement_ok o1 → FieldElement_ok o2 →
  FieldElement_ok s1 → FieldElement_ok s2 →
  (∃ c, registration_commitment (E := E) d1 n1 e1 o1 s1 = Ok c ∧ length c = 32%nat)
  ∧ (registration_commitment (E := E) d1 n1 e1 o1 s1 = registration_commitment d2 n2 e2 o2 s2 →
     (d1 = d2 ∧ n1 = n2 ∧ e1 = e2 ∧ o1 = o2 ∧ s1 = s2)
     ∨ bytes_collision (E := E) (lit "CoppiceNmDplF") d1 d2
     ∨ ∃ xs ys, registration_fields (E := E) d1 n1 e1 o1 s1 = Ok xs
         ∧ registration_fields (E := E) d2 n2 e2 o2 s2 = Ok ys
         ∧ fold_collision COMMIT_DOMAIN xs ys).
Proof.
  intros Ld1 Ld2 Hn1 Hn2 He1 He2 Ho1 Ho2 Hs1 Hs2.
  destruct (registration_fields_total (E := E) d1 n1 e1 o1 s1) as (xs & Hxs & Lx); [done..|].
  destruct (registration_fields_total (E := E) d2 n2 e2 o2 s2) as (ys & Hys & Ly); [done..|].
  unfold registration_commitment. rewrite Hxs, Hys. cbn [res_bind].
  split; [eexists; split; [done|apply to_repr_length]|].
  intros Hf%Ok_inj%to_repr_inj. apply fold_binds in Hf as [<-|Hc]; [| |by rewrite Lx, Ly].
  - unfold registration_fields, deployment_field in Hxs, Hys. inv_res. same_facts. left. auto.
  - right. right. eauto.
Qed.

(** ** Instances *)

Module StatementSamples.
Definition field (z : Z) : FieldElement := MkFieldElement (to_repr (base_from_u64 z)).
Definition reveal : RevealStatement := {|
  rvs_deployment_id := repeat x0f 32;
  rvs_name_id := MkNameId (field_bytes (field 5));
  rvs_inclusion_epoch := 17;
  rvs_commitment := MkCommitment (field_bytes (field 4));
  rvs_commit_ref := MkCommitRef 100440 0 (repeat x55 32);
  rvs_ua := MkCanonicalUa (lit "uregtest1q");
  rvs_action_index := 3;
  rvs_action_nullifier := field 6;
  rvs_action_commitment := field 7;
  rvs_successor_future_nf := field 8 |}.
Definition refresh : RefreshStatement := {|
  rfs_deployment_id := repeat x0f 32;
  rfs_name_id := MkNameId (field_bytes (field 5));
  rfs_predecessor_ref := MkStateRef 100496 0 (repeat x66 32) 3;
  rfs_predecessor_commitment := field 9;
  rfs_predecessor_future_nf := field 10;
  rfs_predecessor_epoch := 16;
  rfs_inclusion_epoch := 17;
  rfs_ua := MkCanonicalUa (lit "uregtest1q");
  rfs_action_index := 3;
  rfs_action_nullifier := field 10;
  rfs_action_commitment := field 11;
  rfs_successor_future_nf := field 12 |}.

Lemma reveal_statement_ok : RevealStatement_ok reveal.
Proof. repeat split; by vm_compute. Qed.
Lemma refresh_statement_ok : RefreshStatement_ok refresh.
Proof. repeat split; by vm_compute. Qed.
End StatementSamples.

Lemma reveal_digest_binds_witness :
  ∃ d, RevealStatement_digest (E := unit) StatementSamples.reveal = Ok d ∧ length d = 32%nat.
Proof.
  apply (reveal_digest_binds unit StatementSamples.reveal StatementSamples.reveal);
    apply StatementSamples.reveal_statement_ok.
Defined.

Lemma refresh_digest_binds_witness :
  ∃ d, RefreshStatement_digest (E := unit) StatementSamples.refresh = Ok d ∧ length d = 32%nat.
Proof.
  apply (refresh_digest_binds unit StatementSamples.refresh StatementSamples.refresh);
    apply StatementSamples.refresh_statement_ok.
Defined.

Lemma registration_commitment_binds_witness :
  ∃ c, registration_commitment (E := unit) (repeat x0f 32)
         (rvs_name_id StatementSamples.reveal) 17 (StatementSamples.field 1)
         (StatementSamples.field 2) = Ok c ∧ length c = 32%nat.
Proof.
  apply (registration_commitment_binds unit (repeat x0f 32)
           (rvs_name_id StatementSamples.reveal) 17 (StatementSamples.field 1)
           (StatementSamples.field 2) (repeat x0f 32)
           (rvs_name_id StatementSamples.reveal) 17 (StatementSamples.field 1)
           (StatementSamples.field 3)); by vm_compute.
Defined.
