(* ===== verification/Records.v ===== *)
(** * Blocks, heads and outcomes ([crates/coppice-names/src/reducer.rs])

    The data the reducer consumes and produces, the lifecycle of a head, and the
    proof-verification interface. *)

From S2P Require Import Prelude Bytes External Protocol Schedule Codec Statement.

Record Action := MkAction {
  ac_action_index : Z;
  ac_nullifier : FieldElement;
  ac_commitment : FieldElement;
}.

Record Transaction := MkTransaction {
  tx_tx_index : Z;
  tx_txid : list byte;
  tx_actions : list Action;
  tx_operation : option Operation;
}.

Record Block := MkBlock {
  bl_height : Z;
  bl_hash : list byte;
  bl_prev_hash : list byte;
  bl_transactions : list Transaction;
}.

Record ReferencedCommit := MkReferencedCommit {
  rc_reference : CommitRef;
  rc_commitment : Commitment;
}.

(** [trait ProofVerifier] *)
Class ProofVerifier (V : Type) := {
  verify_reveal : V → RevealStatement → list byte → bool;
  verify_refresh : V → RefreshStatement → list byte → bool;
}.

Record Head := MkHead {
  hd_name : Name;
  hd_ua : CanonicalUa;
  hd_producer : StateRef;
  hd_commitment : FieldElement;
  hd_future_nf : FieldElement;
  hd_producer_epoch : Z;
  hd_expiry_height : Z;
  hd_terminal_height : option Z;
}.

#[global] Instance Head_eq_dec : EqDecision Head.
Proof. solve_decision. Defined.

Inductive Lifecycle := Active | Cooldown | Missing.

#[global] Instance Lifecycle_eq_dec : EqDecision Lifecycle.
Proof. solve_decision. Defined.

(** [Head::terminal_at] *)
Definition terminal_at (self : Head) (height : Z) : option Z :=
  match hd_terminal_height self with
  | Some t => Some t
  | None => if hd_expiry_height self <=? height then Some (hd_expiry_height self) else None
  end.

(** [Head::is_claimable], on [u64]: the sum of two [u32] does not overflow. *)
Definition is_claimable (self : Head) (height : Z) (parameters : Parameters) : bool :=
  match terminal_at self height with
  | Some terminal_height => terminal_height + cooldown_blocks parameters <=? height
  | None => false
  end.

(** [Head::lifecycle] *)
Definition lifecycle (self : Head) (height : Z) (parameters : Parameters) : Lifecycle :=
  match terminal_at self height with
  | None => Active
  | Some _ => if is_claimable self height parameters then Missing else Cooldown
  end.

Record Resolution := MkResolution {
  rs_lifecycle : Lifecycle;
  rs_ua : option CanonicalUa;
  rs_head : option Head;
}.

Inductive ResolutionError :=
  | IncompleteHistory (requested_height : Z) (tip_height : option Z)
  | HistoricalResolutionUnavailable (requested_height : Z) (tip_height : Z).

Record ReducerTip := MkReducerTip { tip_height_ : Z; tip_hash : list byte }.

Record RollbackRange := MkRollbackRange { first_height : Z; last_height : Z }.

Inductive Accepted := AcceptedCommit | AcceptedReveal | AcceptedRefresh.

Record Compaction := MkCompaction {
  cp_name_id : NameId;
  cp_previous_head : StateRef;
  cp_height : Z;
}.

Record Termination := MkTermination {
  tm_name_id : NameId;
  tm_previous_head : StateRef;
  tm_height : Z;
}.

Record HeadChange := MkHeadChange {
  hc_name_id : NameId;
  hc_previous : option Head;
  hc_current : option Head;
}.

Record CommitChange := MkCommitChange {
  cc_reference : CommitRef;
  cc_previous : option Commitment;
  cc_current : option Commitment;
}.

Record StateDelta := MkStateDelta {
  from_tip : option ReducerTip;
  to_tip : option ReducerTip;
  sd_heads : list HeadChange;
  sd_commits : list CommitChange;
}.

Record OperationDecision := MkOperationDecision {
  od_accepted : option Accepted;
  od_clause_id : string;
}.

Record BlockOutcome := MkBlockOutcome {
  bo_accepted : list Accepted;
  bo_decisions : list OperationDecision;
  bo_compacted : list Compaction;
  bo_terminated : list Termination;
  bo_state_delta : StateDelta;
}.

Inductive ApplyError :=
  | ApplyInvalidParameters | WrongHeight | WrongPreviousHash | NonCanonicalTransactionIndex
  | NonCanonicalActionIndex | InvalidReferencedCommit | ConflictingReferencedCommit.

Inductive RollbackError := NoAppliedBlock | BeyondRetention | WrongTipHash.

Inductive FinalizationError := BeyondTip.

(** ** Facts of a head *)

(** The head with a terminal height. *)
Definition set_terminal (t : Z) (hd : Head) : Head :=
  {| hd_name := hd_name hd; hd_ua := hd_ua hd; hd_producer := hd_producer hd;
     hd_commitment := hd_commitment hd; hd_future_nf := hd_future_nf hd;
     hd_producer_epoch := hd_producer_epoch hd; hd_expiry_height := hd_expiry_height hd;
     hd_terminal_height := Some t |}.

Lemma lifecycle_active hd h p :
  lifecycle hd h p = Active ↔ hd_terminal_height hd = None ∧ h < hd_expiry_height hd.
Proof.
  unfold lifecycle, is_claimable, terminal_at. destruct (hd_terminal_height hd).
  - destruct (_ <=? _); naive_solver.
  - destruct (Z.leb_spec (hd_expiry_height hd) h); [|naive_solver].
    destruct (_ <=? _); naive_solver lia.
Qed.
