(* ===== verification/State.v ===== *)
(** * The reducer's state ([crates/coppice-names/src/reducer.rs])

    The authoritative maps of commitments and heads, the four derived indexes,
    the rollback journal, and the primitive updates that keep them together. *)

From S2P Require Import Prelude Bytes BTree External Protocol Schedule Codec Records.

(** ** Bucketed indexes *)

Section Index.
Context {K A : Type} `{Countable K} `{Countable A}.

(** [index.entry(key).or_default().insert(value)] *)
Definition insert_index_entry (index : gmap K (gset A)) (key : K) (value : A)
  : gmap K (gset A) :=
  <[key := {[value]} ∪ default ∅ (index !! key)]> index.

(** [remove_index_entry] *)
Definition remove_index_entry (index : gmap K (gset A)) (key : K) (value : A)
  : gmap K (gset A) :=
  match index !! key with
  | Some bucket =>
      let bucket := bucket ∖ {[value]} in
      if bool_decide (bucket = ∅) then delete key index else <[key := bucket]> index
  | None => index
  end.

(** [range(..=limit).flat_map(|(_, bucket)| bucket.iter())] of an index by
    height: by ascending height, then in the order of the bucket. *)
Definition range_through `{!OrdKey A} (index : gmap Z (gset A)) (limit : Z) : list A :=
  flat_map (λ '(_, bucket), bset_iter bucket)
    (filter (λ '(height, _), height ≤ limit) (btree_iter index)).
End Index.

(** ** State *)

Record Undo := MkUndo {
  un_height : Z;
  un_hash : list byte;
  un_previous_hash : list byte;
  un_previous_next_height : option Z;
  un_previous_tip_height : option Z;
  un_commits : gmap CommitRef (option Commitment);
  un_heads : gmap NameId (option Head);
}.

Record Reducer (V : Type) := MkReducer {
  parameters : Parameters;
  verifier : V;
  next_height : option Z;
  tip_height : option Z;
  previous_hash : list byte;
  commits : gmap CommitRef Commitment;
  heads : gmap NameId Head;
  commits_by_height : gmap Z (gset CommitRef);
  heads_by_future_nf : gmap (list byte) (gset NameId);
  active_heads_by_expiry : gmap Z (gset NameId);
  terminal_heads_by_height : gmap Z (gset NameId);
  history : list Undo;
}.
Arguments MkReducer {V}.
Arguments parameters {V}. Arguments verifier {V}. Arguments next_height {V}.
Arguments tip_height {V}. Arguments previous_hash {V}. Arguments commits {V}.
Arguments heads {V}. Arguments commits_by_height {V}. Arguments heads_by_future_nf {V}.
Arguments active_heads_by_expiry {V}. Arguments terminal_heads_by_height {V}.
Arguments history {V}.

Section Updates.
Context {V : Type}.

(** Assignments to the fields of [self]. *)
Definition set_commits (r : Reducer V) (c : gmap CommitRef Commitment)
  (by_height : gmap Z (gset CommitRef)) : Reducer V :=
  MkReducer (parameters r) (verifier r) (next_height r) (tip_height r) (previous_hash r)
    c (heads r) by_height (heads_by_future_nf r) (active_heads_by_expiry r)
    (terminal_heads_by_height r) (history r).

Definition set_heads (r : Reducer V) (h : gmap NameId Head)
  (by_nf : gmap (list byte) (gset NameId)) (active terminal : gmap Z (gset NameId))
  : Reducer V :=
  MkReducer (parameters r) (verifier r) (next_height r) (tip_height r) (previous_hash r)
    (commits r) h (commits_by_height r) by_nf active terminal (history r).

Definition set_tip (r : Reducer V) (next tip : option Z) (hash : list byte) : Reducer V :=
  MkReducer (parameters r) (verifier r) next tip hash
    (commits r) (heads r) (commits_by_height r) (heads_by_future_nf r)
    (active_heads_by_expiry r) (terminal_heads_by_height r) (history r).

Definition set_history (r : Reducer V) (h : list Undo) : Reducer V :=
  MkReducer (parameters r) (verifier r) (next_height r) (tip_height r) (previous_hash r)
    (commits r) (heads r) (commits_by_height r) (heads_by_future_nf r)
    (active_heads_by_expiry r) (terminal_heads_by_height r) h.

Definition with_un_commits (u : Undo) (c : gmap CommitRef (option Commitment)) : Undo :=
  MkUndo (un_height u) (un_hash u) (un_previous_hash u) (un_previous_next_height u)
    (un_previous_tip_height u) c (un_heads u).

Definition with_un_heads (u : Undo) (h : gmap NameId (option Head)) : Undo :=
  MkUndo (un_height u) (un_hash u) (un_previous_hash u) (un_previous_next_height u)
    (un_previous_tip_height u) (un_commits u) h.

(** [Reducer::new] *)
Definition new (p : Parameters) (activation_parent_hash : list byte) (v : V)
  : res ApplyError (Reducer V) :=
  let? p := map_err (λ _, ApplyInvalidParameters) (validate p) in
  Ok (MkReducer p v (Some (activation_height p)) None activation_parent_hash
        ∅ ∅ ∅ ∅ ∅ ∅ []).

(** [Reducer::tip], [Reducer::pending_commit] *)
Definition tip (r : Reducer V) : option ReducerTip :=
  (λ height, MkReducerTip height (previous_hash r)) <$> tip_height r.
Definition pending_commit (r : Reducer V) (reference : CommitRef) : option Commitment :=
  commits r !! reference.

(** [Reducer::new_undo], [remember_commit], [remember_head] *)
Definition new_undo (r : Reducer V) (height : Z) (hash : list byte) : Undo :=
  MkUndo height hash (previous_hash r) (next_height r) (tip_height r) ∅ ∅.

Definition remember_commit (r : Reducer V) (undo : Undo) (commit_ref : CommitRef) : Undo :=
  with_un_commits undo (entry_or_insert commit_ref (commits r !! commit_ref) (un_commits undo)).

Definition remember_head (r : Reducer V) (undo : Undo) (name_id : NameId) : Undo :=
  with_un_heads undo (entry_or_insert name_id (heads r !! name_id) (un_heads undo)).

(** [Reducer::delta_from_undo] *)
Definition delta_from_undo (r : Reducer V) (from to : option ReducerTip) (undo : Undo)
  : StateDelta := {|
  from_tip := from;
  to_tip := to;
  sd_commits := map (λ '(reference, previous),
    MkCommitChange reference previous (commits r !! reference)) (btree_iter (un_commits undo));
  sd_heads := map (λ '(name_id, previous),
    MkHeadChange name_id previous (heads r !! name_id)) (btree_iter (un_heads undo)) |}.

(** [Reducer::replace_commit]; its inlined bucket removal is that of
    [remove_index_entry]. *)
Definition replace_commit (r : Reducer V) (reference : CommitRef)
  (commitment : option Commitment) : Reducer V :=
  let r :=
    match commits r !! reference with
    | Some _ =>
        set_commits r (delete reference (commits r))
          (remove_index_entry (commits_by_height r) (cr_height reference) reference)
    | None => r
    end in
  match commitment with
  | Some commitment =>
      set_commits r (<[reference := commitment]> (commits r))
        (insert_index_entry (commits_by_height r) (cr_height reference) reference)
  | None => r
  end.

(** The removal of a head's index entries, at the start of [replace_head]. *)
Definition unindex_head (r : Reducer V) (name_id : NameId) : Reducer V :=
  match heads r !! name_id with
  | Some previous =>
      set_heads r (delete name_id (heads r))
        (remove_index_entry (heads_by_future_nf r) (field_bytes (hd_future_nf previous)) name_id)
        (match hd_terminal_height previous with
         | Some _ => active_heads_by_expiry r
         | None => remove_index_entry (active_heads_by_expiry r) (hd_expiry_height previous) name_id
         end)
        (match hd_terminal_height previous with
         | Some height => remove_index_entry (terminal_heads_by_height r) height name_id
         | None => terminal_heads_by_height r
         end)
  | None => r
  end.

(** The index entries of a head, in [replace_head] and in
    [rebuild_derived_indexes]. *)
Definition index_head (r : Reducer V) (name_id : NameId) (hd : Head) : Reducer V :=
  set_heads r (heads r)
    (insert_index_entry (heads_by_future_nf r) (field_bytes (hd_future_nf hd)) name_id)
    (match hd_terminal_height hd with
     | Some _ => active_heads_by_expiry r
     | None => insert_index_entry (active_heads_by_expiry r) (hd_expiry_height hd) name_id
     end)
    (match hd_terminal_height hd with
     | Some height => insert_index_entry (terminal_heads_by_height r) height name_id
     | None => terminal_heads_by_height r
     end).

(** [Reducer::replace_head] *)
Definition replace_head (r : Reducer V) (name_id : NameId) (head : option Head) : Reducer V :=
  let r := unindex_head r name_id in
  match head with
  | Some hd =>
      let r := index_head r name_id hd in
      set_heads r (<[name_id := hd]> (heads r)) (heads_by_future_nf r)
        (active_heads_by_expiry r) (terminal_heads_by_height r)
  | None => r
  end.

(** [Reducer::rebuild_derived_indexes] *)
Definition rebuild_derived_indexes (r : Reducer V) : Reducer V :=
  let r := set_heads (set_commits r (commits r) ∅) (heads r) ∅ ∅ ∅ in
  let r := fold_left (λ r reference,
    set_commits r (commits r)
      (insert_index_entry (commits_by_height r) (cr_height reference) reference))
    (btree_keys (commits r)) r in
  fold_left (λ r '(name_id, hd), index_head r name_id hd) (btree_iter (heads r)) r.
End Updates.

(** ** Properties *)

Section IndexFacts.
Context {K A : Type} `{Countable K} `{Countable A}.

(** An index that lists exactly the pairs of [R], without empty buckets. *)
Definition index_ok (R : K → A → Prop) (index : gmap K (gset A)) : Prop :=
  (∀ k a, a ∈ default ∅ (index !! k) ↔ R k a) ∧ ∀ k, index !! k ≠ Some ∅.

Lemma index_ok_unique R (i j : gmap K (gset A)) : index_ok R i → index_ok R j → i = j.
Proof.
  intros [Hi Ni] [Hj Nj]. apply map_eq. intros k.
  assert (default ∅ (i !! k) = default ∅ (j !! k)) as E.
  { apply set_eq. intros a. by rewrite Hi, Hj. }
  specialize (Ni k). specialize (Nj k).
  destruct (i !! k), (j !! k); simpl in E; congruence.
Qed.

Lemma index_ok_iff R S (i : gmap K (gset A)) :
  (∀ k a, R k a ↔ S k a) → index_ok R i → index_ok S i.
Proof. intros HRS [Hi Ni]. split; [|done]. intros k a. by rewrite Hi, HRS. Qed.

Lemma index_ok_empty (R : K → A → Prop) : (∀ k a, ¬ R k a) → index_ok R ∅.
Proof.
  intros HR. split; [|by intros k; rewrite lookup_empty].
  intros k a. rewrite lookup_empty. simpl. pose proof (HR k a). set_solver.
Qed.

Lemma index_ok_insert R i k a :
  index_ok R i → index_ok (λ k' a', (k' = k ∧ a' = a) ∨ R k' a') (insert_index_entry i k a).
Proof.
  intros [Hi Ni]. unfold insert_index_entry. split.
  - intros k' a'. destruct (decide (k' = k)) as [->|Hne].
    + rewrite lookup_insert_eq. simpl. rewrite <- Hi. set_solver.
    + rewrite lookup_insert_ne, Hi by done. naive_solver.
  - intros k'. destruct (decide (k' = k)) as [->|Hne].
    + rewrite lookup_insert_eq. intros [= E]. set_solver.
    + by rewrite lookup_insert_ne.
Qed.

Lemma index_ok_remove R i k a :
  index_ok R i → index_ok (λ k' a', R k' a' ∧ ¬ (k' = k ∧ a' = a)) (remove_index_entry i k a).
Proof.
  intros [Hi Ni]. unfold remove_index_entry. destruct (i !! k) as [b|] eqn:Ek.
  - assert (∀ a', a' ∈ b ↔ R k a') as Hb by (intros a'; by rewrite <- Hi, Ek).
    case_bool_decide as Eb.
    + split.
      * intros k' a'. destruct (decide (k' = k)) as [->|Hne].
        -- rewrite lookup_delete_eq. simpl. rewrite <- Hb. set_solver.
        -- rewrite lookup_delete_ne, Hi by done. naive_solver.
      * intros k'. destruct (decide (k' = k)) as [->|Hne].
        -- by rewrite lookup_delete_eq.
        -- by rewrite lookup_delete_ne.
    + split.
      * intros k' a'. destruct (decide (k' = k)) as [->|Hne].
        -- rewrite lookup_insert_eq. simpl. rewrite <- Hb. set_solver.
        -- rewrite lookup_insert_ne, Hi by done. naive_solver.
      * intros k'. destruct (decide (k' = k)) as [->|Hne].
        -- rewrite lookup_insert_eq. congruence.
        -- by rewrite lookup_insert_ne.
  - split; [|done]. intros k' a'. rewrite Hi.
    destruct (decide (k' = k)) as [->|Hne]; [|naive_solver].
    rewrite <- Hi, Ek. simpl. set_solver.
Qed.
End IndexFacts.

Lemma elem_of_range_through {A} `{Countable A} `{!OrdKey A} (R : Z → A → Prop) i limit a :
  index_ok R i → a ∈ range_through i limit ↔ ∃ h, h ≤ limit ∧ R h a.
Proof.
  intros [Hi _]. unfold range_through. rewrite list_elem_of_In, in_flat_map. split.
  - intros ([h b] & Hin & Ha). simpl in Ha. apply list_elem_of_In in Hin. apply list_elem_of_In in Ha.
    apply list_elem_of_filter in Hin as [Hh Hin]. rewrite elem_of_btree_iter in Hin.
    rewrite elem_of_bset_iter in Ha. exists h. split; [done|]. apply Hi. by rewrite Hin.
  - intros (h & Hh & Ha). apply Hi in Ha. destruct (i !! h) as [b|] eqn:E; simpl in Ha; [|set_solver].
    exists (h, b). simpl. rewrite <- !list_elem_of_In. split; [|by rewrite elem_of_bset_iter].
    apply list_elem_of_filter. rewrite elem_of_btree_iter. done.
Qed.

(** When only the last height of a range is inhabited, the range is one bucket. *)
Lemma range_through_last {A} `{Countable A} `{!OrdKey A} (R : Z → A → Prop) i limit :
  index_ok R i → (∀ k a, R k a → k ≤ limit → k = limit) →
  range_through i limit = bset_iter (default ∅ (i !! limit)).
Proof.
  intros [Hi Hne] Hlast. unfold range_through.
  set (l := filter _ (btree_iter i)).
  assert (∀ k b, (k, b) ∈ l ↔ k = limit ∧ i !! limit = Some b) as Hl.
  { intros k b. unfold l. rewrite list_elem_of_filter, elem_of_btree_iter. split.
    - intros [Hk Hb]. specialize (Hne k). rewrite Hb in Hne.
      destruct (set_choose_L b) as [a Ha]; [congruence|].
      assert (R k a) as HR by (apply Hi; by rewrite Hb). by rewrite <- (Hlast k a HR Hk).
    - intros [-> Hb]. split; [lia|done]. }
  assert (NoDup l) as Hnd by apply NoDup_filter, (NoDup_fmap_1 fst), NoDup_btree_iter.
  destruct l as [|[k b] [|[k' b'] l']].
  - destruct (i !! limit) as [b|] eqn:E; [|symmetry; apply bset_iter_empty].
    exfalso. eapply not_elem_of_nil, Hl. eauto.
  - destruct (proj1 (Hl k b) (list_elem_of_here _ _)) as [-> ->]. simpl. by rewrite app_nil_r.
  - destruct (proj1 (Hl k b) (list_elem_of_here _ _)) as [-> E].
    destruct (proj1 (Hl k' b')) as [-> E']; [right; left|].
    rewrite E in E'. injection E' as <-. apply NoDup_cons in Hnd as [Hn _].
    exfalso. apply Hn. left.
Qed.

(** The authoritative pairs each index must list. *)
Definition by_height (c : gmap CommitRef Commitment) (h : Z) (r : CommitRef) : Prop :=
  is_Some (c !! r) ∧ cr_height r = h.
Definition by_future_nf (m : gmap NameId Head) (nf : list byte) (i : NameId) : Prop :=
  ∃ hd, m !! i = Some hd ∧ field_bytes (hd_future_nf hd) = nf.
Definition by_expiry (m : gmap NameId Head) (h : Z) (i : NameId) : Prop :=
  ∃ hd, m !! i = Some hd ∧ hd_terminal_height hd = None ∧ hd_expiry_height hd = h.
Definition by_terminal (m : gmap NameId Head) (h : Z) (i : NameId) : Prop :=
  ∃ hd, m !! i = Some hd ∧ hd_terminal_height hd = Some h.

Section Indexed.
Context {V : Type}.
Implicit Types r : Reducer V.

(** The indexes are exactly those of the records. *)
Record indexed (r : Reducer V) : Prop := {
  indexed_commits : index_ok (by_height (commits r)) (commits_by_height r);
  indexed_nf : index_ok (by_future_nf (heads r)) (heads_by_future_nf r);
  indexed_expiry : index_ok (by_expiry (heads r)) (active_heads_by_expiry r);
  indexed_terminal : index_ok (by_terminal (heads r)) (terminal_heads_by_height r);
}.

(** The state without its indexes determines it. *)
Lemma indexed_unique r s :
  indexed r → indexed s → parameters r = parameters s → verifier r = verifier s →
  next_height r = next_height s → tip_height r = tip_height s →
  previous_hash r = previous_hash s → commits r = commits s → heads r = heads s →
  history r = history s → r = s.
Proof.
  destruct r, s. intros [Hc Hn He Ht] [Hc' Hn' He' Ht']. simpl in *. intros; subst.
  f_equal; by eapply index_ok_unique.
Qed.

(** [replace_commit] on the records. *)
Lemma replace_commit_eq r c o :
  commits (replace_commit r c o) = partial_alter (λ _, o) c (commits r)
  ∧ heads (replace_commit r c o) = heads r ∧ parameters (replace_commit r c o) = parameters r
  ∧ verifier (replace_commit r c o) = verifier r ∧ next_height (replace_commit r c o) = next_height r
  ∧ tip_height (replace_commit r c o) = tip_height r
  ∧ previous_hash (replace_commit r c o) = previous_hash r
  ∧ history (replace_commit r c o) = history r.
Proof.
  unfold replace_commit. split.
  - apply map_eq. intros k.
    destruct (commits r !! c) eqn:E, o; simpl; destruct (decide (k = c)) as [->|Hne];
      rewrite ?lookup_partial_alter_eq, ?lookup_insert_eq, ?lookup_delete_eq by done;
      rewrite ?lookup_partial_alter_ne, ?lookup_insert_ne, ?lookup_delete_ne by done; done.
  - by destruct (commits r !! c), o.
Qed.

Lemma replace_head_eq r i o :
  heads (replace_head r i o) = partial_alter (λ _, o) i (heads r)
  ∧ commits (replace_head r i o) = commits r ∧ parameters (replace_head r i o) = parameters r
  ∧ verifier (replace_head r i o) = verifier r ∧ next_height (replace_head r i o) = next_height r
  ∧ tip_height (replace_head r i o) = tip_height r
  ∧ previous_hash (replace_head r i o) = previous_hash r
  ∧ history (replace_head r i o) = history r.
Proof.
  unfold replace_head, unindex_head. split.
  - apply map_eq. intros k.
    destruct (heads r !! i) eqn:E, o; simpl; destruct (decide (k = i)) as [->|Hne];
      rewrite ?lookup_partial_alter_eq, ?lookup_insert_eq, ?lookup_delete_eq by done;
      rewrite ?lookup_partial_alter_ne, ?lookup_insert_ne, ?lookup_delete_ne by done; done.
  - by destruct (heads r !! i), o.
Qed.
End Indexed.

Section Preservation.
Context {V : Type}.
Implicit Types r : Reducer V.

(** Solves the set equation of an index after one record changed. *)
Ltac index_iff k :=
  let i := fresh "i" in
  intros ? i; unfold by_height, by_future_nf, by_expiry, by_terminal; simpl;
  destruct (decide (i = k)) as [->|];
  rewrite ?lookup_insert_eq, ?lookup_delete_eq by done;
  rewrite ?lookup_insert_ne, ?lookup_delete_ne by done;
  try (unfold is_Some in *; naive_solver).

Lemma replace_commit_indexed r c o : indexed r → indexed (replace_commit r c o).
Proof.
  intros [Hc Hn He Ht]. unfold replace_commit.
  assert (∀ m i x, index_ok (by_height m) i →
    index_ok (by_height (<[c := x]> m)) (insert_index_entry i (cr_height c) c)) as Hins.
  { intros m i x Hm. eapply index_ok_iff; [|by apply index_ok_insert]. index_iff c. }
  assert (∀ m i x, m !! c = Some x → index_ok (by_height m) i →
    index_ok (by_height (delete c m)) (remove_index_entry i (cr_height c) c)) as Hdel.
  { intros m i x Hx Hm. eapply index_ok_iff; [|by apply index_ok_remove]. index_iff c. }
  destruct (commits r !! c) eqn:E, o; constructor; simpl; eauto.
Qed.

Lemma unindex_head_indexed r i :
  indexed r → indexed (unindex_head r i) ∧ heads (unindex_head r i) = delete i (heads r).
Proof.
  intros [Hc Hn He Ht]. unfold unindex_head. destruct (heads r !! i) as [hd|] eqn:E.
  2: { split; [done|]. by rewrite delete_id. }
  split; [|done]. constructor; simpl; [done|..].
  - eapply index_ok_iff; [|by apply index_ok_remove]. index_iff i.
  - destruct (hd_terminal_height hd) eqn:T.
    + eapply index_ok_iff; [|done]. index_iff i.
    + eapply index_ok_iff; [|by apply index_ok_remove]. index_iff i.
  - destruct (hd_terminal_height hd) eqn:T.
    + eapply index_ok_iff; [|by apply index_ok_remove]. index_iff i.
    + eapply index_ok_iff; [|done]. index_iff i.
Qed.

Lemma index_head_indexed r i hd :
  indexed r → heads r !! i = None →
  let s := index_head r i hd in
  indexed (set_heads s (<[i := hd]> (heads s)) (heads_by_future_nf s)
             (active_heads_by_expiry s) (terminal_heads_by_height s)).
Proof.
  intros [Hc Hn He Ht] E. constructor; simpl; [done|..].
  - eapply index_ok_iff; [|by apply index_ok_insert]. index_iff i.
  - destruct (hd_terminal_height hd) eqn:T.
    + eapply index_ok_iff; [|done]. index_iff i.
    + eapply index_ok_iff; [|by apply index_ok_insert]. index_iff i.
  - destruct (hd_terminal_height hd) eqn:T.
    + eapply index_ok_iff; [|by apply index_ok_insert]. index_iff i.
    + eapply index_ok_iff; [|done]. index_iff i.
Qed.

Lemma replace_head_indexed r i o : indexed r → indexed (replace_head r i o).
Proof.
  intros Hr. unfold replace_head.
  destruct (unindex_head_indexed r i Hr) as [Hu Eu].
  destruct o as [hd|]; [|done]. apply index_head_indexed; [done|].
  by rewrite Eu, lookup_delete_eq.
Qed.
End Preservation.

Section Rebuild.
Context {V : Type}.
Implicit Types r : Reducer V.

(** The state before the loops of [rebuild_derived_indexes]. *)
Definition cleared r : Reducer V := set_heads (set_commits r (commits r) ∅) (heads r) ∅ ∅ ∅.

Lemma rebuild_commits l r R :
  index_ok R (commits_by_height r) →
  let s := fold_left (λ r reference,
    set_commits r (commits r)
      (insert_index_entry (commits_by_height r) (cr_height reference) reference)) l r in
  index_ok (λ h c, R h c ∨ (c ∈ l ∧ cr_height c = h)) (commits_by_height s)
  ∧ s = set_commits r (commits r) (commits_by_height s).
Proof.
  revert r R. induction l as [|x l IH]; intros r R HR; simpl.
  - split; [|by destruct r]. eapply index_ok_iff; [|done]. set_solver.
  - set (r1 := set_commits r (commits r) _).
    destruct (IH r1 _ (index_ok_insert _ _ (cr_height x) x HR)) as [HI HE].
    split; [|by rewrite HE]. eapply index_ok_iff; [|exact HI].
    intros h c. simpl. set_solver.
Qed.

Lemma rebuild_heads (l : list (NameId * Head)) r (Rn : list byte → NameId → Prop) Re Rt :
  index_ok Rn (heads_by_future_nf r) → index_ok Re (active_heads_by_expiry r) →
  index_ok Rt (terminal_heads_by_height r) →
  let s := fold_left (λ r '(i, hd), index_head r i hd) l r in
  index_ok (λ nf i, Rn nf i ∨ ∃ hd, (i, hd) ∈ l ∧ field_bytes (hd_future_nf hd) = nf)
    (heads_by_future_nf s)
  ∧ index_ok (λ h i, Re h i ∨ ∃ hd, (i, hd) ∈ l ∧ hd_terminal_height hd = None
                                    ∧ hd_expiry_height hd = h) (active_heads_by_expiry s)
  ∧ index_ok (λ h i, Rt h i ∨ ∃ hd, (i, hd) ∈ l ∧ hd_terminal_height hd = Some h)
    (terminal_heads_by_height s)
  ∧ s = set_heads r (heads r) (heads_by_future_nf s) (active_heads_by_expiry s)
          (terminal_heads_by_height s).
Proof.
  revert r Rn Re Rt. induction l as [|[i hd] l IH]; intros r Rn Re Rt Hn He Ht; simpl.
  - split; [|split; [|split; [|by destruct r]]]; (eapply index_ok_iff; [|done]); set_solver.
  - assert (index_ok (λ h j, Re h j ∨ (j = i ∧ hd_terminal_height hd = None ∧ hd_expiry_height hd = h))
      (active_heads_by_expiry (index_head r i hd))) as He'.
    { simpl. destruct (hd_terminal_height hd) eqn:T.
      - eapply index_ok_iff; [|done]. clear -T. naive_solver.
      - eapply index_ok_iff; [|by apply index_ok_insert]. clear -T. naive_solver. }
    assert (index_ok (λ h j, Rt h j ∨ (j = i ∧ hd_terminal_height hd = Some h))
      (terminal_heads_by_height (index_head r i hd))) as Ht'.
    { simpl. destruct (hd_terminal_height hd) eqn:T.
      - eapply index_ok_iff; [|by apply index_ok_insert]. clear -T. naive_solver.
      - eapply index_ok_iff; [|done]. clear -T. naive_solver. }
    pose proof (index_ok_insert _ _ (field_bytes (hd_future_nf hd)) i Hn) as Hn'.
    destruct (IH (index_head r i hd) _ _ _ Hn' He' Ht') as (In & Ie & It & HE).
    split; [|split; [|split; [|by rewrite HE at 1]]].
    + eapply index_ok_iff; [|exact In]. intros h j. simpl. setoid_rewrite elem_of_cons. clear. naive_solver.
    + eapply index_ok_iff; [|exact Ie]. intros h j. simpl. setoid_rewrite elem_of_cons. clear. naive_solver.
    + eapply index_ok_iff; [|exact It]. intros h j. simpl. setoid_rewrite elem_of_cons. clear. naive_solver.
Qed.

Lemma rebuild_indexed r :
  indexed (rebuild_derived_indexes r)
  ∧ (indexed r → rebuild_derived_indexes r = r).
Proof.
  unfold rebuild_derived_indexes. fold (cleared r).
  destruct (rebuild_commits (btree_keys (commits r)) (cleared r) (λ _ _, False)) as [Hc Ec];
    [by apply index_ok_empty; auto|].
  change (commits (cleared r)) with (commits r). set (s := fold_left _ _ (cleared r)) in *.
  destruct (rebuild_heads (btree_iter (heads s)) s (λ _ _, False) (λ _ _, False) (λ _ _, False))
    as (Hn & He & Ht & Eh).
  1-3: rewrite Ec; by apply index_ok_empty; auto.
  set (t := fold_left _ _ s) in *.
  assert (heads s = heads r) as Hs by by rewrite Ec.
  assert (heads t = heads r ∧ commits t = commits r ∧ commits_by_height t = commits_by_height s)
    as (Hh & Hcm & Hch) by (rewrite Eh; simpl; rewrite Hs, Ec; done).
  assert (indexed t) as Hi.
  { constructor; rewrite ?Hh, ?Hcm, ?Hch.
    - eapply index_ok_iff; [|exact Hc]. intros h c. unfold by_height.
      rewrite elem_of_btree_keys. clear. naive_solver.
    - eapply index_ok_iff; [|exact Hn]. intros h c. unfold by_future_nf.
      setoid_rewrite elem_of_btree_iter. rewrite Hs. clear. naive_solver.
    - eapply index_ok_iff; [|exact He]. intros h c. unfold by_expiry.
      setoid_rewrite elem_of_btree_iter. rewrite Hs. clear. naive_solver.
    - eapply index_ok_iff; [|exact Ht]. intros h c. unfold by_terminal.
      setoid_rewrite elem_of_btree_iter. rewrite Hs. clear. naive_solver. }
  split; [done|]. intros Hr. apply indexed_unique; try done; rewrite Eh, Ec; done.
Qed.
End Rebuild.

(** The updates do not read the journal. *)
Lemma replace_commit_set_history {V} (r : Reducer V) h c o :
  replace_commit (set_history r h) c o = set_history (replace_commit r c o) h.
Proof. unfold replace_commit. simpl. by destruct (commits r !! c), o. Qed.
Lemma replace_head_set_history {V} (r : Reducer V) h i o :
  replace_head (set_history r h) i o = set_history (replace_head r i o) h.
Proof. unfold replace_head, unindex_head. simpl. by destruct (heads r !! i), o. Qed.

(** The lemmas above are the interface of the two updates. *)
#[global] Opaque replace_commit replace_head.
