(* ===== verification/Reducer.v ===== *)
(** * The canonical reducer ([crates/coppice-names/src/reducer.rs])

    Block application, rollback, finalization and resolution, as functions on
    the state of [State]. *)

From S2P Require Import Prelude Bytes BTree External Protocol Schedule Codec Statement Records.
From S2P Require Import State.

(** What the loop over a block's transactions accumulates. *)
Record Progress (V : Type) := MkProgress {
  pg_st : Reducer V * Undo;
  pg_accepted : list Accepted;
  pg_decisions : list OperationDecision;
  pg_terminated : list Termination;
}.
Arguments MkProgress {V}. Arguments pg_st {V}. Arguments pg_accepted {V}.
Arguments pg_decisions {V}. Arguments pg_terminated {V}.

Section Reduce.
Context `{Blake2b} `{Pallas} {V : Type} `{!ProofVerifier V}.

(** The pair of the reducer and the block's [&mut Undo]. *)
#[local] Notation St := (Reducer V * Undo)%type.

(** ** Start of a block *)

(** [Reducer::prune_commits] *)
Definition prune_commits (height : Z) (st : St) : St :=
  match u32_checked_sub height (commit_ttl_blocks (parameters st.1)) with
  | None => st
  | Some last_expired_height =>
      fold_left (λ '(r, undo) commit_ref,
        let undo := remember_commit r undo commit_ref in
        (replace_commit r commit_ref None, undo))
        (range_through (commits_by_height st.1) last_expired_height) st
  end.

(** [Reducer::mark_expired] *)
Definition mark_expired (height : Z) (st : St) : St :=
  fold_left (λ '(r, undo) name_id,
    let undo := remember_head r undo name_id in
    match heads r !! name_id with
    | Some head => (replace_head r name_id (Some (set_terminal (hd_expiry_height head) head)), undo)
    | None => (r, undo)
    end)
    (range_through (active_heads_by_expiry st.1) height) st.

(** [(name_id, self.heads[&name_id].producer)] *)
Definition producer_of {E : Type} (r : Reducer V) (name_id : NameId) : res E (NameId * StateRef) :=
  let? head := expect (heads r !! name_id) in Ok (name_id, hd_producer head).

(** [Reducer::compact_claimable] *)
Definition compact_claimable {E : Type} (height : Z) (st : St) : res E (list Compaction * St) :=
  match u32_checked_sub height (cooldown_blocks (parameters st.1)) with
  | None => Ok ([], st)
  | Some last_claimable_terminal =>
      let? claimable := res_mapM (producer_of st.1)
        (range_through (terminal_heads_by_height st.1) last_claimable_terminal) in
      let st := fold_left (λ '(r, undo) '(name_id, _),
        let undo := remember_head r undo name_id in
        (replace_head r name_id None, undo)) claimable st in
      Ok (map (λ '(name_id, previous_head), MkCompaction name_id previous_head height) claimable, st)
  end.

(** ** Operations *)

(** The statement [apply_reveal] has verified. *)
Definition reveal_statement (p : Parameters) (name_id : NameId) (e : Z) (commitment : Commitment)
  (commit : CommitRef) (ua : CanonicalUa) (action_index : Z) (action : Action)
  (successor_future_nf : FieldElement) : RevealStatement := {|
  rvs_deployment_id := deployment_id p;
  rvs_name_id := name_id;
  rvs_inclusion_epoch := e;
  rvs_commitment := commitment;
  rvs_commit_ref := commit;
  rvs_ua := ua;
  rvs_action_index := action_index;
  rvs_action_nullifier := ac_nullifier action;
  rvs_action_commitment := ac_commitment action;
  rvs_successor_future_nf := successor_future_nf |}.

(** The statement [apply_refresh] has verified. *)
Definition refresh_statement (p : Parameters) (name_id : NameId) (predecessor_head : Head) (e : Z)
  (predecessor : StateRef) (ua : CanonicalUa) (action_index : Z) (action : Action)
  (successor_future_nf : FieldElement) : RefreshStatement := {|
  rfs_deployment_id := deployment_id p;
  rfs_name_id := name_id;
  rfs_predecessor_ref := predecessor;
  rfs_predecessor_commitment := hd_commitment predecessor_head;
  rfs_predecessor_future_nf := hd_future_nf predecessor_head;
  rfs_predecessor_epoch := hd_producer_epoch predecessor_head;
  rfs_inclusion_epoch := e;
  rfs_ua := ua;
  rfs_action_index := action_index;
  rfs_action_nullifier := ac_nullifier action;
  rfs_action_commitment := ac_commitment action;
  rfs_successor_future_nf := successor_future_nf |}.

(** The [Head] both operations install. *)
Definition produced_head (name : Name) (ua : CanonicalUa) (height : Z) (transaction : Transaction)
  (action_index : Z) (action : Action) (successor_future_nf : FieldElement) (e expiry_height : Z)
  : Head := {|
  hd_name := name;
  hd_ua := ua;
  hd_producer := MkStateRef height (tx_tx_index transaction) (tx_txid transaction) action_index;
  hd_commitment := ac_commitment action;
  hd_future_nf := successor_future_nf;
  hd_producer_epoch := e;
  hd_expiry_height := expiry_height;
  hd_terminal_height := None |}.

(** The guards of [Reducer::apply_reveal], in order, and the head it installs. *)
Definition check_reveal (r : Reducer V) (height : Z) (transaction : Transaction)
  (operation : Operation) : res string (NameId * Head) :=
  match operation with
  | Reveal name commit ua action_index successor_future_nf proof =>
      let? name_id := map_err (λ _, "NAMES.REVEAL.MISSING"%string) (Name_id name) in
      let? _ := ensure (bool_decide (heads r !! name_id = None)) "NAMES.REVEAL.MISSING"%string in
      let? scheduled := accepts_operation (parameters r) name_id height in
      let? _ := ensure scheduled "NAMES.REVEAL.SCHEDULE"%string in
      let? _ := ensure (accepts_commit (parameters r) (cr_height commit) height)
                  "NAMES.REVEAL.COMMIT"%string in
      let? commitment := ok_or (commits r !! commit) "NAMES.REVEAL.COMMIT"%string in
      let? action := ok_or (tx_actions transaction !! Z.to_nat action_index)
                       "NAMES.REVEAL.ACTION"%string in
      let? _ := ensure (ac_action_index action =? action_index) "NAMES.REVEAL.ACTION"%string in
      let? e := map_err (λ _, "NAMES.REVEAL.SCHEDULE"%string) (epoch (parameters r) height) in
      let statement := reveal_statement (parameters r) name_id e commitment commit ua action_index
                         action successor_future_nf in
      let? _ := ensure (verify_reveal (verifier r) statement proof) "NAMES.REVEAL.PROOF"%string in
      let? expiry_height := map_err (λ _, "NAMES.REVEAL.SCHEDULE"%string)
                              (expiry (parameters r) height) in
      Ok (name_id, produced_head name ua height transaction action_index action
                     successor_future_nf e expiry_height)
  | _ => Err "NAMES.REVEAL.MISSING"%string
  end.

(** The guards of [Reducer::apply_refresh], in order, and the head it installs. *)
Definition check_refresh (r : Reducer V) (height : Z) (transaction : Transaction)
  (operation : Operation) : res string (NameId * Head) :=
  match operation with
  | Refresh name predecessor ua action_index successor_future_nf proof =>
      let? name_id := map_err (λ _, "NAMES.REFRESH.CURRENT"%string) (Name_id name) in
      let? predecessor_head := ok_or (heads r !! name_id) "NAMES.REFRESH.CURRENT"%string in
      let? e := map_err (λ _, "NAMES.REFRESH.SCHEDULE"%string) (epoch (parameters r) height) in
      let? _ := ensure (bool_decide (lifecycle predecessor_head height (parameters r) = Active)
                        && bool_decide (hd_producer predecessor_head = predecessor))
                  "NAMES.REFRESH.CURRENT"%string in
      let? _ := ensure (hd_producer_epoch predecessor_head <? e) "NAMES.REFRESH.EPOCH"%string in
      let? scheduled := accepts_operation (parameters r) name_id height in
      let? _ := ensure scheduled "NAMES.REFRESH.SCHEDULE"%string in
      let? action := ok_or (tx_actions transaction !! Z.to_nat action_index)
                       "NAMES.REFRESH.ACTION"%string in
      let? _ := ensure ((ac_action_index action =? action_index)
                        && bool_decide (ac_nullifier action = hd_future_nf predecessor_head))
                  "NAMES.REFRESH.ACTION"%string in
      let statement := refresh_statement (parameters r) name_id predecessor_head e predecessor ua
                         action_index action successor_future_nf in
      let? _ := ensure (verify_refresh (verifier r) statement proof) "NAMES.REFRESH.PROOF"%string in
      let? expiry_height := map_err (λ _, "NAMES.REFRESH.SCHEDULE"%string)
                              (expiry (parameters r) height) in
      Ok (name_id, produced_head name ua height transaction action_index action
                     successor_future_nf e expiry_height)
  | _ => Err "NAMES.REFRESH.CURRENT"%string
  end.

(** The writes that end [apply_reveal] and [apply_refresh]. *)
Definition install (st : St) (checked : res string (NameId * Head)) : res string (NameId * St) :=
  let? (name_id, head) := checked in
  let undo := remember_head st.1 st.2 name_id in
  Ok (name_id, (replace_head st.1 name_id (Some head), undo)).

(** [Reducer::apply_reveal], [Reducer::apply_refresh] *)
Definition apply_reveal (height : Z) (transaction : Transaction) (operation : Operation)
  (st : St) : res string (NameId * St) :=
  install st (check_reveal st.1 height transaction operation).

Definition apply_refresh (height : Z) (transaction : Transaction) (operation : Operation)
  (st : St) : res string (NameId * St) :=
  install st (check_refresh st.1 height transaction operation).

(** The [match] on the result of an operation: a rejected one writes nothing. *)
Definition decide_operation {E : Type} (st : St) (result : res string (NameId * St))
  (kind : Accepted) (clause : string) : res E (OperationDecision * St) :=
  match result with
  | Ok (_, st) => Ok (MkOperationDecision (Some kind) clause, st)
  | Err clause_id => Ok (MkOperationDecision None clause_id, st)
  | Panic => Panic
  end.

(** The operation phase of [apply_transaction_detailed]. *)
Definition apply_operation {E : Type} (height : Z) (transaction : Transaction) (st : St)
  : res E (OperationDecision * St) :=
  match tx_operation transaction with
  | Some (Commit commitment) =>
      let commit_ref := MkCommitRef height (tx_tx_index transaction) (tx_txid transaction) in
      let undo := remember_commit st.1 st.2 commit_ref in
      Ok (MkOperationDecision (Some AcceptedCommit) "NAMES.COMMIT.ACCEPT",
          (replace_commit st.1 commit_ref (Some commitment), undo))
  | Some (Reveal _ _ _ _ _ _ as operation) =>
      decide_operation st (apply_reveal height transaction operation st)
        AcceptedReveal "NAMES.REVEAL.ACCEPT"
  | Some (Refresh _ _ _ _ _ _ as operation) =>
      decide_operation st (apply_refresh height transaction operation st)
        AcceptedRefresh "NAMES.REFRESH.ACCEPT"
  | None => Ok (MkOperationDecision None "NAMES.BLOCK.ORDER", st)
  end.

(** The heads whose future nullifier an action of the transaction spends. *)
Definition spent_ids (r : Reducer V) (transaction : Transaction) : gset NameId :=
  list_to_set (flat_map (λ action,
    match heads_by_future_nf r !! field_bytes (ac_nullifier action) with
    | Some name_ids => elements name_ids
    | None => []
    end) (tx_actions transaction)).

(** The loop body over [spent]. *)
Definition terminate (height : Z) (acc : St * list Termination) (spent : NameId * StateRef)
  : St * list Termination :=
  let '((r, undo), terminated) := acc in
  let '(name_id, spent_producer) := spent in
  match heads r !! name_id with
  | Some head =>
      if bool_decide (hd_producer head = spent_producer) then
        let undo := with_un_heads undo (entry_or_insert name_id (Some head) (un_heads undo)) in
        match hd_terminal_height head with
        | None =>
            ((replace_head r name_id (Some (set_terminal height head)), undo),
             terminated ++ [MkTermination name_id spent_producer height])
        | Some _ => ((r, undo), terminated)
        end
      else ((r, undo), terminated)
  | None => ((r, undo), terminated)
  end.

(** [Reducer::apply_transaction_detailed] *)
Definition apply_transaction_detailed {E : Type} (height : Z) (transaction : Transaction)
  (st : St) (terminated : list Termination) : res E (OperationDecision * (St * list Termination)) :=
  let? spent := res_mapM (producer_of st.1) (bset_iter (spent_ids st.1 transaction)) in
  let? (decision, st) := apply_operation height transaction st in
  Ok (decision, fold_left (terminate height) spent (st, terminated)).

(** ** Blocks *)

Fixpoint check_action_indices (index : Z) (actions : list Action) : res ApplyError unit :=
  match actions with
  | [] => Ok tt
  | action :: actions =>
      let? _ := ensure (ac_action_index action =? default u32_max (u32_try_from index))
                  NonCanonicalActionIndex in
      check_action_indices (index + 1) actions
  end.

Fixpoint check_transactions (previous_tx_index : option Z) (txs : list Transaction)
  : res ApplyError unit :=
  match txs with
  | [] => Ok tt
  | tx :: txs =>
      let? _ := ensure (match previous_tx_index with
                        | Some previous => previous <? tx_tx_index tx
                        | None => true
                        end) NonCanonicalTransactionIndex in
      let? _ := check_action_indices 0 (tx_actions tx) in
      check_transactions (Some (tx_tx_index tx)) txs
  end.

Definition reveal_references (block : Block) : gset CommitRef :=
  list_to_set (omap (λ tx, match tx_operation tx with
                           | Some (Reveal _ commit _ _ _ _) => Some commit
                           | _ => None
                           end) (bl_transactions block)).

(** Whether a recorded commitment disagrees with the evidence. *)
Definition conflicts (prior : option Commitment) (commitment : Commitment) : bool :=
  match prior with Some prior => bool_decide (prior ≠ commitment) | None => false end.

(** The loop body over [referenced_commits]. *)
Definition admit_evidence (r : Reducer V) (block : Block)
  (supplied : gmap CommitRef Commitment) (evidence : ReferencedCommit)
  : res ApplyError (gmap CommitRef Commitment) :=
  let reference := rc_reference evidence in
  let? _ := ensure (bool_decide (reference ∈ reveal_references block)
                    && (activation_height (parameters r) <=? cr_height reference)
                    && (cr_height reference <? bl_height block)) InvalidReferencedCommit in
  let? age := expect (u32_checked_sub (bl_height block) (cr_height reference)) in
  let? _ := ensure (age <? commit_ttl_blocks (parameters r)) InvalidReferencedCommit in
  let? _ := ensure (negb (conflicts (supplied !! reference) (rc_commitment evidence))
                    && negb (conflicts (commits r !! reference) (rc_commitment evidence)))
              ConflictingReferencedCommit in
  Ok (<[reference := rc_commitment evidence]> supplied).

(** The checks of [apply_block_detailed] before it writes. *)
Definition check_block (r : Reducer V) (block : Block) (referenced_commits : list ReferencedCommit)
  : res ApplyError (gmap CommitRef Commitment) :=
  let? _ := ensure (bool_decide (Some (bl_height block) = next_height r)) WrongHeight in
  let? _ := ensure (bool_decide (bl_prev_hash block = previous_hash r)) WrongPreviousHash in
  let? _ := check_transactions None (bl_transactions block) in
  res_fold (admit_evidence r block) ∅ referenced_commits.

(** The admission of the evidence to the store. *)
Definition admit_supplied (supplied : gmap CommitRef Commitment) (st : St) : St :=
  fold_left (λ '(r, undo) '(reference, commitment),
    let undo := remember_commit r undo reference in
    (replace_commit r reference (Some commitment), undo)) (btree_iter supplied) st.

Definition apply_next {E : Type} (height : Z) (pg : Progress V) (transaction : Transaction)
  : res E (Progress V) :=
  let? (decision, (st, terminated)) :=
    apply_transaction_detailed height transaction (pg_st pg) (pg_terminated pg) in
  let accepted := match od_accepted decision with
                  | Some value => pg_accepted pg ++ [value]
                  | None => pg_accepted pg
                  end in
  Ok (MkProgress st accepted (pg_decisions pg ++ [decision]) terminated).

(** The block-start phase: expiry, compaction, pruning, evidence. *)
Definition begin_block {E : Type} (r : Reducer V) (block : Block)
  (supplied : gmap CommitRef Commitment) : res E (list Compaction * St) :=
  let st := mark_expired (bl_height block) (r, new_undo r (bl_height block) (bl_hash block)) in
  let? (compacted, st) := compact_claimable (bl_height block) st in
  let st := prune_commits (bl_height block) st in
  Ok (compacted, admit_supplied supplied st).

(** The part of [apply_block_detailed] that writes. *)
Definition transition {E : Type} (r : Reducer V) (block : Block)
  (supplied : gmap CommitRef Commitment) : res E (BlockOutcome * Reducer V) :=
  let? (compacted, st) := begin_block r block supplied in
  let? pg := res_fold (apply_next (bl_height block)) (MkProgress st [] [] []) (bl_transactions block) in
  let '(r', undo) := pg_st pg in
  let r' := set_tip r' (u32_checked_add (bl_height block) 1) (Some (bl_height block)) (bl_hash block) in
  let state_delta := delta_from_undo r' (tip r) (tip r') undo in
  Ok (MkBlockOutcome (pg_accepted pg) (pg_decisions pg) compacted (pg_terminated pg) state_delta,
      set_history r' (history r' ++ [undo])).

(** [Reducer::apply_block_detailed].  The state beside a [Panic] is not
    meaningful. *)
Definition apply_block_detailed (block : Block) (referenced_commits : list ReferencedCommit)
  : M (Reducer V) ApplyError BlockOutcome :=
  let! r := mget in
  let! supplied := mlift (check_block r block referenced_commits) in
  let! (outcome, r) := mlift (transition r block supplied) in
  let! _ := mmodify (λ _, r) in
  mret outcome.

(** [Reducer::apply_block], [Reducer::apply_block_with_referenced_commits] *)
Definition apply_block_with_referenced_commits (block : Block)
  (referenced_commits : list ReferencedCommit) : M (Reducer V) ApplyError (list Accepted) :=
  let! outcome := apply_block_detailed block referenced_commits in mret (bo_accepted outcome).
Definition apply_block (block : Block) : M (Reducer V) ApplyError (list Accepted) :=
  apply_block_with_referenced_commits block [].

(** ** Rollback and finalization *)

(** The restoring loops of [rollback_tip_detailed]. *)
Definition restore_commits (l : list (CommitRef * option Commitment)) (r : Reducer V) : Reducer V :=
  fold_left (λ r '(commit_ref, previous), replace_commit r commit_ref previous) l r.
Definition restore_heads (l : list (NameId * option Head)) (r : Reducer V) : Reducer V :=
  fold_left (λ r '(name_id, previous), replace_head r name_id previous) l r.

(** [Reducer::rollback_tip_detailed] *)
Definition rollback_tip_detailed (expected_hash : list byte)
  : M (Reducer V) RollbackError StateDelta := λ r,
  match last (history r) with
  | None =>
      (Err (match tip_height r with Some _ => BeyondRetention | None => NoAppliedBlock end), r)
  | Some undo =>
      if bool_decide (un_hash undo ≠ expected_hash) || bool_decide (previous_hash r ≠ expected_hash)
      then (Err WrongTipHash, r)
      else
        let from := tip r in
        let r1 := set_history r (removelast (history r)) in
        let r2 := restore_commits (btree_iter (un_commits undo)) r1 in
        let r3 := restore_heads (btree_iter (un_heads undo)) r2 in
        let r4 := set_tip r3 (un_previous_next_height undo) (un_previous_tip_height undo)
                    (un_previous_hash undo) in
        (Ok {| from_tip := from;
               to_tip := tip r4;
               sd_commits := map (λ reference,
                 MkCommitChange reference (commits r1 !! reference) (commits r4 !! reference))
                 (btree_keys (un_commits undo));
               sd_heads := map (λ name_id,
                 MkHeadChange name_id (heads r1 !! name_id) (heads r4 !! name_id))
                 (btree_keys (un_heads undo)) |}, r4)
  end.

(** [Reducer::rollback_tip] *)
Definition rollback_tip (expected_hash : list byte) : M (Reducer V) RollbackError unit :=
  let! _ := rollback_tip_detailed expected_hash in mret tt.

(** The [while] loop of [finalize_through]. *)
Fixpoint drop_finalized (height : Z) (h : list Undo) : list Undo :=
  match h with
  | undo :: h' => if un_height undo <=? height then drop_finalized height h' else h
  | [] => []
  end.

(** [Reducer::finalize_through] *)
Definition finalize_through (height : Z) : M (Reducer V) FinalizationError unit := λ r,
  match tip_height r with
  | Some tip => if tip <? height then (Err BeyondTip, r)
                else (Ok tt, set_history r (drop_finalized height (history r)))
  | None => (Err BeyondTip, r)
  end.

(** [rollback_range] *)
Definition rollback_range (h : list Undo) : option RollbackRange :=
  first ← head h; last ← last h; Some (MkRollbackRange (un_height first) (un_height last)).

(** ** Resolution *)

Definition missing : Resolution := MkResolution Missing None None.

(** The view of a head at a height, the end of [Reducer::resolve]. *)
Definition resolve_head (p : Parameters) (o : option Head) (height : Z) : Resolution :=
  match o with
  | None => missing
  | Some head =>
      match lifecycle head height p with
      | Missing => missing
      | Active => MkResolution Active (Some (hd_ua head)) (Some head)
      | Cooldown => MkResolution Cooldown None (Some head)
      end
  end.

(** [Reducer::resolve] *)
Definition resolve {E : Type} (r : Reducer V) (name : Name) (height : Z)
  : res E Resolution :=
  match Name_id name with
  | Ok name_id => Ok (resolve_head (parameters r) (heads r !! name_id) height)
  | Err _ => Ok missing
  | Panic => Panic
  end.

(** [Reducer::resolve_authenticated] *)
Definition resolve_authenticated (r : Reducer V) (name : Name) (height : Z)
  : res ResolutionError Resolution :=
  if bool_decide (tip_height r = None)
     && bool_decide (u32_checked_sub (activation_height (parameters r)) 1 = Some height)
  then resolve r name height
  else
    let? _ := ensure (match tip_height r with Some tip => height <=? tip | None => false end)
                (IncompleteHistory height (tip_height r)) in
    if bool_decide (tip_height r ≠ Some height) then
      let? tip := expect (tip_height r) in
      Err (HistoricalResolutionUnavailable height tip)
    else resolve r name height.

(** [Reducer::is_exact_for] *)
Definition is_exact_for (r : Reducer V) (name_id : NameId) : bool :=
  forallb (λ candidate, bool_decide (candidate = name_id)) (btree_keys (heads r))
  && forallb (λ undo,
       forallb (λ candidate, bool_decide (candidate = name_id)) (btree_keys (un_heads undo)))
       (history r).
End Reduce.
