(* ===== verification/Journal.v ===== *)
(** * Writes, the journal and rollback

    Every operation of the reducer is a sequence of journaled writes; the
    journal of a block records what it overwrote, so [rollback_tip] restores
    the state before the block. *)

From S2P Require Import Prelude Bytes BTree External Protocol Schedule Codec Statement Records.
From S2P Require Import State Reducer.

Section Writes.
Context `{Blake2b} `{Pallas} {V : Type} `{!ProofVerifier V}.
#[local] Notation St := (Reducer V * Undo)%type.
Implicit Types (r : Reducer V) (u : Undo) (st : St).

(** One journaled write. *)
Inductive write : St → St → Prop :=
  | write_commit r u c o : write (r, u) (replace_commit r c o, remember_commit r u c)
  | write_head r u i o : write (r, u) (replace_head r i o, remember_head r u i)
  | write_remember r u i : write (r, u) (r, remember_head r u i).

#[local] Notation writes := (rtc write).

(** A journaled write that deletes nothing. *)
Inductive grow : St → St → Prop :=
  | grow_commit r u c k : grow (r, u) (replace_commit r c (Some k), remember_commit r u c)
  | grow_head r u i hd : grow (r, u) (replace_head r i (Some hd), remember_head r u i)
  | grow_remember r u i : is_Some (heads r !! i) → grow (r, u) (r, remember_head r u i).

#[local] Notation grows := (rtc grow).

Lemma grows_writes st st' : grows st st' → writes st st'.
Proof.
  induction 1 as [|st st1 st' Hg _ IH]; [apply rtc_refl|]. eapply rtc_l; [|exact IH].
  destruct Hg; constructor.
Qed.

Lemma grows_fold {A} (f : St → A → St) (l : list A) st :
  (∀ st x, grows st (f st x)) → grows st (fold_left f l st).
Proof.
  intros Hf. revert st. induction l as [|x l IH]; intros st; simpl; [apply rtc_refl|].
  etrans; [apply Hf|apply IH].
Qed.

Lemma grows_commit r u c k : grows (r, u) (replace_commit r c (Some k), remember_commit r u c).
Proof. apply rtc_once, grow_commit. Qed.
Lemma grows_head r u i hd : grows (r, u) (replace_head r i (Some hd), remember_head r u i).
Proof. apply rtc_once, grow_head. Qed.

Lemma writes_fold {A} (f : St → A → St) (l : list A) st :
  (∀ st x, writes st (f st x)) → writes st (fold_left f l st).
Proof.
  intros Hf. revert st. induction l as [|x l IH]; intros st; simpl; [apply rtc_refl|].
  etrans; [apply Hf|apply IH].
Qed.

Lemma writes_commit r u c o : writes (r, u) (replace_commit r c o, remember_commit r u c).
Proof. apply rtc_once, write_commit. Qed.
Lemma writes_head r u i o : writes (r, u) (replace_head r i o, remember_head r u i).
Proof. apply rtc_once, write_head. Qed.
#[local] Hint Resolve writes_commit writes_head rtc_refl : core.

Lemma mark_expired_writes h st : writes st (mark_expired h st).
Proof.
  apply writes_fold. intros [r u] i.
  destruct (heads r !! i); [apply writes_head|apply rtc_once, write_remember].
Qed.

Lemma prune_commits_writes h st : writes st (prune_commits h st).
Proof.
  unfold prune_commits. destruct (u32_checked_sub _ _); [|auto].
  apply writes_fold. intros [r u] c. apply (writes_commit r u c None).
Qed.

Lemma compact_claimable_writes {E} h st l st' :
  compact_claimable (E := E) h st = Ok (l, st') → writes st st'.
Proof.
  unfold compact_claimable. destruct (u32_checked_sub _ _); intros Hc; inv_res; [|auto].
  apply writes_fold. intros [r u] [i p]. apply (writes_head r u i None).
Qed.

Lemma admit_supplied_grows m st : grows st (admit_supplied m st).
Proof. apply grows_fold. intros [r u] [c x]. apply grows_commit. Qed.

Lemma install_grows st m i st' : install st m = Ok (i, st') → grows st st'.
Proof.
  intros ([j hd] & _ & Hi)%res_bind_Ok. apply Ok_inj in Hi as [= <- <-].
  destruct st. apply grows_head.
Qed.

Lemma apply_operation_grows {E} h tx st d st' :
  apply_operation (E := E) h tx st = Ok (d, st') → grows st st'.
Proof.
  unfold apply_operation, decide_operation, apply_reveal, apply_refresh.
  destruct (tx_operation tx) as [[]|]; intros Ho; inv_res; auto.
  - destruct st. apply grows_commit.
  - destruct (install _ _) as [[i s]|e|] eqn:Hi; inv_res; [by eapply install_grows|apply rtc_refl].
  - destruct (install _ _) as [[i s]|e|] eqn:Hi; inv_res; [by eapply install_grows|apply rtc_refl].
Qed.

Lemma terminate_grows h l acc : grows acc.1 (fold_left (terminate h) l acc).1.
Proof.
  revert acc. induction l as [|[i p] l IH]; intros [[r u] t]; simpl; [apply rtc_refl|].
  etrans; [|apply IH]. clear IH. destruct (heads r !! i) as [hd|] eqn:E; [|apply rtc_refl].
  case_bool_decide; [|apply rtc_refl]. rewrite <- E.
  destruct (hd_terminal_height hd); [apply rtc_once, grow_remember; by rewrite E|apply grows_head].
Qed.

Lemma apply_transaction_inv {E} h tx st t d st' t' :
  apply_transaction_detailed (E := E) h tx st t = Ok (d, (st', t')) →
  ∃ spent st1, res_mapM (producer_of (E := E) st.1) (bset_iter (spent_ids st.1 tx)) = Ok spent
    ∧ apply_operation (E := E) h tx st = Ok (d, st1)
    ∧ fold_left (terminate h) spent (st1, t) = (st', t').
Proof.
  intros (spent & Hs & ([d1 st1] & Ho & [= -> Hf]%Ok_inj)%res_bind_Ok)%res_bind_Ok.
  exists spent, st1. done.
Qed.

Lemma apply_transaction_grows {E} h tx st t d st' t' :
  apply_transaction_detailed (E := E) h tx st t = Ok (d, (st', t')) → grows st st'.
Proof.
  intros (spent & st1 & _ & Ho & Hf)%apply_transaction_inv.
  etrans; [by eapply apply_operation_grows|].
  pose proof (terminate_grows h spent (st1, t)) as Hw. by rewrite Hf in Hw.
Qed.

Lemma apply_transaction_writes {E} h tx st t d st' t' :
  apply_transaction_detailed (E := E) h tx st t = Ok (d, (st', t')) → writes st st'.
Proof. intros Ht. by eapply grows_writes, apply_transaction_grows. Qed.

Lemma apply_next_grows {E} h l pg pg' :
  res_fold (apply_next (E := E) h) pg l = Ok pg' → grows (pg_st pg) (pg_st pg').
Proof.
  revert pg. induction l as [|tx l IH]; intros pg Hr; simpl in Hr; [inv_res; apply rtc_refl|].
  apply res_bind_Ok in Hr as (pg1 & Hn & Hr). etrans; [|by eapply IH].
  apply res_bind_Ok in Hn as ([d [s t]] & Ht & [= <-]%Ok_inj).
  by eapply apply_transaction_grows.
Qed.

Lemma apply_next_writes {E} h l pg pg' :
  res_fold (apply_next (E := E) h) pg l = Ok pg' → writes (pg_st pg) (pg_st pg').
Proof. intros Hr. by eapply grows_writes, apply_next_grows. Qed.

Lemma begin_block_writes {E} r block m l st :
  begin_block (E := E) r block m = Ok (l, st) →
  writes (r, new_undo r (bl_height block) (bl_hash block)) st.
Proof.
  intros ([l1 st1] & Hc & [= -> <-]%Ok_inj)%res_bind_Ok.
  etrans; [apply mark_expired_writes|]. etrans; [by eapply compact_claimable_writes|].
  etrans; [apply prune_commits_writes|]. apply grows_writes, admit_supplied_grows.
Qed.

(** ** What the journal records *)

(** The state reached from [r0] by journaled writes. *)
Record tracks (r0 : Reducer V) (height : Z) (hash : list byte) (st : St) : Prop := {
  tr_indexed : indexed st.1;
  tr_commits c :
    match un_commits st.2 !! c with
    | Some o => commits r0 !! c = o
    | None => commits st.1 !! c = commits r0 !! c
    end;
  tr_heads i :
    match un_heads st.2 !! i with
    | Some o => heads r0 !! i = o
    | None => heads st.1 !! i = heads r0 !! i
    end;
  tr_parameters : parameters st.1 = parameters r0;
  tr_verifier : verifier st.1 = verifier r0;
  tr_next : next_height st.1 = next_height r0;
  tr_tip : tip_height st.1 = tip_height r0;
  tr_hash : previous_hash st.1 = previous_hash r0;
  tr_history : history st.1 = history r0;
  tr_undo : st.2 = MkUndo height hash (previous_hash r0) (next_height r0) (tip_height r0)
                     (un_commits st.2) (un_heads st.2);
}.

Lemma tracks_start r height hash :
  indexed r → tracks r height hash (r, new_undo r height hash).
Proof. intros Hr. constructor; done. Qed.

Lemma tracks_write r0 height hash st st' :
  tracks r0 height hash st → write st st' → tracks r0 height hash st'.
Proof.
  intros [Hi Hc Hh Hp Hv Hn Ht Hph Hhi Hu] Hw.
  destruct Hw as [r u c o|r u i o|r u i]; cbn [fst snd] in *.
  - destruct (replace_commit_eq r c o) as (Ec & Eh & ? & ? & ? & ? & ? & ?).
    constructor; cbn [fst snd remember_commit with_un_commits un_commits un_heads];
      [by apply replace_commit_indexed| | |congruence..|by rewrite Hu].
    + intros k. rewrite Ec, lookup_entry_or_insert. specialize (Hc k).
      case_decide as D; [subst k|by rewrite lookup_partial_alter_ne].
      by destruct (un_commits u !! c).
    + intros k. rewrite Eh. apply Hh.
  - destruct (replace_head_eq r i o) as (Eh & Ec & ? & ? & ? & ? & ? & ?).
    constructor; cbn [fst snd remember_head with_un_heads un_commits un_heads];
      [by apply replace_head_indexed| | |congruence..|by rewrite Hu].
    + intros k. rewrite Ec. apply Hc.
    + intros k. rewrite Eh, lookup_entry_or_insert. specialize (Hh k).
      case_decide as D; [subst k|by rewrite lookup_partial_alter_ne].
      by destruct (un_heads u !! i).
  - constructor; cbn [fst snd remember_head with_un_heads un_commits un_heads];
      [done|done| |done..|by rewrite Hu].
    intros k. rewrite lookup_entry_or_insert. specialize (Hh k).
    case_decide as D; [subst k|done]. by destruct (un_heads u !! i).
Qed.

Lemma tracks_writes r0 height hash st st' :
  tracks r0 height hash st → writes st st' → tracks r0 height hash st'.
Proof. intros Ht Hw. induction Hw; [done|]. eauto using tracks_write. Qed.
End Writes.

Section Rollback.
Context `{Blake2b} `{Pallas} {V : Type} `{!ProofVerifier V}.
Implicit Types (r : Reducer V) (u : Undo).

(** The loops of a rollback on the records. *)
Lemma restore_commits_eq l r :
  NoDup l.*1 → indexed r →
  let s := restore_commits l r in
  indexed s
  ∧ (∀ c, commits s !! c = default (commits r !! c) (btree_collect l !! c))
  ∧ heads s = heads r ∧ parameters s = parameters r ∧ verifier s = verifier r
  ∧ history s = history r.
Proof.
  induction l as [|[c o] l IH] using rev_ind; intros Hnd Hr; cbv zeta; [done|].
  rewrite fmap_app in Hnd. apply NoDup_app in Hnd as (Hnd & _ & _).
  destruct (IH Hnd Hr) as (Hi & Hc & Hh & Hp & Hv & Hs).
  unfold restore_commits. rewrite fold_left_app. fold (restore_commits l r). simpl.
  destruct (replace_commit_eq (restore_commits l r) c o) as (Ec & Eh & ? & ? & _ & _ & _ & ?).
  split; [by apply replace_commit_indexed|]. split; [|repeat split; congruence].
  intros k. rewrite Ec, btree_collect_snoc. destruct (decide (k = c)) as [->|].
  - by rewrite lookup_partial_alter_eq, lookup_insert_eq.
  - by rewrite lookup_partial_alter_ne, lookup_insert_ne, Hc by done.
Qed.

Lemma restore_heads_eq l r :
  NoDup l.*1 → indexed r →
  let s := restore_heads l r in
  indexed s
  ∧ (∀ i, heads s !! i = default (heads r !! i) (btree_collect l !! i))
  ∧ commits s = commits r ∧ parameters s = parameters r ∧ verifier s = verifier r
  ∧ history s = history r.
Proof.
  induction l as [|[i o] l IH] using rev_ind; intros Hnd Hr; cbv zeta; [done|].
  rewrite fmap_app in Hnd. apply NoDup_app in Hnd as (Hnd & _ & _).
  destruct (IH Hnd Hr) as (Hi & Hc & Hh & Hp & Hv & Hs).
  unfold restore_heads. rewrite fold_left_app. fold (restore_heads l r). simpl.
  destruct (replace_head_eq (restore_heads l r) i o) as (Ec & Eh & ? & ? & _ & _ & _ & ?).
  split; [by apply replace_head_indexed|]. split; [|repeat split; congruence].
  intros k. rewrite Ec, btree_collect_snoc. destruct (decide (k = i)) as [->|].
  - by rewrite lookup_partial_alter_eq, lookup_insert_eq.
  - by rewrite lookup_partial_alter_ne, lookup_insert_ne, Hc by done.
Qed.

(** An applied block: the writes made, and the state and delta they give. *)
Lemma apply_block_inv block refs r out r' :
  indexed r → apply_block_detailed block refs r = (Ok out, r') →
  ∃ r1 u, tracks r (bl_height block) (bl_hash block) (r1, u)
    ∧ r' = set_history (set_tip r1 (u32_checked_add (bl_height block) 1)
                          (Some (bl_height block)) (bl_hash block)) (history r ++ [u])
    ∧ bo_state_delta out = delta_from_undo r' (tip r) (tip r') u.
Proof.
  intros Hr Ha. unfold apply_block_detailed in Ha.
  apply sbind_Ok in Ha as (r2 & s2 & [= <- <-] & Ha).
  apply sbind_Ok in Ha as (m & s2 & [_ <-]%mlift_Ok & Ha).
  apply sbind_Ok in Ha as ([out1 r3] & s2 & [Ht <-]%mlift_Ok & Ha).
  apply sbind_Ok in Ha as (? & s2 & [= <-] & Ha).
  unfold mret in Ha. injection Ha as <- <-.
  unfold transition in Ht.
  apply res_bind_Ok in Ht as ([l st] & Hb & Ht). apply res_bind_Ok in Ht as (pg & Hp & Ht).
  destruct (pg_st pg) as [r1 u] eqn:Epg. apply Ok_inj in Ht.
  assert (tracks r (bl_height block) (bl_hash block) (r1, u)) as Htr.
  { eapply tracks_writes; [by apply tracks_start|]. etrans; [by eapply begin_block_writes|].
    apply apply_next_writes in Hp. by rewrite Epg in Hp. }
  exists r1, u. split; [done|]. pose proof (tr_history _ _ _ _ Htr) as Hh. simpl in Hh.
  pose proof (f_equal snd Ht) as E2. pose proof (f_equal fst Ht) as E1.
  cbn [fst snd] in E1, E2. subst r3 out1.
  rewrite <- E2. cbn [set_tip history bo_state_delta]. by rewrite Hh.
Qed.
End Rollback.

(** The delta read backwards. *)
Definition inverse_delta (d : StateDelta) : StateDelta := {|
  from_tip := to_tip d;
  to_tip := from_tip d;
  sd_heads := map (λ c, MkHeadChange (hc_name_id c) (hc_current c) (hc_previous c)) (sd_heads d);
  sd_commits := map (λ c, MkCommitChange (cc_reference c) (cc_current c) (cc_previous c))
                  (sd_commits d) |}.

(** Rolling back the block just applied gives back the state before it. *)
Lemma rollback_apply `{Blake2b} `{Pallas} {V : Type} `{!ProofVerifier V}
  (block : Block) (refs : list ReferencedCommit) (r r' : Reducer V) (out : BlockOutcome) :
  indexed r → apply_block_detailed block refs r = (Ok out, r') →
  rollback_tip_detailed (bl_hash block) r' = (Ok (inverse_delta (bo_state_delta out)), r).
Proof.
  intros Hr (r1 & u & Htr & -> & ->)%apply_block_inv; [|done].
  destruct Htr as [Hi Hc Hh Hp Hv Hn Ht Hph Hhi Hu]. cbn [fst snd] in *.
  unfold rollback_tip_detailed. cbn [history set_history previous_hash set_tip].
  rewrite last_snoc, removelast_last.
  assert (un_hash u = bl_hash block) as -> by by rewrite Hu.
  rewrite !bool_decide_false by tauto. cbn [orb].
  set (s0 := set_history _ (history r)).
  assert (indexed s0) as Hs0 by by destruct Hi; constructor.
  destruct (restore_commits_eq (btree_iter (un_commits u)) s0 (NoDup_btree_iter _) Hs0)
    as (Hi2 & Hc2 & Hh2 & Hp2 & Hv2 & Hhi2).
  set (s2 := restore_commits _ _) in *.
  destruct (restore_heads_eq (btree_iter (un_heads u)) s2 (NoDup_btree_iter _) Hi2)
    as (Hi3 & Hh3 & Hc3 & Hp3 & Hv3 & Hhi3).
  set (s3 := restore_heads _ _) in *.
  assert (commits s3 = commits r) as Ec.
  { rewrite Hc3. apply map_eq. intros k. rewrite Hc2, btree_collect_iter. specialize (Hc k).
    by destruct (un_commits u !! k). }
  assert (heads s3 = heads r) as Eh.
  { apply map_eq. intros k. rewrite Hh3, btree_collect_iter. specialize (Hh k). rewrite Hh2.
    by destruct (un_heads u !! k). }
  assert (set_tip s3 (un_previous_next_height u) (un_previous_tip_height u) (un_previous_hash u) = r)
    as ->.
  { apply indexed_unique; cbn; try done; try (by rewrite Hu); try congruence.
    - by destruct Hi3; constructor.
    - by rewrite Hp3, Hp2.
    - by rewrite Hv3, Hv2.
    - by rewrite Hhi3, Hhi2. }
  f_equal. f_equal. unfold inverse_delta, delta_from_undo. cbn [to_tip from_tip sd_heads sd_commits].
  f_equal.
  - rewrite map_map. symmetry. apply btree_iter_map. intros k v Hk. cbn.
    specialize (Hh k). by rewrite Hk in Hh; rewrite Hh.
  - rewrite map_map. symmetry. apply btree_iter_map. intros k v Hk. cbn.
    specialize (Hc k). by rewrite Hk in Hc; rewrite Hc.
Qed.

(** C5: rolling back the block just applied gives back the exact state before
    it, indexes and journal included, together with the inverse of the delta the
    block reported; the delta lists every record that changed, with its value
    before and after. *)
Theorem rollback_restores `{Blake2b} `{Pallas} {V : Type} `{!ProofVerifier V}
  (block : Block) (refs : list ReferencedCommit) (r r' : Reducer V) (out : BlockOutcome) :
  indexed r → apply_block_detailed block refs r = (Ok out, r') →
  rollback_tip_detailed (bl_hash block) r' = (Ok (inverse_delta (bo_state_delta out)), r)
  ∧ (∀ c, c ∈ sd_commits (bo_state_delta out) →
       cc_previous c = commits r !! cc_reference c ∧ cc_current c = commits r' !! cc_reference c)
  ∧ (∀ c, c ∈ sd_heads (bo_state_delta out) →
       hc_previous c = heads r !! hc_name_id c ∧ hc_current c = heads r' !! hc_name_id c)
  ∧ (∀ k, k ∉ map cc_reference (sd_commits (bo_state_delta out)) → commits r' !! k = commits r !! k)
  ∧ (∀ i, i ∉ map hc_name_id (sd_heads (bo_state_delta out)) → heads r' !! i = heads r !! i).
Proof.
  intros Hi Ha. split; [by apply (rollback_apply block refs)|].
  destruct (apply_block_inv block refs r out r' Hi Ha) as (r1 & u & [_ Hc Hh _ _ _ _ _ _ _] & -> & ->).
  cbn [fst snd] in *. unfold delta_from_undo. cbn [sd_commits sd_heads]. rewrite !map_map.
  split; [|split; [|split]].
  - intros c ([k o] & -> & Hin%elem_of_btree_iter)%list_elem_of_fmap. simpl.
    specialize (Hc k). by rewrite Hin in Hc.
  - intros c ([k o] & -> & Hin%elem_of_btree_iter)%list_elem_of_fmap. simpl.
    specialize (Hh k). by rewrite Hin in Hh.
  - intros k Hk. specialize (Hc k). simpl. destruct (un_commits u !! k) as [o|] eqn:E; [|done].
    exfalso. apply Hk, list_elem_of_fmap. exists (k, o). by rewrite elem_of_btree_iter.
  - intros k Hk. specialize (Hh k). simpl. destruct (un_heads u !! k) as [o|] eqn:E; [|done].
    exfalso. apply Hk, list_elem_of_fmap. exists (k, o). by rewrite elem_of_btree_iter.
Qed.
