(* ===== verification/Ledger.v ===== *)
(** * The index-free ledger, and the reducer as its refinement

    The specification of a block on the two authoritative maps alone: every
    rule is a whole-map definition, with no index, no journal and no order of
    visits.  The reducer of [Reducer] computes exactly this. *)

From S2P Require Import Prelude Bytes BTree External Protocol Schedule Codec Statement Records.
From S2P Require Import State Reducer Journal.

(** ** Specification *)

Record Ledger := MkLedger {
  lg_commits : gmap CommitRef Commitment;
  lg_heads : gmap NameId Head;
}.

(** An active head whose lease has ended becomes terminal at its expiry. *)
Definition expire (height : Z) (hd : Head) : Head :=
  if bool_decide (hd_terminal_height hd = None) && (hd_expiry_height hd <=? height)
  then set_terminal (hd_expiry_height hd) hd else hd.

(** A terminal head is deleted when its cooldown has passed. *)
Definition cooled (p : Parameters) (height : Z) (hd : Head) : bool :=
  match hd_terminal_height hd with
  | Some t => t + cooldown_blocks p <=? height
  | None => false
  end.

Definition start_heads (p : Parameters) (height : Z) (m : gmap NameId Head) : gmap NameId Head :=
  filter (λ x, cooled p height x.2 = false) (expire height <$> m).

(** A commitment is live for the TTL. *)
Definition live_commits (p : Parameters) (height : Z) (m : gmap CommitRef Commitment)
  : gmap CommitRef Commitment :=
  filter (λ x, height < cr_height x.1 + commit_ttl_blocks p) m.

Definition start_ledger (p : Parameters) (height : Z) (supplied : gmap CommitRef Commitment)
  (l : Ledger) : Ledger :=
  MkLedger (supplied ∪ live_commits p height (lg_commits l)) (start_heads p height (lg_heads l)).

(** A transaction spends a head when one of its actions reveals the head's
    future nullifier. *)
Definition spends (tx : Transaction) (hd : Head) : bool :=
  existsb (λ a, bool_decide (field_bytes (ac_nullifier a) = field_bytes (hd_future_nf hd)))
    (tx_actions tx).

(** Whether the head [hd] after the operation is the spent head [before] it. *)
Definition terminates (tx : Transaction) (before : gmap NameId Head) (i : NameId) (hd : Head) : bool :=
  match before !! i with
  | Some hd0 => spends tx hd0 && bool_decide (hd_producer hd = hd_producer hd0)
                && bool_decide (hd_terminal_height hd = None)
  | None => false
  end.

Definition end_spent (height : Z) (tx : Transaction) (before after : gmap NameId Head)
  : gmap NameId Head :=
  map_imap (λ i hd, Some (if terminates tx before i hd then set_terminal height hd else hd)) after.

Definition spent_terminations (height : Z) (tx : Transaction) (before after : gmap NameId Head)
  : list Termination :=
  omap (λ i, hd ← after !! i;
             if terminates tx before i hd then Some (MkTermination i (hd_producer hd) height) else None)
    (btree_keys before).

Section Spec.
Context `{Blake2b} `{Pallas} {V : Type} `{!ProofVerifier V}.

(** The guards of an operation read the parameters, the verifier and the two
    maps, and nothing else of a reducer. *)
Definition view (p : Parameters) (v : V) (l : Ledger) : Reducer V :=
  MkReducer p v None None [] (lg_commits l) (lg_heads l) ∅ ∅ ∅ ∅ [].

(** An update installs its head. *)
Definition ledger_update {E : Type} (l : Ledger) (checked : res string (NameId * Head))
  (kind : Accepted) (clause : string) : res E (OperationDecision * Ledger) :=
  match checked with
  | Ok (i, hd) => Ok (MkOperationDecision (Some kind) clause,
                      MkLedger (lg_commits l) (<[i := hd]> (lg_heads l)))
  | Err clause_id => Ok (MkOperationDecision None clause_id, l)
  | Panic => Panic
  end.

Definition ledger_operation {E : Type} (p : Parameters) (v : V) (height : Z) (tx : Transaction)
  (l : Ledger) : res E (OperationDecision * Ledger) :=
  match tx_operation tx with
  | Some (Commit commitment) =>
      Ok (MkOperationDecision (Some AcceptedCommit) "NAMES.COMMIT.ACCEPT",
          MkLedger (<[MkCommitRef height (tx_tx_index tx) (tx_txid tx) := commitment]> (lg_commits l))
            (lg_heads l))
  | Some (Reveal _ _ _ _ _ _ as op) =>
      ledger_update l (check_reveal (view p v l) height tx op) AcceptedReveal "NAMES.REVEAL.ACCEPT"
  | Some (Refresh _ _ _ _ _ _ as op) =>
      ledger_update l (check_refresh (view p v l) height tx op) AcceptedRefresh "NAMES.REFRESH.ACCEPT"
  | None => Ok (MkOperationDecision None "NAMES.BLOCK.ORDER", l)
  end.

Definition ledger_transaction {E : Type} (p : Parameters) (v : V) (height : Z) (tx : Transaction)
  (l : Ledger) : res E (OperationDecision * list Termination * Ledger) :=
  let? (decision, l') := ledger_operation p v height tx l in
  Ok (decision, spent_terminations height tx (lg_heads l) (lg_heads l'),
      MkLedger (lg_commits l') (end_spent height tx (lg_heads l) (lg_heads l'))).

Fixpoint ledger_transactions {E : Type} (p : Parameters) (v : V) (height : Z)
  (txs : list Transaction) (l : Ledger)
  : res E (list OperationDecision * list Termination * Ledger) :=
  match txs with
  | [] => Ok ([], [], l)
  | tx :: txs =>
      let? (decision, terminated, l) := ledger_transaction p v height tx l in
      let? (decisions, terminated', l) := ledger_transactions p v height txs l in
      Ok (decision :: decisions, terminated ++ terminated', l)
  end.

(** A block on the ledger. *)
Definition ledger_block {E : Type} (p : Parameters) (v : V) (block : Block)
  (supplied : gmap CommitRef Commitment) (l : Ledger)
  : res E (list OperationDecision * list Termination * Ledger) :=
  ledger_transactions p v (bl_height block) (bl_transactions block)
    (start_ledger p (bl_height block) supplied l).
End Spec.

(** The ledger of a reducer. *)
Definition ledger_of {V : Type} (r : Reducer V) : Ledger := MkLedger (commits r) (heads r).

(** ** Folds of updates *)

(** Updating every key of a list, by an idempotent change. *)
Lemma lookup_fold_alter {K A} `{Countable K} (g : option A → option A) l (m : gmap K A) i :
  (∀ o, g (g o) = g o) →
  fold_left (λ m k, partial_alter g k m) l m !! i = if decide (i ∈ l) then g (m !! i) else m !! i.
Proof.
  intros Hg. revert m. induction l as [|k l IH]; intros m; simpl.
  { by destruct (decide (i ∈ [])) as [?%not_elem_of_nil|]. }
  rewrite IH. destruct (decide (i = k)) as [->|Hne].
  - rewrite lookup_partial_alter_eq, (decide_True _ _ (list_elem_of_here k l)).
    by destruct (decide _).
  - rewrite lookup_partial_alter_ne by done. rewrite (decide_ext (i ∈ k :: l) (i ∈ l)); [done|].
    set_solver.
Qed.

(** ** The start of a block *)

Section Start.
Context {V : Type}.
#[local] Notation St := (Reducer V * Undo)%type.
Implicit Types (st : St).

Lemma replace_head_alter (r : Reducer V) i o (g : option Head → option Head) :
  g (heads r !! i) = o → heads (replace_head r i o) = partial_alter g i (heads r).
Proof.
  intros Hg. rewrite (proj1 (replace_head_eq r i o)). apply partial_alter_ext. by intros x <-.
Qed.

Lemma replace_commit_alter (r : Reducer V) c o (g : option Commitment → option Commitment) :
  g (commits r !! c) = o → commits (replace_commit r c o) = partial_alter g c (commits r).
Proof.
  intros Hg. rewrite (proj1 (replace_commit_eq r c o)). apply partial_alter_ext. by intros x <-.
Qed.

Lemma mark_expired_heads height st :
  indexed st.1 → heads (mark_expired height st).1 = expire height <$> heads st.1.
Proof.
  intros Hi. unfold mark_expired.
  set (g := fmap (λ hd, set_terminal (hd_expiry_height hd) hd) : option Head → option Head).
  rewrite (fold_left_sim _ (λ m i, partial_alter g i m) (λ st, heads st.1)).
  - apply map_eq. intros i. rewrite lookup_fold_alter by by intros [].
    rewrite lookup_fmap. unfold g.
    destruct (decide _) as [Hin|Hn];
      rewrite (elem_of_range_through _ _ _ _ (indexed_expiry _ Hi)) in *;
      (destruct (heads st.1 !! i) as [hd|] eqn:E; [|done]); simpl; unfold expire.
    + destruct Hin as (h & Hh & hd' & E' & T & <-). rewrite E in E'. injection E' as <-.
      rewrite bool_decide_true by done. by rewrite (proj2 (Z.leb_le _ _) Hh).
    + case_bool_decide as T; [|done]. simpl.
      destruct (Z.leb_spec (hd_expiry_height hd) height); [|done].
      exfalso. apply Hn. unfold by_expiry. eauto 6.
  - intros [r u] i. simpl. destruct (heads r !! i) as [hd|] eqn:E; simpl.
    + apply replace_head_alter. by rewrite E.
    + symmetry. apply map_eq. intros k. destruct (decide (k = i)) as [->|].
      * by rewrite lookup_partial_alter_eq, E.
      * by rewrite lookup_partial_alter_ne.
Qed.

Lemma mark_expired_commits height st : commits (mark_expired height st).1 = commits st.1.
Proof.
  unfold mark_expired. rewrite (fold_left_sim _ (λ m _, m) (λ st, commits st.1)).
  - apply fold_left_const.
  - intros [r u] i. simpl. destruct (heads r !! i); simpl; [|done].
    apply replace_head_eq.
Qed.

Lemma prune_commits_commits height st :
  indexed st.1 → (∀ c, is_Some (commits st.1 !! c) → 0 ≤ cr_height c) →
  commits (prune_commits height st).1 = live_commits (parameters st.1) height (commits st.1).
Proof.
  intros Hi Hty. unfold prune_commits, live_commits.
  destruct (u32_checked_sub _ _) as [last|] eqn:Es.
  - apply u32_checked_sub_Some in Es as [-> Hs].
    rewrite (fold_left_sim _ (λ m c, partial_alter (λ _, None) c m) (λ st, commits st.1)).
    2: { intros [r u] c. by apply replace_commit_alter. }
    apply map_eq. intros c. rewrite lookup_fold_alter by done. symmetry.
    destruct (decide _) as [Hin|Hn];
      rewrite (elem_of_range_through _ _ _ _ (indexed_commits _ Hi)) in *.
    + destruct Hin as (h & Hh & _ & <-).
      apply map_lookup_filter_None. right. intros y _. simpl. lia.
    + destruct (commits st.1 !! c) as [x|] eqn:E.
      * apply map_lookup_filter_Some. split; [done|]. simpl.
        destruct (decide (height < cr_height c + commit_ttl_blocks (parameters st.1)));
          [done|exfalso]. apply Hn. exists (cr_height c). split; [lia|]. by split; [exists x|].
      * apply map_lookup_filter_None. by left.
  - apply u32_checked_sub_None in Es. symmetry. apply map_filter_id. intros c x E.
    simpl. specialize (Hty c (ex_intro _ _ E)). lia.
Qed.

Lemma prune_commits_heads height st : heads (prune_commits height st).1 = heads st.1.
Proof.
  unfold prune_commits. destruct (u32_checked_sub _ _); [|done].
  rewrite (fold_left_sim _ (λ m _, m) (λ st, heads st.1)); [apply fold_left_const|].
  intros [r u] c. apply replace_commit_eq.
Qed.

Lemma admit_supplied_eq supplied st :
  commits (admit_supplied supplied st).1 = supplied ∪ commits st.1
  ∧ heads (admit_supplied supplied st).1 = heads st.1.
Proof.
  unfold admit_supplied. split.
  - rewrite (fold_left_sim _ (λ m '(c, x), <[c := x]> m) (λ st, commits st.1)).
    2: { intros [r u] [c x]. simpl. rewrite (replace_commit_alter _ _ _ (λ _, Some x)) by done. done. }
    transitivity (btree_collect (btree_iter supplied) ∪ commits st.1);
      [|by rewrite btree_collect_iter].
    generalize (btree_iter supplied) as l. intros l.
    induction l as [|[c x] l IH] using rev_ind.
    { change (btree_collect []) with (∅ : gmap CommitRef Commitment). by rewrite map_empty_union. }
    rewrite fold_left_app, btree_collect_snoc. simpl. by rewrite IH, insert_union_l.
  - rewrite (fold_left_sim _ (λ m _, m) (λ st, heads st.1)); [apply fold_left_const|].
    intros [r u] [c x]. apply replace_commit_eq.
Qed.

(** [heads[&name_id]] of present names. *)
Lemma producers_total {E} (r : Reducer V) l :
  (∀ i, i ∈ l → is_Some (heads r !! i)) →
  ∃ k, res_mapM (producer_of (E := E) r) l = Ok k
    ∧ k.*1 = l ∧ ∀ i p, (i, p) ∈ k → ∃ hd, heads r !! i = Some hd ∧ p = hd_producer hd.
Proof.
  induction l as [|i l IH]; intros Hl; simpl.
  { exists []. split; [done|]. split; [done|]. by intros i p ?%not_elem_of_nil. }
  destruct (Hl i (list_elem_of_here i l)) as [hd Hhd].
  destruct IH as (k & Hk & Hk1 & Hp); [intros; apply Hl; by apply list_elem_of_further|].
  unfold producer_of at 1. rewrite Hhd. cbn [expect res_bind]. rewrite Hk. cbn [res_bind].
  eexists; split; [done|]. split; [by rewrite fmap_cons, Hk1|].
  intros j p [[= -> ->]|?]%elem_of_cons; [by exists hd|by apply Hp].
Qed.

(** The index range that compaction reads. *)
Lemma range_cooled (r : Reducer V) height i :
  indexed r →
  i ∈ range_through (terminal_heads_by_height r) (height - cooldown_blocks (parameters r)) ↔
    ∃ hd, heads r !! i = Some hd ∧ cooled (parameters r) height hd = true.
Proof.
  intros Hi. rewrite (elem_of_range_through _ _ _ _ (indexed_terminal _ Hi)).
  unfold by_terminal, cooled. split.
  - intros (h & Hh & hd & E' & T). exists hd. split; [done|]. rewrite T. apply Z.leb_le. lia.
  - intros (hd & E' & Hc). destruct (hd_terminal_height hd) as [t|] eqn:T; [|done].
    apply Z.leb_le in Hc. exists t. split; [lia|]. eauto.
Qed.

Lemma compact_claimable_spec {E} height st :
  indexed st.1 →
  (∀ i hd t, heads st.1 !! i = Some hd → hd_terminal_height hd = Some t → 0 ≤ t) →
  ∃ l st', compact_claimable (E := E) height st = Ok (l, st')
    ∧ heads st'.1 = filter (λ x, cooled (parameters st.1) height x.2 = false) (heads st.1)
    ∧ commits st'.1 = commits st.1
    ∧ (∀ c, c ∈ l ↔ ∃ i hd, heads st.1 !! i = Some hd ∧ cooled (parameters st.1) height hd = true
                        ∧ c = MkCompaction i (hd_producer hd) height)
    ∧ map cp_name_id l =
        match u32_checked_sub height (cooldown_blocks (parameters st.1)) with
        | Some last => range_through (terminal_heads_by_height st.1) last
        | None => []
        end.
Proof.
  intros Hi Hty. unfold compact_claimable.
  destruct (u32_checked_sub _ _) as [last|] eqn:Es.
  - apply u32_checked_sub_Some in Es as [-> Hs].
    set (ids := range_through _ _).
    assert (∀ i, i ∈ ids ↔ ∃ hd, heads st.1 !! i = Some hd ∧ cooled (parameters st.1) height hd = true)
      as Hids by (intros i; by apply range_cooled).
    destruct (producers_total (E := E) st.1 ids) as (k & Hk & Hk1 & Hp).
    { intros i (hd & -> & _)%Hids. done. }
    rewrite Hk. cbn [res_bind]. eexists _, _. split; [done|]. split; [|split; [|split]].
    + rewrite (fold_left_sim _ (λ m '(i, _), partial_alter (λ _, None) i m) (λ st, heads st.1)).
      2: { intros [r u] [i p]. by apply replace_head_alter. }
      rewrite (fold_left_fst (λ m i, partial_alter (λ _, None) i m)), Hk1.
      apply map_eq. intros i. rewrite lookup_fold_alter by done. symmetry.
      destruct (decide _) as [(hd & E' & Hc)%Hids|Hn].
      * apply map_lookup_filter_None. right. intros x Ex. simpl. congruence.
      * destruct (heads st.1 !! i) as [hd|] eqn:E'; [|apply map_lookup_filter_None; by left].
        apply map_lookup_filter_Some. split; [done|]. simpl.
        destruct (cooled _ _ hd) eqn:Hc; [|done]. exfalso. apply Hn, Hids. eauto.
    + rewrite (fold_left_sim _ (λ m _, m) (λ st, commits st.1)); [apply fold_left_const|].
      intros [r u] [i p]. apply replace_head_eq.
    + intros c. rewrite list_elem_of_fmap. split.
      * intros ([i p] & -> & Hin). destruct (Hp i p Hin) as (hd & E' & ->).
        assert (i ∈ ids) as (hd' & E2 & Hc)%Hids.
        { rewrite <- Hk1. apply list_elem_of_fmap. by exists (i, hd_producer hd). }
        exists i, hd. rewrite E' in E2. by injection E2 as <-.
      * intros (i & hd & E' & Hc & ->).
        assert (i ∈ k.*1) as ([j p] & -> & Hin)%list_elem_of_fmap.
        { rewrite Hk1. apply Hids. eauto. }
        exists (j, p). split; [|done]. destruct (Hp j p Hin) as (hd' & E2 & ->). simpl in E'.
        rewrite E2 in E'. by injection E' as ->.
    + rewrite map_map. rewrite <- Hk1. apply map_ext. by intros [].
  - apply u32_checked_sub_None in Es. eexists [], st. split; [done|].
    assert (∀ i hd, heads st.1 !! i = Some hd → cooled (parameters st.1) height hd = false) as Hc.
    { intros i hd E'. unfold cooled. destruct (hd_terminal_height hd) as [t|] eqn:T; [|done].
      pose proof (Hty i hd t E' T).
      destruct (Z.leb_spec (t + cooldown_blocks (parameters st.1)) height); [lia|done]. }
    split; [|split; [done|split; [|done]]].
    + symmetry. apply map_filter_id. intros i hd. apply Hc.
    + intros c. split; [by intros ?%not_elem_of_nil|].
      intros (i & hd & E' & Ht & _). by rewrite (Hc i hd E') in Ht.
Qed.
End Start.

(** The heights of the records are unsigned. *)
Record typed {V : Type} (r : Reducer V) : Prop := {
  typed_commits c : is_Some (commits r !! c) → 0 ≤ cr_height c;
  typed_expiry i hd : heads r !! i = Some hd → 0 ≤ hd_expiry_height hd;
  typed_terminal i hd t : heads r !! i = Some hd → hd_terminal_height hd = Some t → 0 ≤ t;
}.

Lemma expire_producer height hd : hd_producer (expire height hd) = hd_producer hd.
Proof. unfold expire. by destruct (_ && _). Qed.

Section Begin.
Context `{Blake2b} `{Pallas} {V : Type} `{!ProofVerifier V}.

(** What the compaction list of a block says. *)
Definition compactions_spec (p : Parameters) (height : Z) (m : gmap NameId Head)
  (l : list Compaction) : Prop :=
  ∀ c, c ∈ l ↔ ∃ i hd, (expire height <$> m) !! i = Some hd ∧ cooled p height hd = true
                   ∧ c = MkCompaction i (hd_producer hd) height.

Lemma begin_block_spec {E} (r : Reducer V) block supplied :
  indexed r → typed r →
  ∃ l st, begin_block (E := E) r block supplied = Ok (l, st)
    ∧ tracks r (bl_height block) (bl_hash block) st
    ∧ ledger_of st.1 = start_ledger (parameters r) (bl_height block) supplied (ledger_of r)
    ∧ compactions_spec (parameters r) (bl_height block) (heads r) l
    ∧ ∃ idx, index_ok (by_terminal (expire (bl_height block) <$> heads r)) idx
        ∧ map cp_name_id l =
            match u32_checked_sub (bl_height block) (cooldown_blocks (parameters r)) with
            | Some last => range_through idx last
            | None => []
            end.
Proof.
  intros Hi Hty. set (h := bl_height block).
  pose proof (tracks_start r h (bl_hash block) Hi) as T0.
  set (st0 := (r, new_undo r h (bl_hash block))) in T0.
  pose proof (tracks_writes _ _ _ _ _ T0 (mark_expired_writes h st0)) as T1.
  set (st1 := mark_expired h st0) in T1.
  assert (heads st1.1 = expire h <$> heads r) as E1 by by apply mark_expired_heads.
  assert (commits st1.1 = commits r) as C1 by apply mark_expired_commits.
  pose proof (tr_parameters _ _ _ _ T1) as P1.
  destruct (compact_claimable_spec (E := E) h st1 (tr_indexed _ _ _ _ T1))
    as (l & st2 & Hc & H2 & C2 & Hl & Hids).
  { intros i hd t. rewrite E1, lookup_fmap. intros (hd0 & E0 & ->)%fmap_Some.
    unfold expire. destruct (_ && _); [|by apply (typed_terminal r Hty i)].
    intros [= <-]. by apply (typed_expiry r Hty i). }
  pose proof (tracks_writes _ _ _ _ _ T1 (compact_claimable_writes h st1 l st2 Hc)) as T2.
  pose proof (tracks_writes _ _ _ _ _ T2 (prune_commits_writes h st2)) as T3.
  pose proof (tracks_writes _ _ _ _ _ T3 (grows_writes _ _ (admit_supplied_grows supplied _))) as T4.
  destruct (admit_supplied_eq supplied (prune_commits h st2)) as [C4 H4].
  eexists l, _. unfold begin_block. fold h st0 st1. rewrite Hc. cbn [res_bind].
  split; [done|]. split; [exact T4|].
  pose proof (tr_parameters _ _ _ _ T2) as P2. rewrite P1 in *.
  split; [|split].
  - unfold ledger_of, start_ledger. cbn [lg_commits lg_heads].
    rewrite C4, H4, prune_commits_heads, prune_commits_commits, H2, C2, C1, E1, P2;
      [done|apply T2|]. intros c. rewrite C2, C1. apply Hty.
  - intros c. rewrite Hl, E1. done.
  - exists (terminal_heads_by_height st1.1). split; [|done]. rewrite <- E1. apply T1.
Qed.
End Begin.

(** ** Transactions *)

Section Transactions.
Context `{Blake2b} `{Pallas} {V : Type} `{!ProofVerifier V}.
#[local] Notation St := (Reducer V * Undo)%type.
Implicit Types (st : St) (r : Reducer V).

Lemma check_reveal_view r h tx op :
  check_reveal r h tx op = check_reveal (view (parameters r) (verifier r) (ledger_of r)) h tx op.
Proof. by destruct op. Qed.

Lemma check_refresh_view r h tx op :
  check_refresh r h tx op = check_refresh (view (parameters r) (verifier r) (ledger_of r)) h tx op.
Proof. by destruct op. Qed.

Lemma replace_head_ledger r i o :
  ledger_of (replace_head r i o) = MkLedger (commits r) (partial_alter (λ _, o) i (heads r)).
Proof. destruct (replace_head_eq r i o) as (Eh & Ec & _). unfold ledger_of. by rewrite Eh, Ec. Qed.

Lemma replace_commit_ledger r c o :
  ledger_of (replace_commit r c o) = MkLedger (partial_alter (λ _, o) c (commits r)) (heads r).
Proof. destruct (replace_commit_eq r c o) as (Ec & Eh & _). unfold ledger_of. by rewrite Eh, Ec. Qed.

Lemma install_sim {E} st m kind clause :
  res_sim (λ x y, x.1 = y.1 ∧ ledger_of x.2.1 = y.2)
    (decide_operation (E := E) st (install st m) kind clause)
    (ledger_update (ledger_of st.1) m kind clause).
Proof.
  destruct m as [[i hd]|e|]; simpl; try done. split; [done|]. by rewrite replace_head_ledger.
Qed.

Lemma apply_operation_sim {E} h tx st :
  res_sim (λ x y, x.1 = y.1 ∧ ledger_of x.2.1 = y.2)
    (apply_operation (E := E) h tx st)
    (ledger_operation (parameters st.1) (verifier st.1) h tx (ledger_of st.1)).
Proof.
  unfold apply_operation, ledger_operation. destruct (tx_operation tx) as [[]|]; simpl; try done.
  - split; [done|]. by rewrite replace_commit_ledger.
  - unfold apply_reveal. rewrite check_reveal_view. apply install_sim.
  - unfold apply_refresh. rewrite check_refresh_view. apply install_sim.
Qed.

Lemma elem_of_spent_ids r tx i :
  indexed r → i ∈ spent_ids r tx ↔ ∃ hd, heads r !! i = Some hd ∧ spends tx hd = true.
Proof.
  intros [_ [Hn _] _ _]. unfold spent_ids, spends. rewrite elem_of_list_to_set, list_elem_of_In.
  rewrite in_flat_map. setoid_rewrite existsb_exists.
  split.
  - intros (a & Ha & Hin). rewrite <- list_elem_of_In in Hin.
    assert (i ∈ default ∅ (heads_by_future_nf r !! field_bytes (ac_nullifier a)))
      as (hd & E & Eq)%Hn.
    { destruct (heads_by_future_nf r !! _); simpl; [by apply elem_of_elements|].
      by apply not_elem_of_nil in Hin. }
    exists hd. split; [done|]. exists a. split; [done|]. by apply bool_decide_eq_true.
  - intros (hd & E & a & Ha & Eq%bool_decide_eq_true). exists a. split; [done|].
    assert (i ∈ default ∅ (heads_by_future_nf r !! field_bytes (ac_nullifier a))) as Hin.
    { apply Hn. by exists hd. }
    rewrite <- list_elem_of_In. destruct (heads_by_future_nf r !! _); [by apply elem_of_elements|].
    by apply not_elem_of_empty in Hin.
Qed.

(** The loop over the spent heads. *)
Definition ended (p : StateRef) (hd : Head) : bool :=
  bool_decide (hd_producer hd = p) && bool_decide (hd_terminal_height hd = None).

Lemma terminate_step h r u t i p :
  let acc := terminate h ((r, u), t) (i, p) in
  commits acc.1.1 = commits r
  ∧ heads acc.1.1 = alter (λ hd, if ended p hd then set_terminal h hd else hd) i (heads r)
  ∧ acc.2 = t ++ match heads r !! i with
                 | Some hd => if ended p hd then [MkTermination i p h] else []
                 | None => []
                 end.
Proof.
  cbv zeta. unfold terminate, ended. destruct (heads r !! i) as [hd|] eqn:E.
  2: { simpl. rewrite app_nil_r. split; [done|]. split; [|done].
       symmetry. apply map_eq. intros j. destruct (decide (j = i)) as [->|].
       - by rewrite lookup_alter_eq, E.
       - by rewrite lookup_alter_ne. }
  assert (∀ f, f hd = hd → alter f i (heads r) = heads r) as Hid.
  { intros f Hf. apply map_eq. intros j. destruct (decide (j = i)) as [->|].
    - by rewrite lookup_alter_eq, E; simpl; rewrite Hf.
    - by rewrite lookup_alter_ne. }
  case_bool_decide as Hp; simpl.
  2: { rewrite app_nil_r. split; [done|]. split; [|done]. symmetry. apply Hid.
       by rewrite bool_decide_false. }
  destruct (hd_terminal_height hd) as [x|] eqn:T; simpl.
  - rewrite app_nil_r. split; [done|]. split; [|done]. symmetry. apply Hid.
    by rewrite T, andb_false_r.
  - split; [apply replace_head_eq|]. split; [|done]. rewrite (proj1 (replace_head_eq r i _)).
    apply map_eq. intros j. destruct (decide (j = i)) as [->|].
    + rewrite lookup_partial_alter_eq, lookup_alter_eq, E. simpl.
      by rewrite T, bool_decide_true by done.
    + by rewrite lookup_partial_alter_ne, lookup_alter_ne.
Qed.

Lemma terminate_fold h l st t :
  NoDup l.*1 →
  let acc := fold_left (terminate h) l (st, t) in
  commits acc.1.1 = commits st.1
  ∧ (∀ i hd, heads acc.1.1 !! i = Some hd ↔
       ∃ hd0, heads st.1 !! i = Some hd0
         ∧ hd = if bool_decide ((i, hd_producer hd0) ∈ l) && bool_decide (hd_terminal_height hd0 = None)
                then set_terminal h hd0 else hd0)
  ∧ acc.2 = t ++ omap (λ '(i, p), hd ← heads st.1 !! i;
                         if ended p hd then Some (MkTermination i p h) else None) l.
Proof.
  revert st t. induction l as [|[i p] l IH]; intros [r u] t Hnd; cbv zeta.
  { cbn [fold_left fst snd]. split; [done|]. split; [|by rewrite app_nil_r]. intros i hd.
    assert (∀ x : NameId * StateRef, bool_decide (x ∈ []) = false) as Hb.
    { intros x. apply bool_decide_false, not_elem_of_nil. }
    split; [intros E; exists hd|intros (hd0 & E & ->)]; by rewrite Hb. }
  rewrite fmap_cons in Hnd. apply NoDup_cons in Hnd as [Hi Hnd]. simpl in Hi.
  assert (∀ q, (i, q) ∉ l) as Hni.
  { intros q Hq. apply Hi, list_elem_of_fmap. by exists (i, q). }
  change (fold_left (terminate h) ((i, p) :: l) ((r, u), t))
    with (fold_left (terminate h) l (terminate h ((r, u), t) (i, p))).
  destruct (terminate_step h r u t i p) as (Sc & Sh & St').
  destruct (terminate h ((r, u), t) (i, p)) as [st1 t1]. cbn [fst snd] in *.
  destruct (IH st1 t1 Hnd) as (Ic & Ih & It). split; [congruence|]. split.
  - intros j hd. rewrite Ih, Sh. destruct (decide (j = i)) as [->|Hne].
    + rewrite lookup_alter_eq. destruct (heads r !! i) as [hd0|]; simpl; [|naive_solver].
      assert (∀ q, bool_decide ((i, q) ∈ (i, p) :: l) = bool_decide (q = p)) as Hb.
      { intros q. apply bool_decide_ext. rewrite elem_of_cons. naive_solver. }
      assert (∀ q, bool_decide ((i, q) ∈ l) = false) as Hf.
      { intros q. apply bool_decide_false, Hni. }
      split.
      * intros (hd1 & [= <-] & ->). exists hd0. split; [done|]. by rewrite Hb, Hf.
      * intros (hd1 & [= <-] & ->). eexists. split; [done|]. by rewrite Hb, Hf.
    + rewrite lookup_alter_ne by done.
      assert (∀ q, bool_decide ((j, q) ∈ (i, p) :: l) = bool_decide ((j, q) ∈ l)) as Hb.
      { intros q. apply bool_decide_ext. rewrite elem_of_cons. naive_solver. }
      split; intros (hd0 & E & ->); exists hd0; by rewrite Hb.
  - rewrite It, St', <- app_assoc. f_equal. simpl.
    assert (omap (λ '(j, q), hd ← heads st1.1 !! j; if ended q hd then Some (MkTermination j q h) else None) l
      = omap (λ '(j, q), hd ← heads r !! j; if ended q hd then Some (MkTermination j q h) else None) l) as ->.
    { apply omap_ext_in. intros [j q] Hj. rewrite Sh, lookup_alter_ne; [done|].
      intros <-. by apply (Hni q). }
    destruct (heads r !! i) as [hd0|]; simpl; [|done]. by destruct (ended p hd0).
Qed.
(** A list of the spent heads of a map, with their producers. *)
Definition listed (tx : Transaction) (pre : gmap NameId Head) (k : list (NameId * StateRef)) : Prop :=
  ∀ i q, (i, q) ∈ k ↔ ∃ hd, pre !! i = Some hd ∧ spends tx hd = true ∧ hd_producer hd = q.

Lemma terminates_listed tx pre k i hd :
  listed tx pre k →
  bool_decide ((i, hd_producer hd) ∈ k) && bool_decide (hd_terminal_height hd = None)
  = terminates tx pre i hd.
Proof.
  intros Hk. unfold terminates. destruct (pre !! i) as [hd0|] eqn:E0.
  - rewrite <- (andb_assoc (spends tx hd0)), (andb_comm _ (bool_decide (hd_terminal_height hd = None))).
    rewrite (andb_comm (bool_decide (hd_producer hd = _))), andb_assoc.
    rewrite (andb_comm (spends tx hd0)), <- andb_assoc. f_equal.
    destruct (spends tx hd0) eqn:Es; simpl.
    + apply bool_decide_ext. rewrite (Hk _ _). clear -E0 Es. naive_solver.
    + apply bool_decide_false. rewrite (Hk _ _). intros (hd1 & ? & ? & ?). congruence.
  - rewrite bool_decide_false; [done|]. rewrite (Hk _ _). intros (hd1 & ? & _). congruence.
Qed.

(** The terminations reported for the heads of the list, by their names alone. *)
Lemma terminations_listed h tx pre (post : gmap NameId Head) k :
  listed tx pre k →
  omap (λ '(i, p), hd ← post !! i; if ended p hd then Some (MkTermination i p h) else None) k
  = omap (λ i, hd ← post !! i; if terminates tx pre i hd
               then Some (MkTermination i (hd_producer hd) h) else None) k.*1.
Proof.
  intros Hk. apply omap_fst. intros i q Hiq. destruct (post !! i) as [hd|] eqn:E0; [|done]. simpl.
  rewrite <- (terminates_listed tx pre k) by done. unfold ended.
  assert (bool_decide (hd_producer hd = q) = bool_decide ((i, hd_producer hd) ∈ k)) as ->.
  { apply bool_decide_ext. split; [by intros ->|]. intros Hin.
    apply Hk in Hiq as (a & Ea & _ & <-), Hin as (b & Eb & _ & <-). congruence. }
  case_bool_decide as Hin; [|done]. case_bool_decide; [|done]. simpl. do 2 f_equal.
  apply Hk in Hiq as (a & Ea & _ & <-), Hin as (b & Eb & _ & <-). congruence.
Qed.

(** The reported terminations are those of the spent heads, in any order. *)
Lemma spent_terminations_filter h tx pre post :
  spent_terminations h tx pre post
  = omap (λ i, hd ← post !! i; if terminates tx pre i hd
               then Some (MkTermination i (hd_producer hd) h) else None)
      (filter (λ i, from_option (spends tx) false (pre !! i) = true) (btree_keys pre)).
Proof.
  unfold spent_terminations. symmetry. apply omap_filter_in. intros i _ Hn.
  destruct (post !! i) as [hd|]; [|done]. simpl. unfold terminates.
  destruct (pre !! i) as [hd0|]; [|done]. simpl in Hn. by apply not_true_is_false in Hn as ->.
Qed.
End Transactions.

Section TransactionRefinement.
Context `{Blake2b} `{Pallas} {V : Type} `{!ProofVerifier V}.
#[local] Notation St := (Reducer V * Undo)%type.
Implicit Types (st : St) (r : Reducer V).

Lemma apply_transaction_sim {E} h tx st t :
  indexed st.1 →
  res_sim (λ x y, x.1 = y.1.1 ∧ ledger_of x.2.1.1 = y.2 ∧ x.2.2 = t ++ y.1.2)
    (apply_transaction_detailed (E := E) h tx st t)
    (ledger_transaction (parameters st.1) (verifier st.1) h tx (ledger_of st.1)).
Proof.
  intros Hi. unfold apply_transaction_detailed, ledger_transaction.
  set (pre := heads st.1).
  assert (∀ i, i ∈ bset_iter (spent_ids st.1 tx) ↔ ∃ hd, pre !! i = Some hd ∧ spends tx hd = true)
    as Hsp.
  { intros i. rewrite elem_of_bset_iter. by apply elem_of_spent_ids. }
  destruct (producers_total (E := E) st.1 (bset_iter (spent_ids st.1 tx))) as (k & -> & Hk1 & Hp).
  { intros i (hd & Ehd & _)%Hsp. by exists hd. }
  assert (∀ i q, (i, q) ∈ k ↔ ∃ hd, pre !! i = Some hd ∧ spends tx hd = true ∧ hd_producer hd = q)
    as Hk.
  { intros i q. split.
    - intros Hin. destruct (Hp i q Hin) as (hd & E' & ->).
      assert (i ∈ k.*1) as Hi' by (apply list_elem_of_fmap; by exists (i, hd_producer hd)).
      rewrite Hk1, Hsp in Hi'. destruct Hi' as (hd' & E2 & Hs). exists hd.
      split; [done|]. split; [|done]. unfold pre in E2. congruence.
    - intros (hd & E' & Hs & <-).
      assert (i ∈ k.*1) as ([j p] & -> & Hin)%list_elem_of_fmap by (rewrite Hk1, Hsp; eauto).
      destruct (Hp j p Hin) as (hd' & E2 & ->). simpl in *. unfold pre in E'. congruence. }
  cbn [res_bind]. eapply res_sim_bind; [apply apply_operation_sim|].
  intros [d st1] [d' l'] _ _ [Ed El]. cbn [fst snd] in Ed, El. subst d' l'.
  destruct (terminate_fold h k st1 t) as (Fc & Fh & Ft); [rewrite Hk1; apply NoDup_bset_iter|].
  cbv zeta in *. destruct (fold_left _ k _) as [st2 t2]. cbn [fst snd res_sim lg_commits lg_heads] in *.
  set (post := heads st1.1) in *.
  assert (∀ i hd, bool_decide ((i, hd_producer hd) ∈ k) && bool_decide (hd_terminal_height hd = None)
                  = terminates tx pre i hd) as Hterm by (intros; by apply terminates_listed).
  split; [done|]. split; [|].
  - unfold ledger_of. f_equal; [exact Fc|]. cbn [lg_heads]. fold pre post. apply map_eq. intros i. apply option_eq. intros hd.
    rewrite Fh. unfold end_spent. rewrite map_lookup_imap.
    destruct (post !! i) as [hd0|] eqn:E0; simpl; [|split; [intros (? & [=] & _)|done]].
    split; [intros (hd1 & [= <-] & ->)|intros [= <-]; exists hd0; split; [done|]]; by rewrite Hterm.
  - rewrite Ft. f_equal. unfold ledger_of. cbn [lg_heads]. fold pre post.
    rewrite spent_terminations_filter, (terminations_listed h tx pre) by done. rewrite Hk1. f_equal.
    unfold btree_keys. apply bset_iter_filter. intros i. rewrite elem_of_spent_ids by done. fold pre.
    rewrite elem_of_dom. clear. destruct (pre !! i) as [hd0|]; simpl; naive_solver.
Qed.

Lemma apply_next_sim {E} r0 hash h tx pg :
  tracks r0 h hash (pg_st pg) →
  res_sim (λ pg' y,
      tracks r0 h hash (pg_st pg') ∧ ledger_of (pg_st pg').1 = y.2
      ∧ pg_decisions pg' = pg_decisions pg ++ [y.1.1]
      ∧ pg_terminated pg' = pg_terminated pg ++ y.1.2
      ∧ pg_accepted pg' = pg_accepted pg ++ omap od_accepted [y.1.1])
    (apply_next (E := E) h pg tx)
    (ledger_transaction (parameters r0) (verifier r0) h tx (ledger_of (pg_st pg).1)).
Proof.
  intros Ht. rewrite <- (tr_parameters _ _ _ _ Ht), <- (tr_verifier _ _ _ _ Ht).
  pose proof (apply_transaction_sim (E := E) h tx (pg_st pg) (pg_terminated pg)
                (tr_indexed _ _ _ _ Ht)) as Hs.
  unfold apply_next.
  destruct (apply_transaction_detailed _ _ _ _) as [[d [st t]]|e|] eqn:Ea,
    (ledger_transaction _ _ _ _ _) as [[[d' ts] l']|e'|]; simpl in *; try done.
  destruct Hs as (-> & El & ->). split; [|split; [done|split; [done|split; [done|]]]].
  - eapply tracks_writes; [done|]. by eapply apply_transaction_writes.
  - destruct (od_accepted d'); simpl; by rewrite ?app_nil_r.
Qed.

Lemma apply_transactions_sim {E} r0 hash h txs pg :
  tracks r0 h hash (pg_st pg) →
  res_sim (λ pg' y,
      tracks r0 h hash (pg_st pg') ∧ ledger_of (pg_st pg').1 = y.2
      ∧ pg_decisions pg' = pg_decisions pg ++ y.1.1
      ∧ pg_terminated pg' = pg_terminated pg ++ y.1.2
      ∧ pg_accepted pg' = pg_accepted pg ++ omap od_accepted y.1.1)
    (res_fold (apply_next (E := E) h) pg txs)
    (ledger_transactions (parameters r0) (verifier r0) h txs (ledger_of (pg_st pg).1)).
Proof.
  revert pg. induction txs as [|tx txs IH]; intros pg Ht; cbn [res_fold ledger_transactions].
  { simpl. by rewrite !app_nil_r. }
  eapply res_sim_bind; [by apply (apply_next_sim r0 hash h tx pg)|].
  intros pg1 [[d ts] l1] _ _ (T1 & L1 & D1 & M1 & A1). cbn [fst snd] in *.
  specialize (IH pg1 T1). rewrite L1 in IH.
  destruct (res_fold _ pg1 txs) as [pg2|e|],
    (ledger_transactions _ _ _ txs l1) as [[[ds ts'] l2]|e'|]; simpl in *; try done.
  destruct IH as (T2 & L2 & D2 & M2 & A2).
  rewrite D2, M2, A2, D1, M1, A1, <- !app_assoc. repeat (split; [done|]).
  simpl. destruct (od_accepted d); done.
Qed.
End TransactionRefinement.

(** ** Blocks *)

(** What a block's outcome and new state are, given the ledger's answer. *)
Record block_refined {V : Type} (r : Reducer V) (block : Block) (out : BlockOutcome)
  (r' : Reducer V) (decisions : list OperationDecision) (terminated : list Termination)
  (l : Ledger) : Prop := {
  br_indexed : indexed r';
  br_ledger : ledger_of r' = l;
  br_decisions : bo_decisions out = decisions;
  br_accepted : bo_accepted out = omap od_accepted decisions;
  br_terminated : bo_terminated out = terminated;
  br_compacted : compactions_spec (parameters r) (bl_height block) (heads r) (bo_compacted out);
  br_parameters : parameters r' = parameters r;
  br_verifier : verifier r' = verifier r;
  br_next : next_height r' = u32_checked_add (bl_height block) 1;
  br_tip : tip r' = Some (MkReducerTip (bl_height block) (bl_hash block));
  br_compacted_order : ∃ idx, index_ok (by_terminal (expire (bl_height block) <$> heads r)) idx
    ∧ map cp_name_id (bo_compacted out) =
        match u32_checked_sub (bl_height block) (cooldown_blocks (parameters r)) with
        | Some last => range_through idx last
        | None => []
        end;
}.

Section BlockRefinement.
Context `{Blake2b} `{Pallas} {V : Type} `{!ProofVerifier V}.
Implicit Types (r : Reducer V).

Lemma transition_sim {E} r block supplied :
  indexed r → typed r →
  res_sim (λ x y, block_refined r block x.1 x.2 y.1.1 y.1.2 y.2)
    (transition (E := E) r block supplied)
    (ledger_block (parameters r) (verifier r) block supplied (ledger_of r)).
Proof.
  intros Hi Hty. unfold transition, ledger_block.
  destruct (begin_block_spec (E := E) r block supplied Hi Hty)
    as (l & st & -> & T0 & <- & Hc & Ho).
  cbn [res_bind].
  pose proof (apply_transactions_sim (E := E) r (bl_hash block) (bl_height block)
                (bl_transactions block) (MkProgress st [] [] []) T0) as Hs.
  cbn [pg_st] in Hs.
  destruct (res_fold _ _ (bl_transactions block)) as [pg|e|],
    (ledger_transactions _ _ _ _ _) as [[[ds ts] l']|e'|]; simpl in *; try done.
  destruct Hs as (T & L & D & M & A). destruct pg as [[r1 u] acc dec term]. simpl in *.
  destruct T as [[Ic In Ie It] _ _ Tp Tv _ _ _ _ _]. simpl in *.
  by constructor.
Qed.
End BlockRefinement.
