(* ===== verification/Invariant.v ===== *)
(** * Invariants of the canonical state

    The facts every reachable state satisfies about its commitments and heads,
    that a block preserves them, and that no block panics. *)

From S2P Require Import Prelude Bytes BTree External Protocol Schedule Codec Statement Records.
From S2P Require Import State Reducer Journal Ledger.

(** ** Accepted operations *)

Section Accepted.
Context `{Blake2b} `{Pallas} {V : Type} `{!ProofVerifier V}.
Implicit Types (r : Reducer V).

(** What the reducer has checked when it accepts a REVEAL. *)
Record reveal_accepted (r : Reducer V) (h : Z) (tx : Transaction) (op : Operation)
  (i : NameId) (hd : Head) : Prop := {
  ra_missing : heads r !! i = None;
  ra_scheduled : accepts_operation (E := string) (parameters r) i h = Ok true;
  ra_evidence : ∃ name commit ua ai nf proof commitment action e x,
    op = Reveal name commit ua ai nf proof
    ∧ Name_id name = Ok i
    ∧ accepts_commit (parameters r) (cr_height commit) h = true
    ∧ commits r !! commit = Some commitment
    ∧ tx_actions tx !! Z.to_nat ai = Some action ∧ ac_action_index action = ai
    ∧ epoch (parameters r) h = Ok e ∧ expiry (parameters r) h = Ok x
    ∧ verify_reveal (verifier r)
        (reveal_statement (parameters r) i e commitment commit ua ai action nf) proof = true
    ∧ hd = produced_head name ua h tx ai action nf e x;
}.

(** What it has checked when it accepts a REFRESH of the head [prev]. *)
Record refresh_accepted (r : Reducer V) (h : Z) (tx : Transaction) (op : Operation)
  (i : NameId) (prev hd : Head) : Prop := {
  rf_current : heads r !! i = Some prev;
  rf_active : lifecycle prev h (parameters r) = Active;
  rf_scheduled : accepts_operation (E := string) (parameters r) i h = Ok true;
  rf_epoch : hd_producer_epoch prev < hd_producer_epoch hd;
  rf_evidence : ∃ name ua ai nf proof action e x,
    op = Refresh name (hd_producer prev) ua ai nf proof
    ∧ Name_id name = Ok i
    ∧ tx_actions tx !! Z.to_nat ai = Some action ∧ ac_action_index action = ai
    ∧ ac_nullifier action = hd_future_nf prev
    ∧ epoch (parameters r) h = Ok e ∧ expiry (parameters r) h = Ok x
    ∧ verify_refresh (verifier r)
        (refresh_statement (parameters r) i prev e (hd_producer prev) ua ai action nf) proof = true
    ∧ hd = produced_head name ua h tx ai action nf e x;
}.

Lemma check_reveal_Ok r h tx op i hd :
  check_reveal r h tx op = Ok (i, hd) ↔ reveal_accepted r h tx op i hd.
Proof.
  split.
  - destruct op as [|name commit ua ai nf proof|]; [done| |done]. intros Hc. unfold check_reveal in Hc.
    inv_res. repeat match goal with
    | H : bool_decide _ = true |- _ => apply bool_decide_eq_true in H
    | H : (_ =? _) = true |- _ => apply Z.eqb_eq in H
    end. constructor; [done|congruence|]. eauto 20.
  - intros [Hm Hs (name & commit & ua & ai & nf & proof & c & a & e & x & -> & Hn & Hc & Hcm & Ha
      & Hai & He & Hx & Hv & ->)].
    unfold check_reveal. rewrite Hn. cbn [map_err res_bind].
    rewrite bool_decide_true by done. cbn [ensure res_bind]. rewrite Hs. cbn [res_bind ensure].
    rewrite Hc. cbn [res_bind ensure]. rewrite Hcm. cbn [res_bind ok_or]. rewrite Ha.
    cbn [res_bind ok_or]. rewrite Hai, Z.eqb_refl. cbn [res_bind ensure]. rewrite He.
    cbn [res_bind map_err]. rewrite Hv. cbn [res_bind ensure]. by rewrite Hx.
Qed.

Lemma check_refresh_Ok r h tx op i hd :
  check_refresh r h tx op = Ok (i, hd) ↔ ∃ prev, refresh_accepted r h tx op i prev hd.
Proof.
  split.
  - destruct op as [| |name pred ua ai nf proof]; [done|done|]. intros Hc. unfold check_refresh in Hc.
    inv_res. repeat match goal with
    | H : _ && _ = true |- _ => apply andb_prop in H as [? ?]
    | H : bool_decide _ = true |- _ => apply bool_decide_eq_true in H
    | H : (_ =? _) = true |- _ => apply Z.eqb_eq in H
    | H : (_ <? _) = true |- _ => apply Z.ltb_lt in H
    end. subst. eexists. constructor; [done|done|done|done|]. eauto 20.
  - intros [prev [Hm Hl Hs Hep (name & ua & ai & nf & proof & a & e & x & -> & Hn & Ha & Hai & Hnf
      & He & Hx & Hv & ->)]]. simpl in Hep.
    unfold check_refresh. rewrite Hn. cbn [map_err res_bind]. rewrite Hm. cbn [ok_or res_bind].
    rewrite He. cbn [map_err res_bind]. rewrite !bool_decide_true by done. cbn [andb ensure res_bind].
    rewrite (proj2 (Z.ltb_lt _ _) Hep). cbn [ensure res_bind]. rewrite Hs. cbn [res_bind ensure].
    rewrite Ha. cbn [res_bind ok_or]. rewrite Hai, Z.eqb_refl, Hnf, bool_decide_true by done.
    cbn [andb res_bind ensure]. rewrite Hv. cbn [res_bind ensure]. by rewrite Hx.
Qed.

Lemma epoch_no_panic p h : Parameters_ok p → epoch p h ≠ Panic.
Proof.
  intros Hp. unfold epoch. destruct (_ <? _); [done|].
  destruct (Z.eqb_spec (epoch_blocks p) 0); [|done]. destruct Hp. lia.
Qed.

(** The names of an operation, whose type guarantees the grammar. *)
Definition operation_named (op : Operation) : Prop :=
  match op with
  | Commit _ => True
  | Reveal name _ _ _ _ _ | Refresh name _ _ _ _ _ => Name_ok name
  end.

(** Guards fail with a clause, never a panic. *)
Lemma check_reveal_no_panic r h tx op :
  Parameters_ok (parameters r) → operation_named op → check_reveal r h tx op ≠ Panic.
Proof.
  intros Hp Hn. destruct op as [|name commit ua ai nf proof|]; [done| |done]. simpl in Hn.
  pose proof (Name_id_no_panic name Hn). pose proof (epoch_no_panic (parameters r) h Hp).
  assert (∀ i, accepts_operation (E := string) (parameters r) i h ≠ Panic)
    by (intros i; by rewrite accepts_operation_total).
  assert (expiry (parameters r) h ≠ Panic) by apply ok_or_no_panic.
  unfold check_reveal. auto 50 with panics.
Qed.

Lemma check_refresh_no_panic r h tx op :
  Parameters_ok (parameters r) → operation_named op → check_refresh r h tx op ≠ Panic.
Proof.
  intros Hp Hn. destruct op as [| |name pred ua ai nf proof]; [done|done|]. simpl in Hn.
  pose proof (Name_id_no_panic name Hn). pose proof (epoch_no_panic (parameters r) h Hp).
  assert (∀ i, accepts_operation (E := string) (parameters r) i h ≠ Panic)
    by (intros i; by rewrite accepts_operation_total).
  assert (expiry (parameters r) h ≠ Panic) by apply ok_or_no_panic.
  unfold check_refresh. auto 50 with panics.
Qed.

(** A block on the ledger always has an answer. *)
Lemma ledger_transactions_total {E} p v h txs l :
  Parameters_ok p →
  (∀ tx op, tx ∈ txs → tx_operation tx = Some op → operation_named op) →
  ∃ y, ledger_transactions (E := E) p v h txs l = Ok y.
Proof.
  intros Hp. revert l. induction txs as [|tx txs IH]; intros l Hn; [by eexists|].
  cbn [ledger_transactions].
  assert (∃ y, ledger_transaction (E := E) p v h tx l = Ok y) as [[[d ts] l1] E1].
  { unfold ledger_transaction, ledger_operation.
    pose proof (λ op, Hn tx op (list_elem_of_here _ _)) as Hnm.
    destruct (tx_operation tx) as [op|]; [|by eexists]. specialize (Hnm op eq_refl).
    pose proof (check_reveal_no_panic (view p v l) h tx op Hp Hnm).
    pose proof (check_refresh_no_panic (view p v l) h tx op Hp Hnm).
    destruct op; [by eexists|..]; unfold ledger_update.
    - destruct (check_reveal _ _ _ _) as [[i hd]|e|]; [by eexists..|done].
    - destruct (check_refresh _ _ _ _) as [[i hd]|e|]; [by eexists..|done]. }
  rewrite E1. cbn [res_bind]. destruct (IH l1) as [[[ds ts'] l2] E2].
  { intros tx' op Hin. apply Hn. by right. }
  rewrite E2. by eexists.
Qed.
End Accepted.

(** ** The invariant of the ledger *)

Section LedgerInvariant.
Context `{Blake2b} `{Pallas}.

(** A commitment is recent, and not from the future. *)
Definition commit_ok (p : Parameters) (h : Z) (c : CommitRef) : Prop :=
  activation_height p ≤ cr_height c ≤ h ∧ h < cr_height c + commit_ttl_blocks p.

(** A head was produced in a window of its name, its lease is exact, and its
    terminal height is set when the lease has ended and kept for the cooldown. *)
Record head_ok (p : Parameters) (h : Z) (i : NameId) (hd : Head) : Prop := {
  ho_name : Name_id (hd_name hd) = Ok i;
  ho_window : accepts_operation (E := string) p i (sr_height (hd_producer hd)) = Ok true;
  ho_epoch : epoch p (sr_height (hd_producer hd)) = Ok (hd_producer_epoch hd);
  ho_expiry : expiry p (sr_height (hd_producer hd)) = Ok (hd_expiry_height hd);
  ho_produced : activation_height p ≤ sr_height (hd_producer hd) ≤ h;
  ho_terminal :
    match hd_terminal_height hd with
    | None => h < hd_expiry_height hd
    | Some t => sr_height (hd_producer hd) ≤ t ≤ hd_expiry_height hd ∧ t ≤ h
                ∧ h < t + cooldown_blocks p
    end;
}.

Definition ledger_ok (p : Parameters) (h : Z) (l : Ledger) : Prop :=
  (∀ c, is_Some (lg_commits l !! c) → commit_ok p h c)
  ∧ (∀ i hd, lg_heads l !! i = Some hd → head_ok p h i hd).

Lemma ledger_ok_empty p h : ledger_ok p h (MkLedger ∅ ∅).
Proof. split; simpl; [intros c [x Hx]|intros i hd Hx]; by rewrite lookup_empty in Hx. Qed.

(** The start of the next block. *)
Lemma start_ledger_ok p h l supplied :
  Parameters_ok p → ledger_ok p (h - 1) l →
  (∀ c, is_Some (supplied !! c) → commit_ok p h c) →
  ledger_ok p h (start_ledger p h supplied l).
Proof.
  intros Hp [Hc Hh] Hs. split; simpl.
  - intros c [x Hx]. apply lookup_union_Some_raw in Hx as [Hx|[_ Hx]]; [by apply Hs|].
    unfold live_commits in Hx. apply map_lookup_filter_Some in Hx as [Hx Hl]. simpl in Hl.
    destruct (Hc c (ex_intro _ _ Hx)). split; lia.
  - intros i hd Hx. unfold start_heads in Hx. apply map_lookup_filter_Some in Hx as [Hx Hcool].
    simpl in Hcool. apply lookup_fmap_Some in Hx as (hd0 & <- & Hx).
    destruct (Hh i hd0 Hx) as [Hn Hw He Hex Hpr Ht]. pose proof Hex as [Eex _]%expiry_Ok.
    pose proof (ok_lease p Hp). pose proof (ok_epoch p Hp). pose proof (ok_ttl p Hp).
    unfold expire, cooled in *.
    destruct (hd_terminal_height hd0) as [t|] eqn:T; simpl in *.
    + rewrite T in Hcool. apply Z.leb_gt in Hcool. constructor; rewrite ?T; try done; lia.
    + destruct (Z.leb_spec (hd_expiry_height hd0) h); simpl in *.
      * apply Z.leb_gt in Hcool. constructor; simpl; try done; lia.
      * constructor; rewrite ?T; try done; lia.
Qed.

Lemma produced_head_ok p h i name ua tx ai action nf e x :
  Parameters_ok p → Name_id name = Ok i → accepts_operation (E := string) p i h = Ok true →
  epoch p h = Ok e → expiry p h = Ok x →
  head_ok p h i (produced_head name ua h tx ai action nf e x).
Proof.
  intros Hp Hn Hs He Hx. pose proof He as [? _]%epoch_Ok; [|done].
  pose proof Hx as [Ex _]%expiry_Ok. pose proof (ok_lease p Hp). pose proof (ok_epoch p Hp).
  pose proof (ok_ttl p Hp). pose proof (ok_maturity p Hp). pose proof (ok_window p Hp).
  constructor; simpl; try done; lia.
Qed.

Lemma end_spent_ok p h tx before after i hd :
  Parameters_ok p → (∀ i hd, after !! i = Some hd → head_ok p h i hd) →
  end_spent h tx before after !! i = Some hd → head_ok p h i hd.
Proof.
  intros Hp Ha. unfold end_spent. rewrite map_lookup_imap.
  destruct (after !! i) as [hd0|] eqn:E0; [|done]. intros [= <-].
  destruct (Ha i hd0 E0) as [Hn Hw He Hex Hpr Ht].
  destruct (terminates tx before i hd0) eqn:Et; [|by constructor].
  assert (hd_terminal_height hd0 = None) as T.
  { unfold terminates in Et. destruct (before !! i); [|done].
    apply andb_prop in Et as [_ Et]. by apply bool_decide_eq_true in Et. }
  rewrite T in Ht. pose proof (ok_cooldown p Hp). pose proof (ok_epoch p Hp).
  pose proof (ok_ttl p Hp). pose proof (ok_maturity p Hp). pose proof (ok_window p Hp).
  constructor; simpl; try done; lia.
Qed.
End LedgerInvariant.

Section LedgerSteps.
Context `{Blake2b} `{Pallas} {V : Type} `{!ProofVerifier V}.

(** The three ways an operation changes the ledger. *)
Lemma ledger_operation_Ok {E} p v h tx l d l' :
  ledger_operation (E := E) p v h tx l = Ok (d, l') →
  (l' = l ∧ od_accepted d = None)
  ∨ (∃ c, tx_operation tx = Some (Commit c) ∧ od_accepted d = Some AcceptedCommit
      ∧ l' = MkLedger (<[MkCommitRef h (tx_tx_index tx) (tx_txid tx) := c]> (lg_commits l)) (lg_heads l))
  ∨ (∃ op i hd, tx_operation tx = Some op ∧ l' = MkLedger (lg_commits l) (<[i := hd]> (lg_heads l))
      ∧ ((reveal_accepted (view p v l) h tx op i hd ∧ od_accepted d = Some AcceptedReveal)
         ∨ (∃ prev, refresh_accepted (view p v l) h tx op i prev hd)
           ∧ od_accepted d = Some AcceptedRefresh)).
Proof.
  unfold ledger_operation, ledger_update. destruct (tx_operation tx) as [op|] eqn:Eop.
  2: { intros [= <- <-]. by left. }
  destruct op as [c|name commit ua ai nf proof|name pred ua ai nf proof].
  - intros [= <- <-]. right. left. eauto.
  - destruct (check_reveal _ _ _ _) as [[i hd]|e|] eqn:Ec; intros [= <- <-]; [|by left].
    right. right. apply check_reveal_Ok in Ec. eauto 10.
  - destruct (check_refresh _ _ _ _) as [[i hd]|e|] eqn:Ec; intros [= <- <-]; [|by left].
    right. right. apply check_refresh_Ok in Ec. eauto 10.
Qed.

Lemma ledger_operation_ok {E} p v h tx l d l' :
  Parameters_ok p → activation_height p ≤ h → ledger_ok p h l →
  ledger_operation (E := E) p v h tx l = Ok (d, l') → ledger_ok p h l'.
Proof.
  intros Hp Hact [Hc Hh] [[-> _]|[(c & _ & _ & ->)|(op & i & hd & _ & -> & Hacc)]]%ledger_operation_Ok.
  - done.
  - split; simpl; [|done]. intros k Hk. destruct (decide (k = MkCommitRef h (tx_tx_index tx) (tx_txid tx)))
      as [->|Hne].
    + pose proof (ok_ttl p Hp). pose proof (ok_maturity p Hp). pose proof (ok_window p Hp).
      split; simpl; lia.
    + rewrite lookup_insert_ne in Hk by done. by apply Hc.
  - split; simpl; [done|]. intros j hd'.
    destruct (decide (j = i)) as [->|Hne]; [|rewrite lookup_insert_ne by done; by apply Hh].
    rewrite lookup_insert_eq. intros [= <-].
    destruct Hacc as [[[_ Hs (name & commit & ua & ai & nf & pf & cm & a & e & x & Hev)] _]
      |[(prev & [_ _ Hs _ (name & ua & ai & nf & pf & a & e & x & Hev)]) _]].
    + destruct Hev as (_ & Hn & _ & _ & _ & _ & He & Hx & _ & ->). by apply produced_head_ok.
    + destruct Hev as (_ & Hn & _ & _ & _ & He & Hx & _ & ->). by apply produced_head_ok.
Qed.

Lemma ledger_transactions_ok {E} p v h txs l y :
  Parameters_ok p → activation_height p ≤ h → ledger_ok p h l →
  ledger_transactions (E := E) p v h txs l = Ok y → ledger_ok p h y.2.
Proof.
  intros Hp Hact. revert l y. induction txs as [|tx txs IH]; intros l y Hl; cbn [ledger_transactions].
  { by intros [= <-]. }
  intros ([[d ts] l1] & H1 & ([[ds ts'] l2] & H2 & [= <-]%Ok_inj)%res_bind_Ok)%res_bind_Ok.
  apply (IH l1 (ds, ts', l2)); [|exact H2].
  unfold ledger_transaction in H1.
  apply res_bind_Ok in H1 as ([d1 l0] & Ho & [= <- <- <-]%Ok_inj).
  pose proof (ledger_operation_ok p v h tx l d1 l0 Hp Hact Hl Ho) as [Hc Hh].
  split; simpl; [done|]. intros i hd. by apply end_spent_ok.
Qed.
End LedgerSteps.

(** ** The invariant of the reducer *)

Section ReducerInvariant.
Context `{Blake2b} `{Pallas} {V : Type} `{!ProofVerifier V}.
Implicit Types (r : Reducer V).

Record reducer_ok (r : Reducer V) : Prop := {
  rk_parameters : Parameters_ok (parameters r);
  rk_indexed : indexed r;
  rk_tip :
    match tip_height r with
    | None => next_height r = Some (activation_height (parameters r)) ∧ ledger_of r = MkLedger ∅ ∅
    | Some h => activation_height (parameters r) ≤ h ≤ u32_max
                ∧ next_height r = u32_checked_add h 1 ∧ ledger_ok (parameters r) h (ledger_of r)
    end;
}.

(** The height of the next block, and the ledger before it. *)
Lemma reducer_ok_next r h :
  reducer_ok r → next_height r = Some h →
  activation_height (parameters r) ≤ h ≤ u32_max ∧ ledger_ok (parameters r) (h - 1) (ledger_of r).
Proof.
  intros [Hp _ Ht] Hn. destruct (tip_height r) as [t|].
  - destruct Ht as (Hr & Hnext & Hl). rewrite Hn in Hnext. symmetry in Hnext.
    apply u32_checked_add_Some in Hnext as [-> ?].
    replace (t + 1 - 1) with t by lia. split; [lia|done].
  - destruct Ht as (Hnext & ->). rewrite Hn in Hnext. injection Hnext as ->.
    pose proof (ok_activation _ Hp) as [? ?]. split; [lia|apply ledger_ok_empty].
Qed.

Lemma ledger_ok_typed r h : Parameters_ok (parameters r) →
  ledger_ok (parameters r) h (ledger_of r) → typed r.
Proof.
  intros Hp [Hc Hh]. pose proof (ok_activation _ Hp) as [? _].
  constructor.
  - intros c Hx. destruct (Hc c Hx). lia.
  - intros i hd Hx. destruct (Hh i hd Hx) as [_ _ _ [Ex _]%expiry_Ok ? _].
    pose proof (ok_lease _ Hp). pose proof (ok_epoch _ Hp). pose proof (ok_ttl _ Hp).
    pose proof (ok_maturity _ Hp). pose proof (ok_window _ Hp). lia.
  - intros i hd t Hx T. destruct (Hh i hd Hx) as [_ _ _ _ ? Ht]. rewrite T in Ht. lia.
Qed.

(** *** The checks before the writes *)

Lemma check_action_indices_no_panic n l : check_action_indices n l ≠ Panic.
Proof. revert n. induction l as [|a l IH]; intros n; simpl; auto with panics. Qed.

Lemma check_transactions_no_panic o l : check_transactions o l ≠ Panic.
Proof.
  pose proof check_action_indices_no_panic.
  revert o. induction l as [|tx l IH]; intros o; simpl; auto 10 with panics.
Qed.

Lemma admit_evidence_no_panic r block m ev : admit_evidence r block m ev ≠ Panic.
Proof.
  unfold admit_evidence. apply bind_no_panic; [apply ensure_no_panic|]. intros u Hu.
  apply ensure_Ok in Hu. rewrite !andb_true_iff, Z.ltb_lt in Hu.
  apply bind_no_panic; [|auto with panics]. apply expect_no_panic.
  exists (bl_height block - cr_height (rc_reference ev)). apply u32_checked_sub_Some. lia.
Qed.

Lemma check_block_no_panic r block refs : check_block r block refs ≠ Panic.
Proof.
  unfold check_block. pose proof check_transactions_no_panic.
  assert (∀ m, res_fold (admit_evidence r block) m refs ≠ Panic) as Hf.
  { induction refs as [|ev refs IH]; intros m; simpl; [done|].
    apply bind_no_panic; [apply admit_evidence_no_panic|auto]. }
  auto 10 with panics.
Qed.

(** Admitted evidence names a REVEAL of the block and is a live commitment. *)
Lemma admit_evidence_ok r block m ev m' :
  admit_evidence r block m ev = Ok m' →
  (∀ c, is_Some (m !! c) → commit_ok (parameters r) (bl_height block) c) →
  ∀ c, is_Some (m' !! c) → commit_ok (parameters r) (bl_height block) c.
Proof.
  unfold admit_evidence. intros Ha Hm. inv_res.
  rewrite !andb_true_iff, Z.leb_le, !Z.ltb_lt in *. rewrite u32_checked_sub_Some in *.
  intros c Hc. destruct (decide (c = rc_reference ev)) as [->|Hne].
  - unfold commit_ok. lia.
  - rewrite lookup_insert_ne in Hc by done. by apply Hm.
Qed.

Lemma check_block_Ok r block refs m :
  check_block r block refs = Ok m →
  next_height r = Some (bl_height block) ∧ bl_prev_hash block = previous_hash r
  ∧ (∀ c, is_Some (m !! c) → commit_ok (parameters r) (bl_height block) c).
Proof.
  unfold check_block. intros Hc.
  apply res_bind_Ok in Hc as (u1 & E1%ensure_Ok%bool_decide_eq_true & Hc).
  apply res_bind_Ok in Hc as (u2 & E2%ensure_Ok%bool_decide_eq_true & Hc).
  apply res_bind_Ok in Hc as (u3 & _ & Hc).
  split; [done|]. split; [done|].
  assert (∀ m0, (∀ c, is_Some (m0 !! c) → commit_ok (parameters r) (bl_height block) c) →
    res_fold (admit_evidence r block) m0 refs = Ok m →
    ∀ c, is_Some (m !! c) → commit_ok (parameters r) (bl_height block) c) as Hf.
  { clear Hc. induction refs as [|ev refs IH]; intros m0 Hm0 Hr; simpl in Hr; [by inv_res|].
    apply res_bind_Ok in Hr as (m1 & H1 & Hr). apply (IH m1); [|done].
    by eapply admit_evidence_ok. }
  apply (Hf ∅); [|done]. intros c [x Hx]. by rewrite lookup_empty in Hx.
Qed.

(** A block with well-formed names, on a state that satisfies the invariant. *)
Definition block_named (block : Block) : Prop :=
  ∀ tx op, tx ∈ bl_transactions block → tx_operation tx = Some op → operation_named op.

Lemma apply_block_unfold block refs r :
  apply_block_detailed block refs r =
    match check_block r block refs with
    | Ok supplied =>
        match transition (E := ApplyError) r block supplied with
        | Ok (out, r') => (Ok out, r')
        | Err e => (Err e, r)
        | Panic => (Panic, r)
        end
    | Err e => (Err e, r)
    | Panic => (Panic, r)
    end.
Proof.
  unfold apply_block_detailed, sbind, mget, mlift, mmodify, mret.
  destruct (check_block r block refs) as [supplied|e|]; [|done..].
  by destruct (transition r block supplied) as [[out r']|e|].
Qed.

Lemma apply_block_step block refs r :
  reducer_ok r → block_named block →
  match check_block r block refs with
  | Ok supplied => ∃ y out r',
      ledger_block (E := ApplyError) (parameters r) (verifier r) block supplied (ledger_of r) = Ok y
      ∧ apply_block_detailed block refs r = (Ok out, r')
      ∧ block_refined r block out r' y.1.1 y.1.2 y.2 ∧ reducer_ok r'
  | Err e => apply_block_detailed block refs r = (Err e, r)
  | Panic => False
  end.
Proof.
  intros Hr Hn. pose proof Hr as [Hp Hi _]. rewrite apply_block_unfold.
  destruct (check_block r block refs) as [supplied|e|] eqn:Ec;
    [|done|by apply (check_block_no_panic r block refs)].
  apply check_block_Ok in Ec as (Hnext & _ & Hs).
  destruct (reducer_ok_next r (bl_height block) Hr Hnext) as [Hh Hl].
  pose proof (start_ledger_ok _ _ _ supplied Hp Hl Hs) as Hl0.
  destruct (ledger_transactions_total (E := ApplyError) (parameters r) (verifier r)
    (bl_height block) (bl_transactions block)
    (start_ledger (parameters r) (bl_height block) supplied (ledger_of r)) Hp Hn) as [y Hy].
  pose proof (transition_sim (E := ApplyError) r block supplied Hi
    (ledger_ok_typed r _ Hp Hl)) as Hsim.
  pose proof (res_sim_Ok _ _ _ _ Hsim Hy) as ([out r'] & Ht & Hb). cbn [fst snd] in Hb.
  exists y, out, r'. rewrite Ht. split; [exact Hy|]. split; [done|]. split; [done|].
  pose proof Hb as [Hi' Hl' _ _ _ _ Hp' _ Hn' Ht' _].
  assert (tip_height r' = Some (bl_height block)) as Etip.
  { unfold tip in Ht'. destruct (tip_height r'); [|done]. by injection Ht' as ->. }
  constructor; rewrite ?Hp', ?Etip; [done|done|]. split; [done|]. split; [done|].
  rewrite Hl'. by eapply ledger_transactions_ok; [|apply Hh|exact Hl0|exact Hy].
Qed.
End ReducerInvariant.
