(* ===== verification/Keys.v ===== *)
(** * What a journal mentions

    The records in the journal of a block are the records the block found or
    left: nothing else is remembered. *)

From S2P Require Import Prelude Bytes BTree External Protocol Schedule Codec Statement.
From S2P Require Import Records State Reducer Journal Ledger Invariant.

Section Keys.
Context `{Blake2b} `{Pallas} {V : Type} `{!ProofVerifier V}.
#[local] Notation St := (Reducer V * Undo)%type.
Implicit Types (r : Reducer V) (u : Undo) (st : St).

(** The records of the journal existed in [r0]. *)
Definition found (r0 : Reducer V) st : Prop :=
  (∀ c, is_Some (un_commits st.2 !! c) → is_Some (commits r0 !! c))
  ∧ ∀ i, is_Some (un_heads st.2 !! i) → is_Some (heads r0 !! i).

(** They existed in [r0], or exist now. *)
Definition known (r0 : Reducer V) st : Prop :=
  (∀ c, is_Some (un_commits st.2 !! c) → is_Some (commits r0 !! c) ∨ is_Some (commits st.1 !! c))
  ∧ ∀ i, is_Some (un_heads st.2 !! i) → is_Some (heads r0 !! i) ∨ is_Some (heads st.1 !! i).

Lemma found_known r0 st : found r0 st → known r0 st.
Proof. intros [Hc Hh]. split; eauto. Qed.

Lemma is_Some_entry {K A} `{Countable K} (k i : K) (v : A) (m : gmap K A) :
  is_Some (entry_or_insert k v m !! i) ↔ i = k ∨ is_Some (m !! i).
Proof.
  rewrite lookup_entry_or_insert. case_decide as D; [subst|naive_solver].
  split; [by left|]. intros _. destruct (m !! k); by eexists.
Qed.

Lemma grow_known r0 st st' : known r0 st → grow st st' → known r0 st'.
Proof.
  intros [Hc Hh] Hg. destruct Hg as [r u c k|r u i hd|r u i Hi]; cbn [fst snd] in *.
  - destruct (replace_commit_eq r c (Some k)) as (Ec & Eh & _). split.
    + intros d. cbn [fst snd remember_commit with_un_commits un_commits]. rewrite is_Some_entry, Ec.
      destruct (decide (d = c)) as [->|Hne]; [rewrite lookup_partial_alter_eq; eauto|].
      rewrite lookup_partial_alter_ne by done. intros [?|?]; [done|auto].
    + cbn [fst snd remember_commit with_un_commits un_heads]. by rewrite Eh.
  - destruct (replace_head_eq r i (Some hd)) as (Eh & Ec & _). split.
    + cbn [fst snd remember_head with_un_heads un_commits]. by rewrite Ec.
    + intros d. cbn [fst snd remember_head with_un_heads un_heads]. rewrite is_Some_entry, Eh.
      destruct (decide (d = i)) as [->|Hne]; [rewrite lookup_partial_alter_eq; eauto|].
      rewrite lookup_partial_alter_ne by done. intros [?|?]; [done|auto].
  - split; [done|]. intros d. cbn [fst snd remember_head with_un_heads un_heads].
    rewrite is_Some_entry. intros [->|?]; auto.
Qed.

Lemma grows_known r0 st st' : known r0 st → rtc grow st st' → known r0 st'.
Proof. intros Hk Hg. induction Hg; eauto using grow_known. Qed.

(** Loops that remember the heads of a list. *)
Lemma remember_heads_found {A} (f : St → A → St) (key : A → NameId) r0 l st :
  (∀ r u x, (f (r, u) x).2 = remember_head r u (key x)) →
  (∀ x, x ∈ l → is_Some (heads r0 !! key x)) → found r0 st → found r0 (fold_left f l st).
Proof.
  intros Hf. revert st. induction l as [|x l IH]; intros [r u] Hl Hs; simpl; [done|].
  apply IH; [intros; apply Hl; by right|]. destruct Hs as [Hc Hh]. split.
  - rewrite Hf. exact Hc.
  - intros i. rewrite Hf. cbn [remember_head with_un_heads un_heads]. rewrite is_Some_entry.
    intros [->|?]; [apply Hl; left|by apply Hh].
Qed.

Lemma remember_commits_found {A} (f : St → A → St) (key : A → CommitRef) r0 l st :
  (∀ r u x, (f (r, u) x).2 = remember_commit r u (key x)) →
  (∀ x, x ∈ l → is_Some (commits r0 !! key x)) → found r0 st → found r0 (fold_left f l st).
Proof.
  intros Hf. revert st. induction l as [|x l IH]; intros [r u] Hl Hs; simpl; [done|].
  apply IH; [intros; apply Hl; by right|]. destruct Hs as [Hc Hh]. split.
  - intros i. rewrite Hf. cbn [remember_commit with_un_commits un_commits]. rewrite is_Some_entry.
    intros [->|?]; [apply Hl; left|by apply Hc].
  - rewrite Hf. exact Hh.
Qed.

Lemma mark_expired_found r0 h st :
  indexed st.1 → (∀ i, is_Some (heads st.1 !! i) → is_Some (heads r0 !! i)) →
  found r0 st → found r0 (mark_expired h st).
Proof.
  intros Hi Hr. apply (remember_heads_found _ id).
  - intros r u i. simpl. by destruct (heads r !! i).
  - intros i (k & _ & hd & E & _)%(elem_of_range_through _ _ _ _ (indexed_expiry _ Hi)).
    apply Hr. by exists hd.
Qed.

Lemma compact_claimable_found {E} r0 h st l st' :
  indexed st.1 → (∀ i, is_Some (heads st.1 !! i) → is_Some (heads r0 !! i)) →
  compact_claimable (E := E) h st = Ok (l, st') → found r0 st → found r0 st'.
Proof.
  intros Hi Hr. unfold compact_claimable.
  destruct (u32_checked_sub _ _); [|by intros [= _ <-]].
  destruct (res_mapM _ _) as [k|e|] eqn:Ek; [|done..]. intros [= _ <-].
  apply (remember_heads_found _ fst); [by intros r u [i p]|].
  intros [i p] Hin. simpl. apply Hr. clear Hr.
  apply res_mapM_Ok in Ek. apply list_elem_of_lookup in Hin as [n Hn].
  destruct (Forall2_lookup_r _ _ _ _ _ Ek Hn) as (j & _ & Hj). unfold producer_of in Hj.
  apply res_bind_Ok in Hj as (hd & Hhd%expect_Ok & [= -> _]%Ok_inj). by exists hd.
Qed.

Lemma prune_commits_found r0 h st :
  indexed st.1 → (∀ c, is_Some (commits st.1 !! c) → is_Some (commits r0 !! c)) →
  found r0 st → found r0 (prune_commits h st).
Proof.
  intros Hi Hr. unfold prune_commits. destruct (u32_checked_sub _ _); [|done].
  apply (remember_commits_found _ id); [done|].
  by intros c (k & _ & Hc & _)%(elem_of_range_through _ _ _ _ (indexed_commits _ Hi)); apply Hr.
Qed.

Lemma begin_block_known {E} r block m l st :
  indexed r → begin_block (E := E) r block m = Ok (l, st) → known r st.
Proof.
  intros Hi. unfold begin_block. set (h := bl_height block).
  set (st0 := (r, new_undo r h (bl_hash block))).
  pose proof (tracks_start r h (bl_hash block) Hi) as T0. fold st0 in T0.
  pose proof (tracks_writes _ _ _ _ _ T0 (mark_expired_writes h st0)) as T1.
  assert (found r st0) as F0 by (split; intros ? [x Hx]; unfold st0 in Hx; simpl in Hx; by rewrite lookup_empty in Hx).
  pose proof (mark_expired_found r h st0 Hi (λ i Hs, Hs) F0) as F1.
  intros ([l1 st2] & Hc & [= _ <-]%Ok_inj)%res_bind_Ok.
  pose proof (tracks_writes _ _ _ _ _ T1 (compact_claimable_writes h _ l1 st2 Hc)) as T2.
  assert (found r st2) as F2.
  { eapply compact_claimable_found; [apply T1| |exact Hc|exact F1].
    intros i. rewrite mark_expired_heads by done. by rewrite lookup_fmap, fmap_is_Some. }
  eapply grows_known; [|apply admit_supplied_grows]. apply found_known.
  apply prune_commits_found; [apply T2| |done]. intros c Hs.
  pose proof (tr_commits _ _ _ _ T2 c) as Hk.
  destruct (un_commits st2.2 !! c) as [o|] eqn:Eu; [by apply F2; rewrite Eu|]. by rewrite <- Hk.
Qed.

(** The journal of an applied block. *)
Lemma apply_block_journal block refs r out r' :
  indexed r → apply_block_detailed block refs r = (Ok out, r') →
  ∃ u, history r' = history r ++ [u]
    ∧ u = MkUndo (bl_height block) (bl_hash block) (previous_hash r) (next_height r) (tip_height r)
            (un_commits u) (un_heads u)
    ∧ (∀ c o, un_commits u !! c = Some o →
         commits r !! c = o ∧ (is_Some (commits r !! c) ∨ is_Some (commits r' !! c)))
    ∧ (∀ i o, un_heads u !! i = Some o →
         heads r !! i = o ∧ (is_Some (heads r !! i) ∨ is_Some (heads r' !! i))).
Proof.
  intros Hi Ha. rewrite apply_block_unfold in Ha.
  destruct (check_block r block refs) as [m|e|]; [|done..].
  destruct (transition r block m) as [[out1 r1]|e|] eqn:Et; [|done..]. injection Ha as -> ->.
  unfold transition in Et.
  apply res_bind_Ok in Et as ([l st] & Hb & (pg & Hp & Et)%res_bind_Ok).
  destruct (pg_st pg) as [s u] eqn:Epg. apply Ok_inj in Et.
  assert (tracks r (bl_height block) (bl_hash block) (s, u)) as T.
  { eapply tracks_writes; [by apply tracks_start|]. etrans; [by eapply begin_block_writes|].
    apply apply_next_writes in Hp. by rewrite Epg in Hp. }
  assert (known r (s, u)) as [Kc Kh].
  { eapply grows_known; [by eapply begin_block_known|]. apply apply_next_grows in Hp.
    by rewrite Epg in Hp. }
  pose proof (f_equal snd Et) as E2. cbn [snd] in E2. subst r'. exists u.
  destruct T as [_ Tc Th _ _ _ _ _ Thi Tu]. cbn [fst snd] in *. split; [|split; [done|split]].
  - cbn [set_history history set_tip]. by rewrite Thi.
  - intros c o Ho. specialize (Tc c). rewrite Ho in Tc. split; [done|]. by apply Kc; rewrite Ho.
  - intros i o Ho. specialize (Th i). rewrite Ho in Th. split; [done|]. by apply Kh; rewrite Ho.
Qed.
End Keys.
