(* ===== verification/Safety.v ===== *)
(** * Safety of the reducer

    The properties of block application, rollback and finalization over every
    reachable state. *)

From S2P Require Import Prelude Bytes BTree External Protocol Schedule Codec Statement Records.
From S2P Require Import State Reducer Journal Ledger Invariant.

Section Reachability.
Context `{Blake2b} `{Pallas} {V : Type} `{!ProofVerifier V}.
Implicit Types (r : Reducer V).

(** What a host hands to the reducer: a predicate of blocks and evidence. *)
Definition Host : Type := Block → list ReferencedCommit → Prop.

(** One call that changes the state. *)
Inductive step (host : Host) : Reducer V → Reducer V → Prop :=
  | step_apply r block refs out r' :
      host block refs → apply_block_detailed block refs r = (Ok out, r') → step host r r'
  | step_rollback r hash d r' : rollback_tip_detailed hash r = (Ok d, r') → step host r r'
  | step_finalize r height r' : finalize_through height r = (Ok tt, r') → step host r r'.

(** A property that blocks and dropped journals preserve.  Rollback needs no
    condition: it goes back to an earlier state. *)
Class Maintained (host : Host) (P : Reducer V → Prop) := {
  maintained_indexed r : P r → indexed r;
  maintained_apply r block refs out r' :
    P r → host block refs → apply_block_detailed block refs r = (Ok out, r') → P r';
  maintained_drop r k : P r → P (set_history r (drop k (history r)));
}.

(** A state with the property, as all its rollbacks have. *)
Inductive recoverable (P : Reducer V → Prop) : Reducer V → Prop :=
  | recoverable_intro r :
      P r → (∀ hash d r', rollback_tip_detailed hash r = (Ok d, r') → recoverable P r') →
      recoverable P r.

Lemma recoverable_ok P r : recoverable P r → P r.
Proof. by destruct 1. Qed.

Lemma new_ok p hash v r :
  Parameters_typed p → new p hash v = Ok r → reducer_ok r ∧ history r = [].
Proof.
  intros Hty Hn. unfold new in Hn. inv_res. apply validate_Ok in H1 as [-> Hp]; [|done].
  split; [|done]. constructor; simpl; [done| |done].
  constructor; simpl; apply index_ok_empty; intros k a; unfold by_height, by_future_nf, by_expiry,
    by_terminal; setoid_rewrite lookup_empty; [intros [[? [=]] _]|intros (? & [=] & _)..].
Qed.

Lemma recoverable_new P r : P r → history r = [] → recoverable P r.
Proof.
  intros Hr Hh. constructor; [done|]. intros hash d r' Hb.
  unfold rollback_tip_detailed in Hb. by rewrite Hh in Hb.
Qed.

Lemma rollback_hash hash r d r' :
  rollback_tip_detailed hash r = (Ok d, r') → hash = previous_hash r.
Proof.
  unfold rollback_tip_detailed. destruct (last (history r)); [|done].
  destruct (_ || _) eqn:G; [done|]. intros _. apply orb_false_iff in G as [_ G].
  apply bool_decide_eq_false in G. destruct (decide (previous_hash r = hash)); [done|].
  by destruct G.
Qed.

Lemma applied_hash block refs r out r' :
  apply_block_detailed block refs r = (Ok out, r') → previous_hash r' = bl_hash block.
Proof.
  rewrite apply_block_unfold. destruct (check_block r block refs) as [m|e|]; [|done..].
  unfold transition. destruct (begin_block r block m) as [[l st]|e|]; [|done..]. cbn [res_bind].
  destruct (res_fold _ _ _) as [pg|e|]; [|done..]. cbn [res_bind].
  destruct (pg_st pg) as [r1 u]. by intros [= _ <-].
Qed.

Lemma recoverable_apply {host P} `{!Maintained host P} r block refs out r' :
  recoverable P r → host block refs → apply_block_detailed block refs r = (Ok out, r') →
  recoverable P r'.
Proof.
  intros Hr Hn Ha. pose proof (recoverable_ok P r Hr) as Hok.
  constructor; [by eapply maintained_apply|]. intros hash d r'' Hroll.
  pose proof (rollback_hash _ _ _ _ Hroll) as ->.
  rewrite (applied_hash _ _ _ _ _ Ha) in Hroll.
  rewrite (rollback_apply block refs r r' out (maintained_indexed r Hok) Ha) in Hroll.
  by injection Hroll as _ <-.
Qed.

(** Rollback does not look at the older journals. *)
Lemma restore_commits_set_history l r h :
  restore_commits l (set_history r h) = set_history (restore_commits l r) h.
Proof.
  revert r. induction l as [|[c o] l IH]; intros r; simpl; [done|].
  by rewrite replace_commit_set_history, IH.
Qed.
Lemma restore_heads_set_history l r h :
  restore_heads l (set_history r h) = set_history (restore_heads l r) h.
Proof.
  revert r. induction l as [|[i o] l IH]; intros r; simpl; [done|].
  by rewrite replace_head_set_history, IH.
Qed.

(** The state a rollback of [undo] gives, with the journal [h] left. *)
Definition undone (undo : Undo) (h : list Undo) r : Reducer V :=
  set_tip (restore_heads (btree_iter (un_heads undo))
            (restore_commits (btree_iter (un_commits undo)) (set_history r h)))
    (un_previous_next_height undo) (un_previous_tip_height undo) (un_previous_hash undo).

Lemma rollback_undone hash r d r' :
  rollback_tip_detailed hash r = (Ok d, r') →
  ∃ h undo, history r = h ++ [undo] ∧ r' = undone undo h r ∧ un_hash undo = hash
    ∧ previous_hash r = hash.
Proof.
  unfold rollback_tip_detailed. destruct (history r) as [|u h _] eqn:Eh using rev_ind; [done|].
  rewrite last_snoc, removelast_last. destruct (_ || _) eqn:G; [done|].
  apply orb_false_iff in G as [G1 G2].
  rewrite bool_decide_eq_false in G1. rewrite bool_decide_eq_false in G2.
  intros Hr. apply (f_equal snd) in Hr. cbn [snd] in Hr. subst r'.
  exists h, u. split; [done|]. split; [done|].
  split; apply dec_stable; tauto.
Qed.

Lemma undone_rollback hash r h undo :
  history r = h ++ [undo] → un_hash undo = hash → previous_hash r = hash →
  ∃ d, rollback_tip_detailed hash r = (Ok d, undone undo h r).
Proof.
  intros Eh E1 E2. unfold rollback_tip_detailed.
  rewrite Eh, last_snoc, removelast_last, E1, E2, !bool_decide_false by tauto. by eexists.
Qed.

Lemma rollback_drop k hash r d r' :
  rollback_tip_detailed hash (set_history r (drop k (history r))) = (Ok d, r') →
  ∃ d' r'', rollback_tip_detailed hash r = (Ok d', r'') ∧ r' = set_history r'' (drop k (history r'')).
Proof.
  intros (h & u & Eh & -> & Eu & Ep)%rollback_undone. simpl in Eh, Ep.
  assert (∃ h', history r = h' ++ [u] ∧ h = drop k h') as (h' & Er & ->).
  { destruct (history r) as [|u' h' _] using rev_ind; [rewrite drop_nil in Eh; by destruct h|].
    exists h'. destruct (decide (k ≤ length h')%nat).
    - rewrite drop_app_le in Eh by done. apply app_inj_tail in Eh as [-> ->]. done.
    - rewrite drop_ge in Eh by (rewrite length_app; simpl; lia). by destruct h. }
  destruct (undone_rollback hash r h' u Er Eu Ep) as (d' & Hd).
  exists d', (undone u h' r). split; [done|]. unfold undone.
  rewrite !restore_commits_set_history, !restore_heads_set_history. simpl. done.
Qed.

Lemma recoverable_drop {host P} `{!Maintained host P} k r :
  recoverable P r → recoverable P (set_history r (drop k (history r))).
Proof.
  induction 1 as [r Hr _ IH]. constructor; [by apply maintained_drop|].
  intros hash d r' (d' & r'' & Hb & ->)%rollback_drop. by eapply IH.
Qed.

Lemma drop_finalized_drop height h : ∃ k, drop_finalized height h = drop k h.
Proof.
  induction h as [|u h [k IH]]; simpl; [by exists 0%nat|].
  destruct (_ <=? _); [|by exists 0%nat]. exists (S k). done.
Qed.

Lemma recoverable_step {host P} `{!Maintained host P} r r' :
  recoverable P r → step host r r' → recoverable P r'.
Proof.
  intros Hr Hs. destruct Hs as [r block refs out r' Hn Ha|r hash d r' Hb|r height r' Hf].
  - by eapply recoverable_apply.
  - destruct Hr as [r _ Hr]. by eapply Hr.
  - unfold finalize_through in Hf. destruct (tip_height r) as [t|]; [|done].
    destruct (t <? height); [done|]. injection Hf as <-.
    destruct (drop_finalized_drop height (history r)) as [k ->]. by apply recoverable_drop.
Qed.

(** What is maintained holds in every state reached from one without a journal. *)
Lemma maintained_steps {host P} `{!Maintained host P} r0 r :
  P r0 → history r0 = [] → rtc (step host) r0 r → recoverable P r.
Proof.
  intros Hp Hh Hs. assert (recoverable P r0) as Hr by by apply recoverable_new.
  clear Hp Hh. induction Hs; eauto using recoverable_step.
Qed.

(** Blocks of well-formed operations, with any evidence. *)
Definition named_host : Host := λ block _, block_named block.

#[export] Instance reducer_ok_maintained : Maintained named_host reducer_ok.
Proof.
  split.
  - by intros r [].
  - intros r block refs out r' Hr Hn Ha. pose proof (apply_block_step block refs r Hr Hn) as Hs.
    destruct (check_block r block refs) as [m|e|]; [|congruence|done].
    destruct Hs as (y & out1 & r1 & _ & Ha1 & _ & Hr1). rewrite Ha in Ha1. by injection Ha1 as <- <-.
  - intros r k [Hp [Hc Hn He Hx] Ht]. constructor; [exact Hp|by constructor|exact Ht].
Qed.
End Reachability.

(** C1: over every sequence of accepted blocks, rollbacks and finalizations from
    the activation state, the reducer satisfies its invariant; in each state it
    reaches, applying any block of well-formed operations and rolling back
    return without a panic, leave the state untouched when they fail, and keep
    the invariant when they succeed. *)
Theorem reachable_safe `{Blake2b} `{Pallas} {V : Type} `{!ProofVerifier V}
  (p : Parameters) (hash : list byte) (v : V) (r0 r : Reducer V) :
  Parameters_typed p → new p hash v = Ok r0 → rtc (step named_host) r0 r →
  reducer_ok r
  ∧ (∀ block refs, block_named block →
       (∃ e, apply_block_detailed block refs r = (Err e, r))
       ∨ ∃ out r', apply_block_detailed block refs r = (Ok out, r') ∧ reducer_ok r')
  ∧ (∀ expected,
       (∃ e, rollback_tip_detailed expected r = (Err e, r))
       ∨ ∃ d r', rollback_tip_detailed expected r = (Ok d, r') ∧ reducer_ok r').
Proof.
  intros Hty [Hr0 Hh]%new_ok Hsteps; [|done].
  assert (recoverable reducer_ok r) as Hrec by by eapply maintained_steps.
  pose proof (recoverable_ok _ r Hrec) as Hr. split; [done|]. split.
  - intros block refs Hn. pose proof (apply_block_step block refs r Hr Hn) as Hs.
    destruct (check_block r block refs); [|eauto|done].
    destruct Hs as (y & out & r' & _ & ? & _ & ?). eauto.
  - intros expected.
    destruct (rollback_tip_detailed expected r) as [[d|e|] r'] eqn:E.
    + right. exists d, r'. split; [done|]. destruct Hrec as [r _ Hrec].
      by eapply recoverable_ok, Hrec.
    + left. exists e. unfold rollback_tip_detailed in E.
      destruct (last (history r)); [destruct (_ || _)|]; by simplify_eq.
    + exfalso. unfold rollback_tip_detailed in E.
      destruct (last (history r)); [destruct (_ || _)|]; by simplify_eq.
Qed.

(** The outcome and the new state are those of the index-free ledger. *)
Definition implements_ledger `{Blake2b} `{Pallas} {V : Type} `{!ProofVerifier V}
  (r : Reducer V) (block : Block) (supplied : gmap CommitRef Commitment)
  (out : BlockOutcome) (r' : Reducer V) : Prop :=
  ∃ decisions terminated l,
    ledger_block (E := ApplyError) (parameters r) (verifier r) block supplied (ledger_of r)
      = Ok (decisions, terminated, l)
    ∧ block_refined r block out r' decisions terminated l.

(** C2: the reducer implements the index-free ledger.  A block whose header,
    ordering and evidence are accepted is applied, and its decisions, accepted
    operations, terminations, compactions and new records are those of the
    specification of [Ledger]; the indexes only accelerate it. *)
Theorem apply_block_refines `{Blake2b} `{Pallas} {V : Type} `{!ProofVerifier V}
  (r : Reducer V) (block : Block) (refs : list ReferencedCommit)
  (supplied : gmap CommitRef Commitment) :
  reducer_ok r → block_named block → check_block r block refs = Ok supplied →
  ∃ out r', apply_block_detailed block refs r = (Ok out, r')
    ∧ implements_ledger r block supplied out r'.
Proof.
  intros Hr Hn Hc. pose proof (apply_block_step block refs r Hr Hn) as Hs. rewrite Hc in Hs.
  destruct Hs as ([[ds ts] l] & out & r' & Hl & Ha & Hb & _). exists out, r'. split; [done|]. by exists ds, ts, l.
Qed.

(** The compaction of a head that became terminal exactly one cooldown ago. *)
Definition due {V : Type} (r : Reducer V) (height : Z) (c : Compaction) : Prop :=
  ∃ hd, heads r !! cp_name_id c = Some hd
    ∧ hd_terminal_height hd = Some (height - cooldown_blocks (parameters r))
    ∧ c = MkCompaction (cp_name_id c) (hd_producer hd) height.

(** Compactions are reported once per name in ascending [NameId] order, each
    exactly one cooldown after its head became terminal. *)
Theorem compactions_ordered `{Blake2b} `{Pallas} {V : Type} `{!ProofVerifier V}
  (r r' : Reducer V) (block : Block) (refs : list ReferencedCommit) (out : BlockOutcome) :
  reducer_ok r → block_named block → apply_block_detailed block refs r = (Ok out, r') →
  NoDup (map cp_name_id (bo_compacted out))
  ∧ StronglySorted key_le (map cp_name_id (bo_compacted out))
  ∧ ∀ c, c ∈ bo_compacted out ↔ due r (bl_height block) c.
Proof.
  intros Hr Hn Ha. pose proof (apply_block_step block refs r Hr Hn) as Hs.
  destruct (check_block r block refs) as [supplied|e|] eqn:Ec; [|congruence|done].
  destruct Hs as (y & out1 & r1 & _ & Ha1 & Hb & _). rewrite Ha in Ha1. injection Ha1 as <- <-.
  pose proof Ec as (Hnext & _ & _)%check_block_Ok.
  destruct (reducer_ok_next r _ Hr Hnext) as [Hact [_ Hl]]. destruct Hr as [Hp Hi _].
  pose proof (ok_cooldown _ Hp). pose proof (ok_epoch _ Hp). pose proof (ok_ttl _ Hp).
  pose proof (ok_maturity _ Hp). pose proof (ok_window _ Hp).
  set (h := bl_height block) in *. set (p := parameters r) in *.
  (* a head that has cooled was terminal exactly one cooldown ago *)
  assert (∀ i hd t, (expire h <$> heads r) !! i = Some hd → hd_terminal_height hd = Some t →
    t + cooldown_blocks p ≤ h → t = h - cooldown_blocks p ∧ heads r !! i = Some hd) as Hlast.
  { intros i hd t (hd0 & <- & E)%lookup_fmap_Some. destruct (Hl i hd0 E) as [_ _ _ _ _ Ht].
    unfold expire. destruct (hd_terminal_height hd0) as [t0|] eqn:T; simpl.
    - rewrite T. intros [= <-] ?. split; [lia|done].
    - destruct (Z.leb_spec (hd_expiry_height hd0) h); simpl; [|by rewrite T].
      intros [= <-] ?. lia. }
  destruct (br_compacted_order _ _ _ _ _ _ _ Hb) as (idx & Hidx & Hids).
  fold h p in Hids, Hidx.
  assert (map cp_name_id (bo_compacted out) =
    match u32_checked_sub h (cooldown_blocks p) with
    | Some last => bset_iter (default ∅ (idx !! last)) | None => [] end) as Eids.
  { rewrite Hids. destruct (u32_checked_sub h (cooldown_blocks p)) as [last|] eqn:Es; [|done].
    apply u32_checked_sub_Some in Es as [-> _]. eapply range_through_last; [done|].
    intros k i (hd & E & T) Hk. by destruct (Hlast i hd k E T ltac:(lia)). }
  split; [|split].
  - rewrite Eids. destruct (u32_checked_sub _ _); [apply NoDup_bset_iter|constructor].
  - rewrite Eids. destruct (u32_checked_sub _ _); [apply Sorted_bset_iter|constructor].
  - intros c. pose proof (br_compacted _ _ _ _ _ _ _ Hb c) as Hc. fold h p in Hc. rewrite Hc. split.
    + intros (i & hd & E & Hcool & ->). clear Hc. rename Hcool into Hc. unfold cooled in Hc.
      destruct (hd_terminal_height hd) as [t|] eqn:T; [|done]. apply Z.leb_le in Hc.
      destruct (Hlast i hd t E T Hc) as [-> E']. exists hd. done.
    + intros (hd & E & T & Ec'). rewrite Ec'. exists (cp_name_id c), hd. simpl. fold h p in T |- *.
      rewrite lookup_fmap, E. simpl. unfold expire, cooled. rewrite T. simpl. fold p.
      split; [done|]. split; [apply Z.leb_le; lia|done].
Qed.

(** A chain of blocks, and the rollbacks of a reorganization. *)
Fixpoint apply_chain `{Blake2b} `{Pallas} {V : Type} `{!ProofVerifier V}
  (chain : list (Block * list ReferencedCommit)) (r : Reducer V) : option (Reducer V) :=
  match chain with
  | [] => Some r
  | (block, refs) :: chain =>
      match apply_block_detailed block refs r with
      | (Ok _, r') => apply_chain chain r'
      | _ => None
      end
  end.

Lemma apply_chain_app `{Blake2b} `{Pallas} {V : Type} `{!ProofVerifier V} a b (r : Reducer V) :
  apply_chain (a ++ b) r = (r' ← apply_chain a r; apply_chain b r').
Proof.
  revert r. induction a as [|[x refs] a IH]; intros r; simpl; [done|].
  destruct (apply_block_detailed x refs r) as [[out|e|] r1]; [apply IH|done..].
Qed.

Fixpoint rollback_chain {V : Type} (hashes : list (list byte)) (r : Reducer V) : option (Reducer V) :=
  match hashes with
  | [] => Some r
  | hash :: hashes =>
      match rollback_tip_detailed hash r with
      | (Ok _, r') => rollback_chain hashes r'
      | _ => None
      end
  end.

Lemma rollback_chain_app {V : Type} (a b : list (list byte)) (r s : Reducer V) :
  rollback_chain a r = Some s → rollback_chain (a ++ b) r = rollback_chain b s.
Proof.
  revert r. induction a as [|hash a IH]; intros r; simpl; [by intros [= ->]|].
  destruct (rollback_tip_detailed hash r) as [[d|e|] r']; [apply IH|done..].
Qed.

Lemma apply_block_indexed `{Blake2b} `{Pallas} {V : Type} `{!ProofVerifier V}
  (block : Block) refs (r r' : Reducer V) out :
  indexed r → apply_block_detailed block refs r = (Ok out, r') → indexed r'.
Proof.
  intros Hi (r1 & u & [[Hc Hn He Ht] _ _ _ _ _ _ _ _ _] & -> & _)%apply_block_inv; [|done].
  by constructor.
Qed.

(** C4: a reorganization is exact.  Rolling back, newest first, the blocks of any
    chain that was applied, restores the state before the chain. *)
Theorem reorganization_exact `{Blake2b} `{Pallas} {V : Type} `{!ProofVerifier V}
  (chain : list (Block * list ReferencedCommit)) (r r' : Reducer V) :
  indexed r → apply_chain chain r = Some r' →
  rollback_chain (reverse (map (λ b, bl_hash b.1) chain)) r' = Some r.
Proof.
  revert r. induction chain as [|[block refs] chain IH]; intros r Hi Hc; simpl in Hc.
  { by injection Hc as ->. }
  destruct (apply_block_detailed block refs r) as [[out|e|] r1] eqn:Ea; [|done..].
  rewrite map_cons, reverse_cons, (rollback_chain_app _ _ _ r1).
  - simpl. by rewrite (rollback_apply block refs r r1 out Hi Ea).
  - apply IH; [|done]. by eapply apply_block_indexed.
Qed.

(** What a name resolves to at the tip: no claimable head is ever stored. *)
Definition current `{Blake2b} `{Pallas} {V : Type} (r : Reducer V) (name : Name) : Resolution :=
  match Name_id name with
  | Ok i =>
      match heads r !! i with
      | None => missing
      | Some hd =>
          match hd_terminal_height hd with
          | None => MkResolution Active (Some (hd_ua hd)) (Some hd)
          | Some _ => MkResolution Cooldown None (Some hd)
          end
      end
  | _ => missing
  end.

(** C35: resolution at the authenticated tip.  A name without a head is missing,
    an active head gives its address, a terminal head is in cooldown without an
    address; a stored head is never claimable at the tip.  Every other height is
    refused. *)
Theorem resolve_authenticated_exact `{Blake2b} `{Pallas} {V : Type} `{!ProofVerifier V}
  (r : Reducer V) (name : Name) (h height : Z) :
  reducer_ok r → Name_ok name → tip_height r = Some h →
  resolve_authenticated r name height =
    if bool_decide (height = h) then Ok (current r name)
    else if height <? h then Err (HistoricalResolutionUnavailable height h)
    else Err (IncompleteHistory height (Some h)).
Proof.
  intros [Hp Hi Ht] Hn Etip. rewrite Etip in Ht. destruct Ht as (_ & _ & _ & Hl).
  unfold resolve_authenticated. rewrite Etip. simpl.
  destruct (Z.leb_spec height h) as [Hle|Hgt]; simpl.
  2: { rewrite bool_decide_false by lia. by destruct (Z.ltb_spec height h); [lia|]. }
  destruct (decide (height = h)) as [->|Hne].
  - rewrite (bool_decide_true (h = h)), bool_decide_false by tauto. unfold resolve, current.
    pose proof (Name_id_no_panic name Hn). destruct (Name_id name) as [i|e|]; [|done..].
    f_equal. unfold resolve_head. destruct (heads r !! i) as [hd|] eqn:E; [|done].
    destruct (Hl i hd E) as [_ _ _ _ _ Hterm].
    destruct (hd_terminal_height hd) as [t|] eqn:T.
    + unfold lifecycle, is_claimable, terminal_at. rewrite T.
      by destruct (Z.leb_spec (t + cooldown_blocks (parameters r)) h); [lia|].
    + by rewrite (proj2 (lifecycle_active hd h (parameters r))).
  - rewrite (bool_decide_true (Some h ≠ Some height)) by congruence.
    rewrite bool_decide_false by done. simpl. by destruct (Z.ltb_spec height h); [|lia].
Qed.
