(* ===== verification/Lifecycle.v ===== *)
(** * The life of a name

    What a block does to the head of one name: the lease state machine of the
    protocol, as a step relation that every applied block follows. *)

From S2P Require Import Prelude Bytes BTree External Protocol Schedule Codec Statement Records.
From S2P Require Import State Reducer Journal Ledger Invariant.

Section Lifecycle.
Context `{Blake2b} `{Pallas} {V : Type} `{!ProofVerifier V}.

(** The head of a name after expiry and compaction at the start of a block. *)
Definition name_start (p : Parameters) (h : Z) (o : option Head) : option Head :=
  match expire h <$> o with
  | Some hd => if cooled p h hd then None else Some hd
  | None => None
  end.

(** One transition of a name's head inside block [h]: a REVEAL of a missing
    name, a REFRESH of the current head by its owner, or a spend of the current
    head's nullifier, which ends the lease. *)
Inductive name_step (p : Parameters) (v : V) (h : Z) (txs : list Transaction) (i : NameId)
  : option Head → option Head → Prop :=
  | name_reveal l tx op hd :
      tx ∈ txs → tx_operation tx = Some op → ledger_ok p h l →
      reveal_accepted (view p v l) h tx op i hd →
      name_step p v h txs i None (Some hd)
  | name_refresh l tx op prev hd :
      tx ∈ txs → tx_operation tx = Some op → ledger_ok p h l →
      refresh_accepted (view p v l) h tx op i prev hd →
      name_step p v h txs i (Some prev) (Some hd)
  | name_spend tx hd :
      tx ∈ txs → spends tx hd = true → hd_terminal_height hd = None →
      name_step p v h txs i (Some hd) (Some (set_terminal h hd)).

(** Every producer is before transaction [n] of block [h]. *)
Definition ordered (h n : Z) (l : Ledger) : Prop :=
  ∀ i hd, lg_heads l !! i = Some hd →
    sr_height (hd_producer hd) < h
    ∨ sr_height (hd_producer hd) = h ∧ sr_tx_index (hd_producer hd) < n.

Lemma accepted_producer p v l h tx op i hd :
  (reveal_accepted (view p v l) h tx op i hd
   ∨ ∃ prev, refresh_accepted (view p v l) h tx op i prev hd) →
  sr_height (hd_producer hd) = h ∧ sr_tx_index (hd_producer hd) = tx_tx_index tx
  ∧ hd_terminal_height hd = None.
Proof.
  intros [[_ _ (? & ? & ? & ? & ? & ? & ? & ? & ? & ? & Hev)]
    |(prev & [_ _ _ _ (? & ? & ? & ? & ? & ? & ? & ? & Hev)])].
  - by destruct Hev as (_ & _ & _ & _ & _ & _ & _ & _ & _ & ->).
  - by destruct Hev as (_ & _ & _ & _ & _ & _ & _ & _ & ->).
Qed.

Lemma end_spent_producer h tx before after i hd :
  end_spent h tx before after !! i = Some hd →
  ∃ hd0, after !! i = Some hd0 ∧ hd_producer hd = hd_producer hd0
    ∧ hd = (if terminates tx before i hd0 then set_terminal h hd0 else hd0).
Proof.
  unfold end_spent. rewrite map_lookup_imap. destruct (after !! i) as [hd0|]; [|done].
  intros [= <-]. exists hd0. by destruct (terminates tx before i hd0).
Qed.

(** A transaction is at most one operation and one spend of the name. *)
Lemma ledger_transaction_name {E} p v h tx txs l y i :
  tx ∈ txs → ledger_ok p h l → ordered h (tx_tx_index tx) l →
  ledger_transaction (E := E) p v h tx l = Ok y →
  ordered h (tx_tx_index tx + 1) y.2
  ∧ rtc (name_step p v h txs i) (lg_heads l !! i) (lg_heads y.2 !! i).
Proof.
  intros Hin Hl Ho Ht. unfold ledger_transaction in Ht.
  apply res_bind_Ok in Ht as ([d l1] & Hop & [= <-]%Ok_inj). cbn [snd lg_heads].
  assert (∀ i hd, lg_heads l1 !! i = Some hd →
    (lg_heads l !! i = Some hd)
    ∨ (sr_height (hd_producer hd) = h ∧ sr_tx_index (hd_producer hd) = tx_tx_index tx
       ∧ name_step p v h txs i (lg_heads l !! i) (Some hd))) as Hcase.
  { intros j hd. apply ledger_operation_Ok in Hop
      as [[-> _]|[(c & _ & _ & ->)|(op & k & hd1 & Eop & -> & Hacc)]]; [by left|by left|]. simpl.
    destruct (decide (j = k)) as [->|Hne]; [|rewrite lookup_insert_ne by done; by left].
    rewrite lookup_insert_eq. intros [= ->]. right.
    assert (reveal_accepted (view p v l) h tx op k hd
            ∨ ∃ prev, refresh_accepted (view p v l) h tx op k prev hd) as Hac by tauto.
    destruct (accepted_producer _ _ _ _ _ _ _ _ Hac) as (E1 & E2 & _).
    split; [done|]. split; [done|]. destruct Hac as [Hr|[prev Hr]].
    - replace (lg_heads l !! k) with (@None Head) by (symmetry; apply Hr). by eapply name_reveal.
    - replace (lg_heads l !! k) with (Some prev) by (symmetry; apply Hr). by eapply name_refresh. }
  split.
  - intros j hd (hd0 & E0 & Ep & _)%end_spent_producer. rewrite Ep.
    destruct (Hcase j hd0 E0) as [E1|(E1 & E2 & _)]; [|right; lia].
    destruct (Ho j hd0 E1); [by left|right; lia].
  - destruct (lg_heads l1 !! i) as [hd|] eqn:E1.
    + assert (end_spent h tx (lg_heads l) (lg_heads l1) !! i
        = Some (if terminates tx (lg_heads l) i hd then set_terminal h hd else hd)) as ->
        by by unfold end_spent; rewrite map_lookup_imap, E1.
      destruct (Hcase i hd E1) as [E2|(E2 & E3 & Hs)].
      * rewrite E2. unfold terminates. rewrite E2.
        destruct (spends tx hd) eqn:Es; simpl; [|apply rtc_refl].
        case_bool_decide; [|done]. case_bool_decide as T; [|apply rtc_refl]. simpl.
        apply rtc_once. by eapply name_spend.
      * assert (terminates tx (lg_heads l) i hd = false) as ->; [|by apply rtc_once].
        unfold terminates. destruct (lg_heads l !! i) as [hd0|] eqn:E0; [|done].
        rewrite (bool_decide_false (hd_producer hd = _)); [by rewrite andb_false_r|].
        intros Ep. destruct (Ho i hd0 E0) as [?|[? ?]]; rewrite <- Ep in *; lia.
    + assert (end_spent h tx (lg_heads l) (lg_heads l1) !! i = None) as ->
        by by unfold end_spent; rewrite map_lookup_imap, E1.
      replace (lg_heads l !! i) with (@None Head); [apply rtc_refl|]. symmetry.
      apply ledger_operation_Ok in Hop
        as [[-> _]|[(c & _ & _ & ->)|(op & k & hd1 & _ & -> & _)]]; [done|done|].
      simpl in E1. by apply lookup_insert_None in E1 as [? _].
Qed.

(** The transactions of a block in canonical order. *)
Fixpoint ascending (n : Z) (txs : list Transaction) : Prop :=
  match txs with
  | [] => True
  | tx :: txs => n ≤ tx_tx_index tx ∧ ascending (tx_tx_index tx + 1) txs
  end.

(** Where the indices of checked transactions start. *)
Definition first_index (o : option Z) (txs : list Transaction) : Z :=
  match o, txs with
  | Some prev, _ => prev + 1
  | None, tx :: _ => tx_tx_index tx
  | None, [] => 0
  end.

Lemma check_transactions_ascending o txs u :
  check_transactions o txs = Ok u → ascending (first_index o txs) txs.
Proof.
  revert o. induction txs as [|tx txs IH]; intros o; simpl; [done|].
  intros (u1 & H1%ensure_Ok & (u2 & _ & H3)%res_bind_Ok)%res_bind_Ok.
  split; [|apply (IH _ H3)]. destruct o; simpl; [|lia]. apply Z.ltb_lt in H1. lia.
Qed.

Lemma ordered_weaken h n m l : n ≤ m → ordered h n l → ordered h m l.
Proof. intros Hnm Ho i hd Hi. destruct (Ho i hd Hi); [by left|right; lia]. Qed.

Lemma ledger_transactions_name {E} p v h all txs l y i n :
  Parameters_ok p → activation_height p ≤ h → (∀ tx, tx ∈ txs → tx ∈ all) →
  ledger_ok p h l → ordered h n l → ascending n txs →
  ledger_transactions (E := E) p v h txs l = Ok y →
  rtc (name_step p v h all i) (lg_heads l !! i) (lg_heads y.2 !! i).
Proof.
  intros Hp Hact. revert l y n. induction txs as [|tx txs IH]; intros l y n Hall Hl Ho Ha Ht.
  { cbn [ledger_transactions] in Ht. apply Ok_inj in Ht as <-. apply rtc_refl. }
  cbn [ledger_transactions] in Ht. destruct Ha as [Hn Ha].
  apply res_bind_Ok in Ht as ([[d ts] l1] & H1 & ([[ds ts'] l2] & H2 & [= <-]%Ok_inj)%res_bind_Ok).
  destruct (ledger_transaction_name (E := E) p v h tx all l (d, ts, l1) i) as [Ho1 Hr1];
    [apply Hall; left|done|by eapply ordered_weaken|exact H1|].
  etrans; [exact Hr1|]. cbn [snd] in *.
  apply (IH l1 (ds, ts', l2) (tx_tx_index tx + 1)); [|..|done|done].
  - intros tx' Hin. apply Hall. by right.
  - apply (ledger_transactions_ok (E := E) p v h [tx] l ([d], ts ++ [], l1)); [done..|].
    cbn [ledger_transactions]. by rewrite H1.
  - done.
Qed.

Lemma start_heads_name p h m i :
  start_heads p h m !! i = name_start p h (m !! i).
Proof.
  unfold start_heads, name_start. rewrite map_lookup_filter, lookup_fmap.
  destruct (m !! i) as [hd|]; simpl; [|done].
  destruct (cooled p h (expire h hd)) eqn:E.
  - by rewrite option_guard_False.
  - by rewrite option_guard_True.
Qed.
End Lifecycle.

(** C3: the lease state machine.  Whatever a block contains, the head of every
    name goes from its expired or compacted state through verified REVEAL,
    REFRESH and spend steps: a name whose head is not claimable at block start
    never becomes missing and never goes through a REVEAL, so it changes hands
    only by its owner's REFRESH. *)
Theorem name_evolution `{Blake2b} `{Pallas} {V : Type} `{!ProofVerifier V}
  (r r' : Reducer V) (block : Block) (refs : list ReferencedCommit) (out : BlockOutcome) (i : NameId) :
  reducer_ok r → block_named block → apply_block_detailed block refs r = (Ok out, r') →
  let start := name_start (parameters r) (bl_height block) (heads r !! i) in
  rtc (name_step (parameters r) (verifier r) (bl_height block) (bl_transactions block) i)
    start (heads r' !! i)
  ∧ (is_Some start → is_Some (heads r' !! i)).
Proof.
  intros Hr Hn Ha. cbv zeta. pose proof (apply_block_step block refs r Hr Hn) as Hs.
  destruct (check_block r block refs) as [supplied|e|] eqn:Ec; [|congruence|done].
  destruct Hs as (y & out1 & r1 & Hy & Ha1 & Hb & _). rewrite Ha in Ha1. injection Ha1 as <- <-.
  pose proof Ec as (Hnext & _ & Hsup)%check_block_Ok.
  destruct (reducer_ok_next r _ Hr Hnext) as [[Hact _] Hl]. destruct Hr as [Hp Hi _].
  assert (ascending (first_index None (bl_transactions block)) (bl_transactions block)) as Hasc.
  { unfold check_block in Ec. apply res_bind_Ok in Ec as (u1 & _ & Ec).
    apply res_bind_Ok in Ec as (u2 & _ & Ec). apply res_bind_Ok in Ec as (u3 & Et & _).
    by eapply check_transactions_ascending. }
  pose proof (start_ledger_ok _ _ _ supplied Hp Hl Hsup) as Hl0.
  assert (rtc (name_step (parameters r) (verifier r) (bl_height block) (bl_transactions block) i)
    (name_start (parameters r) (bl_height block) (heads r !! i)) (heads r' !! i)) as Hrtc.
  { rewrite <- start_heads_name.
    replace (heads r' !! i) with (lg_heads y.2 !! i) by by rewrite <- (br_ledger _ _ _ _ _ _ _ Hb).
    apply (ledger_transactions_name (E := ApplyError) (parameters r) (verifier r) (bl_height block)
      (bl_transactions block) (bl_transactions block)
      (start_ledger (parameters r) (bl_height block) supplied (ledger_of r)) y i
      (first_index None (bl_transactions block))); try done.
    intros j hd Hj. left. simpl in Hj. unfold start_heads in Hj.
    apply map_lookup_filter_Some in Hj as [Hj _].
    apply lookup_fmap_Some in Hj as (hd0 & <- & Hj). rewrite expire_producer.
    destruct Hl as [_ Hl]. destruct (Hl j hd0 Hj). lia. }
  split; [exact Hrtc|]. revert Hrtc. generalize (heads r' !! i).
  induction 1 as [|a b c Hab _ IH]; [done|]. intros _. apply IH. by destruct Hab.
Qed.

(** C29: the producer guard.  A transaction whose REVEAL or REFRESH is accepted
    leaves that head active, although a REFRESH spends the nullifier under which
    the name was indexed, and reports no termination of that name. *)
Theorem accepted_update_stays_active `{Blake2b} `{Pallas} {V : Type} `{!ProofVerifier V} {E : Type}
  (h : Z) (tx : Transaction) (st st' : Reducer V * Undo) (t t' : list Termination)
  (d : OperationDecision) :
  indexed st.1 → ordered h (tx_tx_index tx) (ledger_of st.1) →
  apply_transaction_detailed (E := E) h tx st t = Ok (d, (st', t')) →
  od_accepted d = Some AcceptedReveal ∨ od_accepted d = Some AcceptedRefresh →
  ∃ i hd ts, heads st'.1 !! i = Some hd ∧ hd_terminal_height hd = None
    ∧ sr_height (hd_producer hd) = h ∧ sr_tx_index (hd_producer hd) = tx_tx_index tx
    ∧ t' = t ++ ts ∧ i ∉ map tm_name_id ts.
Proof.
  intros Hi Ho Ha Hd. pose proof (apply_transaction_sim (E := E) h tx st t Hi) as Hs.
  rewrite Ha in Hs. unfold ledger_transaction in Hs.
  destruct (ledger_operation _ _ _ _ _) as [[d1 l1]|e|] eqn:Eop; simpl in Hs; try done.
  destruct Hs as (<- & El & ->).
  apply ledger_operation_Ok in Eop as [[_ Ed]|[(c & _ & Ed & _)|(op & i & hd & _ & -> & Hacc)]];
    [rewrite Ed in Hd; by destruct Hd..|].
  assert (reveal_accepted (view (parameters st.1) (verifier st.1) (ledger_of st.1)) h tx op i hd
    ∨ ∃ prev, refresh_accepted (view (parameters st.1) (verifier st.1) (ledger_of st.1)) h tx op i prev hd)
    as Hac by tauto.
  destruct (accepted_producer _ _ _ _ _ _ _ _ Hac) as (E1 & E2 & T).
  assert (terminates tx (heads st.1) i hd = false) as Hterm.
  { unfold terminates. destruct (heads st.1 !! i) as [hd0|] eqn:E0; [|done].
    rewrite (bool_decide_false (hd_producer hd = _)); [by rewrite andb_false_r|].
    intros Ep. destruct (Ho i hd0 E0) as [?|[? ?]]; rewrite <- Ep in *; lia. }
  exists i, hd. eexists. split.
  { change (heads st'.1) with (lg_heads (ledger_of st'.1)). rewrite El. simpl.
    unfold end_spent. rewrite map_lookup_imap, lookup_insert_eq. simpl. by rewrite Hterm. }
  split; [done|]. split; [done|]. split; [done|]. split; [done|].
  simpl. intros (x & Ex & Hx)%list_elem_of_fmap. unfold spent_terminations in Hx.
  apply list_elem_of_omap in Hx as (j & _ & Hj).
  destruct (decide (j = i)) as [->|Hne].
  - rewrite lookup_insert_eq in Hj. simpl in Hj. rewrite Hterm in Hj. done.
  - destruct (<[i:=hd]> (heads st.1) !! j) as [hd'|]; [|done]. simpl in Hj.
    destruct (terminates _ _ j hd'); [|done]. injection Hj as <-. by destruct Hne.
Qed.
