(* ===== verification/Ruleset.v ===== *)
(** * The semantic ruleset ([crates/coppice-names/src/ruleset.rs], [ruleset/names.json])

    The machine-readable manifest of the reducer's clauses, its validation and
    its identity, and the proof that every decision of the reducer names a
    clause of the manifest. *)

From S2P Require Import Prelude Bytes BTree External Protocol Schedule Codec Statement.
From S2P Require Import Records State Reducer Journal Ledger Invariant.

#[local] Open Scope string_scope.
#[local] Open Scope list_scope.
#[local] Open Scope Z_scope.

Definition RULESET_DOMAIN : string := "coppice-names-semantics".
Definition RULESET_PERSONALIZATION : list byte := lit "CoppiceNmRule".

Record Clause := MkClause {
  cl_effect : list string;
  cl_id : string;
  cl_inputs : list string;
  cl_rule_type : string;
  cl_when : list string;
}.

Record Manifest := MkManifest { mf_clauses : list Clause; mf_domain : string }.

(** The checked-in [ruleset/names.json], as the value [serde_json::from_slice]
    reads from it. *)
Definition EMBEDDED_MANIFEST : Manifest := MkManifest [
  MkClause ["start_replay_at_activation_height"]
    "NAMES.BLOCK.ACTIVATION"
    ["activation_height"; "activation_parent_hash"]
    "replay_boundary"
    ["next_height_equals_activation_height"];
  MkClause ["accept_block_for_evaluation"]
    "NAMES.BLOCK.CONTINUITY"
    ["height"; "hash"; "previous_hash"]
    "canonical_chain"
    ["height_equals_next_height"; "previous_hash_equals_tip_hash"];
  MkClause ["evaluate_transactions_in_order"; "evaluate_actions_in_position_order"]
    "NAMES.BLOCK.ORDER"
    ["transaction_index"; "action_index"]
    "canonical_order"
    ["transaction_indexes_strictly_increase"; "action_indexes_equal_positions"];
  MkClause ["store_commit_until_ttl_boundary"]
    "NAMES.COMMIT.ACCEPT"
    ["commit_reference"; "commitment"]
    "operation_acceptance"
    ["canonical_commit_operation"];
  MkClause ["delete_pending_commit"]
    "NAMES.COMMIT.PRUNE"
    ["commit_height"; "current_height"; "commit_ttl_blocks"]
    "half_open_interval"
    ["current_height_minus_commit_height_greater_than_or_equal_commit_ttl_blocks"];
  MkClause ["permit_reveal_lineage_check"]
    "NAMES.REVEAL.MISSING"
    ["name_id"; "current_head"]
    "operation_gate"
    ["current_head_absent"];
  MkClause ["permit_reveal_schedule_check"]
    "NAMES.REVEAL.SCHEDULE"
    ["name_id"; "inclusion_height"; "operation_window"]
    "operation_gate"
    ["inclusion_height_in_name_window"];
  MkClause ["permit_reveal_commit_check"]
    "NAMES.REVEAL.COMMIT"
    ["commit_reference"; "commitment"; "maturity"; "ttl"]
    "operation_gate"
    ["commit_exists"; "commit_mature"; "commit_unexpired"];
  MkClause ["permit_reveal_proof_check"]
    "NAMES.REVEAL.ACTION"
    ["action_index"; "action_nullifier"; "action_commitment"; "successor_future_nullifier"]
    "operation_gate"
    ["designated_action_exists"; "action_index_equals_position"];
  MkClause ["permit_reveal_acceptance"]
    "NAMES.REVEAL.PROOF"
    ["reveal_statement"; "reveal_verifier"]
    "operation_gate"
    ["proof_valid"];
  MkClause ["install_active_successor_head"]
    "NAMES.REVEAL.ACCEPT"
    ["name_id"; "producer_reference"; "ua"; "successor_state"]
    "operation_acceptance"
    ["all_reveal_gates_pass"];
  MkClause ["permit_refresh_lineage_check"]
    "NAMES.REFRESH.CURRENT"
    ["name_id"; "predecessor_reference"; "current_head"]
    "operation_gate"
    ["current_head_active"; "predecessor_equals_current_head"];
  MkClause ["permit_refresh_schedule_check"]
    "NAMES.REFRESH.EPOCH"
    ["predecessor_epoch"; "inclusion_epoch"]
    "operation_gate"
    ["predecessor_epoch_less_than_inclusion_epoch"];
  MkClause ["permit_refresh_action_check"]
    "NAMES.REFRESH.SCHEDULE"
    ["name_id"; "inclusion_height"; "operation_window"]
    "operation_gate"
    ["inclusion_height_in_name_window"];
  MkClause ["permit_refresh_proof_check"]
    "NAMES.REFRESH.ACTION"
    ["action_index"; "action_nullifier"; "predecessor_future_nullifier"]
    "operation_gate"
    ["designated_action_exists"; "action_spends_current_predecessor"];
  MkClause ["permit_refresh_acceptance"]
    "NAMES.REFRESH.PROOF"
    ["refresh_statement"; "refresh_verifier"]
    "operation_gate"
    ["proof_valid"];
  MkClause ["replace_current_head_with_active_successor"]
    "NAMES.REFRESH.ACCEPT"
    ["name_id"; "predecessor_reference"; "producer_reference"; "ua"; "successor_state"]
    "operation_acceptance"
    ["all_refresh_gates_pass"];
  MkClause ["set_terminal_height_to_spend_height"]
    "NAMES.SPEND.CURRENT"
    ["pre_transaction_head"; "authenticated_action_nullifiers"; "post_operation_head"]
    "spentness"
    ["current_future_nullifier_spent"; "pre_transaction_head_remains_current"];
  MkClause ["ignore_spend_for_names_state"]
    "NAMES.SPEND.STALE"
    ["authenticated_action_nullifiers"; "current_head"]
    "spentness"
    ["spent_nullifier_does_not_equal_current_future_nullifier"];
  MkClause ["resolve_active_with_ua"]
    "NAMES.LIFECYCLE.ACTIVE"
    ["current_height"; "terminal_height"]
    "half_open_interval"
    ["current_height_less_than_terminal_height"];
  MkClause ["resolve_cooldown_without_ua"]
    "NAMES.LIFECYCLE.COOLDOWN"
    ["current_height"; "terminal_height"; "cooldown_blocks"]
    "half_open_interval"
    ["terminal_height_less_than_or_equal_current_height";
     "current_height_less_than_terminal_height_plus_cooldown_blocks"];
  MkClause ["delete_current_head"; "resolve_missing"]
    "NAMES.LIFECYCLE.COMPACT"
    ["current_height"; "terminal_height"; "cooldown_blocks"]
    "block_start_transition"
    ["current_height_greater_than_or_equal_terminal_height_plus_cooldown_blocks";
     "before_first_transaction"];
  MkClause ["return_ua_only_for_active"]
    "NAMES.RESOLUTION.PAYABLE"
    ["authenticated_tip"; "lifecycle"; "ua"]
    "resolution"
    ["lifecycle_equals_active"];
  MkClause ["return_no_head_and_no_ua"]
    "NAMES.RESOLUTION.MISSING"
    ["authenticated_tip"; "name_id"]
    "resolution"
    ["current_head_absent"];
  MkClause ["restore_exact_pre_block_state"]
    "NAMES.ROLLBACK.EXACT"
    ["tip_hash"; "bounded_undo_record"]
    "rollback"
    ["expected_hash_equals_tip_hash"; "undo_record_retained"];
  MkClause ["produce_equal_resolution"]
    "NAMES.EXACT.PARITY"
    ["authenticated_canonical_history"; "target_name"]
    "replay_equivalence"
    ["full_and_exact_replay_reach_same_tip"];
  MkClause ["accept_snapshot_restore"]
    "NAMES.SNAPSHOT.IDENTITY"
    ["canonical_tip"; "deployment_id"; "ruleset_fingerprint"; "rollback_range"]
    "snapshot_validation"
    ["all_identity_fields_present_and_consistent"]
] "coppice-names-semantics".

(** [value.bytes()] of a string. *)
Definition bytes_of (s : string) : list byte := lit s.

Definition validate_ascii (value : string) : bool :=
  negb (bool_decide (bytes_of value = []))
  && forallb (λ b, (0x20 <=? byte_val b) && (byte_val b <=? 0x7e)) (bytes_of value).

Definition clause_ascii (clause : Clause) : bool :=
  validate_ascii (cl_id clause) && validate_ascii (cl_rule_type clause)
  && forallb validate_ascii (cl_inputs clause) && forallb validate_ascii (cl_when clause)
  && forallb validate_ascii (cl_effect clause).

(** The loop body of [parsed_manifest]; a failed assertion panics. *)
Definition check_clause {E : Type} (identifiers : gset string) (clause : Clause)
  : res E (gset string) :=
  if negb (clause_ascii clause) then Panic
  else if bool_decide (cl_id clause ∈ identifiers) then Panic
  else Ok ({[cl_id clause]} ∪ identifiers).

Definition parsed_manifest {E : Type} : res E Manifest :=
  let manifest := EMBEDDED_MANIFEST in
  if negb (bool_decide (mf_domain manifest = RULESET_DOMAIN)) then Panic
  else
    let? _ := res_fold check_clause ∅ (mf_clauses manifest) in
    Ok manifest.

(** [clause_ids] *)
Definition clause_ids {E : Type} : res E (gset string) :=
  let? manifest := parsed_manifest in
  Ok (list_to_set (map cl_id (mf_clauses manifest))).

(** [serde_json::to_value] followed by [serde_json::to_vec]: the compact encoding
    with the keys of objects in order. *)
Class CanonicalJson (A : Type) := { to_value_vec : A → option (list byte) }.

Section Fingerprint.
Context `{Blake2b} `{!CanonicalJson Manifest}.

Definition canonical_manifest {E : Type} : res E (list byte) :=
  let? manifest := parsed_manifest in
  expect (to_value_vec manifest).

Definition ruleset_fingerprint {E : Type} : res E (list byte) :=
  let? canonical := canonical_manifest in
  Ok (blake2b 32 RULESET_PERSONALIZATION [] canonical).
End Fingerprint.

(** ** Properties *)

(** The gates of the two update operations. *)
Definition reveal_gates : list string :=
  ["NAMES.REVEAL.MISSING"; "NAMES.REVEAL.SCHEDULE"; "NAMES.REVEAL.COMMIT"; "NAMES.REVEAL.ACTION";
   "NAMES.REVEAL.PROOF"]%string.
Definition refresh_gates : list string :=
  ["NAMES.REFRESH.CURRENT"; "NAMES.REFRESH.EPOCH"; "NAMES.REFRESH.SCHEDULE";
   "NAMES.REFRESH.ACTION"; "NAMES.REFRESH.PROOF"]%string.

(** The decisions a transaction may get: accepted under the clause of its kind,
    or rejected at one of the gates of its kind. *)
Definition decision_ok (tx : Transaction) (d : OperationDecision) : Prop :=
  match tx_operation tx with
  | None => d = MkOperationDecision None "NAMES.BLOCK.ORDER"
  | Some (Commit _) => d = MkOperationDecision (Some AcceptedCommit) "NAMES.COMMIT.ACCEPT"
  | Some (Reveal _ _ _ _ _ _) =>
      d = MkOperationDecision (Some AcceptedReveal) "NAMES.REVEAL.ACCEPT"
      ∨ od_accepted d = None ∧ od_clause_id d ∈ reveal_gates
  | Some (Refresh _ _ _ _ _ _) =>
      d = MkOperationDecision (Some AcceptedRefresh) "NAMES.REFRESH.ACCEPT"
      ∨ od_accepted d = None ∧ od_clause_id d ∈ refresh_gates
  end.

Definition documented : list string :=
  map cl_id (mf_clauses EMBEDDED_MANIFEST).

Lemma parsed_manifest_ok {E} : parsed_manifest (E := E) = Ok EMBEDDED_MANIFEST.
Proof.
  assert (is_ok (res_fold (check_clause (E := E)) ∅ (mf_clauses EMBEDDED_MANIFEST)) = true) as Hok
    by by vm_compute.
  unfold parsed_manifest. rewrite bool_decide_true by done. cbn [negb].
  by destruct (res_fold _ _ _).
Qed.

#[global] Opaque parsed_manifest.

Lemma clause_ids_documented {E} : clause_ids (E := E) = Ok (list_to_set documented).
Proof. unfold clause_ids. by rewrite (parsed_manifest_ok (E := E)). Qed.

Lemma ruleset_fingerprint_total `{Blake2b} `{!CanonicalJson Manifest} {E} :
  is_Some (to_value_vec EMBEDDED_MANIFEST) → ∃ f, ruleset_fingerprint (E := E) = Ok f.
Proof.
  intros [b Hb]. unfold ruleset_fingerprint, canonical_manifest.
  rewrite (parsed_manifest_ok (E := E)). cbn [res_bind]. rewrite Hb. by eexists.
Qed.

Lemma ruleset_fingerprint_poly `{Blake2b} `{!CanonicalJson Manifest} {E F} f :
  ruleset_fingerprint (E := E) = Ok f → ruleset_fingerprint (E := F) = Ok f.
Proof.
  unfold ruleset_fingerprint, canonical_manifest.
  rewrite (parsed_manifest_ok (E := E)), (parsed_manifest_ok (E := F)). cbn [res_bind].
  destruct (to_value_vec _); simpl; [by intros [= ->]|done].
Qed.

#[global] Opaque ruleset_fingerprint.

Section Decisions.
Context `{Blake2b} `{Pallas} {V : Type} `{!ProofVerifier V}.

(** Computations whose errors are in a list of clauses. *)
Definition fails_in {A : Type} (gates : list string) (m : res string A) : Prop :=
  ∀ e, m = Err e → e ∈ gates.

Lemma fails_bind {A B} gates (m : res string A) (k : A → res string B) :
  fails_in gates m → (∀ a, fails_in gates (k a)) → fails_in gates (res_bind m k).
Proof. intros Hm Hk e. destruct m as [a|e'|]; simpl; [by apply Hk| |done].
  intros [= <-]. by apply Hm.
Qed.
Lemma fails_ensure gates c e : e ∈ gates → fails_in gates (ensure c e).
Proof. intros He e'. destruct c; simpl; [done|by intros [= <-]]. Qed.
Lemma fails_ok_or {A} gates (o : option A) e : e ∈ gates → fails_in gates (ok_or o e).
Proof. intros He e'. destruct o; simpl; [done|by intros [= <-]]. Qed.
Lemma fails_map_err {E A} gates (m : res E A) e :
  e ∈ gates → fails_in gates (map_err (λ _, e) m).
Proof. intros He e'. destruct m; simpl; [done|by intros [= <-]|done]. Qed.
Lemma fails_Ok {A} gates (a : A) : fails_in gates (Ok a).
Proof. done. Qed.
Lemma fails_scheduled gates p i h : fails_in gates (accepts_operation (E := string) p i h).
Proof. intros e. unfold accepts_operation. by destruct (res_bind _ _). Qed.

Ltac gates :=
  repeat first
    [ apply fails_Ok | apply fails_scheduled | apply fails_bind; [|intros ?]
    | apply fails_ensure | apply fails_ok_or | apply fails_map_err ];
  by repeat constructor.

Lemma check_reveal_gates r h tx op : fails_in reveal_gates (check_reveal r h tx op).
Proof.
  destruct op; [intros e [= <-]; by repeat constructor| |intros e [= <-]; by repeat constructor].
  unfold check_reveal. gates.
Qed.

Lemma check_refresh_gates r h tx op : fails_in refresh_gates (check_refresh r h tx op).
Proof.
  destruct op; [intros e [= <-]; by repeat constructor..|]. unfold check_refresh. gates.
Qed.

Lemma ledger_operation_decision {E} p v h tx l d l' :
  ledger_operation (E := E) p v h tx l = Ok (d, l') → decision_ok tx d.
Proof.
  unfold ledger_operation, ledger_update, decision_ok.
  destruct (tx_operation tx) as [[c|? ? ? ? ? ?|? ? ? ? ? ?]|]; intros Ho.
  - by injection Ho as <- _.
  - destruct (check_reveal _ _ _ _) as [[i hd]|e|] eqn:Ec; [|right|done]; injection Ho as <- _;
      [by left|]. split; [done|exact (check_reveal_gates _ _ _ _ _ Ec)].
  - destruct (check_refresh _ _ _ _) as [[i hd]|e|] eqn:Ec; [|right|done]; injection Ho as <- _;
      [by left|]. split; [done|by eapply check_refresh_gates].
  - by injection Ho as <- _.
Qed.

Lemma ledger_transactions_decisions {E} p v h txs l y :
  ledger_transactions (E := E) p v h txs l = Ok y → Forall2 decision_ok txs y.1.1.
Proof.
  revert l y. induction txs as [|tx txs IH]; intros l y Ht; cbn [ledger_transactions] in Ht.
  { by apply Ok_inj in Ht as <-. }
  apply res_bind_Ok in Ht as ([[d ts] l1] & H1 & ([[ds ts'] l2] & H2 & <-%Ok_inj)%res_bind_Ok).
  apply res_bind_Ok in H1 as ([d0 l0] & Hop & [= <- _ _]%Ok_inj). constructor.
  - by eapply ledger_operation_decision.
  - apply (IH l1 (ds, ts', l2) H2).
Qed.

Lemma decision_ok_documented tx d : decision_ok tx d → od_clause_id d ∈ documented.
Proof.
  assert (∀ e, e ∈ reveal_gates ++ refresh_gates → e ∈ documented) as Hg.
  { intros e He. rewrite list_elem_of_In in He |- *. vm_compute in He |- *. intuition. }
  unfold decision_ok. destruct (tx_operation tx) as [[c|? ? ? ? ? ?|? ? ? ? ? ?]|].
  - intros ->. apply list_elem_of_In. vm_compute. tauto.
  - intros [->|[_ Hd]]; [apply list_elem_of_In; vm_compute; tauto|]. apply Hg, elem_of_app. by left.
  - intros [->|[_ Hd]]; [apply list_elem_of_In; vm_compute; tauto|]. apply Hg, elem_of_app. by right.
  - intros ->. apply list_elem_of_In. vm_compute. tauto.
Qed.
End Decisions.

(** C31: every transaction of an applied block gets one decision, of its kind: a
    COMMIT is always accepted, a REVEAL or REFRESH is accepted or fails at one of
    its own gates; and the clause of every decision is one the checked-in ruleset
    manifest documents. *)
Theorem decisions_documented `{Blake2b} `{Pallas} {V : Type} `{!ProofVerifier V}
  (r r' : Reducer V) (block : Block) (refs : list ReferencedCommit) (out : BlockOutcome) :
  reducer_ok r → block_named block → apply_block_detailed block refs r = (Ok out, r') →
  Forall2 decision_ok (bl_transactions block) (bo_decisions out)
  ∧ bo_accepted out = omap od_accepted (bo_decisions out)
  ∧ ∃ ids, clause_ids (E := ApplyError) = Ok ids
      ∧ ∀ d, d ∈ bo_decisions out → od_clause_id d ∈ ids.
Proof.
  intros Hr Hn Ha. pose proof (apply_block_step block refs r Hr Hn) as Hs.
  destruct (check_block r block refs) as [supplied|e|]; [|congruence|done].
  destruct Hs as (y & out1 & r1 & Hy & Ha1 & Hb & _). rewrite Ha in Ha1. injection Ha1 as <- <-.
  pose proof (ledger_transactions_decisions _ _ _ _ _ _ Hy) as Hd.
  rewrite <- (br_decisions _ _ _ _ _ _ _ Hb) in Hd. split; [done|]. split.
  { by rewrite (br_accepted _ _ _ _ _ _ _ Hb), (br_decisions _ _ _ _ _ _ _ Hb). }
  eexists. split; [apply clause_ids_documented|]. intros d [k Hk]%list_elem_of_lookup.
  destruct (Forall2_lookup_r _ _ _ _ _ Hd Hk) as (tx & _ & Hok).
  apply elem_of_list_to_set. by eapply decision_ok_documented.
Qed.
