(* ===== verification/Deployment.v ===== *)
(** * Deployment and verifier identities ([crates/coppice-names/src/deployment.rs], [lib.rs])

    The deployment parameters, their validation, the 203-byte canonical preimage
    and the identifiers hashed from it; every variable input is bound by the
    identifier, up to an explicit BLAKE2b collision. *)

From S2P Require Import Prelude Bytes External Protocol Concrete Schedule Codec.
From S2P Require Import BTree Ruleset.

Definition DEPLOYMENT_PERSONALIZATION : list byte := lit "CoppiceNmDep".
Definition REVEAL_VERIFIER_PERSONALIZATION : list byte := lit "CoppiceNmReVr".
Definition REFRESH_VERIFIER_PERSONALIZATION : list byte := lit "CoppiceNmRfVr".
Definition VERIFIER_SUITE_PERSONALIZATION : list byte := lit "CoppiceNmVrfS".

Definition VERIFIER_SUITE_MANIFEST : list byte :=
  lit "CNSUITE" ++ [x00]
  ++ lit "curve=VestaAffine;scalar=PallasBase;commitment=Halo2IPA;"
  ++ lit "transcript=Blake2bRead+Blake2bWrite/Halo2-Transcript;challenge=Challenge255;"
  ++ lit "strategy=SingleVerifier;proof_encoding=zakura-halo2-proofs-1.0.0-Blake2bWrite;"
  ++ lit "zakura-halo2-proofs=1.0.0/7c1386cce49a4d9e4a1b1e32fbbb3ba34d23e53dcefd700ee976d736d72f302a;"
  ++ lit "zakura-pasta-curves=1.0.0/9b11ea111779520b119485fdb0fd69c3ec96b6eaab0e1bfbfb3f9cb67c55815a".

Definition NAMES_CANONICAL_APPLICATION_IDENTITY : list byte := lit "coppice.names".

Record VerifierId := MkVerifierId { verifier_id_bytes : list byte }.

Record ProofIdentity := MkProofIdentity {
  pf_reveal : VerifierId;
  pf_refresh : VerifierId;
  pf_reveal_key_fingerprint : list byte;
  pf_refresh_key_fingerprint : list byte;
  pf_circuit_k : Z;
  pf_reveal_proof_bytes : Z;
  pf_refresh_proof_bytes : Z;
}.

Inductive DeploymentError := InvalidSchedule | InvalidProofSize | RulesetMismatch.

#[global] Instance VerifierId_eq_dec : EqDecision VerifierId.
Proof. solve_decision. Defined.
#[global] Instance ProofIdentity_eq_dec : EqDecision ProofIdentity.
Proof. solve_decision. Defined.
#[global] Instance DeploymentError_eq_dec : EqDecision DeploymentError.
Proof. solve_decision. Defined.

Record DeploymentParameters `{CoppiceIdentity} := MkDeploymentParameters {
  dp_core_runtime_id : CoreRuntimeId;
  dp_activation_height : Z;
  dp_epoch_blocks : Z;
  dp_window_blocks : Z;
  dp_commit_maturity_blocks : Z;
  dp_commit_ttl_blocks : Z;
  dp_lease_blocks : Z;
  dp_cooldown_blocks : Z;
  dp_ruleset_fingerprint : list byte;
  dp_proof : ProofIdentity;
}.

Section Deployment.
Context `{Blake2b} `{CoppiceIdentity} `{!CanonicalJson Manifest}.

(** [hash32] *)
Definition hash32 (personalization input : list byte) : list byte :=
  blake2b 32 personalization [] input.

(** [verifier_suite_id] *)
Definition verifier_suite_id : list byte :=
  hash32 VERIFIER_SUITE_PERSONALIZATION VERIFIER_SUITE_MANIFEST.

(** The bytes [verifier_id] hashes. *)
Definition verifier_manifest (operation_tag : Z) (suite_id : list byte) (circuit_k proof_bytes : Z)
  (key_fingerprint : list byte) : list byte :=
  lit "CNVERIFY" ++ be_bytes 1 operation_tag ++ suite_id ++ be_bytes 1 circuit_k
  ++ be_bytes 2 proof_bytes ++ key_fingerprint.

Definition verifier_id (personalization : list byte) (operation_tag : Z) (suite_id : list byte)
  (circuit_k proof_bytes : Z) (key_fingerprint : list byte) : VerifierId :=
  MkVerifierId (hash32 personalization
    (verifier_manifest operation_tag suite_id circuit_k proof_bytes key_fingerprint)).

(** [ProofIdentity::derive] *)
Definition ProofIdentity_derive (circuit_k reveal_proof_bytes refresh_proof_bytes : Z)
  (reveal_key_fingerprint refresh_key_fingerprint : list byte) : ProofIdentity :=
  let suite := verifier_suite_id in {|
  pf_reveal := verifier_id REVEAL_VERIFIER_PERSONALIZATION 1 suite circuit_k reveal_proof_bytes
                 reveal_key_fingerprint;
  pf_refresh := verifier_id REFRESH_VERIFIER_PERSONALIZATION 2 suite circuit_k refresh_proof_bytes
                  refresh_key_fingerprint;
  pf_reveal_key_fingerprint := reveal_key_fingerprint;
  pf_refresh_key_fingerprint := refresh_key_fingerprint;
  pf_circuit_k := circuit_k;
  pf_reveal_proof_bytes := reveal_proof_bytes;
  pf_refresh_proof_bytes := refresh_proof_bytes |}.

(** [DeploymentParameters::schedule] *)
Definition dp_schedule (self : DeploymentParameters) (deployment_id : list byte) : Parameters := {|
  Schedule.deployment_id := deployment_id;
  activation_height := dp_activation_height self;
  epoch_blocks := dp_epoch_blocks self;
  window_blocks := dp_window_blocks self;
  commit_maturity_blocks := dp_commit_maturity_blocks self;
  commit_ttl_blocks := dp_commit_ttl_blocks self;
  lease_blocks := dp_lease_blocks self;
  cooldown_blocks := dp_cooldown_blocks self |}.

(** [DeploymentParameters::with_timing], [candidate], [regtest] *)
Definition with_timing {E : Type} (core_runtime_id : CoreRuntimeId) (timing : Parameters)
  (proof : ProofIdentity) : res E DeploymentParameters :=
  let? fingerprint := ruleset_fingerprint in
  Ok {| dp_core_runtime_id := core_runtime_id;
        dp_activation_height := activation_height timing;
        dp_epoch_blocks := epoch_blocks timing;
        dp_window_blocks := window_blocks timing;
        dp_commit_maturity_blocks := commit_maturity_blocks timing;
        dp_commit_ttl_blocks := commit_ttl_blocks timing;
        dp_lease_blocks := lease_blocks timing;
        dp_cooldown_blocks := cooldown_blocks timing;
        dp_ruleset_fingerprint := fingerprint;
        dp_proof := proof |}.

Definition dp_candidate {E : Type} (core_runtime_id : CoreRuntimeId) (activation_height : Z)
  (proof : ProofIdentity) : res E DeploymentParameters :=
  with_timing core_runtime_id (candidate (repeat x00 32) activation_height) proof.

Definition dp_regtest {E : Type} (core_runtime_id : CoreRuntimeId) (activation_height : Z)
  (proof : ProofIdentity) : res E DeploymentParameters :=
  with_timing core_runtime_id (regtest (repeat x00 32) activation_height) proof.

(** [DeploymentParameters::validate] *)
Definition dp_validate (self : DeploymentParameters) : res DeploymentError DeploymentParameters :=
  if (MAX_REVEAL_PROOF_BYTES <? pf_reveal_proof_bytes (dp_proof self))
     || (MAX_REFRESH_PROOF_BYTES <? pf_refresh_proof_bytes (dp_proof self))
  then Err InvalidProofSize
  else
    let? fingerprint := ruleset_fingerprint in
    let? _ := ensure (bool_decide (dp_ruleset_fingerprint self = fingerprint)) RulesetMismatch in
    let? _ := map_err (λ _, InvalidSchedule) (validate (dp_schedule self (repeat x01 32))) in
    Ok self.

(** [names_family_id], [names_application_id] *)
Definition names_family_id {E : Type} : res E ApplicationId :=
  expect (derive_application_id NAMES_CANONICAL_APPLICATION_IDENTITY).

Definition names_application_id {E : Type} (deployment_id : list byte) : res E ApplicationId :=
  expect (derive_application_id (NAMES_CANONICAL_APPLICATION_IDENTITY ++ [x00] ++ deployment_id)).

(** The bytes of [DeploymentParameters::canonical_preimage]. *)
Definition preimage_bytes (self : DeploymentParameters) (family : ApplicationId) : list byte :=
  lit "CNDP" ++ runtime_id_bytes (dp_core_runtime_id self) ++ application_id_bytes family
  ++ dp_ruleset_fingerprint self
  ++ be_bytes 4 (dp_activation_height self) ++ be_bytes 4 (dp_epoch_blocks self)
  ++ be_bytes 4 (dp_window_blocks self) ++ be_bytes 4 (dp_commit_maturity_blocks self)
  ++ be_bytes 4 (dp_commit_ttl_blocks self) ++ be_bytes 4 (dp_lease_blocks self)
  ++ be_bytes 4 (dp_cooldown_blocks self) ++ be_bytes 8 BOND_ZATOSHIS
  ++ be_bytes 1 MAX_NAME_BYTES ++ be_bytes 2 MAX_UA_BYTES
  ++ verifier_id_bytes (pf_reveal (dp_proof self)) ++ verifier_id_bytes (pf_refresh (dp_proof self)).

Definition canonical_preimage (self : DeploymentParameters) : res DeploymentError (list byte) :=
  let? validated := dp_validate self in
  let? family := names_family_id in
  let output := preimage_bytes validated family in
  if bool_decide (length output = 203%nat) then Ok output else Panic.

(** [DeploymentParameters::deployment_id] *)
Definition dp_deployment_id (self : DeploymentParameters) : res DeploymentError (list byte) :=
  let? preimage := canonical_preimage self in
  Ok (hash32 DEPLOYMENT_PERSONALIZATION preimage).
End Deployment.

(** ** Properties *)

Section DeploymentFacts.
Context `{Blake2b} `{CoppiceIdentity} `{!CanonicalJson Manifest}.

(** Two inputs with one BLAKE2b-256 digest. *)
Definition hash_collision (personalization a b : list byte) : Prop :=
  a ≠ b ∧ hash32 personalization a = hash32 personalization b.

Lemma hash32_binds p a b : hash32 p a = hash32 p b → a = b ∨ hash_collision p a b.
Proof. destruct (decide (a = b)); [by left|by right]. Qed.

(** The arguments of [ProofIdentity::derive], at their widths. *)
Definition proof_typed (k reveal refresh : Z) (rk fk : list byte) : Prop :=
  0 ≤ k < 256 ∧ 0 ≤ reveal ≤ u16_max ∧ 0 ≤ refresh ≤ u16_max
  ∧ length rk = 32%nat ∧ length fk = 32%nat.

(** The widths of the fields of a deployment, whose proof identity has been
    derived. *)
Record deployment_typed (d : DeploymentParameters) : Prop := {
  dt_u32 : Parameters_typed (dp_schedule d (repeat x01 32));
  dt_ruleset : length (dp_ruleset_fingerprint d) = 32%nat;
  dt_proof : ∃ k reveal refresh rk fk, proof_typed k reveal refresh rk fk
    ∧ dp_proof d = ProofIdentity_derive k reveal refresh rk fk;
}.

Lemma dp_validate_Ok d e :
  deployment_typed d → dp_validate d = Ok e →
  e = d ∧ (∀ id, Parameters_ok (dp_schedule d id))
  ∧ ruleset_fingerprint (E := DeploymentError) = Ok (dp_ruleset_fingerprint d)
  ∧ pf_reveal_proof_bytes (dp_proof d) ≤ MAX_REVEAL_PROOF_BYTES
  ∧ pf_refresh_proof_bytes (dp_proof d) ≤ MAX_REFRESH_PROOF_BYTES.
Proof.
  intros Hd. unfold dp_validate. destruct (_ || _) eqn:G; [done|].
  apply orb_false_iff in G as [G1 G2]. apply Z.ltb_ge in G1, G2.
  intros (f & Hf & (? & Hr%ensure_Ok%bool_decide_eq_true & (q & Hq%map_err_Ok & <-%Ok_inj)%res_bind_Ok)%res_bind_Ok)%res_bind_Ok.
  apply validate_Ok in Hq as [_ Hok]; [|apply Hd]. split; [done|]. split; [|split; [rewrite Hr; exact Hf|split; [exact G1|exact G2]]].
  intros id. destruct Hok. by constructor.
Qed.

(** Validation, on any deployment, and the identifier of a validated one. *)
Lemma dp_validate_id d e : dp_validate d = Ok e → e = d.
Proof.
  unfold dp_validate. destruct (_ || _); [done|].
  by intros (f & _ & (? & _ & (q & _ & <-%Ok_inj)%res_bind_Ok)%res_bind_Ok)%res_bind_Ok.
Qed.

Lemma dp_validate_no_panic d : is_Some (to_value_vec EMBEDDED_MANIFEST) → dp_validate d ≠ Panic.
Proof.
  intros Hm. destruct (ruleset_fingerprint_total (E := DeploymentError) Hm) as [f Hf].
  unfold dp_validate. destruct (_ || _); [done|]. rewrite Hf. cbn [res_bind].
  apply bind_no_panic; [apply ensure_no_panic|intros _ _].
  apply bind_no_panic; [apply map_err_no_panic|done].
  unfold validate. repeat case_match; auto with panics; done.
Qed.

Lemma preimage_length d family : deployment_typed d → length (preimage_bytes d family) = 203%nat.
Proof.
  intros [_ Hr (k & reveal & refresh & rk & fk & _ & Hp)]. unfold preimage_bytes.
  rewrite !length_app, runtime_id_length, application_id_length, Hr, !length_be_bytes, Hp. simpl.
  unfold hash32. by rewrite !blake2b_length.
Qed.

Lemma names_family_total {E} : ∃ f, names_family_id (E := E) = Ok f.
Proof.
  destruct (derive_application_id_nonempty NAMES_CANONICAL_APPLICATION_IDENTITY) as [f Hf]; [done|].
  exists f. unfold names_family_id. by rewrite Hf.
Qed.

Lemma names_application_total {E} id : ∃ f, names_application_id (E := E) id = Ok f.
Proof.
  destruct (derive_application_id_nonempty (NAMES_CANONICAL_APPLICATION_IDENTITY ++ [x00] ++ id))
    as [f Hf]; [done|]. exists f. unfold names_application_id. by rewrite Hf.
Qed.

Lemma canonical_preimage_Ok d b :
  deployment_typed d → canonical_preimage d = Ok b →
  ∃ family, names_family_id (E := DeploymentError) = Ok family ∧ b = preimage_bytes d family.
Proof.
  intros Hd (e & He & (family & Hf & Hb)%res_bind_Ok)%res_bind_Ok.
  apply dp_validate_Ok in He as [-> _]; [|done]. exists family. split; [done|].
  cbv zeta in Hb. case_bool_decide; [by injection Hb as <-|done].
Qed.

Lemma dp_deployment_id_Ok d id :
  dp_deployment_id d = Ok id → length id = 32%nat.
Proof. intros (b & _ & <-%Ok_inj)%res_bind_Ok. apply blake2b_length. Qed.

Lemma dp_deployment_id_valid d f :
  deployment_typed d → dp_validate d = Ok d →
  derive_application_id NAMES_CANONICAL_APPLICATION_IDENTITY = Some f →
  canonical_preimage d = Ok (preimage_bytes d f)
  ∧ dp_deployment_id d = Ok (hash32 DEPLOYMENT_PERSONALIZATION (preimage_bytes d f)).
Proof.
  intros Hd Hv Hf.
  assert (canonical_preimage d = Ok (preimage_bytes d f)) as Hc.
  { unfold canonical_preimage, names_family_id. rewrite Hv, Hf. cbn [expect res_bind].
    by rewrite bool_decide_true by (by apply preimage_length). }
  split; [done|]. unfold dp_deployment_id. by rewrite Hc.
Qed.

Lemma dp_deployment_id_no_panic d :
  is_Some (to_value_vec EMBEDDED_MANIFEST) → deployment_typed d → dp_deployment_id d ≠ Panic.
Proof.
  intros Hm Hd. unfold dp_deployment_id. apply bind_no_panic; [|done].
  unfold canonical_preimage. apply bind_no_panic; [by apply dp_validate_no_panic|].
  intros e ->%dp_validate_id. destruct (names_family_total (E := DeploymentError)) as [f Hf].
  rewrite Hf. cbn [res_bind]. by rewrite bool_decide_true by (by apply preimage_length).
Qed.

Lemma verifier_manifest_inj t s k n fp t' s' k' n' fp' :
  length s = 32%nat → length s' = 32%nat → 0 ≤ k < 256 → 0 ≤ k' < 256 →
  0 ≤ n ≤ u16_max → 0 ≤ n' ≤ u16_max →
  verifier_manifest t s k n fp = verifier_manifest t' s' k' n' fp' →
  k = k' ∧ n = n' ∧ fp = fp'.
Proof.
  intros Hs Hs' Hk Hk' Hn Hn'. unfold verifier_manifest. intros Eq%app_inv_head.
  apply app_inj_length in Eq as [_ Eq]; [|done]. apply app_inj_length in Eq as [_ Eq]; [|congruence].
  apply app_inj_length in Eq as [Ek Eq]; [|done]. apply app_inj_length in Eq as [En ->]; [|done].
  split; [|split; [|done]].
  - apply be_bytes_inj in Ek; [done|lia..].
  - unfold u16_max in *. apply be_bytes_inj in En; [done|lia..].
Qed.

(** The facts a preimage encodes. *)
Lemma preimage_inj d e f g :
  deployment_typed d → deployment_typed e → preimage_bytes d f = preimage_bytes e g →
  dp_core_runtime_id d = dp_core_runtime_id e ∧ dp_ruleset_fingerprint d = dp_ruleset_fingerprint e
  ∧ (∀ id, dp_schedule d id = dp_schedule e id)
  ∧ pf_reveal (dp_proof d) = pf_reveal (dp_proof e)
  ∧ pf_refresh (dp_proof d) = pf_refresh (dp_proof e).
Proof.
  intros [Hd Hdr (? & ? & ? & ? & ? & _ & Hdp)] [He Her (? & ? & ? & ? & ? & _ & Hep)].
  unfold preimage_bytes. intros Eq%app_inv_head.
  apply app_inj_length in Eq as [E1%runtime_id_inj Eq]; [|by rewrite !runtime_id_length].
  apply app_inj_length in Eq as [_ Eq]; [|by rewrite !application_id_length].
  apply app_inj_length in Eq as [E2 Eq]; [|congruence].
  apply app_inj_length in Eq as [H1 Eq]; [|done]. apply app_inj_length in Eq as [H2 Eq]; [|done].
  apply app_inj_length in Eq as [H3 Eq]; [|done]. apply app_inj_length in Eq as [H4 Eq]; [|done].
  apply app_inj_length in Eq as [H5 Eq]; [|done]. apply app_inj_length in Eq as [H6 Eq]; [|done].
  apply app_inj_length in Eq as [H7 Eq]; [|done].
  do 3 apply app_inv_head in Eq.
  apply app_inj_length in Eq as [E3 E4];
    [|rewrite Hdp, Hep; cbn; unfold hash32; by rewrite !blake2b_length].
  unfold Parameters_typed, is_u32, u32_max in Hd, He. cbn in Hd, He.
  apply be_bytes_inj in H1, H2, H3, H4, H5, H6, H7; try (change (256 ^ Z.of_nat 4) with 4294967296; lia).
  split; [done|]. split; [done|]. split; [|split].
  - intros id. unfold dp_schedule. congruence.
  - destruct (pf_reveal (dp_proof d)), (pf_reveal (dp_proof e)). cbn in E3. congruence.
  - destruct (pf_refresh (dp_proof d)), (pf_refresh (dp_proof e)). cbn in E4. congruence.
Qed.

(** Derived verifier identities bind what they are derived from. *)
Lemma verifier_id_binds p t s k n fp t' k' n' fp' :
  length s = 32%nat → 0 ≤ k < 256 → 0 ≤ k' < 256 → 0 ≤ n ≤ u16_max → 0 ≤ n' ≤ u16_max →
  verifier_id p t s k n fp = verifier_id p t' s k' n' fp' →
  (k = k' ∧ n = n' ∧ fp = fp')
  ∨ hash_collision p (verifier_manifest t s k n fp) (verifier_manifest t' s k' n' fp').
Proof.
  intros Hs Hk Hk' Hn Hn' [= Eq]. apply hash32_binds in Eq as [Eq|Eq]; [left|by right].
  by eapply verifier_manifest_inj in Eq.
Qed.

(** What the two verifier identities of a proof identity are derived from. *)
Definition reveal_manifest (proof : ProofIdentity) : list byte :=
  verifier_manifest 1 verifier_suite_id (pf_circuit_k proof) (pf_reveal_proof_bytes proof)
    (pf_reveal_key_fingerprint proof).
Definition refresh_manifest (proof : ProofIdentity) : list byte :=
  verifier_manifest 2 verifier_suite_id (pf_circuit_k proof) (pf_refresh_proof_bytes proof)
    (pf_refresh_key_fingerprint proof).

(** The collision two different deployments with one identifier exhibit: of their
    own preimages, or of the manifests of their own verifiers. *)
Definition deployment_collision (d e : DeploymentParameters) : Prop :=
  (∃ f, names_family_id (E := DeploymentError) = Ok f
    ∧ hash_collision DEPLOYMENT_PERSONALIZATION (preimage_bytes d f) (preimage_bytes e f))
  ∨ hash_collision REVEAL_VERIFIER_PERSONALIZATION
      (reveal_manifest (dp_proof d)) (reveal_manifest (dp_proof e))
  ∨ hash_collision REFRESH_VERIFIER_PERSONALIZATION
      (refresh_manifest (dp_proof d)) (refresh_manifest (dp_proof e)).

Lemma proof_identity_binds d e :
  deployment_typed d → deployment_typed e →
  pf_reveal (dp_proof d) = pf_reveal (dp_proof e) →
  pf_refresh (dp_proof d) = pf_refresh (dp_proof e) →
  dp_proof d = dp_proof e ∨ deployment_collision d e.
Proof.
  intros [_ _ (k & n & m & rk & fk & (Hk & Hn & Hm & _) & Ed)]
    [_ _ (k' & n' & m' & rk' & fk' & (Hk' & Hn' & Hm' & _) & Ee)].
  assert (length verifier_suite_id = 32%nat) as Hs by apply blake2b_length.
  unfold deployment_collision. rewrite Ed, Ee. cbn [pf_reveal pf_refresh ProofIdentity_derive]. intros E1 E2.
  apply verifier_id_binds in E1 as [(<- & <- & <-)|E1]; [|right; right; by left|done..].
  apply verifier_id_binds in E2 as [(_ & <- & <-)|E2]; [|right; right; by right|done..].
  by left.
Qed.
End DeploymentFacts.

(** C32: the deployment identifier binds every variable input.  A deployment that
    validates has a 203-byte preimage and an identifier; two deployments with one
    identifier agree on the runtime, the ruleset, every schedule parameter and the
    whole proof identity, or their own preimages, or the manifests of their own
    verifiers, are two different inputs with one BLAKE2b digest. *)
Theorem deployment_id_binds `{Blake2b} `{CoppiceIdentity} `{!CanonicalJson Manifest}
  (d e : DeploymentParameters) (id : list byte) :
  deployment_typed d → deployment_typed e →
  (∀ q, dp_validate d = Ok q → ∃ b, canonical_preimage d = Ok b ∧ length b = 203%nat
     ∧ dp_deployment_id d = Ok (hash32 DEPLOYMENT_PERSONALIZATION b))
  ∧ (dp_deployment_id d = Ok id → dp_deployment_id e = Ok id → d = e ∨ deployment_collision d e).
Proof.
  intros Hd He. split.
  - intros q Hq. destruct (names_family_total (E := DeploymentError)) as [f Hf%expect_Ok].
    pose proof Hq as ->%dp_validate_id. exists (preimage_bytes d f).
    destruct (dp_deployment_id_valid d f Hd Hq Hf) as [Hc Hi].
    split; [exact Hc|]. split; [by apply preimage_length|exact Hi].
  - intros (a & Ha & Ea%Ok_inj)%res_bind_Ok (b & Hb & Eb%Ok_inj)%res_bind_Ok.
    apply canonical_preimage_Ok in Ha as (f & Hf & ->), Hb as (g & Hg & ->); [|done..].
    rewrite Hf in Hg. apply Ok_inj in Hg as <-. rewrite <- Eb in Ea.
    apply hash32_binds in Ea as [Ea|Ea]; [|by right; left; exists f].
    apply preimage_inj in Ea as (E1 & E2 & E3 & E4 & E5); [|done..].
    destruct (proof_identity_binds d e Hd He E4 E5) as [E6|?]; [left|by right].
    specialize (E3 []). unfold dp_schedule in E3. clear Hd He Hf Eb E4 E5.
    destruct d, e. cbn in *. injection E3 as ???????. by subst.
Qed.
