(* ===== verification/Resolver.v ===== *)
(** * The exact-name resolver ([crates/coppice-names/src/resolver.rs])

    Replay for one name: operations of other names are dropped before the
    reducer sees them, and old COMMITs may come as evidence.  The resolver
    agrees with the full reducer on its name. *)

From S2P Require Import Prelude Bytes BTree External Protocol Concrete Schedule Codec Statement.
From S2P Require Import Records State Reducer Journal Ledger Invariant Safety Lifecycle.

Record ExactResolver (V : Type) := MkExactResolver {
  er_name : Name;
  er_name_id : NameId;
  er_reducer : Reducer V;
}.
Arguments MkExactResolver {V}. Arguments er_name {V}. Arguments er_name_id {V}.
Arguments er_reducer {V}.

Section Resolver.
Context `{Blake2b} `{Pallas} {V : Type} `{!ProofVerifier V}.

(** [ExactResolver::new] *)
Definition exact_new (p : Parameters) (activation_parent_hash : list byte) (name : Name) (v : V)
  : res ApplyError (ExactResolver V) :=
  let? name_id := map_err (λ _, ApplyInvalidParameters) (Name_id name) in
  let? reducer := new p activation_parent_hash v in
  Ok (MkExactResolver name name_id reducer).

(** [name.id() == Ok(self.name_id)] *)
Definition name_matches {E : Type} (name_id : NameId) (name : Name) : res E bool :=
  match Name_id name with
  | Ok i => Ok (bool_decide (i = name_id))
  | Err _ => Ok false
  | Panic => Panic
  end.

(** The [relevant] flag of a transaction. *)
Definition relevant {E : Type} (name_id : NameId) (transaction : Transaction) : res E bool :=
  match tx_operation transaction with
  | Some (Commit _) => Ok true
  | Some (Reveal name _ _ _ _ _) => name_matches name_id name
  | Some (Refresh name _ _ _ _ _) => name_matches name_id name
  | None => Ok false
  end.

(** The transaction without its operation. *)
Definition silenced (transaction : Transaction) : Transaction :=
  MkTransaction (tx_tx_index transaction) (tx_txid transaction) (tx_actions transaction) None.

Definition filter_transaction {E : Type} (name_id : NameId) (transaction : Transaction)
  : res E Transaction :=
  let? keep := relevant name_id transaction in
  Ok (if keep then transaction else silenced transaction).

(** The filtered clone of a block. *)
Definition filter_block {E : Type} (name_id : NameId) (block : Block) : res E Block :=
  let? transactions := res_mapM (filter_transaction name_id) (bl_transactions block) in
  Ok (MkBlock (bl_height block) (bl_hash block) (bl_prev_hash block) transactions).

(** Calls that delegate to the reducer inside. *)
Definition delegate {E A : Type} (m : M (Reducer V) E A) : M (ExactResolver V) E A := λ self,
  match m (er_reducer self) with
  | (result, reducer) => (result, MkExactResolver (er_name self) (er_name_id self) reducer)
  end.

(** [ExactResolver::apply_block_detailed] *)
Definition exact_apply_block_detailed (block : Block) (referenced_commits : list ReferencedCommit)
  : M (ExactResolver V) ApplyError BlockOutcome :=
  let! self := mget in
  let! filtered := mlift (filter_block (er_name_id self) block) in
  delegate (apply_block_detailed filtered referenced_commits).

(** [ExactResolver::apply_block_with_referenced_commits], [apply_block] *)
Definition exact_apply_block_with_referenced_commits (block : Block)
  (referenced_commits : list ReferencedCommit) : M (ExactResolver V) ApplyError (list Accepted) :=
  let! self := mget in
  let! filtered := mlift (filter_block (er_name_id self) block) in
  delegate (apply_block_with_referenced_commits filtered referenced_commits).

Definition exact_apply_block (block : Block) : M (ExactResolver V) ApplyError (list Accepted) :=
  exact_apply_block_with_referenced_commits block [].

(** [ExactResolver::resolve], [tip], [pending_commit], [rollback_tip],
    [finalize_through] *)
Definition exact_resolve (self : ExactResolver V) (height : Z) : res ResolutionError Resolution :=
  resolve_authenticated (er_reducer self) (er_name self) height.
Definition exact_tip (self : ExactResolver V) : option ReducerTip := tip (er_reducer self).
Definition exact_pending_commit (self : ExactResolver V) (reference : CommitRef)
  : option Commitment := pending_commit (er_reducer self) reference.
Definition exact_rollback_tip (expected_hash : list byte) : M (ExactResolver V) RollbackError unit :=
  delegate (rollback_tip expected_hash).
Definition exact_finalize_through (height : Z) : M (ExactResolver V) FinalizationError unit :=
  delegate (finalize_through height).
End Resolver.

(** ** Agreement on one name *)

Section Agreement.
Context `{Blake2b} `{Pallas} {V : Type} `{!ProofVerifier V}.

(** The exact ledger [x] has the head of the name in the full ledger [l], no
    other head, and only commitments of [l]. *)
Record agree (i : NameId) (l x : Ledger) : Prop := {
  ag_head : lg_heads x !! i = lg_heads l !! i;
  ag_only j : j ≠ i → lg_heads x !! j = None;
  ag_commits c k : lg_commits x !! c = Some k → lg_commits l !! c = Some k;
}.

(** Whether the operation is about the name. *)
Definition about (i : NameId) (op : Operation) : Prop :=
  match op with
  | Commit _ => False
  | Reveal name _ _ _ _ _ | Refresh name _ _ _ _ _ => Name_id name = Ok i
  end.

(** What the host may leave out of a transaction: COMMITs and the operations of
    other names. *)
Definition thinned (i : NameId) (tx y : Transaction) : Prop :=
  tx_tx_index y = tx_tx_index tx ∧ tx_txid y = tx_txid tx ∧ tx_actions y = tx_actions tx
  ∧ (tx_operation y = tx_operation tx
     ∨ tx_operation y = None ∧ ∀ op, tx_operation tx = Some op → ¬ about i op).

(** The commitment of a REVEAL of the name is known to both, or to neither. *)
Definition evidence (i : NameId) (h : Z) (tx : Transaction) (l x : Ledger) : Prop :=
  ∀ name c ua ai nf proof,
    tx_operation tx = Some (Reveal name c ua ai nf proof) → Name_id name = Ok i → cr_height c < h →
    lg_commits x !! c = lg_commits l !! c.

(** Commitments are before transaction [n] of block [h]. *)
Definition commits_before (h n : Z) (l : Ledger) : Prop :=
  ∀ c, is_Some (lg_commits l !! c) → cr_height c < h ∨ cr_height c = h ∧ cr_tx_index c < n.

Lemma check_reveal_agree p v i h tx l x name c ua ai nf proof :
  Parameters_ok p → Name_id name = Ok i → agree i l x →
  (cr_height c < h → lg_commits x !! c = lg_commits l !! c) →
  check_reveal (view p v x) h tx (Reveal name c ua ai nf proof)
  = check_reveal (view p v l) h tx (Reveal name c ua ai nf proof).
Proof.
  intros Hp Hn [Hh _ _] Hc. unfold check_reveal. rewrite Hn. cbn [map_err res_bind view heads commits
    parameters verifier lg_heads lg_commits]. rewrite Hh.
  destruct (ensure (bool_decide (lg_heads l !! i = None)) _); [|done..]. cbn [res_bind].
  destruct (accepts_operation p i h); [|done..]. cbn [res_bind].
  destruct (ensure a0 _); [|done..]. cbn [res_bind].
  destruct (accepts_commit p (cr_height c) h) eqn:Ea; [|done]. cbn [ensure res_bind].
  apply accepts_commit_spec in Ea. destruct Hp. rewrite Hc by lia. done.
Qed.

Lemma check_refresh_agree p v i h tx l x name pred ua ai nf proof :
  Name_id name = Ok i → agree i l x →
  check_refresh (view p v x) h tx (Refresh name pred ua ai nf proof)
  = check_refresh (view p v l) h tx (Refresh name pred ua ai nf proof).
Proof. intros Hn [Hh _ _]. unfold check_refresh. rewrite Hn. simpl. by rewrite Hh. Qed.

Lemma agree_insert i l x hd :
  agree i l x →
  agree i (MkLedger (lg_commits l) (<[i := hd]> (lg_heads l)))
    (MkLedger (lg_commits x) (<[i := hd]> (lg_heads x))).
Proof.
  intros [Hh Ho Hc]. constructor; simpl; [by rewrite !lookup_insert_eq| |done].
  intros j Hj. rewrite lookup_insert_ne by done. by apply Ho.
Qed.

Lemma agree_other i j l x hd :
  j ≠ i → agree i l x → agree i (MkLedger (lg_commits l) (<[j := hd]> (lg_heads l))) x.
Proof. intros Hj [Hh Ho Hc]. constructor; simpl; [by rewrite lookup_insert_ne|done..]. Qed.

(** The operation of a thinned, filtered transaction. *)
Definition replayed (i : NameId) (tx y : Transaction) : Prop :=
  tx_tx_index y = tx_tx_index tx ∧ tx_txid y = tx_txid tx ∧ tx_actions y = tx_actions tx
  ∧ (tx_operation y = tx_operation tx ∧ (∀ op, tx_operation tx = Some op → about i op ∨ ∃ c, op = Commit c)
     ∨ tx_operation y = None ∧ ∀ op, tx_operation tx = Some op → ¬ about i op).

Lemma accepted_about p v l h tx op j hd :
  (reveal_accepted (view p v l) h tx op j hd
   ∨ ∃ prev, refresh_accepted (view p v l) h tx op j prev hd) → about j op.
Proof.
  intros [[_ _ (? & ? & ? & ? & ? & ? & ? & ? & ? & ? & Hev)]
    |(prev & [_ _ _ _ (? & ? & ? & ? & ? & ? & ? & ? & Hev)])].
  - by destruct Hev as (-> & Hn & _).
  - by destruct Hev as (-> & Hn & _).
Qed.

Lemma about_inj i j op : about i op → about j op → i = j.
Proof. destruct op; simpl; [done|congruence..]. Qed.

(** The guards give the same answer on both ledgers. *)
Lemma ledger_update_agree {E} p v i h tx y l x op kind clause d l' :
  Parameters_ok p → agree i l x → about i op → evidence i h tx l x → tx_operation tx = Some op →
  tx_tx_index y = tx_tx_index tx → tx_txid y = tx_txid tx → tx_actions y = tx_actions tx →
  let check t m := match op with
                   | Reveal _ _ _ _ _ _ => check_reveal (view p v m) h t op
                   | _ => check_refresh (view p v m) h t op
                   end in
  ledger_update (E := E) l (check tx l) kind clause = Ok (d, l') →
  ∃ x', ledger_update (E := E) x (check y x) kind clause = Ok (d, x') ∧ agree i l' x'
    ∧ (∀ c, is_Some (lg_commits x' !! c) → is_Some (lg_commits x !! c)).
Proof.
  intros Hp Hag Hab Hev Hop E1 E2 E3 check.
  assert (y = MkTransaction (tx_tx_index tx) (tx_txid tx) (tx_actions tx) (tx_operation y)) as Ey.
  { destruct y; simpl in *; congruence. }
  assert (check y x = check tx l) as ->.
  { transitivity (check y l).
    - unfold check. destruct op as [|name c ua ai nf proof|name pred ua ai nf proof]; [done|..].
      + apply (check_reveal_agree p v i); [done..|]. by eapply Hev.
      + by apply (check_refresh_agree p v i).
    - unfold check. destruct op; [done|..]; unfold check_reveal, check_refresh, produced_head;
        by rewrite E1, E2, E3. }
  destruct (check tx l) as [[j hd]|e|] eqn:Ec; simpl; [| |done].
  - intros [= <- <-]. eexists. split; [done|].
    assert (j = i) as ->.
    { apply (about_inj j i op); [|done].
      apply (accepted_about p v l h tx op j hd). unfold check in Ec.
      destruct op; [done|left; by apply check_reveal_Ok|right; by apply check_refresh_Ok]. }
    split; [by apply agree_insert|done].
  - intros [= <- <-]. eauto.
Qed.

Lemma ledger_operation_agree {E} p v i h tx y l x d l' :
  Parameters_ok p → agree i l x → replayed i tx y → evidence i h tx l x →
  commits_before h (tx_tx_index tx) x →
  ledger_operation (E := E) p v h tx l = Ok (d, l') →
  ∃ d' x', ledger_operation (E := E) p v h y x = Ok (d', x') ∧ agree i l' x'
    ∧ commits_before h (tx_tx_index tx + 1) x'.
Proof.
  intros Hp Hag (E1 & E2 & E3 & Hy) Hev Hcb Hop.
  assert (commits_before h (tx_tx_index tx + 1) x) as Hcb'.
  { intros c Hc. destruct (Hcb c Hc); [by left|right; lia]. }
  destruct Hy as [[Ey Hab]|[Ey Hab]].
  - unfold ledger_operation in *. rewrite Ey.
    destruct (tx_operation tx) as [op|] eqn:Etx; [|injection Hop as <- <-; eauto].
    destruct op as [c|name c ua ai nf proof|name pred ua ai nf proof].
    + injection Hop as <- <-. rewrite E1, E2. eexists _, _. split; [done|]. split.
      * destruct Hag as [Hh Ho Hc]. constructor; simpl; [done|done|].
        intros k z. destruct (decide (k = MkCommitRef h (tx_tx_index tx) (tx_txid tx))) as [->|Hne];
          [by rewrite !lookup_insert_eq|rewrite !lookup_insert_ne by done; apply Hc].
      * intros k. simpl.
        destruct (decide (k = MkCommitRef h (tx_tx_index tx) (tx_txid tx))) as [->|Hne];
          [simpl; right; lia|rewrite lookup_insert_ne by done; apply Hcb'].
    + destruct (Hab _ eq_refl) as [Habt|[? ?]]; [|done].
      destruct (ledger_update_agree (E := E) p v i h tx y l x _ _ _ d l' Hp Hag Habt Hev Etx E1 E2 E3 Hop)
        as (x' & Hx & Ha & Hk). eexists _, _. split; [exact Hx|]. split; [done|].
      intros k Hkk. by apply Hcb', Hk.
    + destruct (Hab _ eq_refl) as [Habt|[? ?]]; [|done].
      destruct (ledger_update_agree (E := E) p v i h tx y l x _ _ _ d l' Hp Hag Habt Hev Etx E1 E2 E3 Hop)
        as (x' & Hx & Ha & Hk). eexists _, _. split; [exact Hx|]. split; [done|].
      intros k Hkk. by apply Hcb', Hk.
  - unfold ledger_operation at 1. rewrite Ey. eexists _, x. split; [done|]. split; [|done].
    apply ledger_operation_Ok in Hop as [[-> _]|[(c & _ & _ & ->)|(op & j & hd & Eop & -> & Hacc)]].
    + done.
    + destruct Hag as [Hh Ho Hc]. constructor; simpl; [done|done|]. intros k z Hk.
      rewrite lookup_insert_ne; [by apply Hc|]. intros <-.
      destruct (Hcb _ (ex_intro _ _ Hk)) as [?|[_ ?]]; simpl in *; lia.
    + apply agree_other; [|done]. intros ->. apply (Hab op Eop).
      apply (accepted_about p v l h tx op i hd). tauto.
Qed.

(** The spends of a transaction. *)
Lemma end_spent_agree i h tx y l x l' x' :
  tx_actions y = tx_actions tx → agree i l x → agree i l' x' →
  agree i (MkLedger (lg_commits l') (end_spent h tx (lg_heads l) (lg_heads l')))
    (MkLedger (lg_commits x') (end_spent h y (lg_heads x) (lg_heads x'))).
Proof.
  intros Ea [Hh _ _] [Hh' Ho' Hc']. constructor; simpl; [| |done].
  - unfold end_spent. rewrite !map_lookup_imap, Hh'. destruct (lg_heads l' !! i) as [hd|]; [|done].
    simpl. unfold terminates, spends. by rewrite Hh, Ea.
  - intros j Hj. unfold end_spent. by rewrite map_lookup_imap, Ho'.
Qed.

(** Later REVEALs of the block still know their old commitments. *)
Lemma ledger_transaction_commits {E} p v h tx l y k :
  ledger_transaction (E := E) p v h tx l = Ok y → cr_height k < h →
  lg_commits y.2 !! k = lg_commits l !! k.
Proof.
  intros Ht Hk. unfold ledger_transaction in Ht.
  apply res_bind_Ok in Ht as ([d l1] & Hop & [= <-]%Ok_inj). simpl.
  apply ledger_operation_Ok in Hop as [[-> _]|[(c & _ & _ & ->)|(op & j & hd & _ & -> & _)]];
    [done| |done]. simpl. rewrite lookup_insert_ne; [done|]. intros <-. simpl in Hk. lia.
Qed.

Lemma ledger_transactions_agree {E} p v i h txs ys l x r n :
  Parameters_ok p → agree i l x → Forall2 (replayed i) txs ys →
  (∀ tx, tx ∈ txs → evidence i h tx l x) → commits_before h n x → ascending n txs →
  ledger_transactions (E := E) p v h txs l = Ok r →
  ∃ r', ledger_transactions (E := E) p v h ys x = Ok r' ∧ agree i r.2 r'.2.
Proof.
  intros Hp Hag Hf. revert l x r n Hag. induction Hf as [|tx y txs ys Hy Hf IH];
    intros l x r n Hag Hev Hcb Hasc Hr; cbn [ledger_transactions] in *.
  { apply Ok_inj in Hr as <-. eauto. }
  destruct Hasc as [Hn Hasc].
  apply res_bind_Ok in Hr as ([[d ts] l1] & H1 & ([[ds ts'] l2] & H2 & [= <-]%Ok_inj)%res_bind_Ok).
  pose proof H1 as H1'. unfold ledger_transaction in H1.
  apply res_bind_Ok in H1 as ([d0 l0] & Hop & [= <- <- <-]%Ok_inj).
  assert (commits_before h (tx_tx_index tx) x) as Hcbt.
  { intros c Hc. destruct (Hcb c Hc); [by left|right; lia]. }
  destruct (ledger_operation_agree p v i h tx y l x d0 l0 Hp Hag Hy (Hev tx (list_elem_of_here _ _)) Hcbt Hop)
    as (d' & x0 & Hx & Ha & Hc).
  unfold ledger_transaction at 1. rewrite Hx. cbn [res_bind].
  assert (tx_actions y = tx_actions tx) as Eact by apply Hy.
  pose proof (end_spent_agree i h tx y l x l0 x0 Eact Hag Ha) as Hag1.
  edestruct (IH _ _ (ds, ts', l2) (tx_tx_index tx + 1) Hag1) as (r' & Hr' & Hagr); [| |done|exact H2|].
  - intros t Ht name c ua ai nf proof Eop Ename Hlt.
    pose proof (ledger_transaction_commits (E := E) p v h tx l _ c H1' Hlt) as Ec. cbn [snd lg_commits] in *.
    rewrite Ec. rewrite <- (Hev t ltac:(by right) name c ua ai nf proof Eop Ename Hlt).
    apply (ledger_transaction_commits (E := E) p v h y x
      (d', spent_terminations h y (lg_heads x) (lg_heads x0),
       MkLedger (lg_commits x0) (end_spent h y (lg_heads x) (lg_heads x0))) c); [|done].
    unfold ledger_transaction. by rewrite Hx.
  - exact Hc.
  - destruct r' as [[ds' ts''] l2']. rewrite Hr'. cbn [res_bind]. eexists. split; [done|]. done.
Qed.
End Agreement.

(** ** Blocks *)

Section ExactBlocks.
Context `{Blake2b} `{Pallas} {V : Type} `{!ProofVerifier V}.
Implicit Types (r : Reducer V) (x : ExactResolver V).

(** The exact resolver has followed the full reducer. *)
Record follows (r : Reducer V) (x : ExactResolver V) : Prop := {
  fo_full : reducer_ok r;
  fo_exact : reducer_ok (er_reducer x);
  fo_name : Name_ok (er_name x);
  fo_id : Name_id (er_name x) = Ok (er_name_id x);
  fo_parameters : parameters (er_reducer x) = parameters r;
  fo_verifier : verifier (er_reducer x) = verifier r;
  fo_next : next_height (er_reducer x) = next_height r;
  fo_tip : tip (er_reducer x) = tip r;
  fo_hash : previous_hash (er_reducer x) = previous_hash r;
  fo_agree : agree (er_name_id x) (ledger_of r) (ledger_of (er_reducer x));
}.

(** The block the host hands to the exact resolver. *)
Definition thinned_block (i : NameId) (block given : Block) : Prop :=
  bl_height given = bl_height block ∧ bl_hash given = bl_hash block
  ∧ bl_prev_hash given = bl_prev_hash block
  ∧ Forall2 (thinned i) (bl_transactions block) (bl_transactions given).

(** Evidence is admissible when the full history has the commitment, a REVEAL of
    the name in the block references it, and it is not expired; and complete
    when every such REVEAL finds its commitment. *)
Definition reveals (i : NameId) (block : Block) (c : CommitRef) : Prop :=
  ∃ tx name ua ai nf proof,
    tx ∈ bl_transactions block ∧ tx_operation tx = Some (Reveal name c ua ai nf proof)
    ∧ Name_id name = Ok i.
Definition unexpired r (block : Block) (c : CommitRef) : Prop :=
  bl_height block < cr_height c + commit_ttl_blocks (parameters r).
Definition admissible (i : NameId) r (block : Block) (refs : list ReferencedCommit) : Prop :=
  ∀ ev, ev ∈ refs →
    commits r !! rc_reference ev = Some (rc_commitment ev)
    ∧ reveals i block (rc_reference ev) ∧ unexpired r block (rc_reference ev).
Definition complete (i : NameId) r x (block : Block) (refs : list ReferencedCommit) : Prop :=
  ∀ c k, reveals i block c → commits r !! c = Some k → unexpired r block c →
    commits (er_reducer x) !! c = Some k ∨ MkReferencedCommit c k ∈ refs.

Lemma name_matches_spec {E} i name :
  Name_ok name →
  ∃ b, name_matches (E := E) i name = Ok b ∧ (b = true ↔ Name_id name = Ok i).
Proof.
  intros Hn. unfold name_matches. pose proof (Name_id_no_panic name Hn).
  destruct (Name_id name) as [j|e|]; [| |done]; eexists; (split; [done|]).
  - rewrite bool_decide_eq_true. naive_solver.
  - done.
Qed.

Lemma relevant_spec {E} i tx :
  (∀ op, tx_operation tx = Some op → operation_named op) →
  ∃ b, relevant (E := E) i tx = Ok b
    ∧ (b = true ↔ ∃ op, tx_operation tx = Some op ∧ (about i op ∨ ∃ c, op = Commit c)).
Proof.
  intros Hn. unfold relevant.
  destruct (tx_operation tx) as [op|]; [|exists false; split; [done|naive_solver]].
  specialize (Hn op eq_refl).
  destruct op as [c|name ? ? ? ? ?|name ? ? ? ? ?]; simpl in Hn; [exists true; split; [done|]; split; eauto 6|..].
  all: destruct (name_matches_spec (E := E) i name Hn) as (b & -> & Hb); exists b; split; [done|].
  all: rewrite Hb; split; [intros Hi; eexists; split; [done|by left]|].
  all: by intros (op & [= <-] & [Ha|[? [=]]]).
Qed.

Lemma filter_block_spec {E} i block given :
  block_named block → thinned_block i block given →
  ∃ b, filter_block (E := E) i given = Ok b
    ∧ bl_height b = bl_height block ∧ bl_hash b = bl_hash block ∧ bl_prev_hash b = bl_prev_hash block
    ∧ Forall2 (replayed i) (bl_transactions block) (bl_transactions b).
Proof.
  intros Hn (E1 & E2 & E3 & Hf). unfold filter_block.
  assert (∃ ys, res_mapM (filter_transaction (E := E) i) (bl_transactions given) = Ok ys
    ∧ Forall2 (replayed i) (bl_transactions block) ys) as (ys & -> & Hys).
  { unfold block_named in Hn. clear E1 E2 E3. revert Hn Hf.
    generalize (bl_transactions block) as txs0, (bl_transactions given) as ys0.
    intros txs0 ys0 Hn Hf. induction Hf as [|tx y txs ys (A1 & A2 & A3 & A4) Hf IH]; [by exists []|].
    destruct IH as (zs & Hz & Hzs); [intros; eapply Hn; [by right|done]|].
    assert (∀ op, tx_operation y = Some op → operation_named op) as Hny.
    { intros op Eop. destruct A4 as [A4|[A4 _]]; [|congruence]. apply (Hn tx); [left|congruence]. }
    destruct (relevant_spec (E := E) i y Hny) as (b & Hb & Hbs).
    cbn [res_mapM]. unfold filter_transaction at 1. rewrite Hb. cbn [res_bind]. rewrite Hz. cbn [res_bind].
    eexists. split; [done|]. constructor; [|done].
    destruct b; (split; [|split; [|split]]); try done.
    - destruct (proj1 Hbs eq_refl) as (op & Eop & Hab). left. destruct A4 as [A4|[A4 _]]; [|congruence].
      split; [done|]. intros op' Eop'. assert (op' = op) as -> by congruence. done.
    - right. split; [done|]. intros op Eop Hab. destruct A4 as [A4|[_ A4]]; [|by apply (A4 op)].
      discriminate (proj2 Hbs (ex_intro _ op (conj (eq_trans A4 Eop) (or_introl Hab)))). }
  cbn [res_bind]. eexists. split; [done|]. done.
Qed.

(** Filtering does not change what the header checks read. *)
Lemma check_transactions_replayed i o txs ys :
  Forall2 (replayed i) txs ys → check_transactions o ys = check_transactions o txs.
Proof.
  intros Hf. revert o. induction Hf as [|tx y txs ys (A1 & A2 & A3 & _) Hf IH]; intros o; [done|].
  cbn [check_transactions]. by rewrite A1, A3, IH.
Qed.

Lemma replayed_named i block b :
  block_named block → Forall2 (replayed i) (bl_transactions block) (bl_transactions b) →
  block_named b.
Proof.
  intros Hn Hf y op Hy Eop. apply list_elem_of_lookup in Hy as [k Hk].
  destruct (Forall2_lookup_r _ _ _ _ _ Hf Hk) as (tx & Htx & _ & _ & _ & [[A _]|[A _]]); [|congruence].
  apply (Hn tx); [by eapply list_elem_of_lookup_2|congruence].
Qed.

(** What the admitted evidence is. *)
Lemma admitted_evidence r block refs m m0 :
  res_fold (admit_evidence r block) m0 refs = Ok m →
  (∀ c k, m !! c = Some k → m0 !! c = Some k ∨ MkReferencedCommit c k ∈ refs)
  ∧ (∀ c k, m0 !! c = Some k → m !! c = Some k)
  ∧ (∀ ev, ev ∈ refs → m !! rc_reference ev = Some (rc_commitment ev)).
Proof.
  revert m0. induction refs as [|ev refs IH]; intros m0 Hf; cbn [res_fold] in Hf.
  { apply Ok_inj in Hf as <-. split; [auto|]. split; [done|]. by intros ev ?%not_elem_of_nil. }
  apply res_bind_Ok in Hf as (m1 & H1 & Hf). destruct (IH m1 Hf) as (A & B & C). clear IH.
  unfold admit_evidence in H1. inv_res. rewrite andb_true_iff, !negb_true_iff in *.
  match goal with Hc : _ ∧ _ |- _ => destruct Hc as [Hc1 Hc2] end.
  assert (∀ k, m0 !! rc_reference ev = Some k → k = rc_commitment ev) as Hprior.
  { intros k Hk. unfold conflicts in Hc1. rewrite Hk in Hc1.
    apply bool_decide_eq_false in Hc1. destruct (decide (k = rc_commitment ev)); [done|tauto]. }
  split; [|split].
  - intros c k Hk. destruct (A c k Hk) as [Hm|?]; [|right; by right].
    destruct (decide (c = rc_reference ev)) as [->|Hne].
    + rewrite lookup_insert_eq in Hm. injection Hm as <-. right. destruct ev. by left.
    + rewrite lookup_insert_ne in Hm by done. by left.
  - intros c k Hk. apply B. destruct (decide (c = rc_reference ev)) as [->|Hne].
    + rewrite lookup_insert_eq. by rewrite (Hprior k Hk).
    + by rewrite lookup_insert_ne.
  - intros ev' [->|Hin]%elem_of_cons; [|by apply C]. apply B. by rewrite lookup_insert_eq.
Qed.

(** Evidence from the history is admitted. *)
Lemma admissible_admitted i r x block b refs :
  follows r x → next_height r = Some (bl_height block) → admissible i r block refs →
  bl_height b = bl_height block →
  Forall2 (replayed i) (bl_transactions block) (bl_transactions b) →
  ∀ m0, (∀ c k, m0 !! c = Some k → commits r !! c = Some k) →
  ∃ m, res_fold (admit_evidence (er_reducer x) b) m0 refs = Ok m
    ∧ ∀ c k, m !! c = Some k → commits r !! c = Some k.
Proof.
  intros Hx Hnext Had Eh Hf. destruct (reducer_ok_next r _ (fo_full _ _ Hx) Hnext) as [_ [Hl _]].
  induction refs as [|ev refs IH]; intros m0 Hm0; [by exists m0|].
  destruct (Had ev (list_elem_of_here _ _)) as (Hc & Hr & Hu). unfold unexpired in Hu.
  destruct (Hl (rc_reference ev) (ex_intro _ _ Hc)) as [? _].
  assert (∀ m : gmap CommitRef Commitment, (∀ c k, m !! c = Some k → commits r !! c = Some k) →
    conflicts (m !! rc_reference ev) (rc_commitment ev) = false) as Hcf.
  { intros m Hm. unfold conflicts. destruct (m !! rc_reference ev) as [k|] eqn:Ek; [|done].
    apply bool_decide_eq_false. intros Hne. apply Hne. apply Hm in Ek. congruence. }
  assert (rc_reference ev ∈ reveal_references b) as Href.
  { destruct Hr as (tx & name & ua & ai & nf & proof & Hin & Eop & Hn).
    apply list_elem_of_lookup in Hin as [n Hin].
    destruct (Forall2_lookup_l _ _ _ _ _ Hf Hin) as (y & Hy & _ & _ & _ & [[Ey _]|[_ Hno]]).
    - apply elem_of_list_to_set, list_elem_of_omap. exists y.
      split; [by eapply list_elem_of_lookup_2|]. by rewrite Ey, Eop.
    - by destruct (Hno _ Eop). }
  destruct (IH (λ ev' Hin, Had ev' (list_elem_of_further _ _ _ Hin))
    (<[rc_reference ev := rc_commitment ev]> m0)) as (m & Hm & Hms).
  { intros c k. destruct (decide (c = rc_reference ev)) as [->|Hne].
    - rewrite lookup_insert_eq. congruence.
    - rewrite lookup_insert_ne by done. apply Hm0. }
  exists m. split; [|done]. cbn [res_fold]. unfold admit_evidence at 1.
  rewrite Eh, (fo_parameters _ _ Hx), bool_decide_true by done.
  rewrite (proj2 (Z.leb_le _ _)), (proj2 (Z.ltb_lt _ _)) by lia. cbn [andb ensure res_bind].
  assert (u32_checked_sub (bl_height block) (cr_height (rc_reference ev))
    = Some (bl_height block - cr_height (rc_reference ev))) as ->.
  { apply u32_checked_sub_Some. lia. }
  cbn [expect res_bind]. rewrite (proj2 (Z.ltb_lt _ _)) by lia. cbn [ensure res_bind].
  rewrite (Hcf m0 Hm0), (Hcf (commits (er_reducer x)) (ag_commits _ _ _ (fo_agree _ _ Hx))).
  done.
Qed.

(** The ledgers at the start of the block agree. *)
Lemma start_agree i p h l z supplied :
  agree i l z → (∀ c k, supplied !! c = Some k → lg_commits l !! c = Some k ∧ h < cr_height c + commit_ttl_blocks p) →
  agree i (start_ledger p h ∅ l) (start_ledger p h supplied z).
Proof.
  intros [Hh Ho Hc] Hs. constructor; simpl.
  - by rewrite !start_heads_name, Hh.
  - intros j Hj. by rewrite start_heads_name, Ho.
  - intros c k Hk. rewrite map_empty_union. unfold live_commits in *. apply map_lookup_filter_Some.
    apply lookup_union_Some_raw in Hk as [Hk|[_ Hk]]; [by apply Hs|].
    apply map_lookup_filter_Some in Hk as [Hk ?]. split; [by apply Hc|done].
Qed.

Lemma start_evidence i r x block refs m tx :
  follows r x → tx ∈ bl_transactions block → complete i r x block refs →
  (∀ ev, ev ∈ refs → m !! rc_reference ev = Some (rc_commitment ev)) →
  agree i (start_ledger (parameters r) (bl_height block) ∅ (ledger_of r))
    (start_ledger (parameters r) (bl_height block) m (ledger_of (er_reducer x))) →
  evidence i (bl_height block) tx
    (start_ledger (parameters r) (bl_height block) ∅ (ledger_of r))
    (start_ledger (parameters r) (bl_height block) m (ledger_of (er_reducer x))).
Proof.
  intros Hx Htx Hco Hm [_ _ Hc] name c ua ai nf proof Eop Hn _.
  destruct (lg_commits (start_ledger _ _ ∅ _) !! c) as [k|] eqn:Ek.
  - simpl in Ek. rewrite map_empty_union in Ek. apply map_lookup_filter_Some in Ek as [Ek Hu]. simpl in Hu.
    assert (is_Some (lg_commits (start_ledger (parameters r) (bl_height block) m
      (ledger_of (er_reducer x))) !! c)) as [k' Hk'].
    { simpl. apply lookup_union_is_Some.
      destruct (Hco c k) as [Hin|Hin]; [|done|done| |].
      - by exists tx, name, ua, ai, nf, proof.
      - right. exists k. by apply map_lookup_filter_Some.
      - left. exists k. by apply (Hm _ Hin). }
    pose proof (Hc _ _ Hk') as Hk. simpl in Hk. rewrite map_empty_union in Hk.
    apply map_lookup_filter_Some in Hk as [Hk _]. simpl in Hk. congruence.
  - destruct (lg_commits (start_ledger _ _ m _) !! c) as [k'|] eqn:Ek'; [|done].
    apply Hc in Ek'. congruence.
Qed.

Lemma check_block_plain r block u :
  check_block r block [] = Ok u →
  u = ∅ ∧ check_transactions None (bl_transactions block) = Ok tt.
Proof.
  unfold check_block. intros (? & _ & (? & _ & ([] & ? & Hf)%res_bind_Ok)%res_bind_Ok)%res_bind_Ok.
  cbn [res_fold] in Hf. by apply Ok_inj in Hf as <-.
Qed.

(** The next header is accepted with the evidence. *)
Lemma exact_check_block r x block b refs u :
  follows r x → check_block r block [] = Ok u → admissible (er_name_id x) r block refs →
  bl_height b = bl_height block → bl_prev_hash b = bl_prev_hash block →
  Forall2 (replayed (er_name_id x)) (bl_transactions block) (bl_transactions b) →
  ∃ m, check_block (er_reducer x) b refs = Ok m
    ∧ (∀ c k, m !! c = Some k → commits r !! c = Some k)
    ∧ (∀ ev, ev ∈ refs → m !! rc_reference ev = Some (rc_commitment ev)).
Proof.
  intros Hx Hc Had E1 E2 Hf. pose proof Hc as (Hnext & Hprev & _)%check_block_Ok.
  destruct (admissible_admitted _ _ _ _ _ _ Hx Hnext Had E1 Hf ∅) as (m & Hm & Hms);
    [intros c k; by rewrite lookup_empty|].
  exists m. split; [|split; [done|by eapply admitted_evidence]].
  unfold check_block in *. rewrite (fo_next _ _ Hx), (fo_hash _ _ Hx), E1, E2,
    (check_transactions_replayed (er_name_id x) None _ _ Hf), Hm.
  rewrite Hprev, Hnext, !bool_decide_true in * by done. cbn [ensure res_bind] in *.
  by destruct (check_transactions None (bl_transactions block)).
Qed.

Lemma previous_hash_tip r h : tip r = Some h → previous_hash r = tip_hash h.
Proof. unfold tip. destruct (tip_height r); [|done]. by intros [= <-]. Qed.

Lemma exact_block_step r x block given refs out r' :
  follows r x → block_named block → apply_block_detailed block [] r = (Ok out, r') →
  thinned_block (er_name_id x) block given → admissible (er_name_id x) r block refs →
  complete (er_name_id x) r x block refs →
  ∃ b out' x', filter_block (E := ApplyError) (er_name_id x) given = Ok b
    ∧ exact_apply_block_detailed given refs x = (Ok out', x')
    ∧ apply_block_detailed b refs (er_reducer x) = (Ok out', er_reducer x')
    ∧ follows r' x' ∧ er_name x' = er_name x ∧ er_name_id x' = er_name_id x.
Proof.
  intros Hx Hn Ha Hth Had Hco. set (i := er_name_id x) in *.
  destruct (filter_block_spec (E := ApplyError) i block given Hn Hth) as (b & Hb & E1 & E2 & E3 & Hf).
  pose proof (apply_block_step block [] r (fo_full _ _ Hx) Hn) as Hs.
  destruct (check_block r block []) as [u|e|] eqn:Ec; [|congruence|done].
  destruct Hs as (y & out1 & r1 & Hy & Ha1 & Hrf & Hr1). rewrite Ha in Ha1. injection Ha1 as <- <-.
  destruct (exact_check_block r x block b refs u Hx Ec Had E1 E3 Hf) as (m & Hcx & Hms & Hmr).
  pose proof (apply_block_step b refs (er_reducer x) (fo_exact _ _ Hx)
    (replayed_named i block b Hn Hf)) as Hs. rewrite Hcx in Hs.
  destruct Hs as (y' & out' & rx' & Hy' & Ha' & Hrf' & Hrx').
  exists b, out', (MkExactResolver (er_name x) i rx'). split; [exact Hb|]. split; [|split; [exact Ha'|]].
  { unfold exact_apply_block_detailed, sbind, mget, mlift, delegate. fold i. by rewrite Hb, Ha'. }
  split; [|done].
  apply check_block_plain in Ec as Hpl. destruct Hpl as [-> Hct].
  pose proof Ec as (Hnext & _ & _)%check_block_Ok.
  destruct (reducer_ok_next r _ (fo_full _ _ Hx) Hnext) as [_ [Hold _]].
  apply check_block_Ok in Hcx as (_ & _ & Hcx).
  unfold ledger_block in Hy, Hy'. rewrite E1, (fo_parameters _ _ Hx), (fo_verifier _ _ Hx) in Hy'.
  rewrite E1, (fo_parameters _ _ Hx) in Hcx.
  pose proof (start_agree i (parameters r) (bl_height block) _ _ m (fo_agree _ _ Hx)) as Hag.
  fold i in Hag. specialize (Hag (λ c k Hk, conj (Hms c k Hk) (proj2 (Hcx c (ex_intro _ k Hk))))).
  destruct (ledger_transactions_agree (E := ApplyError) (parameters r) (verifier r) i
    (bl_height block) _ _ _ _ y (first_index None (bl_transactions block))
    (rk_parameters _ (fo_full _ _ Hx)) Hag Hf) as (y'' & Hy'' & Hagy); [| | |exact Hy|].
  - intros tx Htx. by eapply start_evidence.
  - intros c [k Hk]. left. apply (ag_commits _ _ _ Hag) in Hk. simpl in Hk.
    rewrite map_empty_union in Hk. apply map_lookup_filter_Some in Hk as [Hk _].
    destruct (Hold c (ex_intro _ k Hk)). lia.
  - by eapply check_transactions_ascending.
  - rewrite Hy' in Hy''. apply Ok_inj in Hy'' as <-.
    pose proof (br_tip _ _ _ _ _ _ _ Hrf) as Ht. pose proof (br_tip _ _ _ _ _ _ _ Hrf') as Ht'.
    constructor; simpl; try done.
    + apply Hx.
    + apply Hx.
    + rewrite (br_parameters _ _ _ _ _ _ _ Hrf), (br_parameters _ _ _ _ _ _ _ Hrf'). apply Hx.
    + rewrite (br_verifier _ _ _ _ _ _ _ Hrf), (br_verifier _ _ _ _ _ _ _ Hrf'). apply Hx.
    + by rewrite (br_next _ _ _ _ _ _ _ Hrf), (br_next _ _ _ _ _ _ _ Hrf'), E1.
    + by rewrite Ht, Ht', E1, E2.
    + by rewrite (previous_hash_tip _ _ Ht), (previous_hash_tip _ _ Ht'), E2.
    + by rewrite (br_ledger _ _ _ _ _ _ _ Hrf), (br_ledger _ _ _ _ _ _ _ Hrf').
Qed.
End ExactBlocks.

(** ** Whole blocks, without evidence *)

Section WholeBlocks.
Context `{Blake2b} `{Pallas} {V : Type} `{!ProofVerifier V}.
Implicit Types (r : Reducer V) (x : ExactResolver V).

(** The commitments of a block are a function of its COMMITs. *)
Definition log_commit (h : Z) (m : gmap CommitRef Commitment) (tx : Transaction)
  : gmap CommitRef Commitment :=
  match tx_operation tx with
  | Some (Commit c) => <[MkCommitRef h (tx_tx_index tx) (tx_txid tx) := c]> m
  | _ => m
  end.
Definition commit_log (h : Z) (txs : list Transaction) (m : gmap CommitRef Commitment)
  : gmap CommitRef Commitment := fold_left (log_commit h) txs m.

Lemma ledger_transactions_log {E} p v h txs l y :
  ledger_transactions (E := E) p v h txs l = Ok y →
  lg_commits y.2 = commit_log h txs (lg_commits l).
Proof.
  revert l y. induction txs as [|tx txs IH]; intros l y Ht; cbn [ledger_transactions] in Ht.
  { by apply Ok_inj in Ht as <-. }
  apply res_bind_Ok in Ht as ([[d ts] l1] & H1 & ([[ds ts'] l2] & H2 & [= <-]%Ok_inj)%res_bind_Ok).
  specialize (IH l1 (ds, ts', l2) H2). cbn [snd] in *. rewrite IH.
  unfold commit_log. cbn [fold_left]. f_equal. unfold log_commit.
  apply res_bind_Ok in H1 as ([d0 l0] & Hop & [= _ _ <-]%Ok_inj). cbn [lg_commits].
  unfold ledger_operation, ledger_update in Hop.
  destruct (tx_operation tx) as [[c|? ? ? ? ? ?|? ? ? ? ? ?]|].
  - by apply Ok_inj in Hop as [= _ <-].
  - destruct (check_reveal _ _ _ _) as [[j hd]|e|]; [by apply Ok_inj in Hop as [= _ <-]..|done].
  - destruct (check_refresh _ _ _ _) as [[j hd]|e|]; [by apply Ok_inj in Hop as [= _ <-]..|done].
  - by apply Ok_inj in Hop as [= _ <-].
Qed.

(** Filtering keeps the COMMITs. *)
Lemma commit_log_filter {E} i h txs ys m :
  res_mapM (filter_transaction (E := E) i) txs = Ok ys → commit_log h ys m = commit_log h txs m.
Proof.
  revert ys m. induction txs as [|tx txs IH]; intros ys m Hf; cbn [res_mapM] in Hf.
  { by apply Ok_inj in Hf as <-. }
  apply res_bind_Ok in Hf as (y & Hy & (zs & Hz & <-%Ok_inj)%res_bind_Ok).
  etrans; [apply (IH zs (log_commit h m y) Hz)|].
  unfold commit_log. cbn [fold_left]. f_equal. unfold log_commit.
  apply res_bind_Ok in Hy as ([] & Hb & <-%Ok_inj); [done|]. unfold relevant in Hb.
  cbn [silenced tx_operation]. by destruct (tx_operation tx) as [[]|].
Qed.

Lemma thinned_self i block : thinned_block i block block.
Proof. repeat (split; [done|]). apply Forall_Forall2_diag, Forall_forall. intros tx _.
  repeat (split; [done|]). by left.
Qed.

(** The exact resolver has also seen every COMMIT. *)
Definition mirrors r x : Prop := follows r x ∧ commits (er_reducer x) = commits r.

(** Evidence both replays judge alike: what a REVEAL of the block references, a
    REVEAL of the name references. *)
Definition shared_evidence (i : NameId) (block : Block) (refs : list ReferencedCommit) : Prop :=
  ∀ ev, ev ∈ refs → rc_reference ev ∈ reveal_references block → reveals i block (rc_reference ev).

Lemma replayed_references i block b c :
  Forall2 (replayed i) (bl_transactions block) (bl_transactions b) →
  (c ∈ reveal_references b → c ∈ reveal_references block)
  ∧ (reveals i block c → c ∈ reveal_references b).
Proof.
  intros Hf. unfold reveal_references. rewrite !elem_of_list_to_set, !list_elem_of_omap. split.
  - intros (y & Hy & Eop). apply list_elem_of_lookup in Hy as [n Hn].
    destruct (Forall2_lookup_r _ _ _ _ _ Hf Hn) as (tx & Htx & _ & _ & _ & [[Ey _]|[Ey _]]).
    + exists tx. split; [by eapply list_elem_of_lookup_2|]. by rewrite <- Ey.
    + by rewrite Ey in Eop.
  - intros (tx & name & ua & ai & nf & proof & Hin & Eop & Hn).
    apply list_elem_of_lookup in Hin as [n Hin].
    destruct (Forall2_lookup_l _ _ _ _ _ Hf Hin) as (y & Hy & _ & _ & _ & [[Ey _]|[_ Hno]]).
    + exists y. split; [by eapply list_elem_of_lookup_2|]. by rewrite Ey, Eop.
    + by destruct (Hno _ Eop).
Qed.

(** The same checks, with the same answer. *)
Lemma mirrors_check r x block b refs :
  mirrors r x → bl_height b = bl_height block → bl_prev_hash b = bl_prev_hash block →
  Forall2 (replayed (er_name_id x)) (bl_transactions block) (bl_transactions b) →
  shared_evidence (er_name_id x) block refs →
  check_block (er_reducer x) b refs = check_block r block refs.
Proof.
  intros [Hx Hc] E1 E2 Hf Hsh. unfold check_block.
  rewrite (fo_next _ _ Hx), (fo_hash _ _ Hx), E1, E2, (check_transactions_replayed _ None _ _ Hf).
  destruct (ensure _ WrongHeight); [|done..]. destruct (ensure _ WrongPreviousHash); [|done..].
  destruct (check_transactions None (bl_transactions block)); [|done..]. cbn [res_bind].
  generalize (∅ : gmap CommitRef Commitment) as m. revert Hsh.
  induction refs as [|ev refs IH]; intros Hsh m; [done|]. cbn [res_fold].
  assert (admit_evidence (er_reducer x) b m ev = admit_evidence r block m ev) as ->.
  { unfold admit_evidence. rewrite (fo_parameters _ _ Hx), E1, Hc.
    destruct (replayed_references _ block b (rc_reference ev) Hf) as [Ha Hb].
    by rewrite (bool_decide_ext _ (rc_reference ev ∈ reveal_references block)) by
      (split; [done|intros Hin; by apply Hb, (Hsh ev); [left|]]). }
  destruct (admit_evidence r block m ev); [|done..]. cbn [res_bind].
  apply IH. intros ev' Hin. apply (Hsh ev'). by right.
Qed.

(** A REVEAL that the filter keeps is one of the name. *)
Lemma replayed_reveals i block b c :
  Forall2 (replayed i) (bl_transactions block) (bl_transactions b) →
  c ∈ reveal_references b → reveals i block c.
Proof.
  intros Hf. unfold reveal_references. rewrite elem_of_list_to_set, list_elem_of_omap.
  intros (y & Hy & Eop). apply list_elem_of_lookup in Hy as [n Hn].
  destruct (Forall2_lookup_r _ _ _ _ _ Hf Hn) as (tx & Htx & _ & _ & _ & [[Ey Hab]|[Ey _]]);
    [|by rewrite Ey in Eop].
  rewrite Ey in Eop. destruct (tx_operation tx) as [[|name c' ua ai nf proof|]|] eqn:Etx; try done.
  injection Eop as ->. exists tx, name, ua, ai, nf, proof.
  split; [by eapply list_elem_of_lookup_2|]. split; [done|]. by destruct (Hab _ eq_refl) as [?|[? ?]].
Qed.

(** Evidence of another name, which the full reducer admits, is refused. *)
Lemma mirrors_check_foreign r x block b refs m :
  mirrors r x → bl_height b = bl_height block → bl_prev_hash b = bl_prev_hash block →
  Forall2 (replayed (er_name_id x)) (bl_transactions block) (bl_transactions b) →
  check_block r block refs = Ok m → ¬ shared_evidence (er_name_id x) block refs →
  check_block (er_reducer x) b refs = Err InvalidReferencedCommit.
Proof.
  intros [Hx Hc] E1 E2 Hf. unfold check_block.
  rewrite (fo_next _ _ Hx), (fo_hash _ _ Hx), E1, E2, (check_transactions_replayed _ None _ _ Hf).
  destruct (ensure _ WrongHeight); [|done..]. destruct (ensure _ WrongPreviousHash); [|done..].
  destruct (check_transactions None (bl_transactions block)); [|done..]. cbn [res_bind].
  generalize (∅ : gmap CommitRef Commitment) as m0.
  induction refs as [|ev refs IH]; intros m0 Hm Hno; [by destruct Hno; intros ev ?%not_elem_of_nil|].
  cbn [res_fold] in *. apply res_bind_Ok in Hm as (m1 & Ha & Hm).
  destruct (decide (rc_reference ev ∈ reveal_references b)) as [Hin|Hin].
  - pose proof (replayed_reveals _ _ _ _ Hf Hin) as Hr.
    destruct (replayed_references _ block b (rc_reference ev) Hf) as [Hb _].
    assert (admit_evidence (er_reducer x) b m0 ev = Ok m1) as ->.
    { rewrite <- Ha. unfold admit_evidence. rewrite (fo_parameters _ _ Hx), E1, Hc.
      by rewrite !bool_decide_true by auto. }
    cbn [res_bind]. apply IH; [done|]. intros Hsh. apply Hno.
    intros ev' [->|Hin']%elem_of_cons; [done|by apply Hsh].
  - unfold admit_evidence. by rewrite bool_decide_false.
Qed.

Lemma agree_start i p h m l z :
  agree i l z → lg_commits z = lg_commits l →
  agree i (start_ledger p h m l) (start_ledger p h m z).
Proof.
  intros [Hh Ho _] Hc. constructor; simpl.
  - by rewrite !start_heads_name, Hh.
  - intros j Hj. by rewrite start_heads_name, Ho.
  - intros c k. unfold live_commits. by rewrite Hc.
Qed.

(** Evidence is of earlier blocks. *)
Lemma evidence_before r block refs m :
  check_block r block refs = Ok m → ∀ c, is_Some (m !! c) → cr_height c < bl_height block.
Proof.
  unfold check_block. intros (? & _ & (? & _ & (? & _ & Hf)%res_bind_Ok)%res_bind_Ok)%res_bind_Ok.
  revert Hf. apply (res_fold_inv (λ m, ∀ c, is_Some (m !! c) → cr_height c < bl_height block)).
  - intros m0 ev m1 Hm0 H1 c Hs. unfold admit_evidence in H1. inv_res.
    rewrite !andb_true_iff in *. destruct (decide (c = rc_reference ev)) as [->|Hne]; [lia|].
    rewrite lookup_insert_ne in Hs by done. by apply Hm0.
  - intros c [k Hk]. by rewrite lookup_empty in Hk.
Qed.

(** A block the full reducer applies, on both sides. *)
Lemma mirrors_applied r x block b refs out r' out' x' :
  mirrors r x → bl_height b = bl_height block → bl_hash b = bl_hash block →
  block_named block → block_named b →
  res_mapM (filter_transaction (E := ApplyError) (er_name_id x)) (bl_transactions block)
    = Ok (bl_transactions b) →
  Forall2 (replayed (er_name_id x)) (bl_transactions block) (bl_transactions b) →
  check_block (er_reducer x) b refs = check_block r block refs →
  apply_block_detailed block refs r = (Ok out, r') →
  apply_block_detailed b refs (er_reducer x) = (Ok out', er_reducer x') →
  er_name x' = er_name x → er_name_id x' = er_name_id x → mirrors r' x'.
Proof.
  intros [Hx Hc] E1 E2 Hn Hnb Hys Hf Ecc Ha Ha' En Ei. set (i := er_name_id x) in *.
  pose proof (apply_block_step block refs r (fo_full _ _ Hx) Hn) as Hs.
  destruct (check_block r block refs) as [m|e|] eqn:Ec; [|congruence|done].
  destruct Hs as (y & out1 & r1 & Hy & Ha1 & Hrf & Hr1). rewrite Ha in Ha1. injection Ha1 as <- <-.
  pose proof (apply_block_step b refs (er_reducer x) (fo_exact _ _ Hx) Hnb) as Hs. rewrite Ecc in Hs.
  destruct Hs as (y' & out1 & r1 & Hy' & Ha1 & Hrf' & Hr1'). rewrite Ha' in Ha1. injection Ha1 as <- <-.
  pose proof (evidence_before _ _ _ _ Ec) as Hm. pose proof Ec as (Hnext & _ & _)%check_block_Ok.
  destruct (reducer_ok_next r _ (fo_full _ _ Hx) Hnext) as [_ [Hold _]].
  assert (lg_commits (ledger_of (er_reducer x)) = lg_commits (ledger_of r)) as Hcl by done.
  pose proof (agree_start i (parameters r) (bl_height block) m _ _ (fo_agree _ _ Hx) Hcl) as Hag.
  unfold ledger_block in Hy, Hy'. rewrite E1, (fo_parameters _ _ Hx), (fo_verifier _ _ Hx) in Hy'.
  assert (∀ l, lg_commits (start_ledger (parameters r) (bl_height block) m (ledger_of (er_reducer x))) = l →
    lg_commits (start_ledger (parameters r) (bl_height block) m (ledger_of r)) = l) as Hcs.
  { intros l <-. simpl. by rewrite Hc. }
  destruct (ledger_transactions_agree (E := ApplyError) (parameters r) (verifier r) i
    (bl_height block) _ _ _ _ y (first_index None (bl_transactions block))
    (rk_parameters _ (fo_full _ _ Hx)) Hag Hf) as (y'' & Hy'' & Hagy); [| | |exact Hy|].
  - intros tx _ name c ua ai nf proof _ _ _. by rewrite (Hcs _ eq_refl).
  - intros c [k Hk]. left. rewrite <- (Hcs _ eq_refl) in Hk. simpl in Hk.
    apply lookup_union_Some_raw in Hk as [Hk|[_ Hk]].
    + by apply (Hm c (ex_intro _ k Hk)).
    + apply map_lookup_filter_Some in Hk as [Hk _]. destruct (Hold c (ex_intro _ k Hk)). lia.
  - unfold check_block in Ec. destruct (ensure _ WrongHeight); [|done..].
    destruct (ensure _ WrongPreviousHash); [|done..].
    destruct (check_transactions None (bl_transactions block)) eqn:Et; [|done..].
    by eapply check_transactions_ascending.
  - rewrite Hy' in Hy''. apply Ok_inj in Hy'' as <-.
    pose proof (br_tip _ _ _ _ _ _ _ Hrf) as Ht. pose proof (br_tip _ _ _ _ _ _ _ Hrf') as Ht'.
    split.
    + constructor; rewrite ?En, ?Ei; try done.
      * apply Hx.
      * apply Hx.
      * rewrite (br_parameters _ _ _ _ _ _ _ Hrf), (br_parameters _ _ _ _ _ _ _ Hrf'). apply Hx.
      * rewrite (br_verifier _ _ _ _ _ _ _ Hrf), (br_verifier _ _ _ _ _ _ _ Hrf'). apply Hx.
      * by rewrite (br_next _ _ _ _ _ _ _ Hrf), (br_next _ _ _ _ _ _ _ Hrf'), E1.
      * by rewrite Ht, Ht', E1, E2.
      * by rewrite (previous_hash_tip _ _ Ht), (previous_hash_tip _ _ Ht'), E2.
      * by rewrite (br_ledger _ _ _ _ _ _ _ Hrf), (br_ledger _ _ _ _ _ _ _ Hrf').
    + apply ledger_transactions_log in Hy, Hy'.
      rewrite <- (br_ledger _ _ _ _ _ _ _ Hrf) in Hy. rewrite <- (br_ledger _ _ _ _ _ _ _ Hrf') in Hy'.
      rewrite <- (Hcs _ eq_refl), (commit_log_filter (E := ApplyError) _ _ _ _ _ Hys), <- Hy in Hy'.
      exact Hy'.
Qed.

(** A block with its evidence: the two replays apply it, or refuse it with the same
    error. *)
Lemma mirrors_step r x block refs :
  mirrors r x → block_named block → shared_evidence (er_name_id x) block refs →
  (∃ e, apply_block_detailed block refs r = (Err e, r)
     ∧ exact_apply_block_detailed block refs x = (Err e, x))
  ∨ ∃ b out r' out' x',
      filter_block (E := ApplyError) (er_name_id x) block = Ok b
      ∧ apply_block_detailed block refs r = (Ok out, r')
      ∧ exact_apply_block_detailed block refs x = (Ok out', x')
      ∧ apply_block_detailed b refs (er_reducer x) = (Ok out', er_reducer x')
      ∧ bl_height b = bl_height block ∧ bl_hash b = bl_hash block
      ∧ mirrors r' x' ∧ er_name x' = er_name x ∧ er_name_id x' = er_name_id x.
Proof.
  intros Hm Hn Hsh. pose proof Hm as [Hx _].
  destruct (filter_block_spec (E := ApplyError) (er_name_id x) block block Hn (thinned_self _ _))
    as (b & Hb & E1 & E2 & E3 & Hf).
  pose proof (mirrors_check r x block b refs Hm E1 E3 Hf Hsh) as Ecc.
  pose proof (replayed_named _ _ _ Hn Hf) as Hnb.
  assert (exact_apply_block_detailed block refs x =
    delegate (apply_block_detailed b refs) x) as Hex.
  { unfold exact_apply_block_detailed, sbind, mget, mlift. by rewrite Hb. }
  pose proof (apply_block_step block refs r (fo_full _ _ Hx) Hn) as Hs.
  pose proof (apply_block_step b refs (er_reducer x) (fo_exact _ _ Hx) Hnb) as Hs'.
  rewrite Ecc in Hs'. rewrite Hex. unfold delegate.
  destruct (check_block r block refs) as [m|e|] eqn:Ec; [| |done].
  - destruct Hs as (y & out & r' & _ & Ha & _). destruct Hs' as (y' & out' & x' & _ & Ha' & _).
    right. exists b, out, r', out', (MkExactResolver (er_name x) (er_name_id x) x').
    repeat (split; [done || by rewrite Ha'|]). split; [|done].
    pose proof Hb as (ys & Hys & Eb%Ok_inj)%res_bind_Ok.
    eapply (mirrors_applied r x block b refs); try done; [by rewrite <- Eb|by rewrite Ecc].
  - left. exists e. split; [done|]. rewrite Hs'. by destruct x.
Qed.

(** A block with evidence of another name: the full reducer applies it, the exact
    resolver does not. *)
Lemma mirrors_foreign r x block refs out r' :
  mirrors r x → block_named block → ¬ shared_evidence (er_name_id x) block refs →
  apply_block_detailed block refs r = (Ok out, r') →
  exact_apply_block_detailed block refs x = (Err InvalidReferencedCommit, x).
Proof.
  intros Hm Hn Hno Ha. pose proof Hm as [Hx _].
  destruct (filter_block_spec (E := ApplyError) (er_name_id x) block block Hn (thinned_self _ _))
    as (b & Hb & E1 & _ & E3 & Hf).
  pose proof (apply_block_step block refs r (fo_full _ _ Hx) Hn) as Hs.
  destruct (check_block r block refs) as [m|e|] eqn:Ec; [|congruence|done].
  pose proof (mirrors_check_foreign r x block b refs m Hm E1 E3 Hf Ec Hno) as Ecx.
  pose proof (apply_block_step b refs (er_reducer x) (fo_exact _ _ Hx) (replayed_named _ _ _ Hn Hf)) as Hsx.
  rewrite Ecx in Hsx. unfold exact_apply_block_detailed, sbind, mget, mlift, delegate. rewrite Hb, Hsx.
  by destruct x.
Qed.

(** The same name has the same resolution at every height. *)
Lemma exact_resolve_agree r x height :
  follows r x → exact_resolve x height = resolve_authenticated r (er_name x) height.
Proof.
  intros Hx. unfold exact_resolve, resolve_authenticated, resolve.
  assert (tip_height (er_reducer x) = tip_height r) as ->.
  { pose proof (fo_tip _ _ Hx) as Ht. unfold tip in Ht.
    destruct (tip_height (er_reducer x)), (tip_height r); simplify_eq; done. }
  rewrite (fo_parameters _ _ Hx), (fo_id _ _ Hx).
  pose proof (ag_head _ _ _ (fo_agree _ _ Hx)) as Hh. cbn [ledger_of lg_heads] in Hh. by rewrite Hh.
Qed.

Lemma exact_new_mirrors p hash name v r0 x0 :
  Parameters_typed p → Name_ok name → new p hash v = Ok r0 → exact_new p hash name v = Ok x0 →
  mirrors r0 x0 ∧ er_name x0 = name.
Proof.
  intros Hty Hn Hr Hx. pose proof (new_ok _ _ _ _ Hty Hr) as [Hr0 _]. unfold exact_new in Hx.
  apply res_bind_Ok in Hx as (i & Hi & (r1 & Hr1 & <-%Ok_inj)%res_bind_Ok).
  rewrite Hr in Hr1. apply Ok_inj in Hr1 as <-. apply map_err_Ok in Hi.
  split; [|done]. split; [|done]. constructor; simpl; try done.
  unfold new in Hr. inv_res. constructor; simpl; [done| |done]. intros j _. apply lookup_empty.
Qed.
End WholeBlocks.

(** The blocks of a chain, one by one. *)
Fixpoint exact_chain `{Blake2b} `{Pallas} {V : Type} `{!ProofVerifier V}
  (chain : list Block) (x : ExactResolver V) : option (ExactResolver V) :=
  match chain with
  | [] => Some x
  | block :: chain =>
      match exact_apply_block_detailed block [] x with
      | (Ok _, x') => exact_chain chain x'
      | _ => None
      end
  end.

(** Exact replay resolves like full replay.  Over every chain of blocks the
    full reducer applies, the exact resolver of a name, which drops the
    operations of every other name unverified, applies the same blocks and
    answers every resolution of its name as the full reducer does. *)
Theorem exact_replay_resolves `{Blake2b} `{Pallas} {V : Type} `{!ProofVerifier V}
  (p : Parameters) (hash : list byte) (name : Name) (v : V) (chain : list Block)
  (r0 r : Reducer V) (x0 : ExactResolver V) :
  Parameters_typed p → Name_ok name → (∀ block, block ∈ chain → block_named block) →
  new p hash v = Ok r0 → exact_new p hash name v = Ok x0 →
  apply_chain (map (λ b, (b, [])) chain) r0 = Some r →
  ∃ x, exact_chain chain x0 = Some x
    ∧ exact_tip x = tip r
    ∧ ∀ height, exact_resolve x height = resolve_authenticated r name height.
Proof.
  intros Hty Hn Hb Hr0 Hx0 Hc.
  destruct (exact_new_mirrors _ _ _ _ _ _ Hty Hn Hr0 Hx0) as [Hm Hname]. clear Hr0 Hx0.
  revert r0 x0 Hm Hname Hc. induction chain as [|block chain IH]; intros r0 x0 Hm Hname Hc; simpl in Hc.
  { injection Hc as ->. exists x0. split; [done|]. split; [apply Hm|]. intros height.
    rewrite <- Hname. apply exact_resolve_agree, Hm. }
  destruct (mirrors_step r0 x0 block [] Hm (Hb _ (list_elem_of_here _ _)))
    as [(e & Ha & _)|(b & out & r1 & out' & x1 & _ & Ha & Hx1 & _ & _ & _ & Hm1 & Hn1 & _)];
    [by intros ev ?%not_elem_of_nil|by rewrite Ha in Hc|].
  rewrite Ha in Hc. cbn [exact_chain]. rewrite Hx1.
  apply (IH ltac:(intros; apply Hb; by right) r1 x1 Hm1); [congruence|done].
Qed.

(** C9: evidence replaces scanning.  A host may drop COMMITs and the operations
    of other names from a block, provided it supplies, from the full history,
    the unexpired COMMITs that REVEALs of the name reference.  The exact resolver
    then applies what is left and still agrees with the full reducer, which saw
    the whole block: no evidence is refused and no resolution differs. *)
Theorem evidence_suffices `{Blake2b} `{Pallas} {V : Type} `{!ProofVerifier V}
  (r r' : Reducer V) (x : ExactResolver V) (block given : Block)
  (refs : list ReferencedCommit) (out : BlockOutcome) :
  follows r x → block_named block → apply_block_detailed block [] r = (Ok out, r') →
  thinned_block (er_name_id x) block given → admissible (er_name_id x) r block refs →
  complete (er_name_id x) r x block refs →
  ∃ out' x', exact_apply_block_detailed given refs x = (Ok out', x')
    ∧ follows r' x'
    ∧ ∀ height, exact_resolve x' height = resolve_authenticated r' (er_name x) height.
Proof.
  intros Hx Hn Ha Hth Had Hco.
  destruct (exact_block_step r x block given refs out r' Hx Hn Ha Hth Had Hco)
    as (b & out' & x' & _ & He & _ & Hx' & En & _).
  exists out', x'. split; [done|]. split; [done|]. intros height. rewrite <- En.
  by apply exact_resolve_agree.
Qed.
