(* ===== verification/Lockstep.v ===== *)
(** * The two replays in lockstep

    The full reducer and the exact resolver of a name under the same sequence of
    calls: blocks with evidence, rollbacks and finalizations, accepted or refused.
    Both give the same answer to every call, and resolve the name alike. *)

From S2P Require Import Prelude Bytes BTree External Protocol Schedule Codec Statement.
From S2P Require Import Records State Reducer Journal Ledger Invariant Safety Resolver.

Section Lockstep.
Context `{Blake2b} `{Pallas} {V : Type} `{!ProofVerifier V}.
Implicit Types (r : Reducer V) (x : ExactResolver V).

(** The blocks a journal can undo. *)
Definition headers (h : list Undo) : list (Z * list byte) := map (λ u, (un_height u, un_hash u)) h.

Definition with_reducer x r : ExactResolver V := MkExactResolver (er_name x) (er_name_id x) r.

(** The states agree, and so do the states that rollbacks lead back to. *)
Inductive lockstep : Reducer V → ExactResolver V → Prop :=
  | lockstep_intro r x :
      mirrors r x → headers (history r) = headers (history (er_reducer x)) →
      (∀ hash d r' d' s, rollback_tip_detailed hash r = (Ok d, r') →
         rollback_tip_detailed hash (er_reducer x) = (Ok d', s) → lockstep r' (with_reducer x s)) →
      lockstep r x.

Lemma lockstep_mirrors r x : lockstep r x → mirrors r x.
Proof. by destruct 1. Qed.

Lemma lockstep_headers r x :
  lockstep r x → headers (history r) = headers (history (er_reducer x)).
Proof. by destruct 1. Qed.

Lemma lockstep_new p hash name v r0 x0 :
  Parameters_typed p → Name_ok name → new p hash v = Ok r0 → exact_new p hash name v = Ok x0 →
  lockstep r0 x0 ∧ er_name x0 = name.
Proof.
  intros Hty Hn Hr Hx. destruct (exact_new_mirrors _ _ _ _ _ _ Hty Hn Hr Hx) as [Hm En].
  split; [|done]. destruct (new_ok _ _ _ _ Hty Hr) as [_ Eh].
  pose proof Hx as (i & _ & (r1 & Hr1 & Ex%Ok_inj)%res_bind_Ok)%res_bind_Ok.
  rewrite Hr in Hr1. apply Ok_inj in Hr1 as <-.
  constructor; [done|by rewrite <- Ex|].
  intros h d r' d' s Hb. unfold rollback_tip_detailed in Hb. by rewrite Eh in Hb.
Qed.

(** ** Blocks *)

Lemma applied_headers block refs r out r' :
  indexed r → apply_block_detailed block refs r = (Ok out, r') →
  headers (history r') = headers (history r) ++ [(bl_height block, bl_hash block)].
Proof.
  intros Hi (r1 & u & Htr & -> & _)%apply_block_inv; [|done]. simpl.
  unfold headers. rewrite map_app. simpl. pose proof (tr_undo _ _ _ _ Htr) as Hu. simpl in Hu.
  by rewrite Hu.
Qed.

Lemma lockstep_apply block refs r x :
  lockstep r x → block_named block → shared_evidence (er_name_id x) block refs →
  (∃ e, apply_block_detailed block refs r = (Err e, r)
     ∧ exact_apply_block_detailed block refs x = (Err e, x))
  ∨ ∃ out r' out' s, apply_block_detailed block refs r = (Ok out, r')
     ∧ exact_apply_block_detailed block refs x = (Ok out', with_reducer x s)
     ∧ lockstep r' (with_reducer x s).
Proof.
  intros Hl Hn Hsh. pose proof (lockstep_mirrors r x Hl) as Hm.
  destruct (mirrors_step r x block refs Hm Hn Hsh)
    as [Herr|(b & out & r' & out' & x' & _ & Ha & Hx & Hax & Ehh & Eh & Hm' & En & Ei)]; [by left|right].
  assert (x' = with_reducer x (er_reducer x')) as Ex.
  { destruct x'. simpl in *. unfold with_reducer. congruence. }
  exists out, r', out', (er_reducer x'). rewrite <- Ex. split; [done|]. split; [done|].
  destruct Hm as [Hf _].
  pose proof (rk_indexed _ (fo_full _ _ Hf)) as Hi. pose proof (rk_indexed _ (fo_exact _ _ Hf)) as Hix.
  constructor; [done| |].
  - rewrite (applied_headers _ _ _ _ _ Hi Ha), (applied_headers _ _ _ _ _ Hix Hax), Ehh, Eh.
    by rewrite (lockstep_headers r x Hl).
  - intros hash d r0 d' s Hb Hbx.
    pose proof (rollback_hash _ _ _ _ Hb) as ->.
    rewrite (applied_hash _ _ _ _ _ Ha) in Hb, Hbx.
    rewrite (rollback_apply _ _ _ _ _ Hi Ha) in Hb. injection Hb as _ <-.
    rewrite <- Eh, (rollback_apply _ _ _ _ _ Hix Hax) in Hbx. injection Hbx as _ <-.
    destruct x, x'. simpl in *. subst. done.
Qed.

(** ** Rollbacks and finalizations *)

Lemma last_headers h : last (headers h) = (λ u, (un_height u, un_hash u)) <$> last h.
Proof. apply fmap_last. Qed.

(** Whether a rollback is refused depends on the headers alone. *)
Lemma rollback_answer hash r :
  match last (headers (history r)) with
  | None => rollback_tip_detailed hash r =
      (Err (match tip_height r with Some _ => BeyondRetention | None => NoAppliedBlock end), r)
  | Some (_, h) =>
      if bool_decide (h ≠ hash) || bool_decide (previous_hash r ≠ hash)
      then rollback_tip_detailed hash r = (Err WrongTipHash, r)
      else ∃ d r', rollback_tip_detailed hash r = (Ok d, r')
  end.
Proof.
  rewrite last_headers. unfold rollback_tip_detailed. destruct (last (history r)) as [u|]; [|done].
  simpl. destruct (_ || _); [done|]. by eexists _, _.
Qed.

Lemma mirrors_tip r x : mirrors r x → tip_height (er_reducer x) = tip_height r.
Proof.
  intros [Hf _]. pose proof (fo_tip _ _ Hf) as Ht. unfold tip in Ht.
  destruct (tip_height (er_reducer x)), (tip_height r); simplify_eq; done.
Qed.

Lemma lockstep_rollback hash r x :
  lockstep r x →
  (∃ e, rollback_tip_detailed hash r = (Err e, r)
     ∧ rollback_tip_detailed hash (er_reducer x) = (Err e, er_reducer x))
  ∨ ∃ d r' d' s, rollback_tip_detailed hash r = (Ok d, r')
     ∧ rollback_tip_detailed hash (er_reducer x) = (Ok d', s)
     ∧ lockstep r' (with_reducer x s).
Proof.
  intros Hl. pose proof (rollback_answer hash r) as Hr.
  pose proof (rollback_answer hash (er_reducer x)) as Hx.
  destruct (lockstep_mirrors r x Hl) as [Hf Hc].
  rewrite <- (lockstep_headers r x Hl), (fo_hash _ _ Hf), (mirrors_tip r x (conj Hf Hc)) in Hx.
  destruct (last (headers (history r))) as [[n h]|]; [|left; eauto].
  destruct (_ || _); [left; eauto|]. destruct Hr as (d & r' & Hr), Hx as (d' & s & Hx).
  right. exists d, r', d', s. split; [done|]. split; [done|].
  destruct Hl as [r x _ _ Hback]. by eapply Hback.
Qed.

Lemma mirrors_drop k r x :
  mirrors r x →
  mirrors (set_history r (drop k (history r)))
    (with_reducer x (set_history (er_reducer x) (drop k (history (er_reducer x))))).
Proof.
  intros [[] Hc]. split; [|done].
  constructor; try done; by apply (maintained_drop (host := named_host)).
Qed.

Lemma lockstep_drop k r x :
  lockstep r x →
  lockstep (set_history r (drop k (history r)))
    (with_reducer x (set_history (er_reducer x) (drop k (history (er_reducer x))))).
Proof.
  revert r x. fix IH 3. intros r x [r0 x0 Hm Hh Hback]. constructor.
  - by apply mirrors_drop.
  - simpl. unfold headers in *. by rewrite <- !skipn_map, Hh.
  - intros hash d r' d' s (d1 & r1 & Hb & ->)%rollback_drop (d2 & s1 & Hbx & ->)%rollback_drop.
    apply (IH r1 (with_reducer x0 s1)). by eapply Hback.
Qed.

Lemma drop_finalized_headers height h g :
  headers h = headers g →
  ∃ k, drop_finalized height h = drop k h ∧ drop_finalized height g = drop k g.
Proof.
  revert g. induction h as [|u h IH]; intros [|v g] Hh; try done; [by exists 0%nat|].
  injection Hh as E1 _ Hh. cbn [drop_finalized]. rewrite E1.
  destruct (_ <=? _); [|by exists 0%nat].
  destruct (IH g Hh) as (k & -> & ->). by exists (S k).
Qed.

Lemma lockstep_finalize height r x :
  lockstep r x →
  (∃ e, finalize_through height r = (Err e, r)
     ∧ finalize_through height (er_reducer x) = (Err e, er_reducer x))
  ∨ ∃ r' s, finalize_through height r = (Ok tt, r')
     ∧ finalize_through height (er_reducer x) = (Ok tt, s)
     ∧ lockstep r' (with_reducer x s).
Proof.
  intros Hl. unfold finalize_through. rewrite (mirrors_tip r x (lockstep_mirrors r x Hl)).
  destruct (tip_height r) as [t|]; [|left; eauto]. destruct (t <? height); [left; eauto|].
  right. eexists _, _. split; [done|]. split; [done|].
  destruct (drop_finalized_headers height _ _ (lockstep_headers r x Hl)) as (k & -> & ->).
  by apply lockstep_drop.
Qed.
End Lockstep.

(** ** Sequences of calls *)

Inductive Call :=
  | CallApply (block : Block) (referenced_commits : list ReferencedCommit)
  | CallRollback (expected_hash : list byte)
  | CallFinalize (height : Z).

(** What the caller learns: an error, or that there was none. *)
Inductive Answer :=
  | Applied (error : option ApplyError)
  | RolledBack (error : option RollbackError)
  | Finalized (error : option FinalizationError)
  | Panicked.

Definition answer {E A : Type} (f : option E → Answer) (m : res E A) : Answer :=
  match m with
  | Ok _ => f None
  | Err e => f (Some e)
  | Panic => Panicked
  end.

Section Calls.
Context `{Blake2b} `{Pallas} {V : Type} `{!ProofVerifier V}.
Implicit Types (r : Reducer V) (x : ExactResolver V).

Definition answered {E A S : Type} (f : option E → Answer) (p : res E A * S) : Answer * S :=
  (answer f p.1, p.2).

Definition full_call (c : Call) r : Answer * Reducer V :=
  match c with
  | CallApply block refs => answered Applied (apply_block_detailed block refs r)
  | CallRollback hash => answered RolledBack (rollback_tip hash r)
  | CallFinalize height => answered Finalized (finalize_through height r)
  end.

Definition exact_call (c : Call) x : Answer * ExactResolver V :=
  match c with
  | CallApply block refs => answered Applied (exact_apply_block_detailed block refs x)
  | CallRollback hash => answered RolledBack (exact_rollback_tip hash x)
  | CallFinalize height => answered Finalized (exact_finalize_through height x)
  end.

Fixpoint calls {S : Type} (call : Call → S → Answer * S) (l : list Call) (s : S) : list Answer * S :=
  match l with
  | [] => ([], s)
  | c :: l =>
      let (a, s) := call c s in
      let (answers, s) := calls call l s in (a :: answers, s)
  end.

(** The blocks are well formed, and their evidence is about the name. *)
Definition call_ok (i : NameId) (c : Call) : Prop :=
  match c with
  | CallApply block refs => block_named block ∧ shared_evidence i block refs
  | _ => True
  end.

Lemma delegate_eq {E A : Type} (m : M (Reducer V) E A) x :
  delegate m x = ((m (er_reducer x)).1, with_reducer x (m (er_reducer x)).2).
Proof. unfold delegate. by destruct (m (er_reducer x)). Qed.

Lemma with_own_reducer x : with_reducer x (er_reducer x) = x.
Proof. by destruct x. Qed.

Lemma rollback_tip_eq hash r :
  rollback_tip hash r =
    (match (rollback_tip_detailed hash r).1 with Ok _ => Ok tt | Err e => Err e | Panic => Panic end,
     (rollback_tip_detailed hash r).2).
Proof. unfold rollback_tip, sbind. by destruct (rollback_tip_detailed hash r) as [[]]. Qed.

Lemma lockstep_call c r x :
  lockstep r x → call_ok (er_name_id x) c →
  ∃ a r' s, full_call c r = (a, r') ∧ exact_call c x = (a, with_reducer x s)
    ∧ lockstep r' (with_reducer x s) ∧ a ≠ Panicked.
Proof.
  intros Hl Hc. destruct c as [block refs|hash|height]; cbn [full_call exact_call]; unfold answered.
  - destruct Hc as [Hn Hsh].
    destruct (lockstep_apply block refs r x Hl Hn Hsh)
      as [(e & -> & ->)|(out & r' & out' & s & -> & -> & Hl')]; eexists _, _, _; [|by split_and!].
    split_and!; [done|by rewrite with_own_reducer|by rewrite with_own_reducer|done].
  - unfold exact_rollback_tip. rewrite delegate_eq, !rollback_tip_eq. cbn [fst snd].
    destruct (lockstep_rollback hash r x Hl)
      as [(e & -> & ->)|(d & r' & d' & s & -> & -> & Hl')]; eexists _, _, _; [|by split_and!].
    split_and!; [done|done|by rewrite with_own_reducer|done].
  - unfold exact_finalize_through. rewrite delegate_eq. cbn [fst snd].
    destruct (lockstep_finalize height r x Hl)
      as [(e & -> & ->)|(r' & s & -> & -> & Hl')]; eexists _, _, _; [|by split_and!].
    split_and!; [done|done|by rewrite with_own_reducer|done].
Qed.

Lemma lockstep_calls l r x :
  lockstep r x → Forall (call_ok (er_name_id x)) l →
  ∃ answers r' s, calls full_call l r = (answers, r')
    ∧ calls exact_call l x = (answers, with_reducer x s)
    ∧ lockstep r' (with_reducer x s) ∧ Panicked ∉ answers.
Proof.
  intros Hl Hc. revert r x Hl Hc. induction l as [|c l IH]; intros r x Hl Hc; cbn [calls].
  - exists [], r, (er_reducer x). rewrite with_own_reducer. split_and!; try done. by apply not_elem_of_nil.
  - apply Forall_cons in Hc as [Hc Hcs].
    destruct (lockstep_call c r x Hl Hc) as (a & r1 & s1 & -> & -> & Hl1 & Ha).
    destruct (IH r1 (with_reducer x s1) Hl1 Hcs) as (answers & r' & s & -> & -> & Hl' & Has).
    exists (a :: answers), r', s. split_and!; try done. by apply not_elem_of_cons.
Qed.
End Calls.

(** C7: the exact resolver and the full reducer in lockstep.  Under every sequence
    of blocks with evidence about the name, rollbacks and finalizations, accepted or
    refused, the exact resolver of a name gives the answers of the full reducer, without a
    panic, and ends at its tip, with its commitments and the resolutions of the
    name, although it never verified an operation of another name.  The evidence is
    about the name: a reference that some REVEAL of its block makes, a REVEAL of the
    name makes. *)
Theorem replays_in_lockstep `{Blake2b} `{Pallas} {V : Type} `{!ProofVerifier V}
  (p : Parameters) (hash : list byte) (name : Name) (v : V) (r0 r : Reducer V)
  (x0 : ExactResolver V) (l : list Call) (answers : list Answer) :
  Parameters_typed p → Name_ok name → new p hash v = Ok r0 → exact_new p hash name v = Ok x0 →
  Forall (call_ok (er_name_id x0)) l → calls full_call l r0 = (answers, r) →
  ∃ x, calls exact_call l x0 = (answers, x)
    ∧ Panicked ∉ answers
    ∧ exact_tip x = tip r
    ∧ (∀ reference, exact_pending_commit x reference = pending_commit r reference)
    ∧ ∀ height, exact_resolve x height = resolve_authenticated r name height.
Proof.
  intros Hty Hn Hr0 Hx0 Hl Hc.
  destruct (lockstep_new p hash name v r0 x0 Hty Hn Hr0 Hx0) as [Hlk En].
  destruct (lockstep_calls l r0 x0 Hlk Hl) as (answers' & r' & s & Hr & Hx & Hlk' & Hp).
  rewrite Hc in Hr. injection Hr as <- <-.
  exists (with_reducer x0 s). destruct (lockstep_mirrors _ _ Hlk') as [Hf Hcm].
  split_and!; [done|done|apply Hf| |].
  - intros reference. unfold exact_pending_commit, pending_commit. by rewrite Hcm.
  - intros height. rewrite <- En. by apply (exact_resolve_agree r (with_reducer x0 s)).
Qed.

(** C17: the condition on the evidence is exact.  After any blocks with evidence about
    the name, rollbacks and finalizations, a block with evidence that the full reducer
    applies is applied by the exact resolver if the evidence is about the name, with
    the same resolution; if some of it is for a COMMIT that no REVEAL of the name
    references, the exact resolver refuses the block and does not change its state. *)
Theorem evidence_decides `{Blake2b} `{Pallas} {V : Type} `{!ProofVerifier V}
  (p : Parameters) (hash : list byte) (name : Name) (v : V) (r0 r r' : Reducer V)
  (x0 : ExactResolver V) (l : list Call) (answers : list Answer)
  (block : Block) (refs : list ReferencedCommit) (out : BlockOutcome) :
  Parameters_typed p → Name_ok name → new p hash v = Ok r0 → exact_new p hash name v = Ok x0 →
  Forall (call_ok (er_name_id x0)) l → calls full_call l r0 = (answers, r) →
  block_named block → apply_block_detailed block refs r = (Ok out, r') →
  ∃ x, calls exact_call l x0 = (answers, x)
    ∧ (shared_evidence (er_name_id x0) block refs →
         ∃ out' x', exact_apply_block_detailed block refs x = (Ok out', x')
           ∧ exact_resolve x' (bl_height block) = resolve_authenticated r' name (bl_height block))
    ∧ (¬ shared_evidence (er_name_id x0) block refs →
         exact_apply_block_detailed block refs x = (Err InvalidReferencedCommit, x)).
Proof.
  intros Hty Hn Hr0 Hx0 Hl Hc Hb Ha.
  destruct (lockstep_new p hash name v r0 x0 Hty Hn Hr0 Hx0) as [Hlk En].
  destruct (lockstep_calls l r0 x0 Hlk Hl) as (answers' & r1 & s & Hr & Hx & Hlk' & _).
  rewrite Hc in Hr. injection Hr as <- <-.
  exists (with_reducer x0 s). split; [done|]. split; intros Hsh.
  - destruct (lockstep_apply block refs r (with_reducer x0 s) Hlk' Hb Hsh)
      as [(e & Ha' & _)|(out1 & r1 & out' & s' & Ha' & Hxa & Hlk2)]; [congruence|].
    rewrite Ha in Ha'. injection Ha' as <- <-. eexists _, _. split; [exact Hxa|]. rewrite <- En.
    by apply (exact_resolve_agree r' _ _ (proj1 (lockstep_mirrors _ _ Hlk2))).
  - by apply (mirrors_foreign r (with_reducer x0 s) block refs out r' (lockstep_mirrors _ _ Hlk')).
Qed.
