(* ===== verification/Snapshot.v ===== *)
(** * Snapshots ([crates/coppice-names/src/reducer.rs], [resolver.rs])

    The stored form of a reducer and of an exact resolver, the validation that
    restores one, and the proof that a saved state is restored exactly.  The JSON
    encoding is [serde_json]'s, a parameter. *)

From S2P Require Import Prelude Bytes BTree External Protocol Schedule Codec Statement.
From S2P Require Import Records State Reducer Journal Ledger Invariant Keys Safety.
From S2P Require Import Ruleset Resolver.

Definition REDUCER_SNAPSHOT_FORMAT_VERSION : Z := 3.
Definition EXACT_RESOLVER_SNAPSHOT_FORMAT_VERSION : Z := 3.

(** ** Stored data *)

Inductive SnapshotError :=
  | Encoding | UnsupportedFormat | ParametersMismatch | NameMismatch | InvalidState
  | InvalidHistory.

Record StoredParameters := MkStoredParameters {
  sp_deployment_id : list byte;
  sp_activation_height : Z;
  sp_epoch_blocks : Z;
  sp_window_blocks : Z;
  sp_commit_maturity_blocks : Z;
  sp_commit_ttl_blocks : Z;
  sp_lease_blocks : Z;
  sp_cooldown_blocks : Z;
}.

Record StoredHead := MkStoredHead {
  sh_name : list byte;
  sh_ua : list byte;
  sh_producer : StateRef;
  sh_commitment : list byte;
  sh_future_nf : list byte;
  sh_producer_epoch : Z;
  sh_expiry_height : Z;
  sh_terminal_height : option Z;
}.

Record StoredUndo := MkStoredUndo {
  su_height : Z;
  su_hash : list byte;
  su_previous_hash : list byte;
  su_previous_next_height : option Z;
  su_previous_tip_height : option Z;
  su_commits : list (CommitRef * option (list byte));
  su_heads : list (list byte * option StoredHead);
}.

Record StoredReducer := MkStoredReducer {
  sr_format_version : Z;
  sr_deployment_id : list byte;
  sr_ruleset_fingerprint : list byte;
  sr_rollback_range : option RollbackRange;
  sr_parameters : StoredParameters;
  sr_next_height : option Z;
  sr_tip_height : option Z;
  sr_previous_hash : list byte;
  sr_commits : list (CommitRef * list byte);
  sr_heads : list (list byte * StoredHead);
  sr_history : list StoredUndo;
}.

Record StoredExactResolver := MkStoredExactResolver {
  sx_format_version : Z;
  sx_deployment_id : list byte;
  sx_ruleset_fingerprint : list byte;
  sx_rollback_range : option RollbackRange;
  sx_name : list byte;
  sx_reducer : list byte;
}.

Record ProtocolIdentity := MkProtocolIdentity {
  pi_deployment_id : list byte;
  pi_ruleset_fingerprint : list byte;
}.

#[global] Instance SnapshotError_eq_dec : EqDecision SnapshotError.
Proof. solve_decision. Defined.
#[global] Instance StoredParameters_eq_dec : EqDecision StoredParameters.
Proof. solve_decision. Defined.
#[global] Instance RollbackRange_eq_dec : EqDecision RollbackRange.
Proof. solve_decision. Defined.

(** [impl From<Parameters> for StoredParameters], [impl From<&Head> for
    StoredHead], [impl From<&Undo> for StoredUndo] *)
Definition StoredParameters_from (value : Parameters) : StoredParameters := {|
  sp_deployment_id := deployment_id value;
  sp_activation_height := activation_height value;
  sp_epoch_blocks := epoch_blocks value;
  sp_window_blocks := window_blocks value;
  sp_commit_maturity_blocks := commit_maturity_blocks value;
  sp_commit_ttl_blocks := commit_ttl_blocks value;
  sp_lease_blocks := lease_blocks value;
  sp_cooldown_blocks := cooldown_blocks value |}.

Definition StoredHead_from (value : Head) : StoredHead := {|
  sh_name := name_bytes (hd_name value);
  sh_ua := ua_bytes (hd_ua value);
  sh_producer := hd_producer value;
  sh_commitment := field_bytes (hd_commitment value);
  sh_future_nf := field_bytes (hd_future_nf value);
  sh_producer_epoch := hd_producer_epoch value;
  sh_expiry_height := hd_expiry_height value;
  sh_terminal_height := hd_terminal_height value |}.

Definition StoredUndo_from (value : Undo) : StoredUndo := {|
  su_height := un_height value;
  su_hash := un_hash value;
  su_previous_hash := un_previous_hash value;
  su_previous_next_height := un_previous_next_height value;
  su_previous_tip_height := un_previous_tip_height value;
  su_commits := map (λ '(reference, commitment), (reference, commitment_bytes <$> commitment))
                  (btree_iter (un_commits value));
  su_heads := map (λ '(name_id, head), (name_id_bytes name_id, StoredHead_from <$> head))
                (btree_iter (un_heads value)) |}.

(** ** Validation *)

Section Restore.
Context `{Blake2b} `{Pallas} `{UnifiedAddress}.

Definition validate_tip (p : Parameters) (next tip : option Z) : res SnapshotError unit :=
  match tip with
  | None =>
      if bool_decide (next = Some (activation_height p)) then Ok tt else Err InvalidState
  | Some tip =>
      if (activation_height p <=? tip) && bool_decide (next = u32_checked_add tip 1) then Ok tt
      else Err InvalidState
  end.

Definition validate_commit (p : Parameters) (tip : option Z) (reference : CommitRef)
  : res SnapshotError unit :=
  let? tip := ok_or tip InvalidState in
  let? _ := ensure (negb ((cr_height reference <? activation_height p)
                          || (tip <? cr_height reference))) InvalidState in
  let? age := expect (u32_checked_sub tip (cr_height reference)) in
  ensure (age <? commit_ttl_blocks p) InvalidState.

Definition restore_head (p : Parameters) (network : Network) (tip : option Z) (stored : StoredHead)
  : res SnapshotError Head :=
  let? tip := ok_or tip InvalidState in
  let? name := map_err (λ _, InvalidState) (Name_parse (sh_name stored)) in
  let? ua := map_err (λ _, InvalidState) (CanonicalUa_parse network (sh_ua stored)) in
  let? commitment := map_err (λ _, InvalidState) (FieldElement_from_bytes (sh_commitment stored)) in
  let? future_nf := map_err (λ _, InvalidState) (FieldElement_from_bytes (sh_future_nf stored)) in
  let? expected_epoch := map_err (λ _, InvalidState) (epoch p (sr_height (sh_producer stored))) in
  let? expected_expiry := map_err (λ _, InvalidState) (expiry p (sr_height (sh_producer stored))) in
  let? _ := ensure (negb ((tip <? sr_height (sh_producer stored))
                          || negb (sh_producer_epoch stored =? expected_epoch)
                          || negb (sh_expiry_height stored =? expected_expiry)
                          || match sh_terminal_height stored with
                             | Some height =>
                                 (height <? sr_height (sh_producer stored)) || (tip <? height)
                             | None => false
                             end)) InvalidState in
  let head := {| hd_name := name; hd_ua := ua; hd_producer := sh_producer stored;
                 hd_commitment := commitment; hd_future_nf := future_nf;
                 hd_producer_epoch := sh_producer_epoch stored;
                 hd_expiry_height := sh_expiry_height stored;
                 hd_terminal_height := sh_terminal_height stored |} in
  let? _ := ensure (negb (bool_decide (hd_terminal_height head = None)
                          && (hd_expiry_height head <=? tip)
                          || is_claimable head tip p)) InvalidState in
  Ok head.

(** [values.insert(key, value).is_some()] is an error. *)
Definition insert_new {K A : Type} `{Countable K} (e : SnapshotError) (m : gmap K A) (key : K)
  (value : A) : res SnapshotError (gmap K A) :=
  let? _ := ensure (bool_decide (m !! key = None)) e in
  Ok (<[key := value]> m).

(** The loop bodies of [restore_undo]. *)
Definition restore_undo_commit (p : Parameters) (stored : StoredUndo)
  (m : gmap CommitRef (option Commitment)) (entry : CommitRef * option (list byte))
  : res SnapshotError (gmap CommitRef (option Commitment)) :=
  let '(reference, previous) := entry in
  let? previous := map_err (λ _, InvalidHistory) (transpose Commitment_from_bytes previous) in
  let? _ := ensure (cr_height reference <=? su_height stored) InvalidHistory in
  let? _ := match previous with
            | Some _ => map_err (λ _, InvalidHistory)
                          (validate_commit p (su_previous_tip_height stored) reference)
            | None => Ok tt
            end in
  insert_new InvalidHistory m reference previous.

Definition restore_undo_head (p : Parameters) (network : Network) (stored : StoredUndo)
  (m : gmap NameId (option Head)) (entry : list byte * option StoredHead)
  : res SnapshotError (gmap NameId (option Head)) :=
  let '(name_id, previous) := entry in
  let? name_id := map_err (λ _, InvalidHistory) (NameId_from_bytes name_id) in
  let? previous := map_err (λ _, InvalidHistory)
    (transpose (restore_head p network (su_previous_tip_height stored)) previous) in
  let? matches := match previous with
                  | Some head => name_matches name_id (hd_name head)
                  | None => Ok true
                  end in
  let? _ := ensure matches InvalidHistory in
  insert_new InvalidHistory m name_id previous.

Definition restore_undo (p : Parameters) (network : Network) (tip : option Z) (stored : StoredUndo)
  : res SnapshotError Undo :=
  let expected_previous_tip :=
    if su_height stored =? activation_height p then None else u32_checked_sub (su_height stored) 1 in
  let? _ := ensure (match tip with Some tip => su_height stored <=? tip | None => false end)
              InvalidHistory in
  let? _ := ensure (bool_decide (su_previous_next_height stored = Some (su_height stored)))
              InvalidHistory in
  let? _ := ensure (bool_decide (su_previous_tip_height stored = expected_previous_tip))
              InvalidHistory in
  let? commits := res_fold (restore_undo_commit p stored) ∅ (su_commits stored) in
  let? heads := res_fold (restore_undo_head p network stored) ∅ (su_heads stored) in
  Ok (MkUndo (su_height stored) (su_hash stored) (su_previous_hash stored)
        (su_previous_next_height stored) (su_previous_tip_height stored) commits heads).

(** The loop over [windows(2)] of [validate_history]. *)
Fixpoint linked (history : list Undo) : bool :=
  match history with
  | a :: (b :: _) as rest =>
      bool_decide (u32_checked_add (un_height a) 1 = Some (un_height b))
      && bool_decide (un_previous_hash b = un_hash a) && linked rest
  | _ => true
  end.

Definition validate_history (tip : option Z) (hash : list byte) (history : list Undo)
  : res SnapshotError unit :=
  match last history with
  | None => Ok tt
  | Some undo =>
      let? _ := ensure (bool_decide (Some (un_height undo) = tip)
                        && bool_decide (un_hash undo = hash)) InvalidHistory in
      ensure (linked history) InvalidHistory
  end.

(** The loop bodies of [Reducer::load_snapshot]. *)
Definition restore_commit (p : Parameters) (tip : option Z) (m : gmap CommitRef Commitment)
  (entry : CommitRef * list byte) : res SnapshotError (gmap CommitRef Commitment) :=
  let '(reference, bytes) := entry in
  let? commitment := map_err (λ _, InvalidState) (Commitment_from_bytes bytes) in
  let? _ := validate_commit p tip reference in
  insert_new InvalidState m reference commitment.

Definition restore_current_head (p : Parameters) (network : Network) (tip : option Z)
  (m : gmap NameId Head) (entry : list byte * StoredHead) : res SnapshotError (gmap NameId Head) :=
  let '(name_id, stored_head) := entry in
  let? name_id := map_err (λ _, InvalidState) (NameId_from_bytes name_id) in
  let? head := restore_head p network tip stored_head in
  let? matches := name_matches name_id (hd_name head) in
  let? _ := ensure matches InvalidState in
  insert_new InvalidState m name_id head.
End Restore.

(** ** Saving and loading *)

Section Snapshots.
Context `{Blake2b} `{Pallas} `{UnifiedAddress} `{!CanonicalJson Manifest}
  `{!SerdeJson StoredReducer} `{!SerdeJson StoredExactResolver}
  {V : Type} `{!ProofVerifier V}.

(** [Reducer::protocol_identity] *)
Definition protocol_identity {E : Type} (self : Reducer V) : res E ProtocolIdentity :=
  let? fingerprint := ruleset_fingerprint in
  Ok (MkProtocolIdentity (deployment_id (parameters self)) fingerprint).

(** The stored form of a reducer. *)
Definition StoredReducer_from (fingerprint : list byte) (self : Reducer V) : StoredReducer := {|
  sr_format_version := REDUCER_SNAPSHOT_FORMAT_VERSION;
  sr_deployment_id := deployment_id (parameters self);
  sr_ruleset_fingerprint := fingerprint;
  sr_rollback_range := rollback_range (history self);
  sr_parameters := StoredParameters_from (parameters self);
  sr_next_height := next_height self;
  sr_tip_height := tip_height self;
  sr_previous_hash := previous_hash self;
  sr_commits := map (λ '(reference, commitment), (reference, commitment_bytes commitment))
                  (btree_iter (commits self));
  sr_heads := map (λ '(name_id, head), (name_id_bytes name_id, StoredHead_from head))
                (btree_iter (heads self));
  sr_history := map StoredUndo_from (history self) |}.

(** [Reducer::save_snapshot] *)
Definition save_snapshot (self : Reducer V) : res SnapshotError (list byte) :=
  let? fingerprint := ruleset_fingerprint in
  ok_or (to_vec (StoredReducer_from fingerprint self)) Encoding.

(** The part of [Reducer::load_snapshot] after the decoding. *)
Definition restore_reducer (p : Parameters) (network : Network) (v : V) (stored : StoredReducer)
  : res SnapshotError (Reducer V) :=
  let? _ := ensure (sr_format_version stored =? REDUCER_SNAPSHOT_FORMAT_VERSION) UnsupportedFormat in
  let? fingerprint := ruleset_fingerprint in
  let? _ := ensure (bool_decide (sr_deployment_id stored = deployment_id p)
                    && bool_decide (sr_ruleset_fingerprint stored = fingerprint)
                    && bool_decide (sr_parameters stored = StoredParameters_from p))
              ParametersMismatch in
  let? _ := validate_tip p (sr_next_height stored) (sr_tip_height stored) in
  let? commits := res_fold (restore_commit p (sr_tip_height stored)) ∅ (sr_commits stored) in
  let? heads := res_fold (restore_current_head p network (sr_tip_height stored)) ∅ (sr_heads stored) in
  let? history := res_mapM (restore_undo p network (sr_tip_height stored)) (sr_history stored) in
  let? _ := validate_history (sr_tip_height stored) (sr_previous_hash stored) history in
  let? _ := ensure (bool_decide (sr_rollback_range stored = rollback_range history)) InvalidHistory in
  Ok (rebuild_derived_indexes
        (MkReducer p v (sr_next_height stored) (sr_tip_height stored) (sr_previous_hash stored)
           commits heads ∅ ∅ ∅ ∅ history)).

(** [Reducer::load_snapshot] *)
Definition load_snapshot (p : Parameters) (network : Network) (v : V) (bytes : list byte)
  : res SnapshotError (Reducer V) :=
  let? p := map_err (λ _, ParametersMismatch) (validate p) in
  let? stored := ok_or (from_slice bytes) Encoding in
  restore_reducer p network v stored.

(** [ExactResolver::save_snapshot] *)
Definition exact_save_snapshot (self : ExactResolver V) : res SnapshotError (list byte) :=
  let? identity := protocol_identity (er_reducer self) in
  let? fingerprint := ruleset_fingerprint in
  let? reducer := save_snapshot (er_reducer self) in
  ok_or (to_vec {| sx_format_version := EXACT_RESOLVER_SNAPSHOT_FORMAT_VERSION;
                   sx_deployment_id := pi_deployment_id identity;
                   sx_ruleset_fingerprint := fingerprint;
                   sx_rollback_range := rollback_range (history (er_reducer self));
                   sx_name := name_bytes (er_name self);
                   sx_reducer := reducer |}) Encoding.

(** [ExactResolver::load_snapshot] *)
Definition exact_load_snapshot (p : Parameters) (network : Network) (name : Name) (v : V)
  (bytes : list byte) : res SnapshotError (ExactResolver V) :=
  let? stored := ok_or (from_slice bytes) Encoding in
  let? _ := ensure (sx_format_version stored =? EXACT_RESOLVER_SNAPSHOT_FORMAT_VERSION)
              UnsupportedFormat in
  let? _ := ensure (bool_decide (sx_name stored = name_bytes name)) NameMismatch in
  let? fingerprint := ruleset_fingerprint in
  let? _ := ensure (bool_decide (sx_deployment_id stored = deployment_id p)
                    && bool_decide (sx_ruleset_fingerprint stored = fingerprint))
              ParametersMismatch in
  let? name_id := map_err (λ _, NameMismatch) (Name_id name) in
  let? reducer := load_snapshot p network v (sx_reducer stored) in
  let? _ := ensure (is_exact_for reducer name_id) NameMismatch in
  let? _ := ensure (bool_decide (rollback_range (history reducer) = sx_rollback_range stored))
              InvalidHistory in
  Ok (MkExactResolver name name_id reducer).
End Snapshots.

(** ** What a reachable state stores *)

Section Stored.
Context `{Blake2b} `{Pallas} `{UnifiedAddress} {V : Type} `{!ProofVerifier V}.
Context (network : Network).
Implicit Types (r : Reducer V).

(** Blocks and evidence of decoded values: what the newtypes of the crate can
    hold. *)
Definition block_typed (block : Block) : Prop :=
  ∀ tx, tx ∈ bl_transactions block →
    (∀ a, a ∈ tx_actions tx → FieldElement_ok (ac_commitment a))
    ∧ ∀ op, tx_operation tx = Some op → Operation_ok network op.

Definition typed_host : Host := λ block refs,
  block_typed block ∧ ∀ ev, ev ∈ refs → Commitment_ok (rc_commitment ev).

Definition head_typed (hd : Head) : Prop :=
  Name_ok (hd_name hd) ∧ CanonicalUa_ok network (hd_ua hd)
  ∧ FieldElement_ok (hd_commitment hd) ∧ FieldElement_ok (hd_future_nf hd).

Definition ledger_typed (l : Ledger) : Prop :=
  (∀ c k, lg_commits l !! c = Some k → Commitment_ok k)
  ∧ ∀ i hd, lg_heads l !! i = Some hd → head_typed hd.

Lemma Operation_ok_named op : Operation_ok network op → operation_named op.
Proof. by destruct op; [|intros (? & _)..]. Qed.

Lemma block_typed_named block : block_typed block → block_named block.
Proof. intros Hb tx op Htx Hop. destruct (Hb tx Htx) as [_ Ho]. by apply Operation_ok_named, Ho. Qed.

Lemma start_ledger_typed p h m l :
  (∀ c k, m !! c = Some k → Commitment_ok k) → ledger_typed l → ledger_typed (start_ledger p h m l).
Proof.
  intros Hm [Hc Hh]. split; simpl.
  - intros c k [Hk|[_ Hk]]%lookup_union_Some_raw; [by eapply Hm|].
    apply map_lookup_filter_Some in Hk as [Hk _]. by eapply Hc.
  - intros i hd [(hd0 & <- & Hhd)%lookup_fmap_Some _]%map_lookup_filter_Some.
    apply Hh in Hhd. unfold expire. by destruct (_ && _).
Qed.

Lemma ledger_operation_typed {E} p v h tx l d l' :
  (∀ a, a ∈ tx_actions tx → FieldElement_ok (ac_commitment a)) →
  (∀ op, tx_operation tx = Some op → Operation_ok network op) →
  ledger_typed l → ledger_operation (E := E) p v h tx l = Ok (d, l') → ledger_typed l'.
Proof.
  intros Ha Ho [Hc Hh] [[-> _]|[(k & Hop & _ & ->)|(op & i & hd & Hop & -> & Hacc)]]%ledger_operation_Ok.
  - done.
  - split; simpl; [|done]. intros c x. destruct (decide (c = MkCommitRef h (tx_tx_index tx) (tx_txid tx))) as [->|Hne].
    + rewrite lookup_insert_eq. intros [= <-]. apply (Ho _ Hop).
    + rewrite lookup_insert_ne by done. apply Hc.
  - split; simpl; [done|]. intros j hd'. destruct (decide (j = i)) as [->|Hne];
      [|rewrite lookup_insert_ne by done; apply Hh].
    rewrite lookup_insert_eq. intros [= <-]. specialize (Ho op Hop).
    destruct Hacc as [[[_ _ (name & commit & ua & ai & nf & pf & cm & a & e & x & Hev)] _]
      |[(prev & [_ _ _ _ (name & ua & ai & nf & pf & a & e & x & Hev)]) _]].
    + destruct Hev as (-> & _ & _ & _ & Hai & _ & _ & _ & _ & ->).
      destruct Ho as (? & _ & ? & _ & _ & ?). apply list_elem_of_lookup_2, Ha in Hai. done.
    + destruct Hev as (-> & _ & Hai & _ & _ & _ & _ & _ & ->).
      destruct Ho as (? & _ & ? & _ & _ & ?). apply list_elem_of_lookup_2, Ha in Hai. done.
Qed.

Lemma ledger_transactions_typed {E} p v h txs l y :
  (∀ tx, tx ∈ txs → (∀ a, a ∈ tx_actions tx → FieldElement_ok (ac_commitment a))
    ∧ ∀ op, tx_operation tx = Some op → Operation_ok network op) →
  ledger_typed l → ledger_transactions (E := E) p v h txs l = Ok y → ledger_typed y.2.
Proof.
  revert l y. induction txs as [|tx txs IH]; intros l y Htx Hl Ht; cbn [ledger_transactions] in Ht.
  { by apply Ok_inj in Ht as <-. }
  apply res_bind_Ok in Ht as ([[d ts] l1] & Ht1 & ([[ds ts'] l2] & Ht2 & <-%Ok_inj)%res_bind_Ok).
  apply (IH l1 (ds, ts', l2)); [intros; apply Htx; by right| |exact Ht2].
  apply res_bind_Ok in Ht1 as ([d0 l0] & Hop & [= _ _ <-]%Ok_inj).
  destruct (Htx tx (list_elem_of_here _ _)) as [Ha Ho].
  pose proof (ledger_operation_typed p v h tx l d0 l0 Ha Ho Hl Hop) as [Hc Hh]. split; simpl; [done|].
  intros i hd. unfold end_spent. rewrite map_lookup_imap.
  destruct (lg_heads l0 !! i) as [hd0|] eqn:E0; [|done]. intros [= <-]. apply Hh in E0.
  by destruct (terminates _ _ _ _).
Qed.

(** A journal entry the loader accepts. *)
Record undo_ok (p : Parameters) (u : Undo) : Prop := {
  uo_height : activation_height p ≤ un_height u;
  uo_next : un_previous_next_height u = Some (un_height u);
  uo_tip : un_previous_tip_height u =
    if un_height u =? activation_height p then None else u32_checked_sub (un_height u) 1;
  uo_commits c o : un_commits u !! c = Some o →
    cr_height c ≤ un_height u
    ∧ ∀ k, o = Some k → Commitment_ok k ∧ ∃ t, un_previous_tip_height u = Some t ∧ commit_ok p t c;
  uo_heads i o : un_heads u !! i = Some o →
    NameId_ok i
    ∧ ∀ hd, o = Some hd → head_typed hd ∧ ∃ t, un_previous_tip_height u = Some t ∧ head_ok p t i hd;
}.

(** A state that can be saved and restored. *)
Record saveable (r : Reducer V) : Prop := {
  sv_ok : reducer_ok r;
  sv_typed : ledger_typed (ledger_of r);
  sv_undos u : u ∈ history r → undo_ok (parameters r) u;
  sv_linked : linked (history r) = true;
  sv_last u : last (history r) = Some u →
    Some (un_height u) = tip_height r ∧ un_hash u = previous_hash r;
}.

Lemma linked_snoc h u :
  linked (h ++ [u]) = true ↔
    linked h = true
    ∧ ∀ v, last h = Some v →
        u32_checked_add (un_height v) 1 = Some (un_height u) ∧ un_previous_hash u = un_hash v.
Proof.
  induction h as [|a [|b h] IH]; simpl in *.
  - naive_solver.
  - rewrite andb_true_r, andb_true_iff, !bool_decide_eq_true. naive_solver.
  - rewrite !andb_true_iff, IH. tauto.
Qed.

Lemma linked_drop k h : linked h = true → linked (drop k h) = true.
Proof.
  revert k. induction h as [|a h IH]; intros [|k] Hl; simpl in *; try done.
  apply IH. destruct h; [done|]. by apply andb_true_iff in Hl as [_ ?].
Qed.

(** No block of a linked journal is above the last. *)
Lemma linked_below h u v : linked (h ++ [u]) = true → v ∈ h → un_height v < un_height u.
Proof.
  revert u. induction h as [|w h IH] using rev_ind; intros u Hl Hv; [by apply not_elem_of_nil in Hv|].
  apply linked_snoc in Hl as [Hl Hlast]. destruct (Hlast w) as [Hw _]; [by rewrite last_snoc|].
  apply u32_checked_add_Some in Hw as [Hw _].
  apply elem_of_app in Hv as [Hv|Hv%list_elem_of_singleton]; [|subst; lia].
  specialize (IH w Hl Hv). lia.
Qed.

(** The records of a state that satisfies the invariant are valid at its tip. *)
Lemma commit_at_tip r c : reducer_ok r → is_Some (commits r !! c) →
  ∃ t, tip_height r = Some t ∧ commit_ok (parameters r) t c.
Proof.
  intros [_ _ Ht] Hc. destruct (tip_height r) as [t|].
  - exists t. split; [done|]. by apply Ht.
  - destruct Ht as [_ [= E _]]. rewrite E, lookup_empty in Hc. by destruct Hc.
Qed.

Lemma head_at_tip r i hd : reducer_ok r → heads r !! i = Some hd →
  ∃ t, tip_height r = Some t ∧ head_ok (parameters r) t i hd.
Proof.
  intros [_ _ Ht] Hh. destruct (tip_height r) as [t|].
  - exists t. split; [done|]. by apply Ht.
  - destruct Ht as [_ [= _ E]]. by rewrite E, lookup_empty in Hh.
Qed.

Lemma tip_before r h : reducer_ok r → next_height r = Some h →
  tip_height r = if h =? activation_height (parameters r) then None else u32_checked_sub h 1.
Proof.
  intros [[] _ Ht] Hn. destruct (tip_height r) as [t|].
  - destruct Ht as (Ht & Hnext & _). rewrite Hn in Hnext. symmetry in Hnext.
    apply u32_checked_add_Some in Hnext as [-> _].
    destruct (Z.eqb_spec (t + 1) (activation_height (parameters r))); [lia|].
    symmetry. apply u32_checked_sub_Some. unfold is_u32 in *. lia.
  - destruct Ht as [Hnext _]. rewrite Hn in Hnext. injection Hnext as ->. by rewrite Z.eqb_refl.
Qed.

(** The journal of a block applied to a state with typed records. *)
Lemma applied_undo_ok r r' block refs out u :
  reducer_ok r → reducer_ok r' → parameters r' = parameters r → ledger_typed (ledger_of r) →
  next_height r = Some (bl_height block) → tip_height r' = Some (bl_height block) →
  apply_block_detailed block refs r = (Ok out, r') → history r' = history r ++ [u] →
  undo_ok (parameters r) u ∧ un_height u = bl_height block ∧ un_hash u = bl_hash block
  ∧ un_previous_hash u = previous_hash r.
Proof.
  intros Hr Hr' Hp [Tc Th] Hn Ht' Ha Hh.
  destruct (apply_block_journal block refs r out r' (rk_indexed _ Hr) Ha)
    as (u' & Hh' & Eu & Hc & Hhd). rewrite Hh in Hh'. apply app_inj_tail in Hh' as [_ <-].
  destruct (reducer_ok_next r _ Hr Hn) as [Hact _].
  assert (un_height u = bl_height block ∧ un_hash u = bl_hash block
    ∧ un_previous_hash u = previous_hash r ∧ un_previous_next_height u = next_height r
    ∧ un_previous_tip_height u = tip_height r) as (E1 & E2 & E3 & E4 & E5) by (by rewrite Eu).
  split; [|done]. constructor; rewrite ?E1, ?E4, ?E5.
  - apply Hact.
  - done.
  - by apply tip_before.
  - intros c o Ho. destruct (Hc c o Ho) as [Ec Hs]. split.
    + destruct Hs as [Hs|Hs].
      * destruct (commit_at_tip r c Hr Hs) as (t & Ht & [Hle _]).
        rewrite (tip_before r _ Hr Hn) in Ht.
        destruct (_ =? _); [done|]. apply u32_checked_sub_Some in Ht. lia.
      * destruct (commit_at_tip r' c Hr' Hs) as (t & Ht & [Hle _]). rewrite Ht' in Ht.
        injection Ht as <-. lia.
    + intros k ->. split; [by eapply Tc|]. apply commit_at_tip; [done|by exists k].
  - intros i o Ho. destruct (Hhd i o Ho) as [Ei Hs]. split.
    + destruct Hs as [[hd Hs]|[hd Hs]].
      * destruct (head_at_tip r i hd Hr Hs) as (t & _ & Hok). by eapply Name_id_ok, Hok.
      * destruct (head_at_tip r' i hd Hr' Hs) as (t & _ & Hok). by eapply Name_id_ok, Hok.
    + intros hd ->. split; [by eapply Th|]. by apply head_at_tip.
Qed.

Lemma saveable_apply r block refs out r' :
  saveable r → typed_host block refs → apply_block_detailed block refs r = (Ok out, r') → saveable r'.
Proof.
  intros [Hr Hty Hu Hl Hlast] [Hb Hrefs] Ha.
  pose proof (apply_block_step block refs r Hr (block_typed_named block Hb)) as Hs.
  destruct (check_block r block refs) as [m|e|] eqn:Ec; [|congruence|done].
  destruct Hs as (y & out1 & r1 & Hy & Ha1 & Hrf & Hr'). rewrite Ha in Ha1. injection Ha1 as <- <-.
  pose proof Ec as (Hn & _ & _)%check_block_Ok.
  pose proof (br_parameters _ _ _ _ _ _ _ Hrf) as Hp.
  assert (tip_height r' = Some (bl_height block) ∧ previous_hash r' = bl_hash block) as [Ht' Hph].
  { pose proof (br_tip _ _ _ _ _ _ _ Hrf) as Ht. unfold tip in Ht.
    destruct (tip_height r'); [|done]. by injection Ht as -> ->. }
  destruct (apply_block_journal block refs r out r' (rk_indexed _ Hr) Ha) as (u & Hh & _).
  destruct (applied_undo_ok r r' block refs out u Hr Hr' Hp Hty Hn Ht' Ha Hh) as (Huo & E1 & E2 & E3).
  constructor.
  - done.
  - rewrite (br_ledger _ _ _ _ _ _ _ Hrf). eapply ledger_transactions_typed; [exact Hb| |exact Hy].
    apply start_ledger_typed; [|done]. intros c k Hk. unfold check_block in Ec.
    apply res_bind_Ok in Ec as (? & _ & (? & _ & (? & _ & Hf)%res_bind_Ok)%res_bind_Ok).
    destruct (admitted_evidence r block refs m ∅ Hf) as (Hm & _).
    destruct (Hm c k Hk) as [Hk0|Hin]; [by rewrite lookup_empty in Hk0|]. by apply (Hrefs _ Hin).
  - rewrite Hh, Hp. intros v [Hv|Hv%list_elem_of_singleton]%elem_of_app; [by apply Hu|by subst v].
  - rewrite Hh. apply linked_snoc. split; [done|]. intros v Hv.
    destruct (Hlast v Hv) as [Hvt Hvh]. rewrite E1, E3, Hvh. split; [|done].
    destruct Hr as [_ _ Htip]. rewrite <- Hvt in Htip. destruct Htip as (_ & Hnext & _). congruence.
  - rewrite Hh, last_snoc. intros v [= <-]. by rewrite E1, E2.
Qed.

#[export] Instance saveable_maintained : Maintained typed_host saveable.
Proof.
  split.
  - by intros r [[]].
  - intros. by eapply saveable_apply.
  - intros r k [Hr Hty Hu Hl Hlast]. constructor; cbn [set_history history parameters].
    + by apply (maintained_drop (host := named_host)).
    + done.
    + intros u Hin. apply Hu. rewrite <- (take_drop k (history r)), elem_of_app. by right.
    + by apply linked_drop.
    + intros u Hu'. apply Hlast. by rewrite <- (take_drop k (history r)), last_app, Hu'.
Qed.
End Stored.

(** ** Restoring what was saved *)

(** A map is rebuilt from the stored entries of its iteration. *)
Lemma restore_fold {E K A B : Type} `{Countable K} `{!OrdKey K}
  (f : gmap K A → B → res E (gmap K A)) (g : K * A → B) (m : gmap K A) :
  (∀ m0 k a, m !! k = Some a → m0 !! k = None → f m0 (g (k, a)) = Ok (<[k := a]> m0)) →
  res_fold f ∅ (map g (btree_iter m)) = Ok m.
Proof.
  intros Hf. rewrite <- (btree_collect_iter m) at 2.
  assert (∀ k a, (k, a) ∈ btree_iter m → m !! k = Some a) as Hin
    by (intros k a; by rewrite elem_of_btree_iter).
  pose proof (NoDup_btree_iter m) as Hnd. revert Hin Hnd. generalize (btree_iter m) as l.
  assert (∀ l l' b, res_fold f b (l ++ l') = (let? b := res_fold f b l in res_fold f b l')) as Happ.
  { induction l as [|x l IH]; intros l' b; simpl; [done|]. destruct (f b x); simpl; auto. }
  induction l as [|[k a] l IH] using rev_ind; intros Hin Hnd; [done|].
  rewrite fmap_app in Hnd. pose proof Hnd as (Hndl & Hk & _)%NoDup_app.
  rewrite map_app, Happ, IH; [|intros; apply Hin, elem_of_app; by left|done].
  cbn [res_bind res_fold map]. rewrite Hf.
  - cbn [res_bind]. by rewrite btree_collect_snoc.
  - apply Hin, elem_of_app. right. by apply list_elem_of_singleton.
  - apply eq_None_not_Some. intros [a' Ha']. apply lookup_btree_collect in Ha'; [|done].
    apply (Hk k); [apply list_elem_of_fmap; by exists (k, a')|]. simpl. left.
Qed.

Lemma res_mapM_inverse {E A B : Type} (f : B → res E A) (g : A → B) (l : list A) :
  (∀ x, x ∈ l → f (g x) = Ok x) → res_mapM f (map g l) = Ok l.
Proof.
  induction l as [|x l IH]; intros Hf; simpl; [done|].
  rewrite Hf by left. cbn [res_bind]. rewrite IH; [done|]. intros; apply Hf; by right.
Qed.

Section Restored.
Context `{Blake2b} `{Pallas} `{UnifiedAddress} {V : Type} `{!ProofVerifier V}.
Context (network : Network).
Implicit Types (r : Reducer V).

Lemma restore_head_from p t i hd :
  head_ok p t i hd → head_typed network hd → restore_head p network (Some t) (StoredHead_from hd) = Ok hd.
Proof.
  intros [Hn _ He Hx Hpr Hter] (Hname & Hua & Hc & Hnf).
  unfold restore_head, StoredHead_from. cbn [sh_name sh_ua sh_producer sh_commitment sh_future_nf
    sh_producer_epoch sh_expiry_height sh_terminal_height ok_or res_bind].
  rewrite (Name_parse_name _ Hname), Hua, Hc, Hnf, He, Hx. cbn [map_err res_bind].
  destruct (Z.ltb_spec t (sr_height (hd_producer hd))); [lia|]. rewrite !Z.eqb_refl. cbn [orb negb].
  assert (match hd_terminal_height hd with
          | Some height => (height <? sr_height (hd_producer hd)) || (t <? height)
          | None => false
          end = false) as ->.
  { destruct (hd_terminal_height hd) as [x|]; [|done].
    apply orb_false_iff. rewrite !Z.ltb_ge. lia. }
  cbn [negb ensure res_bind hd_terminal_height hd_expiry_height]. destruct hd as [? ? ? ? ? ? ex ter].
  cbn in *. assert (bool_decide (ter = None) && (ex <=? t) = false) as ->.
  { destruct ter; [done|]. apply andb_false_iff. right. apply Z.leb_gt. lia. }
  unfold is_claimable, terminal_at. cbn. destruct ter as [x|].
  - destruct (Z.leb_spec (x + cooldown_blocks p) t); [lia|done].
  - destruct (Z.leb_spec ex t); [lia|done].
Qed.

Lemma name_matches_ok {E} i n : Name_id n = Ok i → name_matches (E := E) i n = Ok true.
Proof. unfold name_matches. intros ->. by rewrite bool_decide_true. Qed.

Lemma validate_commit_ok p t c :
  commit_ok p t c → validate_commit p (Some t) c = Ok tt.
Proof.
  intros [Hr Hlt]. unfold validate_commit. cbn [ok_or res_bind].
  destruct (Z.ltb_spec (cr_height c) (activation_height p)); [lia|].
  destruct (Z.ltb_spec t (cr_height c)); [lia|]. cbn [orb negb ensure res_bind].
  assert (u32_checked_sub t (cr_height c) = Some (t - cr_height c)) as ->
    by (apply u32_checked_sub_Some; lia).
  cbn [expect res_bind]. by rewrite (proj2 (Z.ltb_lt _ _)) by lia.
Qed.

Lemma restore_commits_from p t m :
  (∀ c k, m !! c = Some k → Commitment_ok k ∧ ∃ h, t = Some h ∧ commit_ok p h c) →
  res_fold (restore_commit p t) ∅
    (map (λ '(reference, commitment), (reference, commitment_bytes commitment)) (btree_iter m)) = Ok m.
Proof.
  intros Hm. apply restore_fold. intros m0 c k Hk Hnew. destruct (Hm c k Hk) as [Hko (h & -> & Hc)].
  unfold restore_commit. rewrite Hko. cbn [map_err res_bind].
  rewrite (validate_commit_ok p h c Hc). cbn [res_bind]. unfold insert_new.
  by rewrite bool_decide_true.
Qed.

Lemma restore_heads_from p t m :
  (∀ i hd, m !! i = Some hd → head_typed network hd ∧ ∃ h, t = Some h ∧ head_ok p h i hd) →
  res_fold (restore_current_head p network t) ∅
    (map (λ '(name_id, head), (name_id_bytes name_id, StoredHead_from head)) (btree_iter m)) = Ok m.
Proof.
  intros Hm. apply restore_fold. intros m0 i hd Hhd Hnew.
  destruct (Hm i hd Hhd) as [Hty (h & -> & Hok)]. pose proof (ho_name _ _ _ _ Hok) as Hn.
  unfold restore_current_head. rewrite (Name_id_ok _ _ Hn). cbn [map_err res_bind].
  rewrite (restore_head_from p h i hd Hok Hty). cbn [res_bind].
  rewrite (name_matches_ok i _ Hn). cbn [res_bind ensure]. unfold insert_new.
  by rewrite bool_decide_true.
Qed.

Lemma restore_undo_from p t u :
  undo_ok network p u → un_height u ≤ t → restore_undo p network (Some t) (StoredUndo_from u) = Ok u.
Proof.
  intros [Hh Hnext Htip Hc Hhd] Hle. unfold restore_undo, StoredUndo_from.
  cbn [su_height su_previous_next_height su_previous_tip_height su_commits su_heads su_hash
    su_previous_hash]. rewrite (proj2 (Z.leb_le _ _) Hle). cbn [ensure res_bind].
  rewrite Hnext, Htip, !bool_decide_true by done. cbn [ensure res_bind]. rewrite <- Htip.
  rewrite restore_fold; [cbn [res_bind]; rewrite restore_fold; [cbn [res_bind]|]|].
  - rewrite <- Hnext. by destruct u.
  - intros m0 i o Ho Hnew. destruct (Hhd i o Ho) as [Hi Hprev]. unfold restore_undo_head.
    rewrite Hi. cbn [map_err res_bind su_previous_tip_height]. unfold insert_new.
    destruct o as [hd|]; cbn [fmap option_fmap option_map transpose].
    + destruct (Hprev hd eq_refl) as (Hty & h & -> & Hok).
      rewrite (restore_head_from p h i hd Hok Hty). cbn [map_err res_bind].
      rewrite (name_matches_ok i _ (ho_name _ _ _ _ Hok)). cbn [res_bind ensure].
      by rewrite bool_decide_true.
    + cbn [map_err res_bind ensure]. by rewrite bool_decide_true.
  - intros m0 c o Ho Hnew. destruct (Hc c o Ho) as [Hch Hprev]. unfold restore_undo_commit, insert_new.
    destruct o as [k|]; cbn [fmap option_fmap option_map transpose su_height su_previous_tip_height].
    + destruct (Hprev k eq_refl) as (Hk & h & -> & Hok). rewrite Hk. cbn [map_err res_bind].
      rewrite (proj2 (Z.leb_le _ _) Hch), (validate_commit_ok p h c Hok).
      cbn [map_err ensure res_bind]. by rewrite bool_decide_true.
    + cbn [map_err res_bind]. rewrite (proj2 (Z.leb_le _ _) Hch). cbn [ensure res_bind].
      by rewrite bool_decide_true.
Qed.

Lemma validate_tip_ok r : reducer_ok r → validate_tip (parameters r) (next_height r) (tip_height r) = Ok tt.
Proof.
  intros [_ _ Ht]. unfold validate_tip. destruct (tip_height r) as [t|].
  - destruct Ht as (Hr & Hn & _). rewrite (proj2 (Z.leb_le _ _)) by lia. by rewrite bool_decide_true.
  - destruct Ht as [Hn _]. by rewrite bool_decide_true.
Qed.

Lemma validate_history_ok r : saveable network r →
  validate_history (tip_height r) (previous_hash r) (history r) = Ok tt.
Proof.
  intros [_ _ _ Hl Hlast]. unfold validate_history. destruct (last (history r)) as [u|] eqn:E; [|done].
  destruct (Hlast u eq_refl) as [E1 E2]. rewrite !bool_decide_true by done. cbn [andb ensure res_bind].
  by rewrite Hl.
Qed.

Lemma undo_below_tip r u : saveable network r → u ∈ history r →
  ∃ t, tip_height r = Some t ∧ un_height u ≤ t.
Proof.
  intros [_ _ _ Hl Hlast] Hu. destruct (history r) as [|v h _] using rev_ind; [by apply not_elem_of_nil in Hu|].
  destruct (Hlast v) as [Ht _]; [by rewrite last_snoc|]. exists (un_height v). split; [done|].
  apply elem_of_app in Hu as [Hu|Hu%list_elem_of_singleton]; [|by subst].
  pose proof (linked_below h v u Hl Hu). lia.
Qed.
End Restored.

(** ** Reachable states *)

(** The parameters and the verifier never change. *)
Section Configured.
Context `{Blake2b} `{Pallas} {V : Type} `{!ProofVerifier V}.

Definition configured (p : Parameters) (v : V) (r : Reducer V) : Prop :=
  indexed r ∧ parameters r = p ∧ verifier r = v.

#[export] Instance configured_maintained host p v : Maintained host (configured p v).
Proof.
  split.
  - by intros r [].
  - intros r block refs out r' (Hi & <- & <-) _ Ha.
    pose proof (apply_block_indexed block refs r r' out Hi Ha) as Hi'.
    apply apply_block_inv in Ha as (r1 & u & T & -> & _); [|done].
    destruct T as [_ _ _ Hp Hv _ _ _ _ _]. cbn [fst] in *. split; [exact Hi'|done].
  - intros r k ([] & <- & <-). split; [by constructor|done].
Qed.

Lemma maintained_both host (P Q : Reducer V → Prop) :
  Maintained host P → Maintained host Q → Maintained host (λ r, P r ∧ Q r).
Proof.
  intros [Pi Pa Pd] [Qi Qa Qd]. split.
  - intros r [Hp _]. by apply Pi.
  - intros r block refs out r' [] Hb Ha. split; eauto.
  - intros r k []. split; auto.
Qed.
End Configured.

Section RoundTrip.
Context `{Blake2b} `{Pallas} `{UnifiedAddress} `{!CanonicalJson Manifest}
  `{!SerdeJson StoredReducer} `{!SerdeJson StoredExactResolver}
  {V : Type} `{!ProofVerifier V}.
Context (network : Network).
Implicit Types (r : Reducer V).

Lemma restore_saved fingerprint r :
  ruleset_fingerprint (E := SnapshotError) = Ok fingerprint → saveable network r →
  restore_reducer (parameters r) network (verifier r) (StoredReducer_from fingerprint r) = Ok r.
Proof.
  intros Hf Hs. pose proof Hs as [Hr [Tc Th] Hu _ _].
  unfold restore_reducer, StoredReducer_from. cbn [sr_format_version sr_deployment_id
    sr_ruleset_fingerprint sr_rollback_range sr_parameters sr_next_height sr_tip_height
    sr_previous_hash sr_commits sr_heads sr_history].
  rewrite Z.eqb_refl. cbn [ensure res_bind]. rewrite Hf. cbn [res_bind].
  rewrite !bool_decide_true by done. cbn [andb ensure res_bind].
  rewrite (validate_tip_ok r Hr). cbn [res_bind]. rewrite restore_commits_from.
  2: { intros c k Hk. split; [by eapply Tc|]. apply commit_at_tip; [done|by exists k]. }
  cbn [res_bind]. rewrite restore_heads_from.
  2: { intros i hd Hhd. split; [by eapply Th|]. by apply head_at_tip. }
  cbn [res_bind]. rewrite res_mapM_inverse.
  2: { intros u Hin. destruct (undo_below_tip network r u Hs Hin) as (t & -> & Hle).
       apply restore_undo_from; [by apply Hu|done]. }
  cbn [res_bind]. rewrite (validate_history_ok network r Hs). cbn [res_bind].
  rewrite bool_decide_true by done. cbn [ensure res_bind]. f_equal.
  change (rebuild_derived_indexes r = r). by apply rebuild_indexed, Hr.
Qed.

Lemma load_saved `{!SerdeJsonLaws StoredReducer} bytes r :
  saveable network r → save_snapshot r = Ok bytes →
  load_snapshot (parameters r) network (verifier r) bytes = Ok r.
Proof.
  intros Hs Hsave. unfold save_snapshot in Hsave.
  apply res_bind_Ok in Hsave as (f & Hf & Hb%ok_or_Ok).
  destruct (from_slice_to_vec (StoredReducer_from f r)) as (b & Hb' & Hfrom). rewrite Hb in Hb'.
  injection Hb' as <-. unfold load_snapshot.
  rewrite (validate_ok _ (rk_parameters _ (sv_ok _ _ Hs))). cbn [map_err res_bind].
  rewrite Hfrom. cbn [ok_or res_bind]. by apply restore_saved.
Qed.

Lemma save_total `{!SerdeJsonLaws StoredReducer} r :
  is_Some (to_value_vec EMBEDDED_MANIFEST) → ∃ bytes, save_snapshot r = Ok bytes.
Proof.
  intros Hm. destruct (ruleset_fingerprint_total (E := SnapshotError) Hm) as [f Hf].
  unfold save_snapshot. rewrite Hf. cbn [res_bind].
  destruct (from_slice_to_vec (StoredReducer_from f r)) as (b & -> & _). by exists b.
Qed.

Lemma new_saveable p hash v r :
  Parameters_typed p → new p hash v = Ok r →
  (saveable network r ∧ configured p v r) ∧ history r = [].
Proof.
  intros Hty Hn. destruct (new_ok p hash v r Hty Hn) as [Hr Hh]. split; [|done]. split.
  - constructor; [done| |rewrite Hh..].
    + unfold new in Hn. inv_res. split; simpl; intros ? ?; by rewrite lookup_empty.
    + by intros u ?%not_elem_of_nil.
    + done.
    + done.
  - split; [apply Hr|]. unfold new in Hn. inv_res. apply validate_Ok in H2 as [-> _]; done.
Qed.
End RoundTrip.

(** C12: a snapshot is restored exactly.  In every state reached from activation by
    blocks of decoded values, rollbacks and finalizations, saving succeeds, and
    loading the bytes gives back the same state, indexes and rollback journal
    included; under any other valid parameters the snapshot is refused. *)
Theorem snapshot_roundtrip `{Blake2b} `{Pallas} `{UnifiedAddress} `{!CanonicalJson Manifest}
  `{!SerdeJson StoredReducer} `{!SerdeJsonLaws StoredReducer} {V : Type} `{!ProofVerifier V}
  (network : Network) (p : Parameters) (hash : list byte) (v : V) (r0 r : Reducer V) :
  is_Some (to_value_vec EMBEDDED_MANIFEST) → Parameters_typed p → new p hash v = Ok r0 →
  rtc (step (typed_host network)) r0 r →
  ∃ bytes, save_snapshot r = Ok bytes
    ∧ load_snapshot p network v bytes = Ok r
    ∧ ∀ q w, Parameters_ok q → q ≠ p →
        load_snapshot (V := V) q network w bytes = Err ParametersMismatch.
Proof.
  intros Hm Hty Hn Hsteps. destruct (new_saveable network p hash v r0 Hty Hn) as [Hr0 Hh0].
  pose proof (maintained_both (typed_host network) (saveable network) (configured p v) _ _) as HM.
  destruct (recoverable_ok _ _ (maintained_steps r0 r Hr0 Hh0 Hsteps)) as [Hs (_ & <- & <-)].
  destruct (save_total r Hm) as [bytes Hsave]. exists bytes. split; [done|].
  split; [by apply load_saved|]. intros q w Hq Hne. unfold save_snapshot in Hsave.
  apply res_bind_Ok in Hsave as (f & Hf & Hb%ok_or_Ok).
  destruct (from_slice_to_vec (StoredReducer_from f r)) as (b & Hb' & Hfrom).
  rewrite Hb in Hb'. injection Hb' as <-. unfold load_snapshot, restore_reducer.
  rewrite (validate_ok q Hq). cbn [map_err res_bind]. rewrite Hfrom. cbn [ok_or res_bind].
  change (sr_format_version (StoredReducer_from f r)) with REDUCER_SNAPSHOT_FORMAT_VERSION.
  rewrite Z.eqb_refl. cbn [ensure res_bind]. rewrite Hf. cbn [res_bind].
  rewrite (bool_decide_false (sr_parameters _ = _)); [by rewrite andb_false_r|].
  unfold StoredReducer_from, StoredParameters_from. cbn [sr_parameters]. intros [=].
  apply Hne. destruct q, (parameters r). simpl in *. congruence.
Qed.

(** ** What loading guarantees *)

(** What the loader has checked: records valid at the tip, and a linked journal. *)
Record restored_ok `{Blake2b} `{Pallas} `{UnifiedAddress} {V : Type} (network : Network)
  (p : Parameters) (v : V) (r : Reducer V) : Prop := {
  ro_parameters : parameters r = p ∧ Parameters_ok p ∧ verifier r = v;
  ro_indexed : indexed r;
  ro_tip :
    match tip_height r with
    | None => next_height r = Some (activation_height p) ∧ commits r = ∅ ∧ heads r = ∅
    | Some t => activation_height p ≤ t ∧ next_height r = u32_checked_add t 1
    end;
  ro_commits c k : commits r !! c = Some k →
    Commitment_ok k ∧ ∃ t, tip_height r = Some t ∧ commit_ok p t c;
  ro_heads i hd : heads r !! i = Some hd →
    head_typed network hd ∧ Name_id (hd_name hd) = Ok i
    ∧ ∃ t, tip_height r = Some t
        ∧ activation_height p ≤ sr_height (hd_producer hd) ≤ t
        ∧ epoch p (sr_height (hd_producer hd)) = Ok (hd_producer_epoch hd)
        ∧ expiry p (sr_height (hd_producer hd)) = Ok (hd_expiry_height hd)
        ∧ lifecycle hd t p ≠ Missing
        ∧ (hd_terminal_height hd = None → t < hd_expiry_height hd)
        ∧ ∀ x, hd_terminal_height hd = Some x → sr_height (hd_producer hd) ≤ x ≤ t;
  ro_linked : linked (history r) = true;
  ro_last u : last (history r) = Some u →
    Some (un_height u) = tip_height r ∧ un_hash u = previous_hash r;
}.

Section Loading.
Context `{Blake2b} `{Pallas} `{UnifiedAddress} {V : Type} `{!ProofVerifier V}.
Context (network : Network).
Implicit Types (r : Reducer V).

Lemma insert_new_inv {K A} `{Countable K} e (m m' : gmap K A) k a (P : K → A → Prop) :
  (∀ i x, m !! i = Some x → P i x) → P k a → insert_new e m k a = Ok m' →
  ∀ i x, m' !! i = Some x → P i x.
Proof.
  intros Hm Hk Hi. unfold insert_new in Hi. apply res_bind_Ok in Hi as (_ & _ & [= <-]%Ok_inj).
  intros i x. destruct (decide (i = k)) as [->|Hne].
  - rewrite lookup_insert_eq. by intros [= <-].
  - rewrite lookup_insert_ne by done. apply Hm.
Qed.

Lemma validate_commit_inv p t c u :
  validate_commit p t c = Ok u → ∃ h, t = Some h ∧ commit_ok p h c.
Proof.
  unfold validate_commit. intros (h & Ht%ok_or_Ok & (? & Hb%ensure_Ok & (age & Ha%expect_Ok & Hl%ensure_Ok)%res_bind_Ok)%res_bind_Ok)%res_bind_Ok.
  exists h. split; [done|]. apply negb_true_iff, orb_false_iff in Hb as [Hb1 Hb2].
  apply Z.ltb_ge in Hb1, Hb2. apply Z.ltb_lt in Hl. apply u32_checked_sub_Some in Ha.
  unfold commit_ok. lia.
Qed.

Lemma restore_commits_inv p t l m :
  res_fold (restore_commit p t) ∅ l = Ok m →
  ∀ c k, m !! c = Some k → Commitment_ok k ∧ ∃ h, t = Some h ∧ commit_ok p h c.
Proof.
  apply (res_fold_inv (λ m : gmap CommitRef Commitment, ∀ c k, m !! c = Some k →
    Commitment_ok k ∧ ∃ h, t = Some h ∧ commit_ok p h c)).
  2: { intros c k. by rewrite lookup_empty. }
  intros m0 [c b] m1 Hm (k & Hk%map_err_Ok & (? & Hc & Hi)%res_bind_Ok)%res_bind_Ok.
  eapply (insert_new_inv _ _ _ _ _ (λ c k, Commitment_ok k ∧ ∃ h, t = Some h ∧ commit_ok p h c) Hm);
    [|exact Hi]. split; [|by eapply validate_commit_inv].
  pose proof Hk as (fe & _ & _ & ->)%Commitment_from_bytes_Ok. exact Hk.
Qed.

Lemma restore_head_inv p t s hd :
  Parameters_ok p → restore_head p network t s = Ok hd →
  head_typed network hd
  ∧ ∃ h, t = Some h
      ∧ activation_height p ≤ sr_height (hd_producer hd) ≤ h
      ∧ epoch p (sr_height (hd_producer hd)) = Ok (hd_producer_epoch hd)
      ∧ expiry p (sr_height (hd_producer hd)) = Ok (hd_expiry_height hd)
      ∧ lifecycle hd h p ≠ Missing
      ∧ (hd_terminal_height hd = None → h < hd_expiry_height hd)
      ∧ ∀ x, hd_terminal_height hd = Some x → sr_height (hd_producer hd) ≤ x ≤ h.
Proof.
  intros Hp Hr. unfold restore_head in Hr.
  apply res_bind_Ok in Hr as (h & Ht%ok_or_Ok & (name & Hn%map_err_Ok & Hr)%res_bind_Ok).
  apply res_bind_Ok in Hr as (ua & Hua%map_err_Ok & (cm & Hcm%map_err_Ok & Hr)%res_bind_Ok).
  apply res_bind_Ok in Hr as (nf & Hnf%map_err_Ok & (e & He%map_err_Ok & Hr)%res_bind_Ok).
  apply res_bind_Ok in Hr as (x & Hx%map_err_Ok & (? & Hchk%ensure_Ok & Hr)%res_bind_Ok).
  apply res_bind_Ok in Hr as (? & Hlife%ensure_Ok & <-%Ok_inj).
  rewrite negb_true_iff, !orb_false_iff, !negb_false_iff in Hchk.
  rewrite Z.ltb_ge, !Z.eqb_eq in Hchk.
  destruct Hchk as (((Hpr & <-) & <-) & Hter). rewrite negb_true_iff, orb_false_iff in Hlife.
  destruct Hlife as [Hexp Hcl]. cbn in Hexp, Hcl. split; [split; [|split; [|split]]|]; cbn.
  - by eapply Name_parse_ok.
  - by apply CanonicalUa_parse_ok in Hua as [? _].
  - pose proof Hcm as [_ ->]%FieldElement_from_bytes_Ok. exact Hcm.
  - pose proof Hnf as [_ ->]%FieldElement_from_bytes_Ok. exact Hnf.
  - exists h. pose proof He as [? _]%epoch_Ok; [|done]. split; [done|]. split; [done|].
    split; [done|]. split; [done|]. split; [|split].
    + unfold lifecycle. cbn. rewrite Hcl. by destruct (terminal_at _ _).
    + intros Hnone. rewrite Hnone in Hexp. simpl in Hexp. by apply Z.leb_gt in Hexp.
    + intros y Hy. rewrite Hy in Hter. apply orb_false_iff in Hter as [? ?]. lia.
Qed.

Lemma restore_heads_inv p t l m :
  Parameters_ok p → res_fold (restore_current_head p network t) ∅ l = Ok m →
  ∀ i hd, m !! i = Some hd → Name_id (hd_name hd) = Ok i ∧ ∃ s, restore_head p network t s = Ok hd.
Proof.
  intros Hp. apply (res_fold_inv (λ m : gmap NameId Head, ∀ i hd, m !! i = Some hd →
    Name_id (hd_name hd) = Ok i ∧ ∃ s, restore_head p network t s = Ok hd)).
  2: { intros c k. by rewrite lookup_empty. }
  intros m0 [b s] m1 Hm (i & _ & (hd & Hhd & (ok & Hok & (? & ->%ensure_Ok & Hi)%res_bind_Ok)%res_bind_Ok)%res_bind_Ok)%res_bind_Ok.
  eapply (insert_new_inv _ _ _ _ _ (λ i hd, Name_id (hd_name hd) = Ok i
    ∧ ∃ s, restore_head p network t s = Ok hd) Hm); [|exact Hi]. split; [|by exists s].
  unfold name_matches in Hok. destruct (Name_id (hd_name hd)) as [j|e|]; [|done..].
  apply Ok_inj, bool_decide_eq_true in Hok. by subst.
Qed.

Lemma validate_tip_inv p next t u :
  validate_tip p next t = Ok u →
  match t with
  | None => next = Some (activation_height p)
  | Some t => activation_height p ≤ t ∧ next = u32_checked_add t 1
  end.
Proof.
  unfold validate_tip. destruct t as [t|].
  - destruct (_ && _) eqn:E; [|done]. intros _. apply andb_true_iff in E as [E1 E2].
    apply Z.leb_le in E1. by apply bool_decide_eq_true in E2.
  - case_bool_decide; [done|]. done.
Qed.

Lemma validate_history_inv t hash h u :
  validate_history t hash h = Ok u →
  linked h = true ∧ ∀ u, last h = Some u → Some (un_height u) = t ∧ un_hash u = hash.
Proof.
  unfold validate_history. destruct (last h) as [u'|] eqn:E.
  - intros (? & Hc%ensure_Ok & Hl%ensure_Ok)%res_bind_Ok. apply andb_true_iff in Hc as [H3 H4].
    apply bool_decide_eq_true in H3, H4. split; [done|]. by intros ? [= <-].
  - intros _. destruct h as [|x h _] using rev_ind; [done|]. by rewrite last_snoc in E.
Qed.

(** Rebuilding keeps the records. *)
Lemma rebuild_records r :
  let s := rebuild_derived_indexes r in
  commits s = commits r ∧ heads s = heads r ∧ parameters s = parameters r ∧ verifier s = verifier r
  ∧ next_height s = next_height r ∧ tip_height s = tip_height r
  ∧ previous_hash s = previous_hash r ∧ history s = history r.
Proof.
  cbv zeta. unfold rebuild_derived_indexes. fold (cleared r).
  destruct (rebuild_commits (btree_keys (commits r)) (cleared r) (λ _ _, False)) as [_ Ec];
    [by apply index_ok_empty; auto|].
  change (commits (cleared r)) with (commits r). set (s := fold_left _ _ (cleared r)) in *.
  destruct (rebuild_heads (btree_iter (heads s)) s (λ _ _, False) (λ _ _, False) (λ _ _, False))
    as (_ & _ & _ & Eh); [by rewrite Ec; apply index_ok_empty; auto..|].
  rewrite Eh, Ec. done.
Qed.

Lemma restore_reducer_inv `{!CanonicalJson Manifest} p v stored r :
  Parameters_ok p → restore_reducer p network v stored = Ok r → restored_ok network p v r.
Proof.
  intros Hp Hr. unfold restore_reducer in Hr.
  apply res_bind_Ok in Hr as (? & _ & (f & _ & Hr)%res_bind_Ok).
  apply res_bind_Ok in Hr as (? & _ & (? & Htip%validate_tip_inv & Hr)%res_bind_Ok).
  apply res_bind_Ok in Hr as (cm & Hcm & (hm & Hhm & Hr)%res_bind_Ok).
  apply res_bind_Ok in Hr as (hist & _ & (? & [Hl Hlast]%validate_history_inv & Hr)%res_bind_Ok).
  apply res_bind_Ok in Hr as (? & _ & <-%Ok_inj).
  set (r0 := MkReducer _ _ _ _ _ _ _ _ _ _ _ _).
  destruct (rebuild_records r0) as (Ec & Eh & Ep & Ev & En & Et & Eph & Ehi).
  pose proof (restore_commits_inv p _ _ _ Hcm) as Hc.
  pose proof (restore_heads_inv p _ _ _ Hp Hhm) as Hh.
  constructor; rewrite ?Ec, ?Eh, ?Ep, ?Ev, ?En, ?Et, ?Eph, ?Ehi; cbn.
  - done.
  - apply rebuild_indexed.
  - destruct (sr_tip_height stored) as [t|]; [done|]. split; [done|]. split.
    + apply map_empty. intros c. apply eq_None_not_Some. intros [k Hk].
      by destruct (Hc c k Hk) as (_ & h & [=] & _).
    + apply map_empty. intros i. apply eq_None_not_Some. intros [hd Hhd].
      destruct (Hh i hd Hhd) as (_ & s & Hs). by destruct (restore_head_inv p _ s hd Hp Hs) as (_ & h & [=] & _).
  - exact Hc.
  - intros i hd Hhd. destruct (Hh i hd Hhd) as (Hn & s & Hs).
    by destruct (restore_head_inv p _ s hd Hp Hs) as (Hty & Hrest).
  - done.
  - done.
Qed.

Lemma restored_typed p v r : restored_ok network p v r → typed r.
Proof.
  intros [(<- & Hp & _) _ _ Hc Hh _ _]. pose proof (ok_activation _ Hp) as [? _]. constructor.
  - intros c [k Hk]. destruct (Hc c k Hk) as (_ & t & _ & [? _]). lia.
  - intros i hd Hhd. destruct (Hh i hd Hhd) as (_ & _ & t & _ & ? & _ & [Ex _]%expiry_Ok & _).
    destruct Hp. lia.
  - intros i hd x Hhd Hx. destruct (Hh i hd Hhd) as (_ & _ & t & _ & ? & _ & _ & _ & _ & Hb).
    specialize (Hb x Hx). lia.
Qed.

Lemma restored_applies p v r block refs :
  restored_ok network p v r → block_named block →
  (∃ e, apply_block_detailed block refs r = (Err e, r))
  ∨ ∃ out r', apply_block_detailed block refs r = (Ok out, r') ∧ indexed r'.
Proof.
  intros Hr Hn. pose proof Hr as [(Ep & Hp & Ev) Hi _ _ _ _ _]. rewrite apply_block_unfold.
  destruct (check_block r block refs) as [m|e|] eqn:Ec;
    [|by left; eexists|by destruct (check_block_no_panic r block refs)].
  right. destruct (ledger_transactions_total (E := ApplyError) (parameters r) (verifier r)
    (bl_height block) (bl_transactions block)
    (start_ledger (parameters r) (bl_height block) m (ledger_of r))) as [y Hy];
    [by rewrite Ep|exact Hn|].
  pose proof (transition_sim (E := ApplyError) r block m Hi (restored_typed p v r Hr)) as Hsim.
  destruct (res_sim_Ok _ _ _ _ Hsim Hy) as ([out r'] & Ht & Hb). rewrite Ht.
  exists out, r'. split; [done|]. apply Hb.
Qed.
End Loading.

(** C13: whatever bytes a host supplies, a state that loads is structurally valid
    at its tip: indexes agree with the records, every commitment is live, every
    head has the epoch, expiry and lifecycle its producer gives it, and the
    journal is a chain that ends at the tip.  Such a state applies the next block
    without a panic. *)
Theorem load_snapshot_sound `{Blake2b} `{Pallas} `{UnifiedAddress} `{!CanonicalJson Manifest}
  `{!SerdeJson StoredReducer} {V : Type} `{!ProofVerifier V}
  (network : Network) (p : Parameters) (v : V) (bytes : list byte) (r : Reducer V) :
  Parameters_typed p → load_snapshot p network v bytes = Ok r →
  restored_ok network p v r
  ∧ ∀ block refs, block_named block →
      (∃ e, apply_block_detailed block refs r = (Err e, r))
      ∨ ∃ out r', apply_block_detailed block refs r = (Ok out, r') ∧ indexed r'.
Proof.
  intros Hty Hl. unfold load_snapshot in Hl.
  apply res_bind_Ok in Hl as (q & Hq%map_err_Ok & (s & _ & Hr)%res_bind_Ok).
  apply validate_Ok in Hq as [-> Hp]; [|done].
  assert (restored_ok network p v r) as Hok by by eapply restore_reducer_inv.
  split; [done|]. intros. by eapply restored_applies.
Qed.
