(* ===== verification/ExactSnapshot.v ===== *)
(** * Snapshots of an exact resolver

    An exact resolver only ever stores, and only ever journals, the head of its
    name, so its snapshot passes the check of the loader and is restored
    exactly. *)

From S2P Require Import Prelude Bytes BTree External Protocol Schedule Codec Statement.
From S2P Require Import Records State Reducer Journal Ledger Invariant Keys Safety Lifecycle.
From S2P Require Import Ruleset Resolver Snapshot.

Section Lone.
Context `{Blake2b} `{Pallas} `{UnifiedAddress} {V : Type} `{!ProofVerifier V}.
Context (network : Network) (i : NameId).
Implicit Types (r : Reducer V).

(** Blocks about one name, and COMMITs. *)
Definition narrow_host : Host := λ block refs,
  typed_host network block refs
  ∧ ∀ tx op, tx ∈ bl_transactions block → tx_operation tx = Some op →
      about i op ∨ ∃ c, op = Commit c.

(** No other head is stored or journaled. *)
Definition lone r : Prop :=
  (∀ j, is_Some (heads r !! j) → j = i)
  ∧ ∀ u j, u ∈ history r → is_Some (un_heads u !! j) → j = i.

Lemma is_exact_for_lone r : is_exact_for r i = true ↔ lone r.
Proof.
  unfold is_exact_for, lone. rewrite andb_true_iff, !forallb_forall.
  setoid_rewrite forallb_forall. setoid_rewrite <- list_elem_of_In.
  setoid_rewrite bool_decide_eq_true. setoid_rewrite elem_of_btree_keys. naive_solver.
Qed.

Lemma ledger_transactions_lone {E} p v h txs l y :
  (∀ tx op, tx ∈ txs → tx_operation tx = Some op → about i op ∨ ∃ c, op = Commit c) →
  (∀ j, is_Some (lg_heads l !! j) → j = i) →
  ledger_transactions (E := E) p v h txs l = Ok y → ∀ j, is_Some (lg_heads y.2 !! j) → j = i.
Proof.
  revert l y. induction txs as [|tx txs IH]; intros l y Hn Hl Ht; cbn [ledger_transactions] in Ht.
  { by apply Ok_inj in Ht as <-. }
  apply res_bind_Ok in Ht as ([[d ts] l1] & Ht1 & ([[ds ts'] l2] & Ht2 & <-%Ok_inj)%res_bind_Ok).
  apply (IH l1 (ds, ts', l2)); [intros; eapply Hn; [by right|done]| |exact Ht2].
  apply res_bind_Ok in Ht1 as ([d0 l0] & Hop & [= _ _ <-]%Ok_inj). cbn [lg_heads].
  intros j. unfold end_spent. rewrite map_lookup_imap.
  destruct (lg_heads l0 !! j) as [hd|] eqn:E0; [|by intros [? [=]]]. intros _.
  apply ledger_operation_Ok in Hop as [[-> _]|[(c & _ & _ & ->)|(op & k & hd1 & Hop & -> & Hacc)]];
    [by apply Hl; exists hd..|]. simpl in E0.
  destruct (decide (j = k)) as [->|Hne]; [|rewrite lookup_insert_ne in E0 by done; by apply Hl; exists hd].
  assert (about k op) as Hk by (apply (accepted_about p v l h tx op k hd1); tauto).
  destruct (Hn tx op (list_elem_of_here _ _) Hop) as [Hi|[c ->]]; [|done].
  symmetry. by eapply about_inj.
Qed.

Lemma lone_apply r block refs out r' :
  reducer_ok r → lone r → narrow_host block refs → apply_block_detailed block refs r = (Ok out, r') →
  lone r'.
Proof.
  intros Hr [Hh Hu] [[Hb _] Hn] Ha.
  pose proof (apply_block_step block refs r Hr (block_typed_named network block Hb)) as Hs.
  destruct (check_block r block refs) as [m|e|]; [|congruence|done].
  destruct Hs as (y & out1 & r1 & Hy & Ha1 & Hrf & _). rewrite Ha in Ha1. injection Ha1 as <- <-.
  assert (∀ j, is_Some (heads r' !! j) → j = i) as Hh'.
  { pose proof (br_ledger _ _ _ _ _ _ _ Hrf) as El. intros j. change (heads r') with (lg_heads (ledger_of r')).
    rewrite El. eapply ledger_transactions_lone; [exact Hn| |exact Hy].
    intros k. simpl. rewrite start_heads_name. destruct (heads r !! k) as [hd|] eqn:Ek.
    - intros _. apply Hh. by rewrite Ek.
    - by intros [? [=]]. }
  split; [done|].
  destruct (apply_block_journal block refs r out r' (rk_indexed _ Hr) Ha) as (u & Ehi & _ & _ & Hj).
  rewrite Ehi. intros w j [Hw|Hw%list_elem_of_singleton]%elem_of_app Hs; [by eapply Hu|]. subst w.
  destruct Hs as [o Ho]. destruct (Hj j o Ho) as [_ [?|?]]; auto.
Qed.

(** What an exact resolver maintains. *)
Definition exact_state (p : Parameters) (v : V) r : Prop :=
  saveable network r ∧ configured p v r ∧ lone r.

#[export] Instance exact_state_maintained p v : Maintained narrow_host (exact_state p v).
Proof.
  split.
  - by intros r (_ & [] & _).
  - intros r block refs out r' (Hs & Hc & Hl) Hb Ha. split; [|split].
    + by eapply (maintained_apply (host := typed_host network)); [exact Hs|apply Hb|].
    + by eapply (maintained_apply (host := narrow_host)).
    + by eapply lone_apply; [apply Hs|..].
  - intros r k (Hs & Hc & [Hh Hu]). split; [|split; [|split]].
    + by apply (maintained_drop (host := typed_host network)).
    + by apply (maintained_drop (host := narrow_host)).
    + exact Hh.
    + intros u j Hin. apply Hu. cbn [set_history history] in Hin.
      rewrite <- (take_drop k (history r)), elem_of_app. by right.
Qed.
End Lone.

Section ExactSteps.
Context `{Blake2b} `{Pallas} `{UnifiedAddress} {V : Type} `{!ProofVerifier V}.
Context (network : Network).
Implicit Types (r : Reducer V) (x : ExactResolver V).

(** One call that changes an exact resolver. *)
Inductive exact_step : ExactResolver V → ExactResolver V → Prop :=
  | exact_step_apply x block refs out x' :
      typed_host network block refs → exact_apply_block_detailed block refs x = (Ok out, x') →
      exact_step x x'
  | exact_step_rollback x hash x' : exact_rollback_tip hash x = (Ok tt, x') → exact_step x x'
  | exact_step_finalize x height x' : exact_finalize_through height x = (Ok tt, x') → exact_step x x'.

Lemma filter_narrow {E} i block refs b :
  typed_host network block refs → filter_block (E := E) i block = Ok b →
  narrow_host network i b refs.
Proof.
  intros [Hb Hrefs] Hf.
  destruct (filter_block_spec (E := E) i block block (block_typed_named network block Hb) (thinned_self i block))
    as (b1 & Hf1 & _ & _ & _ & Hr). rewrite Hf in Hf1. apply Ok_inj in Hf1 as <-.
  split; [split; [|done]|].
  - intros y [k Hk]%list_elem_of_lookup.
    destruct (Forall2_lookup_r _ _ _ _ _ Hr Hk) as (tx & Htx & _ & _ & Ea & Hop).
    apply list_elem_of_lookup_2, Hb in Htx as [Hact Hops]. rewrite Ea. split; [done|].
    destruct Hop as [[-> _]|[-> _]]; [done|]. done.
  - intros y op [k Hk]%list_elem_of_lookup Hop.
    destruct (Forall2_lookup_r _ _ _ _ _ Hr Hk) as (tx & _ & _ & _ & _ & [[E1 Hab]|[E1 _]]); [|congruence].
    apply Hab. congruence.
Qed.

(** A delegated call that succeeds. *)
Lemma delegate_Ok {E A} (m : M (Reducer V) E A) x a x' :
  delegate m x = (Ok a, x') →
  m (er_reducer x) = (Ok a, er_reducer x') ∧ er_name x' = er_name x ∧ er_name_id x' = er_name_id x.
Proof. unfold delegate. destruct (m (er_reducer x)) as [r s]. by intros [= -> <-]. Qed.

Lemma exact_step_reducer x x' :
  exact_step x x' →
  step (narrow_host network (er_name_id x)) (er_reducer x) (er_reducer x')
  ∧ er_name x' = er_name x ∧ er_name_id x' = er_name_id x.
Proof.
  destruct 1 as [x block refs out x' Hb Ha|x hash x' Hr|x height x' Hf].
  - unfold exact_apply_block_detailed in Ha.
    apply sbind_Ok in Ha as (? & ? & [= <- <-] & (b & x1 & [Hfb <-]%mlift_Ok & Ha)%sbind_Ok).
    apply delegate_Ok in Ha as (Ha & ?). split; [|done].
    eapply step_apply; [by eapply filter_narrow|exact Ha].
  - apply delegate_Ok in Hr as (Hr & ?). split; [|done]. unfold rollback_tip in Hr.
    apply sbind_Ok in Hr as (d & s & Hr & [= <-]). by eapply step_rollback.
  - apply delegate_Ok in Hf as (Hf & ?). split; [|done]. by eapply step_finalize.
Qed.

Lemma exact_steps_reducer x x' :
  rtc exact_step x x' →
  rtc (step (narrow_host network (er_name_id x))) (er_reducer x) (er_reducer x')
  ∧ er_name x' = er_name x ∧ er_name_id x' = er_name_id x.
Proof.
  induction 1 as [x|x y z Hxy _ (Hyz & En & Ei)]; [split; [apply rtc_refl|done]|].
  destruct (exact_step_reducer x y Hxy) as (Hs & En1 & Ei1). rewrite Ei1 in *. rewrite En1 in *.
  split; [by eapply rtc_l|done].
Qed.
End ExactSteps.

(** C30: the snapshot of an exact resolver is restored exactly in every state it
    reaches from activation, and only under its own name: the loader's check that
    no foreign head is stored or journaled holds of every state the resolver can
    be in. *)
Theorem exact_snapshot_roundtrip `{Blake2b} `{Pallas} `{UnifiedAddress} `{!CanonicalJson Manifest}
  `{!SerdeJson StoredReducer} `{!SerdeJsonLaws StoredReducer}
  `{!SerdeJson StoredExactResolver} `{!SerdeJsonLaws StoredExactResolver}
  {V : Type} `{!ProofVerifier V}
  (network : Network) (p : Parameters) (hash : list byte) (name : Name) (v : V)
  (x0 x : ExactResolver V) :
  is_Some (to_value_vec EMBEDDED_MANIFEST) → Parameters_typed p →
  exact_new p hash name v = Ok x0 → rtc (exact_step network) x0 x →
  ∃ bytes, exact_save_snapshot x = Ok bytes
    ∧ exact_load_snapshot p network name v bytes = Ok x
    ∧ ∀ other w, other ≠ name →
        exact_load_snapshot (V := V) p network other w bytes = Err NameMismatch.
Proof.
  intros Hm Hty Hn (Hsteps & En & Ei)%exact_steps_reducer. unfold exact_new in Hn.
  apply res_bind_Ok in Hn as (i & Hi%map_err_Ok & (r0 & Hr0 & <-%Ok_inj)%res_bind_Ok).
  cbn [er_name er_name_id er_reducer] in *.
  destruct (new_saveable network p hash v r0 Hty Hr0) as [[Hs0 Hc0] Hh0].
  assert (exact_state network i p v r0) as Hx0.
  { split; [done|]. split; [done|]. split; [|rewrite Hh0; by intros u j ?%not_elem_of_nil].
    unfold new in Hr0. inv_res. intros j. simpl. rewrite lookup_empty. by intros [? [=]]. }
  destruct (recoverable_ok _ _ (maintained_steps r0 _ Hx0 Hh0 Hsteps)) as (Hs & (_ & Ep & Ev) & Hl).
  apply is_exact_for_lone in Hl.
  destruct (save_total (er_reducer x) Hm) as [inner Hinner].
  destruct (ruleset_fingerprint_total (E := SnapshotError) Hm) as [f Hf].
  unfold exact_save_snapshot, protocol_identity. rewrite Hf. cbn [res_bind pi_deployment_id].
  rewrite Hinner. cbn [res_bind]. set (stored := {| sx_format_version := _ |}).
  destruct (from_slice_to_vec stored) as (b & Hb & Hfrom). rewrite Hb. exists b. split; [done|].
  unfold exact_load_snapshot. rewrite Hfrom. cbn [ok_or res_bind].
  unfold stored. cbn [sx_format_version sx_name sx_deployment_id sx_ruleset_fingerprint sx_reducer
    sx_rollback_range]. rewrite Z.eqb_refl, En. cbn [ensure res_bind]. split.
  - rewrite bool_decide_true by done. cbn [ensure res_bind]. rewrite Hf. cbn [res_bind].
    rewrite Ep, !bool_decide_true by done. cbn [andb ensure res_bind]. rewrite Hi. cbn [map_err res_bind].
    pose proof (load_saved network inner (er_reducer x) Hs Hinner) as Hload. rewrite Ep, Ev in Hload.
    rewrite Hload. cbn [res_bind]. rewrite Hl. cbn [ensure res_bind].
    rewrite bool_decide_true by done. cbn [ensure res_bind]. f_equal.
    destruct x. cbn in *. by subst.
  - intros other w Hne. rewrite bool_decide_false; [done|]. intros E1. apply Hne.
    destruct other, name. cbn in *. congruence.
Qed.
