(* ===== verification/SemanticTrace.v ===== *)
(** * The semantic trace ([crates/coppice-names/src/bin/names-semantic-trace.rs])

    The binary that replays a corpus of histories through the full reducer and an
    exact resolver for every tracked name, compares their resolutions after every
    step and prints what both answered. *)

From S2P Require Import Prelude Bytes BTree External Protocol Schedule Codec Statement.
From S2P Require Import Records State Reducer Resolver Ruleset Snapshot Lockstep.

(** ** JSON *)

(** [serde_json::Value].  The fields of an object are in the order of their keys:
    [serde_json::Map] is a [BTreeMap]. *)
Inductive Value :=
  | JNull
  | JBool (b : bool)
  | JNumber (z : Z)
  | JString (s : list byte)
  | JArray (l : list Value)
  | JObject (fields : list (list byte * Value)).

#[global] Instance Value_eq_dec : EqDecision Value.
Proof.
  refine (fix go (a b : Value) : Decision (a = b) :=
    match a, b with
    | JNull, JNull => left eq_refl
    | JBool x, JBool y => cast_if (decide (x = y))
    | JNumber x, JNumber y => cast_if (decide (x = y))
    | JString x, JString y => cast_if (decide (x = y))
    | JArray l, JArray m => cast_if (List.list_eq_dec go l m)
    | JObject l, JObject m => cast_if (List.list_eq_dec (λ '(k, v) '(i, w),
        cast_if_and (decide (k = i)) (go v w)) l m)
    | _, _ => right _
    end); congruence.
Defined.

#[global] Instance string_key : OrdKey (list byte).
Proof. exists (map byte_val). intros x y. apply map_byte_val_inj. Defined.

(** [json!({..})], and the [Map] or [BTreeMap] of string keys as a value. *)
Definition map_value (m : gmap (list byte) Value) : Value := JObject (btree_iter m).
Definition json_object (fields : list (string * Value)) : Value :=
  map_value (btree_collect (map (λ '(k, v), (lit k, v)) fields)).

(** Indexing of a value by a string. *)
Definition json_index (v : Value) (k : list byte) : Value :=
  match v with
  | JObject fields => default JNull (btree_collect fields !! k)
  | _ => JNull
  end.

Definition json_option {A : Type} (f : A → Value) (o : option A) : Value :=
  match o with Some a => f a | None => JNull end.
Definition json_text (s : string) : Value := JString (lit s).

(** [hex], whose errors are their text. *)
Class Hex := {
  hex_decode : list byte → list byte + list byte;
  hex_encode : list byte → list byte;
}.

(** ** The corpus *)

Record CorpusParameters := MkCorpusParameters {
  cpa_deployment_id_hex : list byte;
  cpa_activation_height : Z;
  cpa_epoch_blocks : Z;
  cpa_window_blocks : Z;
  cpa_commit_maturity_blocks : Z;
  cpa_commit_ttl_blocks : Z;
  cpa_lease_blocks : Z;
  cpa_cooldown_blocks : Z;
}.

Record CorpusCommitRef := MkCorpusCommitRef {
  ccr_height : Z;
  ccr_tx_index : Z;
  ccr_txid_hex : list byte;
}.

Record CorpusStateRef := MkCorpusStateRef {
  csr_height : Z;
  csr_tx_index : Z;
  csr_txid_hex : list byte;
  csr_action_index : Z;
}.

Inductive CorpusField :=
  | Small (value : Z)
  | LittleEndianHex (value : list byte).

Record CorpusReferencedCommit := MkCorpusReferencedCommit {
  crc_reference : CorpusCommitRef;
  crc_commitment : CorpusField;
}.

Record CorpusAction := MkCorpusAction {
  cac_action_index : Z;
  cac_nullifier : CorpusField;
  cac_commitment : CorpusField;
}.

Inductive CorpusOperation :=
  | CorpusCommit (commitment : CorpusField)
  | CorpusReveal (name : list byte) (commit : CorpusCommitRef) (ua : list byte)
      (action_index : Z) (successor_future_nf : CorpusField) (proof_valid : bool)
  | CorpusRefresh (name : list byte) (predecessor : CorpusStateRef) (ua : list byte)
      (action_index : Z) (successor_future_nf : CorpusField) (proof_valid : bool).

Record CorpusTransaction := MkCorpusTransaction {
  ctx_tx_index : Z;
  ctx_txid_hex : list byte;
  ctx_actions : list CorpusAction;
  ctx_operation : option CorpusOperation;
}.

Record CorpusBlock := MkCorpusBlock {
  cbl_height : Z;
  cbl_branch_byte : byte;
  cbl_prev_hash_hex : option (list byte);
  cbl_transactions : list CorpusTransaction;
}.

Inductive Step :=
  | StepAdvanceEmpty (label : list byte) (through_height : Z) (branch_byte : byte)
  | StepApply (label : list byte) (block : CorpusBlock)
      (referenced_commits : list CorpusReferencedCommit)
  | StepRollback (label : list byte) (height : Z) (branch_byte : byte)
      (expected_hash_hex : option (list byte)).

Record Case := MkCase {
  cs_id : list byte;
  cs_activation_parent_hash_hex : list byte;
  cs_parameters : CorpusParameters;
  cs_tracked_names : list (list byte);
  cs_known_commit_refs : list CorpusCommitRef;
  cs_steps : list Step;
}.

Record Corpus := MkCorpus {
  co_format : list byte;
  co_network : list byte;
  co_cases : list Case;
}.

(** ** Errors

    The binary's errors are strings; [trace_message] writes them. *)
Inductive TraceError :=
  | TraceHex (message : list byte)
  | TraceLength (hex_value : list byte)
  | TraceField (error : ValueError)
  | TraceCommitment (error : ValueError)
  | TraceName (error : ValueError)
  | TraceUa (error : ValueError)
  | TraceTrackedName (error : ValueError)
  | TraceParameters (error : ApplyError)
  | TraceResolver (error : ApplyError)
  | TraceDivergence (id label name : list byte)
  | TraceFormat (format : list byte)
  | TraceNetwork (network : list byte)
  | TraceInput (message : list byte).

(** The derived [Debug] of the enums. *)
Definition debug_value_error (e : ValueError) : string :=
  match e with
  | InvalidName => "InvalidName" | InvalidField => "InvalidField" | ZeroField => "ZeroField"
  | InvalidUa => "InvalidUa" | NonCanonicalUa => "NonCanonicalUa" | WrongNetwork => "WrongNetwork"
  | UaTooLong => "UaTooLong" | HashToFieldExhausted => "HashToFieldExhausted"
  end.

Definition debug_apply_error (e : ApplyError) : string :=
  match e with
  | ApplyInvalidParameters => "InvalidParameters"
  | WrongHeight => "WrongHeight"
  | WrongPreviousHash => "WrongPreviousHash"
  | NonCanonicalTransactionIndex => "NonCanonicalTransactionIndex"
  | NonCanonicalActionIndex => "NonCanonicalActionIndex"
  | InvalidReferencedCommit => "InvalidReferencedCommit"
  | ConflictingReferencedCommit => "ConflictingReferencedCommit"
  end.

Definition debug_rollback_error (e : RollbackError) : string :=
  match e with
  | NoAppliedBlock => "NoAppliedBlock"
  | BeyondRetention => "BeyondRetention"
  | WrongTipHash => "WrongTipHash"
  end.

Definition debug_accepted (a : Accepted) : string :=
  match a with
  | AcceptedCommit => "Commit" | AcceptedReveal => "Reveal" | AcceptedRefresh => "Refresh"
  end.

Definition debug_lifecycle (l : Lifecycle) : string :=
  match l with Active => "Active" | Cooldown => "Cooldown" | Missing => "Missing" end.

Definition trace_message (e : TraceError) : list byte :=
  match e with
  | TraceHex message => message
  | TraceLength hex_value => lit "expected 32 bytes: " ++ hex_value
  | TraceField error => lit "invalid field: " ++ lit (debug_value_error error)
  | TraceCommitment error => lit "invalid commitment: " ++ lit (debug_value_error error)
  | TraceName error => lit "invalid name: " ++ lit (debug_value_error error)
  | TraceUa error => lit "invalid UA: " ++ lit (debug_value_error error)
  | TraceTrackedName error => lit "invalid tracked name: " ++ lit (debug_value_error error)
  | TraceParameters error => lit "invalid parameters: " ++ lit (debug_apply_error error)
  | TraceResolver error => lit "invalid resolver: " ++ lit (debug_apply_error error)
  | TraceDivergence id label name =>
      id ++ lit ":" ++ label ++ lit ": full/exact resolution divergence for " ++ name
  | TraceFormat format => lit "unsupported corpus format: " ++ format
  | TraceNetwork network => lit "unsupported network: " ++ network
  | TraceInput message => message
  end.

(** A verifier that reads the verdict off the proof. *)
Inductive ExplicitProofVerdicts := MkExplicitProofVerdicts.

#[global] Instance explicit_verifier : ProofVerifier ExplicitProofVerdicts := {|
  verify_reveal _ _ proof := bool_decide (proof = [x01]);
  verify_refresh _ _ proof := bool_decide (proof = [x01]) |}.

(** ** Decoding *)

Section Decoding.
Context `{Pallas} `{UnifiedAddress} `{Hex}.

Definition bytes32 (hex_value : list byte) : res TraceError (list byte) :=
  let? value := lift_err TraceHex (hex_decode hex_value) in
  if bool_decide (length value = 32%nat) then Ok value else Err (TraceLength hex_value).

Definition corpus_field_bytes (value : CorpusField) : res TraceError (list byte) :=
  match value with
  | Small value => Ok (to_repr (base_from_u64 value))
  | LittleEndianHex value => bytes32 value
  end.

Definition corpus_field (value : CorpusField) : res TraceError FieldElement :=
  let? bytes := corpus_field_bytes value in map_err TraceField (FieldElement_from_bytes bytes).

Definition corpus_commitment (value : CorpusField) : res TraceError Commitment :=
  let? bytes := corpus_field_bytes value in map_err TraceCommitment (Commitment_from_bytes bytes).

Definition corpus_hash (branch_byte : byte) (height : Z) : list byte :=
  repeat branch_byte 28 ++ be_bytes 4 height.

Definition corpus_parameters (value : CorpusParameters) : res TraceError Parameters :=
  let? deployment_id := bytes32 (cpa_deployment_id_hex value) in
  Ok (MkParameters deployment_id (cpa_activation_height value) (cpa_epoch_blocks value)
        (cpa_window_blocks value) (cpa_commit_maturity_blocks value) (cpa_commit_ttl_blocks value)
        (cpa_lease_blocks value) (cpa_cooldown_blocks value)).

Definition corpus_commit_ref (value : CorpusCommitRef) : res TraceError CommitRef :=
  let? txid := bytes32 (ccr_txid_hex value) in
  Ok (MkCommitRef (ccr_height value) (ccr_tx_index value) txid).

Definition corpus_state_ref (value : CorpusStateRef) : res TraceError StateRef :=
  let? txid := bytes32 (csr_txid_hex value) in
  Ok (MkStateRef (csr_height value) (csr_tx_index value) txid (csr_action_index value)).

(** [u8::from(bool)] *)
Definition verdict (proof_valid : bool) : byte := if proof_valid then x01 else x00.

Definition corpus_operation (value : CorpusOperation) (network : Network) : res TraceError Operation :=
  match value with
  | CorpusCommit value =>
      let? commitment := corpus_commitment value in Ok (Commit commitment)
  | CorpusReveal name commit ua action_index successor_future_nf proof_valid =>
      let? name := map_err TraceName (Name_parse name) in
      let? commit := corpus_commit_ref commit in
      let? ua := map_err TraceUa (CanonicalUa_parse network ua) in
      let? successor_future_nf := corpus_field successor_future_nf in
      Ok (Reveal name commit ua action_index successor_future_nf [verdict proof_valid])
  | CorpusRefresh name predecessor ua action_index successor_future_nf proof_valid =>
      let? name := map_err TraceName (Name_parse name) in
      let? predecessor := corpus_state_ref predecessor in
      let? ua := map_err TraceUa (CanonicalUa_parse network ua) in
      let? successor_future_nf := corpus_field successor_future_nf in
      Ok (Refresh name predecessor ua action_index successor_future_nf [verdict proof_valid])
  end.

Definition corpus_action (action : CorpusAction) : res TraceError Action :=
  let? nullifier := corpus_field (cac_nullifier action) in
  let? commitment := corpus_field (cac_commitment action) in
  Ok (MkAction (cac_action_index action) nullifier commitment).

Definition corpus_transaction (network : Network) (value : CorpusTransaction)
  : res TraceError Transaction :=
  let? txid := bytes32 (ctx_txid_hex value) in
  let? actions := res_mapM corpus_action (ctx_actions value) in
  let? operation := transpose (λ value, corpus_operation value network) (ctx_operation value) in
  Ok (MkTransaction (ctx_tx_index value) txid actions operation).

Definition corpus_block (value : CorpusBlock) (previous_hash : list byte) (network : Network)
  : res TraceError Block :=
  let? prev_hash := transpose bytes32 (cbl_prev_hash_hex value) in
  let? transactions := res_mapM (corpus_transaction network) (cbl_transactions value) in
  Ok (MkBlock (cbl_height value) (corpus_hash (cbl_branch_byte value) (cbl_height value))
        (default previous_hash prev_hash) transactions).

Definition referenced (values : list CorpusReferencedCommit) : res TraceError (list ReferencedCommit) :=
  res_mapM (λ value,
    let? reference := corpus_commit_ref (crc_reference value) in
    let? commitment := corpus_commitment (crc_commitment value) in
    Ok (MkReferencedCommit reference commitment)) values.
End Decoding.

(** ** What is printed *)

Section Printing.
Context `{Hex}.

Definition hex_text (b : list byte) : Value := JString (hex_encode b).

Definition trace_accepted (values : list Accepted) : Value :=
  JArray (map (λ value, json_text (debug_accepted value)) values).

Definition state_ref_json (value : StateRef) : Value :=
  json_object [("height", JNumber (sr_height value));
               ("tx_index", JNumber (sr_tx_index value));
               ("txid_hex", hex_text (sr_txid value));
               ("action_index", JNumber (sr_action_index value))]%string.

Definition compaction_json (value : Compaction) : Value :=
  json_object [("clause_id", json_text "NAMES.LIFECYCLE.COMPACT");
               ("height", JNumber (cp_height value));
               ("name_id_hex", hex_text (name_id_bytes (cp_name_id value)));
               ("previous_head", state_ref_json (cp_previous_head value));
               ("transition", json_text "Compacted")]%string.

Definition termination_json (value : Termination) : Value :=
  json_object [("clause_id", json_text "NAMES.SPEND.CURRENT");
               ("height", JNumber (tm_height value));
               ("name_id_hex", hex_text (name_id_bytes (tm_name_id value)));
               ("previous_head", state_ref_json (tm_previous_head value));
               ("transition", json_text "Terminated")]%string.

Definition transitions (outcome : BlockOutcome) : list Value :=
  map compaction_json (bo_compacted outcome) ++ map termination_json (bo_terminated outcome).

(** [Name::parse(name).ok().as_ref() != Some(target)], for a target *)
Definition other_name (exact_name : option Name) (name : list byte) : bool :=
  match exact_name with
  | Some target =>
      bool_decide (match Name_parse name with Ok n => Some n | _ => None end ≠ Some target)
  | None => false
  end.

Definition operation_kind (value : option CorpusOperation) (exact_name : option Name) : string :=
  match value with
  | None => "inert"
  | Some (CorpusCommit _) => "commit"
  | Some (CorpusReveal name _ _ _ _ _) => if other_name exact_name name then "inert" else "reveal"
  | Some (CorpusRefresh name _ _ _ _ _) => if other_name exact_name name then "inert" else "refresh"
  end.

Definition decision_json {E : Type} (accepted_block : bool) (exact_name : option Name)
  (operation_decisions : list OperationDecision) (block_clause : string)
  (entry : Z * CorpusTransaction) : res E Value :=
  let '(position, transaction) := entry in
  let kind := operation_kind (ctx_operation transaction) exact_name in
  let? (accepted, clause_id) :=
    if negb accepted_block then Ok (JNull, block_clause)
    else
      let? decision := expect (operation_decisions !! Z.to_nat position) in
      Ok (JBool (bool_decide (is_Some (od_accepted decision))), od_clause_id decision) in
  Ok (json_object [("tx_index", JNumber (ctx_tx_index transaction)); ("kind", json_text kind);
                   ("accepted", accepted); ("clause_id", json_text clause_id)])%string.

Definition decisions_json {E : Type} (input : CorpusBlock) (accepted_block : bool)
  (exact_name : option Name) (operation_decisions : list OperationDecision) (block_clause : string)
  : res E Value :=
  let? values := res_mapM (decision_json accepted_block exact_name operation_decisions block_clause)
                   (enumerate (cbl_transactions input)) in
  Ok (JArray values).

Definition apply_error_clause (error : ApplyError) : string :=
  match error with
  | WrongHeight | WrongPreviousHash => "NAMES.BLOCK.CONTINUITY"
  | NonCanonicalTransactionIndex | NonCanonicalActionIndex => "NAMES.BLOCK.ORDER"
  | InvalidReferencedCommit | ConflictingReferencedCommit => "NAMES.REVEAL.COMMIT"
  | ApplyInvalidParameters => "NAMES.BLOCK.ACTIVATION"
  end.

(** [apply_result]; [exact_apply_result] is the same of a name. *)
Definition apply_result (input : CorpusBlock) (result : res ApplyError BlockOutcome)
  (exact_name : option Name) : res TraceError Value :=
  match result with
  | Ok outcome =>
      let? operations :=
        decisions_json input true exact_name (bo_decisions outcome) "NAMES.BLOCK.ORDER" in
      Ok (json_object [("ok", trace_accepted (bo_accepted outcome)); ("operations", operations);
                       ("transitions", JArray (transitions outcome))])%string
  | Err error =>
      let? operations := decisions_json input false exact_name [] (apply_error_clause error) in
      Ok (json_object [("clause_id", json_text (apply_error_clause error));
                       ("error", json_text (debug_apply_error error));
                       ("operations", operations)])%string
  | Panic => Panic
  end.
Definition exact_apply_result (input : CorpusBlock) (result : res ApplyError BlockOutcome)
  (name : Name) : res TraceError Value := apply_result input result (Some name).

Definition ref_json (value : CorpusCommitRef) : Value :=
  json_object [("height", JNumber (ccr_height value)); ("tx_index", JNumber (ccr_tx_index value));
               ("txid_hex", JString (ccr_txid_hex value))]%string.

Definition head_json (value : Head) : Value :=
  json_object [("name", JString (name_bytes (hd_name value)));
               ("ua", JString (ua_bytes (hd_ua value)));
               ("producer", state_ref_json (hd_producer value));
               ("commitment_hex", hex_text (field_bytes (hd_commitment value)));
               ("future_nf_hex", hex_text (field_bytes (hd_future_nf value)));
               ("producer_epoch", JNumber (hd_producer_epoch value));
               ("expiry_height", JNumber (hd_expiry_height value));
               ("terminal_height", json_option JNumber (hd_terminal_height value))]%string.

Definition resolution_json (value : Resolution) : Value :=
  json_object [("lifecycle", json_text (debug_lifecycle (rs_lifecycle value)));
               ("ua", json_option (λ ua, JString (ua_bytes ua)) (rs_ua value));
               ("head", json_option head_json (rs_head value))]%string.

Definition resolution_result_json (value : res ResolutionError Resolution) : res TraceError Value :=
  match value with
  | Ok resolution => Ok (resolution_json resolution)
  | Err (IncompleteHistory requested_height tip_height) =>
      Ok (json_object [("clause_id", json_text "NAMES.EXACT.PARITY");
                       ("error", json_text "IncompleteHistory");
                       ("requested_height", JNumber requested_height);
                       ("tip_height", json_option JNumber tip_height)])%string
  | Err (HistoricalResolutionUnavailable requested_height tip_height) =>
      Ok (json_object [("clause_id", json_text "NAMES.EXACT.PARITY");
                       ("error", json_text "HistoricalResolutionUnavailable");
                       ("requested_height", JNumber requested_height);
                       ("tip_height", JNumber tip_height)])%string
  | Panic => Panic
  end.

Definition tip_json (tip : option ReducerTip) : Value :=
  json_option (λ tip, json_object [("height", JNumber (tip_height_ tip));
                                   ("hash_hex", hex_text (tip_hash tip))]%string) tip.

Definition rollback_result {E : Type} (result : res RollbackError unit) : res E Value :=
  match result with
  | Ok _ => Ok (json_object [("ok", JBool true); ("error", JNull);
                             ("clause_id", json_text "NAMES.ROLLBACK.EXACT")])%string
  | Err error => Ok (json_object [("ok", JBool false); ("error", json_text (debug_rollback_error error));
                                  ("clause_id", json_text "NAMES.ROLLBACK.EXACT")])%string
  | Panic => Panic
  end.

Definition identity_json (identity : ProtocolIdentity) : Value :=
  json_object [("deployment_id_hex", hex_text (pi_deployment_id identity));
               ("ruleset_fingerprint_hex", hex_text (pi_ruleset_fingerprint identity))]%string.
End Printing.

(** ** The replays of a case *)

Section Cases.
Context `{Blake2b} `{Pallas} `{UnifiedAddress} `{!CanonicalJson Manifest} `{Hex}.
#[local] Notation V := ExplicitProofVerdicts.
#[local] Notation Exact := (gmap (list byte) (Name * ExactResolver V)).

(** The local variables [full] and [exact] of [run_case]. *)
Record Replicas := MkReplicas {
  rp_full : Reducer V;
  rp_exact : Exact;
}.

(** [for (label, (name, resolver)) in &mut exact], with what each turn gives. *)
Definition for_exact {A : Type} (f : Name → ExactResolver V → res TraceError (A * ExactResolver V))
  (exact : Exact) : res TraceError (gmap (list byte) A * Exact) :=
  res_fold (λ '(results, exact) '(label, (name, resolver)),
    let? (a, resolver) := f name resolver in
    Ok (<[label := a]> results, <[label := (name, resolver)]> exact)) (∅, exact) (btree_iter exact).

(** One block on all the replicas: the common part of [AdvanceEmpty] and [Apply]. *)
Definition apply_everywhere (input : CorpusBlock) (block : Block) (evidence : list ReferencedCommit)
  (s : Replicas) : res TraceError (Value * gmap (list byte) Value * Replicas) :=
  let '(result, full) := apply_block_detailed block evidence (rp_full s) in
  let? full_result := apply_result input result None in
  let? (exact_results, exact) := for_exact (λ name resolver,
    let '(result, resolver) := exact_apply_block_detailed block evidence resolver in
    let? value := exact_apply_result input result name in
    Ok (value, resolver)) (rp_exact s) in
  Ok (full_result, exact_results, MkReplicas full exact).

(** [exact_results.get_mut(name_label).expect("initialized").push(value)] *)
Definition push_results (results : gmap (list byte) (list Value)) (values : gmap (list byte) Value)
  : res TraceError (gmap (list byte) (list Value)) :=
  res_fold (λ results '(label, value),
    let? l := expect (results !! label) in Ok (<[label := l ++ [value]]> results))
    results (btree_iter values).

Context (network : Network) (parameters : Parameters) (parent_hash : list byte)
  (names : list (list byte * Name)).

Definition previous_hash_of (full : Reducer V) : list byte :=
  match tip full with Some tip => tip_hash tip | None => parent_hash end.

(** [tip.height.saturating_add(1)] *)
Definition next_height_of (full : Reducer V) : Z :=
  match tip full with
  | Some tip => Z.min (tip_height_ tip + 1) u32_max
  | None => activation_height parameters
  end.

(** The [loop] of [AdvanceEmpty].  [None]: it has not ended after [fuel] turns. *)
Fixpoint advance_loop (fuel : nat) (through_height : Z) (branch_byte : byte)
  (full_results : list Value) (exact_results : gmap (list byte) (list Value)) (s : Replicas)
  : option (res TraceError (list Value * gmap (list byte) (list Value) * Replicas)) :=
  match fuel with
  | O => None
  | S fuel =>
      let next_height := next_height_of (rp_full s) in
      if through_height <? next_height then Some (Ok (full_results, exact_results, s))
      else
        let input := MkCorpusBlock next_height branch_byte None [] in
        let turn :=
          let? block := corpus_block input (previous_hash_of (rp_full s)) network in
          let? (full_result, values, s) := apply_everywhere input block [] s in
          let? exact_results := push_results exact_results values in
          Ok (full_result, exact_results, s) in
        match turn with
        | Ok (full_result, exact_results, s) =>
            advance_loop fuel through_height branch_byte (full_results ++ [full_result]) exact_results s
        | Err e => Some (Err e)
        | Panic => Some Panic
        end
  end.

Definition advance_json (values : list Value) : Value :=
  json_object [("advance", JArray values)]%string.

(** The label and the results of a step.  A loop that does not end is a [Panic]. *)
Definition run_step (step : Step) (s : Replicas)
  : res TraceError (list byte * Value * gmap (list byte) Value * Replicas) :=
  match step with
  | StepAdvanceEmpty label through_height branch_byte =>
      let exact_results := btree_collect (map (λ '(label, _), (label, [])) names) in
      let? (full_results, exact_results, s) :=
        default Panic (advance_loop (S (Z.to_nat (through_height + 1))) through_height branch_byte
                         [] exact_results s) in
      Ok (label, advance_json full_results, advance_json <$> exact_results, s)
  | StepApply label input referenced_commits =>
      let? materialized := corpus_block input (previous_hash_of (rp_full s)) network in
      let? evidence := referenced referenced_commits in
      let? (full_result, exact_results, s) := apply_everywhere input materialized evidence s in
      Ok (label, full_result, exact_results, s)
  | StepRollback label height branch_byte expected_hash_hex =>
      let? expected := transpose bytes32 expected_hash_hex in
      let expected := default (corpus_hash branch_byte height) expected in
      let '(result, full) := rollback_tip expected (rp_full s) in
      let? full_result := rollback_result result in
      let? (exact_results, exact) := for_exact (λ _ resolver,
        let '(result, resolver) := exact_rollback_tip expected resolver in
        let? value := rollback_result result in
        Ok (value, resolver)) (rp_exact s) in
      Ok (label, full_result, exact_results, MkReplicas full exact)
  end.

(** ** Snapshots and their comparison *)

Definition pending_json (pending : CommitRef → option Commitment) (reference : CorpusCommitRef)
  : res TraceError Value :=
  let? reference_value := corpus_commit_ref reference in
  Ok (json_object [("reference", ref_json reference);
                   ("commitment_hex",
                    json_option (λ value, hex_text (commitment_bytes value)) (pending reference_value))])%string.

Definition state_json (identity : ProtocolIdentity) (tip : option ReducerTip) (resolutions : Value)
  (pending : list Value) : Value :=
  json_object [("protocol_identity", identity_json identity); ("tip", tip_json tip);
               ("resolutions", resolutions); ("pending_commits", JArray pending)]%string.

Definition height_of (tip : option ReducerTip) : Z :=
  match tip with Some tip => tip_height_ tip | None => activation_height parameters end.

Definition full_snapshot (reducer : Reducer V) (known_refs : list CorpusCommitRef)
  : res TraceError Value :=
  let? resolutions := res_mapM (λ '(label, name),
    let? value := resolution_result_json
                    (resolve_authenticated reducer name (height_of (tip reducer))) in
    Ok (label, value)) names in
  let? pending := res_mapM (pending_json (pending_commit reducer)) known_refs in
  let? identity := protocol_identity reducer in
  Ok (state_json identity (tip reducer) (map_value (btree_collect resolutions)) pending).

Definition exact_snapshot (resolver : ExactResolver V) (label : list byte)
  (known_refs : list CorpusCommitRef) : res TraceError Value :=
  let? resolution := resolution_result_json
                       (exact_resolve resolver (height_of (exact_tip resolver))) in
  let? pending := res_mapM (pending_json (exact_pending_commit resolver)) known_refs in
  let? identity := protocol_identity (er_reducer resolver) in
  Ok (state_json identity (exact_tip resolver) (map_value {[label := resolution]}) pending).

Definition exact_states (exact : Exact) (known_refs : list CorpusCommitRef)
  : res TraceError (gmap (list byte) Value) :=
  let? values := res_mapM (λ '(label, (_, resolver)),
    let? value := exact_snapshot resolver label known_refs in Ok (label, value)) (btree_iter exact) in
  Ok (btree_collect values).

(** [state["resolutions"][label_name]] *)
Definition resolution_of (state : Value) (label_name : list byte) : Value :=
  json_index (json_index state (lit "resolutions")) label_name.

(** The loop body of the comparison. *)
Definition compare_states (id label : list byte) (full_state : Value)
  (exact_state : gmap (list byte) Value) (entry : list byte * Name) : res TraceError unit :=
  let '(label_name, _) := entry in
  let? state := expect (exact_state !! label_name) in
  ensure (bool_decide (resolution_of full_state label_name = resolution_of state label_name))
    (TraceDivergence id label label_name).

(** The body of the loop over the steps. *)
Definition trace_step (id : list byte) (known_refs : list CorpusCommitRef)
  (acc : Replicas * list Value) (step : Step) : res TraceError (Replicas * list Value) :=
  let '(s, trace) := acc in
  let? (label, full_result, exact_results, s) := run_step step s in
  let? full_state := full_snapshot (rp_full s) known_refs in
  let? exact_state := exact_states (rp_exact s) known_refs in
  let? _ := res_mapM (compare_states id label full_state exact_state) names in
  Ok (s, trace ++ [json_object [("label", JString label); ("full_result", full_result);
                                ("exact_results", map_value exact_results);
                                ("full_state", full_state);
                                ("exact_state", map_value exact_state)]%string]).
End Cases.

Section Run.
Context `{Blake2b} `{Pallas} `{UnifiedAddress} `{!CanonicalJson Manifest} `{Hex}.

Definition tracked_name (label : list byte) : res TraceError (list byte * Name) :=
  let? name := map_err TraceTrackedName (Name_parse label) in Ok (name_bytes name, name).

Definition resolver_of (parameters : Parameters) (parent_hash : list byte) (entry : list byte * Name)
  : res TraceError (list byte * (Name * ExactResolver ExplicitProofVerdicts)) :=
  let '(label, name) := entry in
  let? resolver :=
    map_err TraceResolver (exact_new parameters parent_hash name MkExplicitProofVerdicts) in
  Ok (label, (name, resolver)).

(** [run_case] *)
Definition run_case (case : Case) (network : Network) : res TraceError Value :=
  let? parameters := corpus_parameters (cs_parameters case) in
  let? parent_hash := bytes32 (cs_activation_parent_hash_hex case) in
  let? names := res_mapM tracked_name (cs_tracked_names case) in
  let? full := map_err TraceParameters (new parameters parent_hash MkExplicitProofVerdicts) in
  let? exact := res_mapM (resolver_of parameters parent_hash) names in
  let? (_, trace) :=
    res_fold (trace_step network parameters parent_hash names (cs_id case) (cs_known_commit_refs case))
      (MkReplicas full (btree_collect exact), []) (cs_steps case) in
  Ok (json_object [("id", JString (cs_id case)); ("trace", JArray trace)])%string.

Definition network_of (network : list byte) : res TraceError Network :=
  if bool_decide (network = lit "main") then Ok Main
  else if bool_decide (network = lit "test") then Ok Test
  else if bool_decide (network = lit "regtest") then Ok Regtest
  else Err (TraceNetwork network).

(** The part of [main] between reading the corpus and printing its trace. *)
Definition corpus_trace (corpus : Corpus) : res TraceError Value :=
  let? _ := ensure (bool_decide (co_format corpus = lit "coppice-names-semantic-history"))
              (TraceFormat (co_format corpus)) in
  let? network := network_of (co_network corpus) in
  let? cases := res_mapM (λ case, run_case case network) (co_cases corpus) in
  Ok (json_object [("format", json_text "coppice-names-semantic-trace");
                   ("cases", JArray cases)])%string.

(** [serde_json::{from_slice, to_string}], whose errors are their text. *)
Class CorpusJson := {
  parse_corpus : list byte → list byte + Corpus;
  print_value : Value → list byte + list byte;
}.

(** [main], from the contents of the corpus file to what is printed. *)
Definition main_ `{!CorpusJson} (contents : list byte + list byte) : res (list byte) (list byte) :=
  map_err trace_message (
    let? contents := lift_err TraceInput contents in
    let? corpus := lift_err TraceInput (parse_corpus contents) in
    let? trace := corpus_trace corpus in
    lift_err TraceInput (print_value trace)).
End Run.
