(* ===== verification/TraceFacts.v ===== *)
(** * When the semantic trace reports no divergence

    On cases whose advances end below [u32::MAX] and whose evidence is about every
    tracked name, a run ends in a trace or in the error of a malformed corpus; in the
    trace, every exact resolver has answered and ended as the full reducer. *)

From S2P Require Import Prelude Bytes BTree External Protocol Schedule Codec Statement.
From S2P Require Import Records State Reducer Journal Ledger Invariant Safety Ruleset Snapshot.
From S2P Require Import Resolver Lockstep SemanticTrace.

(** ** Outcomes of the binary *)

(** Every error but a divergence is about the corpus. *)
Definition malformed (e : TraceError) : Prop :=
  match e with TraceDivergence _ _ _ => False | _ => True end.

(** A result that satisfies [P], or an error that satisfies [R]. *)
Definition settles (R : TraceError → Prop) {A : Type} (P : A → Prop) (m : res TraceError A) : Prop :=
  match m with Ok a => P a | Err e => R e | Panic => False end.

(** A result, or the error of a malformed corpus; a result. *)
Notation settled := (settles malformed).
Notation returns := (settles (λ _, False)).

Section Settles.
Context {R : TraceError → Prop}.

Lemma settles_bind {A B : Type} (P : A → Prop) (Q : B → Prop) (m : res TraceError A)
  (k : A → res TraceError B) :
  settles R P m → (∀ a, P a → settles R Q (k a)) → settles R Q (let? a := m in k a).
Proof. destruct m; simpl; auto. Qed.

Lemma settles_mono {A : Type} (P Q : A → Prop) (m : res TraceError A) :
  settles R P m → (∀ a, P a → Q a) → settles R Q m.
Proof. destruct m; simpl; auto. Qed.

Lemma returns_settles {A : Type} (P : A → Prop) (m : res TraceError A) :
  returns P m → settles R P m.
Proof. by destruct m. Qed.

Lemma settles_mapM {A B : Type} (P : A → B → Prop) (f : A → res TraceError B) (l : list A) :
  (∀ x, x ∈ l → settles R (P x) (f x)) → settles R (Forall2 P l) (res_mapM f l).
Proof.
  induction l as [|x l IH]; intros Hf; simpl; [constructor|].
  eapply settles_bind; [apply Hf; left|]. intros y Hy.
  eapply settles_bind; [apply IH; intros z Hz; apply Hf; by right|]. intros ys Hys.
  by constructor.
Qed.

Lemma settles_fold {A B : Type} (P : list A → B → Prop) (f : B → A → res TraceError B) (l : list A) b :
  P [] b → (∀ done b x, x ∈ l → P done b → settles R (P (done ++ [x])) (f b x)) →
  settles R (P l) (res_fold f b l).
Proof.
  intros Hb Hf. assert (∀ d l' b, l = d ++ l' → P d b → settles R (P l) (res_fold f b l')) as Hg;
    [|by apply (Hg [])].
  clear b Hb. intros d l'. revert d. induction l' as [|x l' IH]; intros d b El Hb; simpl.
  - by rewrite app_nil_r in El; subst.
  - eapply settles_bind.
    + apply (Hf d b x); [rewrite El; apply elem_of_app; right; left|done].
    + intros b' Hb'. apply (IH (d ++ [x])); [by rewrite <- app_assoc|done].
Qed.

Lemma settles_eq {A : Type} (P : A → Prop) (m : res TraceError A) :
  settles R P m → settles R (λ a, m = Ok a) m.
Proof. by destruct m. Qed.

Lemma settles_and {A : Type} (P Q : A → Prop) (m : res TraceError A) :
  settles R P m → settles R Q m → settles R (λ a, P a ∧ Q a) m.
Proof. by destruct m. Qed.
End Settles.

Lemma settled_map_err {A E : Type} (f : E → TraceError) (m : res E A) :
  (∀ e, malformed (f e)) → m ≠ Panic → settled (λ a, m = Ok a) (map_err f m).
Proof. intros Hf Hm. by destruct m; simpl. Qed.

Lemma settled_lift_err {A E : Type} (f : E → TraceError) (m : E + A) :
  (∀ e, malformed (f e)) → settled (λ a, m = inr a) (lift_err f m).
Proof. intros Hf. by destruct m; simpl. Qed.

(** ** Decoding *)

Section Decoding.
Context `{Pallas} `{UnifiedAddress} `{Hex}.

Lemma bytes32_settled h : settled (λ b, length b = 32%nat) (bytes32 h).
Proof.
  unfold bytes32. eapply settles_bind; [by apply settled_lift_err|]. intros b _.
  by case_bool_decide.
Qed.

Lemma corpus_field_bytes_settled v : settled (λ _, True) (corpus_field_bytes v).
Proof.
  destruct v; simpl; [done|]. eapply settles_mono; [apply bytes32_settled|done].
Qed.

Lemma corpus_field_settled v : settled (λ _, True) (corpus_field v).
Proof.
  eapply settles_bind; [apply corpus_field_bytes_settled|]. intros b _.
  eapply settles_mono; [apply settled_map_err; [done|]|done].
  unfold FieldElement_from_bytes, canonical_field. by destruct (from_repr b).
Qed.

Lemma corpus_commitment_settled v : settled (λ _, True) (corpus_commitment v).
Proof.
  eapply settles_bind; [apply corpus_field_bytes_settled|]. intros b _.
  eapply settles_mono; [apply settled_map_err; [done|]|done].
  unfold Commitment_from_bytes, canonical_field. destruct (from_repr b); [|done]. simpl.
  by case_bool_decide.
Qed.

Lemma corpus_commit_ref_settled v : settled (λ _, True) (corpus_commit_ref v).
Proof. by eapply settles_bind; [apply bytes32_settled|]. Qed.

Lemma corpus_state_ref_settled v : settled (λ _, True) (corpus_state_ref v).
Proof. by eapply settles_bind; [apply bytes32_settled|]. Qed.

Lemma CanonicalUa_parse_no_panic network value : CanonicalUa_parse network value ≠ Panic.
Proof.
  unfold CanonicalUa_parse. destruct (_ || _); [done|]. destruct (negb _); [done|].
  destruct (ua_decode value) as [[n a]|]; [|done]. simpl. by case_bool_decide.
Qed.

Lemma corpus_operation_settled v network : settled operation_named (corpus_operation v network).
Proof.
  destruct v; cbn [corpus_operation].
  - eapply settles_bind; [apply corpus_commitment_settled|]. done.
  - eapply settles_bind; [apply settled_map_err; [done|apply Name_parse_no_panic]|]. intros n Hn.
    eapply settles_bind; [apply corpus_commit_ref_settled|]. intros ? _.
    eapply settles_bind; [apply settled_map_err; [done|apply CanonicalUa_parse_no_panic]|]. intros ? _.
    eapply settles_bind; [apply corpus_field_settled|]. intros ? _.
    exact (Name_parse_ok _ _ Hn).
  - eapply settles_bind; [apply settled_map_err; [done|apply Name_parse_no_panic]|]. intros n Hn.
    eapply settles_bind; [apply corpus_state_ref_settled|]. intros ? _.
    eapply settles_bind; [apply settled_map_err; [done|apply CanonicalUa_parse_no_panic]|]. intros ? _.
    eapply settles_bind; [apply corpus_field_settled|]. intros ? _.
    exact (Name_parse_ok _ _ Hn).
Qed.

Lemma transpose_settled {A B : Type} (P : B → Prop) (f : A → res TraceError B) o :
  (∀ a, settled P (f a)) → settled (λ o, ∀ b, o = Some b → P b) (transpose f o).
Proof.
  intros Hf. destruct o as [a|]; simpl; [|done].
  eapply settles_bind; [apply Hf|]. intros b Hb. simpl. by intros ? [= <-].
Qed.

Lemma corpus_transaction_settled network v :
  settled (λ tx, ∀ op, tx_operation tx = Some op → operation_named op) (corpus_transaction network v).
Proof.
  unfold corpus_transaction. eapply settles_bind; [apply bytes32_settled|]. intros ? _.
  eapply settles_bind.
  - apply (settles_mapM (λ _ _, True)). intros x _.
    eapply settles_bind; [apply corpus_field_settled|]. intros ? _.
    by eapply settles_bind; [apply corpus_field_settled|].
  - intros ? _. eapply settles_bind; [apply transpose_settled; intros; apply corpus_operation_settled|].
    intros o Ho. exact Ho.
Qed.

Lemma corpus_block_settled v previous network :
  settled (λ b, block_named b ∧ length (bl_transactions b) = length (cbl_transactions v))
    (corpus_block v previous network).
Proof.
  unfold corpus_block. eapply settles_bind; [apply transpose_settled; intros; apply bytes32_settled|].
  intros ? _.
  eapply settles_bind; [apply settles_mapM; intros; apply corpus_transaction_settled|].
  intros txs Htxs. simpl. split; [|symmetry; by eapply Forall2_length].
  intros tx op Hin. apply list_elem_of_lookup in Hin as [n Hn].
  destruct (Forall2_lookup_r _ _ _ _ _ Htxs Hn) as (c & _ & Hc). apply Hc.
Qed.

Lemma referenced_settled l : settled (λ _, True) (referenced l).
Proof.
  eapply settles_mono; [apply (settles_mapM (λ _ _, True))|done]. intros x _.
  eapply settles_bind; [apply corpus_commit_ref_settled|]. intros ? _.
  by eapply settles_bind; [apply corpus_commitment_settled|].
Qed.
End Decoding.

(** ** Objects *)

(** The value of a key among the fields of [json!]. *)
Fixpoint field_of (fields : list (string * Value)) (k : string) (v : Value) : Value :=
  match fields with
  | [] => v
  | (i, w) :: fields => field_of fields k (if String.eqb i k then w else v)
  end.

Lemma lit_inj (i k : string) : lit i = lit k → i = k.
Proof.
  intros E. rewrite <- (string_of_list_byte_of_string i), <- (string_of_list_byte_of_string k).
  exact (f_equal string_of_list_byte E).
Qed.

Lemma json_index_map m k : json_index (map_value m) k = default JNull (m !! k).
Proof. unfold json_index, map_value. by rewrite btree_collect_iter. Qed.

Lemma json_index_object fields k :
  json_index (json_object fields) (lit k) = field_of fields k JNull.
Proof.
  unfold json_object. rewrite json_index_map. unfold btree_collect.
  assert (∀ m, default JNull (fold_left (λ m '(k, v), <[k:=v]> m)
      (map (λ '(k, v), (lit k, v)) fields) m !! lit k)
    = field_of fields k (default JNull (m !! lit k))) as ->; [|by rewrite lookup_empty].
  induction fields as [|[i w] fields IH]; intros m; [done|]. simpl. rewrite IH. f_equal.
  destruct (String.eqb_spec i k) as [->|Hne]; [by rewrite lookup_insert_eq|].
  by rewrite lookup_insert_ne by (intros ?%lit_inj; done).
Qed.

(** What the two results of a step have in common: the error, if any, and the clause
    that refused. *)
Definition same_refusal (v w : Value) : Prop :=
  ∀ k, k ∈ ["error"; "clause_id"]%string → json_index w (lit k) = json_index v (lit k).

Ltac json_fields :=
  intros ? Hk; rewrite ?json_index_object;
  repeat (apply elem_of_cons in Hk as [->|Hk]; [reflexivity|]); by apply not_elem_of_nil in Hk.

(** ** Loops over maps *)

Section Loops.
Context `{Blake2b} `{Pallas}.
#[local] Notation V := ExplicitProofVerdicts.
#[local] Notation Exact := (gmap (list byte) (Name * ExactResolver V)).

(** One turn for every replica, each on its own. *)
Lemma for_exact_returns {A : Type} (P : list byte → Name → ExactResolver V → A → ExactResolver V → Prop)
  (f : Name → ExactResolver V → res TraceError (A * ExactResolver V)) (exact : Exact) :
  (∀ label name x, exact !! label = Some (name, x) →
     returns (λ '(a, x'), P label name x a x') (f name x)) →
  returns (λ '(results, exact'),
    dom results = dom exact ∧ dom exact' = dom exact
    ∧ ∀ label name x, exact !! label = Some (name, x) →
        ∃ a x', results !! label = Some a ∧ exact' !! label = Some (name, x') ∧ P label name x a x')
    (for_exact f exact).
Proof.
  intros Hf. unfold for_exact.
  eapply settles_mono; [apply (settles_fold (λ l '(results, exact'),
    (∀ label, is_Some (results !! label) ↔ label ∈ l.*1)
    ∧ (∀ label e, (label, e) ∈ l → exact !! label = Some e)
    ∧ dom exact' = dom exact
    ∧ ∀ label name x, (label, (name, x)) ∈ l →
        ∃ a x', results !! label = Some a ∧ exact' !! label = Some (name, x') ∧ P label name x a x'))|].
  - split_and!; [|by intros ? ? ?%not_elem_of_nil|done|by intros ? ? ? ?%not_elem_of_nil].
    intros label. rewrite lookup_empty. simpl. rewrite elem_of_nil. split; [by intros []|done].
  - intros l [results exact'] [label [name x]] Hin (Hd & Hs & Hd' & Hl).
    apply elem_of_btree_iter in Hin as Hx.
    eapply settles_bind; [by apply (Hf label)|]. intros [a x'] Ha. simpl. split_and!.
    + intros k. rewrite fmap_app, elem_of_app. simpl. rewrite list_elem_of_singleton, <- Hd.
      destruct (decide (k = label)) as [->|Hne]; [rewrite lookup_insert_eq; naive_solver|].
      rewrite lookup_insert_ne by done. naive_solver.
    + intros k e [Hk|[= -> ->]%list_elem_of_singleton]%elem_of_app; [by apply Hs|done].
    + rewrite dom_insert_L, Hd'. apply elem_of_dom_2 in Hx. set_solver.
    + intros k n z Hin'. destruct (decide (k = label)) as [->|Hne].
      * assert ((n, z) = (name, x)) as [= -> ->].
        { apply elem_of_app in Hin' as [Hin'%Hs|Hin'%list_elem_of_singleton]; congruence. }
        exists a, x'. by rewrite !lookup_insert_eq.
      * apply elem_of_app in Hin' as [Hin'|Hin'%list_elem_of_singleton]; [|congruence].
        destruct (Hl k n z Hin') as (b & y & ? & ? & ?). exists b, y.
        by rewrite !lookup_insert_ne by done.
  - intros [results exact'] (Hd & _ & Hd' & Hl). split_and!; [|done|].
    + apply set_eq. intros label. rewrite !elem_of_dom, Hd, btree_iter_keys. apply elem_of_btree_keys.
    + intros label name x Hx. apply Hl. by apply elem_of_btree_iter.
Qed.
End Loops.

(** ** Results of a block *)

Section Results.
Context `{Hex}.

(** The error and the clause that a result names. *)
Definition refusal (error clause : Value) (v : Value) : Prop :=
  json_index v (lit "error") = error ∧ json_index v (lit "clause_id") = clause.

Lemma refusal_same error clause v w :
  refusal error clause v → refusal error clause w → same_refusal v w.
Proof.
  intros [E1 E2] [F1 F2] k [->|[->|Hk]%elem_of_cons]%elem_of_cons; [congruence..|].
  by apply not_elem_of_nil in Hk.
Qed.

Lemma decisions_json_returns input accepted n ds clause :
  (accepted = true → length ds = length (cbl_transactions input)) →
  returns (λ _, True) (decisions_json input accepted n ds clause).
Proof.
  intros Hl. eapply settles_bind; [|done]. apply (settles_mapM (λ _ _, True)).
  intros [position tx] Hin. unfold decision_json. destruct accepted; [|done]. cbn [negb].
  apply list_elem_of_lookup in Hin as [i Hi]. unfold enumerate in Hi.
  rewrite enumerate_from_lookup in Hi.
  destruct (cbl_transactions input !! i) as [tx'|] eqn:Ei; [|done]. injection Hi as <- <-.
  destruct (lookup_lt_is_Some_2 ds i) as [d Hd].
  { rewrite Hl by done. by eapply lookup_lt_Some. }
  replace (Z.to_nat (0 + Z.of_nat i)) with i by lia. by rewrite Hd.
Qed.

Definition apply_refusal {A : Type} (result : res ApplyError A) : Value → Prop :=
  match result with
  | Err e => refusal (json_text (debug_apply_error e)) (json_text (apply_error_clause e))
  | _ => refusal JNull JNull
  end.

Lemma apply_result_returns input result n :
  match result with
  | Ok out => length (bo_decisions out) = length (cbl_transactions input)
  | Err _ => True
  | Panic => False
  end →
  returns (apply_refusal result) (apply_result input result n).
Proof.
  intros Hr. destruct result as [out|e|]; [| |done]; cbn [apply_result].
  - eapply settles_bind; [by apply decisions_json_returns|]. intros v _.
    split; by rewrite json_index_object.
  - eapply settles_bind; [by apply decisions_json_returns|]. intros v _.
    split; by rewrite json_index_object.
Qed.

Definition rollback_refusal (result : res RollbackError unit) : Value → Prop :=
  refusal (json_option (λ e, json_text (debug_rollback_error e))
             match result with Err e => Some e | _ => None end)
    (json_text "NAMES.ROLLBACK.EXACT").

Lemma rollback_result_returns (result : res RollbackError unit) :
  result ≠ Panic → returns (rollback_refusal result) (rollback_result result).
Proof. intros Hr. destruct result; [..|done]; split; by rewrite json_index_object. Qed.
End Results.

(** ** Replicas *)

Section Decided.
Context `{Blake2b} `{Pallas} {V : Type} `{!ProofVerifier V}.

Lemma decision_count block refs (r r' : Reducer V) out :
  reducer_ok r → block_named block → apply_block_detailed block refs r = (Ok out, r') →
  length (bo_decisions out) = length (bl_transactions block).
Proof.
  intros Hr Hn Ha. pose proof (apply_block_step block refs r Hr Hn) as Hs.
  destruct (check_block r block refs); [|congruence|done].
  destruct Hs as (y & out1 & r1 & Hy & Ha1 & Hb & _). rewrite Ha in Ha1. injection Ha1 as <- <-.
  rewrite (br_decisions _ _ _ _ _ _ _ Hb). symmetry.
  eapply Forall2_length, ledger_transactions_decisions, Hy.
Qed.

Lemma exact_decision_count block refs (x x' : ExactResolver V) out :
  reducer_ok (er_reducer x) → block_named block →
  exact_apply_block_detailed block refs x = (Ok out, x') →
  length (bo_decisions out) = length (bl_transactions block).
Proof.
  intros Hr Hn Ha.
  destruct (filter_block_spec (E := ApplyError) (er_name_id x) block block Hn (thinned_self _ _))
    as (b & Hb & _ & _ & _ & Hf).
  unfold exact_apply_block_detailed, sbind, mget, mlift in Ha. rewrite Hb, delegate_eq in Ha.
  destruct (apply_block_detailed b refs (er_reducer x)) as [m r'] eqn:E. simpl in Ha.
  injection Ha as -> _. rewrite (decision_count _ _ _ _ _ Hr (replayed_named _ _ _ Hn Hf) E).
  symmetry. by eapply Forall2_length.
Qed.
End Decided.

Section Replicas.
Context `{Blake2b} `{Pallas} `{UnifiedAddress} `{Hex}.
Context (p : Parameters) (parent : list byte) (names : list (list byte * Name)).
#[local] Notation V := ExplicitProofVerdicts.
Implicit Types (r : Reducer V) (x : ExactResolver V) (s : Replicas).

(** The full reducer follows the parameters of the case from its parent hash. *)
Definition activated r : Prop :=
  reducer_ok r ∧ parameters r = p ∧ (tip_height r = None → previous_hash r = parent).

#[export] Instance activated_maintained : Maintained named_host activated.
Proof.
  split.
  - intros r [Hr _]. apply Hr.
  - intros r block refs out r' (Hr & Hp & _) Hn Ha.
    pose proof (apply_block_step block refs r Hr Hn) as Hs.
    destruct (check_block r block refs); [|congruence|done].
    destruct Hs as (y & out1 & r1 & _ & Ha1 & Hb & Hr1). rewrite Ha in Ha1. injection Ha1 as <- <-.
    split; [done|]. split; [by rewrite (br_parameters _ _ _ _ _ _ _ Hb)|].
    intros Ht. pose proof (br_tip _ _ _ _ _ _ _ Hb) as Htip. unfold tip in Htip. by rewrite Ht in Htip.
  - intros r k (Hr & Hp & Ht). split; [|done]. by apply (maintained_drop (host := named_host)).
Qed.

Record synced s : Prop := {
  sy_full : recoverable activated (rp_full s);
  sy_exact label name x :
    rp_exact s !! label = Some (name, x) → lockstep (rp_full s) x ∧ er_name x = name;
  sy_labels : dom (rp_exact s) = list_to_set names.*1;
  sy_names label name :
    (label, name) ∈ names → ∃ x, rp_exact s !! label = Some (name, x);
}.

Lemma synced_activated s : synced s → activated (rp_full s).
Proof. intros Hs. by eapply recoverable_ok, sy_full. Qed.

(** A turn of [for_exact] keeps the replicas synced. *)
Lemma synced_turn {A : Type} s (full : Reducer V) (exact : gmap (list byte) (Name * ExactResolver V))
  (results : gmap (list byte) A) (P : A → Prop) :
  synced s → recoverable activated full →
  dom results = dom (rp_exact s) → dom exact = dom (rp_exact s) →
  (∀ label name x, rp_exact s !! label = Some (name, x) →
     ∃ a x', results !! label = Some a ∧ exact !! label = Some (name, x')
       ∧ lockstep full x' ∧ er_name x' = er_name x ∧ P a) →
  synced (MkReplicas full exact) ∧ dom results = dom (rp_exact s)
  ∧ (∀ label a, results !! label = Some a → P a).
Proof.
  intros Hs Hr Hd Hd' Hx. split; [|split; [done|]].
  - constructor; simpl; [done| | |].
    + intros label name x' Hx'.
      assert (is_Some (rp_exact s !! label)) as [[n x] Hl].
      { apply elem_of_dom. rewrite <- Hd'. by eapply elem_of_dom_2. }
      destruct (Hx label n x Hl) as (a & z & _ & Hz & Hlk & En & _).
      rewrite Hz in Hx'. injection Hx' as <- <-. split; [done|].
      rewrite En. by apply (sy_exact s Hs label n x).
    + by rewrite Hd', (sy_labels s Hs).
    + intros label name Hn. destruct (sy_names s Hs label name Hn) as [x Hl].
      destruct (Hx label name x Hl) as (a & z & _ & Hz & _). eauto.
  - intros label a Ha.
    assert (is_Some (rp_exact s !! label)) as [[n x] Hl].
    { apply elem_of_dom. rewrite <- Hd. by eapply elem_of_dom_2. }
    destruct (Hx label n x Hl) as (b & z & Hb & _ & _ & _ & HP). rewrite Ha in Hb. by injection Hb as <-.
Qed.

(** The evidence of a block is about every tracked name. *)
Definition evidence_shared (block : Block) (refs : list ReferencedCommit) : Prop :=
  ∀ label name i, (label, name) ∈ names → Name_id name = Ok i → shared_evidence i block refs.

Lemma apply_everywhere_returns input block refs s :
  synced s → block_named block → length (bl_transactions block) = length (cbl_transactions input) →
  (∀ label name x, rp_exact s !! label = Some (name, x) → shared_evidence (er_name_id x) block refs) →
  returns (λ '(full_result, exact_results, s'),
    synced s' ∧ dom exact_results = dom (rp_exact s)
    ∧ (∀ label w, exact_results !! label = Some w → same_refusal full_result w)
    ∧ rp_full s' = (apply_block_detailed block refs (rp_full s)).2)
    (apply_everywhere input block refs s).
Proof.
  intros Hs Hn Hlen Hsh. destruct (synced_activated s Hs) as [Hr _].
  unfold apply_everywhere. destruct (apply_block_detailed block refs (rp_full s)) as [result full] eqn:Ea.
  assert (recoverable activated full ∧
    match result with
    | Ok out => length (bo_decisions out) = length (cbl_transactions input)
    | Err _ => full = rp_full s
    | Panic => False
    end) as [Hfull Hres].
  { pose proof (apply_block_step block refs (rp_full s) Hr Hn) as Hstep. rewrite Ea in Hstep.
    destruct (check_block (rp_full s) block refs); [| |done].
    - destruct Hstep as (_ & out & r' & _ & [= -> ->] & _). split.
      + eapply recoverable_apply; [apply (sy_full s Hs)|exact Hn|exact Ea].
      + rewrite <- Hlen. by eapply decision_count.
    - injection Hstep as -> ->. split; [apply (sy_full s Hs)|done]. }
  eapply settles_bind; [apply (apply_result_returns input result None); by destruct result|].
  intros full_result Hfr.
  eapply settles_bind.
  { apply (for_exact_returns (λ _ name x v x',
      lockstep full x' ∧ er_name x' = er_name x ∧ apply_refusal result v)).
    intros label name x Hx. destruct (sy_exact s Hs label name x Hx) as [Hl En].
    destruct (lockstep_apply block refs (rp_full s) x Hl Hn (Hsh _ _ _ Hx))
      as [(e & Ha & Hax)|(out & r' & out' & z & Ha & Hax & Hl')]; rewrite Ea in Ha;
      injection Ha as -> ->; rewrite Hax; (eapply settles_bind; [|intros v Hv]).
    - by apply apply_result_returns.
    - split_and!; [done..|exact Hv].
    - apply (apply_result_returns _ (Ok out')). rewrite <- Hlen.
      eapply exact_decision_count; [|exact Hn|exact Hax].
      by apply (fo_exact _ _ (proj1 (lockstep_mirrors _ _ Hl))).
    - split_and!; [done..|exact Hv]. }
  intros [results exact] (Hd & Hd' & Hall). simpl.
  destruct (synced_turn s full exact results (apply_refusal result) Hs Hfull Hd Hd')
    as (Hs' & _ & Hsame).
  { intros label name x Hx. destruct (Hall label name x Hx) as (a & x' & ? & ? & ? & ? & ?).
    exists a, x'. done. }
  split_and!; [done|done| |done].
  intros label w Hw. specialize (Hsame label w Hw). unfold apply_refusal in *.
  destruct result; by eapply refusal_same.
Qed.
End Replicas.

(** ** Steps *)

Section Steps.
Context `{Blake2b} `{Pallas} `{UnifiedAddress} `{Hex}.
Context (network : Network) (p : Parameters) (parent : list byte) (names : list (list byte * Name)).
#[local] Notation V := ExplicitProofVerdicts.
#[local] Notation synced := (synced p parent names).
#[local] Notation activated := (activated p parent).
Implicit Types (r : Reducer V) (x : ExactResolver V) (s : Replicas).

Lemma previous_hash_activated r : activated r → previous_hash_of parent r = previous_hash r.
Proof.
  intros (_ & _ & Ht). unfold previous_hash_of, tip. destruct (tip_height r); [done|].
  simpl. symmetry. by apply Ht.
Qed.

Lemma next_height_activated r :
  activated r → next_height_of p r < u32_max → next_height r = Some (next_height_of p r).
Proof.
  intros ([Hp _ Ht] & <- & _). unfold next_height_of, tip. destruct (tip_height r) as [t|]; simpl.
  - destruct Ht as (_ & -> & _). intros Hlt. apply u32_checked_add_Some. lia.
  - by destruct Ht as [-> _].
Qed.

(** The empty block after the tip is applied. *)
Lemma empty_block_applied r hash :
  activated r → next_height_of p r < u32_max →
  ∃ out r', apply_block_detailed (MkBlock (next_height_of p r) hash (previous_hash r) []) [] r = (Ok out, r')
    ∧ next_height_of p r' = next_height_of p r + 1.
Proof.
  intros Ha Hlt. pose proof Ha as (Hr & _).
  set (block := MkBlock _ _ _ _).
  assert (block_named block) as Hn by by intros tx op ?%not_elem_of_nil.
  pose proof (apply_block_step block [] r Hr Hn) as Hs.
  assert (check_block r block [] = Ok ∅) as Ec.
  { unfold check_block. simpl. rewrite (next_height_activated r Ha Hlt), !bool_decide_true by done. done. }
  rewrite Ec in Hs. destruct Hs as (y & out & r' & _ & Hap & Hb & _). exists out, r'. split; [done|].
  unfold next_height_of at 1. rewrite (br_tip _ _ _ _ _ _ _ Hb). simpl. lia.
Qed.

Lemma push_results_returns results values :
  (∀ label, is_Some (values !! label) → is_Some (results !! label)) →
  returns (λ results', dom results' = dom results) (push_results results values).
Proof.
  intros Hv. unfold push_results.
  apply (settles_fold (λ _ results', dom results' = dom results)); [done|].
  intros l results' [label v] Hin Hd. apply elem_of_btree_iter in Hin.
  assert (is_Some (results' !! label)) as [k Hk].
  { apply elem_of_dom. rewrite Hd. apply elem_of_dom, Hv. eauto. }
  rewrite Hk. cbn [expect res_bind settled]. rewrite dom_insert_L, Hd.
  apply elem_of_dom_2 in Hk. set_solver.
Qed.

(** One turn of the loop: never an error. *)
Definition advance_turn (branch_byte : byte) (exact_results : gmap (list byte) (list Value)) s
  : res TraceError (Value * gmap (list byte) (list Value) * Replicas) :=
  let input := MkCorpusBlock (next_height_of p (rp_full s)) branch_byte None [] in
  let? block := corpus_block input (previous_hash_of parent (rp_full s)) network in
  let? (full_result, values, s) := apply_everywhere input block [] s in
  let? exact_results := push_results exact_results values in
  Ok (full_result, exact_results, s).

Lemma advance_turn_settled branch_byte exact_results s :
  synced s → dom exact_results = dom (rp_exact s) →
  match advance_turn branch_byte exact_results s with
  | Ok (_, results', s') =>
      synced s' ∧ dom results' = dom (rp_exact s')
      ∧ (next_height_of p (rp_full s) < u32_max →
         next_height_of p (rp_full s') = next_height_of p (rp_full s) + 1)
  | _ => False
  end.
Proof.
  intros Hs Hd. unfold advance_turn. cbn [corpus_block cbl_prev_hash_hex cbl_transactions transpose
    res_bind res_mapM cbl_branch_byte cbl_height]. simpl (default _ None).
  pose proof (synced_activated p parent names s Hs) as Ha.
  rewrite (previous_hash_activated _ Ha).
  set (input := MkCorpusBlock _ _ _ _). set (block := MkBlock _ _ _ _).
  assert (block_named block) as Hn by by intros tx op ?%not_elem_of_nil.
  pose proof (apply_everywhere_returns p parent names input block [] s Hs Hn eq_refl
    ltac:(by intros ? ? ? ? ? ?%not_elem_of_nil)) as He.
  destruct (apply_everywhere input block [] s) as [[[v values] s']|e|]; [|exact He|exact He].
  destruct He as (Hs' & Hdv & _ & Ef). cbn [res_bind].
  pose proof (push_results_returns exact_results values) as Hp.
  destruct (push_results exact_results values) as [results'|e|].
  - cbn [res_bind]. split; [done|]. split.
    + rewrite Hp, Hd, (sy_labels _ _ _ _ Hs), (sy_labels _ _ _ _ Hs'); [done|].
      intros label. rewrite <- !elem_of_dom, Hdv, Hd. done.
    + intros Hlt. destruct (empty_block_applied (rp_full s) (corpus_hash branch_byte (next_height_of p (rp_full s))) Ha Hlt)
        as (out & r' & Hap & Hnext).
      rewrite Ef. fold block in Hap. by rewrite Hap.
  - apply Hp. intros label. rewrite <- !elem_of_dom, Hdv, Hd. done.
  - apply Hp. intros label. rewrite <- !elem_of_dom, Hdv, Hd. done.
Qed.

Lemma advance_loop_turn fuel through_height branch_byte full_results exact_results s :
  advance_loop network p parent (S fuel) through_height branch_byte full_results exact_results s =
    if through_height <? next_height_of p (rp_full s) then Some (Ok (full_results, exact_results, s))
    else match advance_turn branch_byte exact_results s with
         | Ok (v, exact_results, s) =>
             advance_loop network p parent fuel through_height branch_byte (full_results ++ [v]) exact_results s
         | Err e => Some (Err e)
         | Panic => Some Panic
         end.
Proof. reflexivity. Qed.

(** The loop ends below [u32::MAX], with a turn for each height. *)
Lemma advance_loop_settled fuel through_height branch_byte full_results exact_results s :
  synced s → dom exact_results = dom (rp_exact s) → through_height < u32_max →
  through_height - next_height_of p (rp_full s) + 1 < Z.of_nat fuel → (0 < fuel)%nat →
  ∃ m, advance_loop network p parent fuel through_height branch_byte full_results exact_results s = Some m
    ∧ returns (λ '(_, results', s'), synced s' ∧ dom results' = dom (rp_exact s')) m.
Proof.
  intros Hs Hd Hth. revert full_results exact_results s Hs Hd.
  induction fuel as [|fuel IH]; intros full_results exact_results s Hs Hd Hf Hpos; [lia|].
  rewrite advance_loop_turn. destruct (Z.ltb_spec through_height (next_height_of p (rp_full s))).
  { eexists. by split. }
  pose proof (advance_turn_settled branch_byte exact_results s Hs Hd) as Ht.
  destruct (advance_turn branch_byte exact_results s) as [[[v results'] s']|e|]; [|done..].
  destruct Ht as (Hs' & Hd' & Hnext). apply IH; [done|done|rewrite Hnext by lia; lia|lia].
Qed.

(** At [u32::MAX] it does not end: the next height saturates. *)
Lemma advance_never_ends fuel branch_byte full_results exact_results s :
  synced s → dom exact_results = dom (rp_exact s) →
  advance_loop network p parent fuel u32_max branch_byte full_results exact_results s = None.
Proof.
  revert full_results exact_results s.
  induction fuel as [|fuel IH]; intros full_results exact_results s Hs Hd; [done|].
  rewrite advance_loop_turn.
  assert (next_height_of p (rp_full s) ≤ u32_max) as Hle.
  { pose proof (synced_activated p parent names s Hs) as ([Hp _ _] & Ep & _).
    unfold next_height_of. destruct (tip (rp_full s)); [lia|].
    rewrite Ep in Hp. pose proof (ok_activation _ Hp). unfold is_u32 in *. lia. }
  destruct (Z.ltb_spec u32_max (next_height_of p (rp_full s))); [lia|].
  pose proof (advance_turn_settled branch_byte exact_results s Hs Hd) as Ht.
  destruct (advance_turn branch_byte exact_results s) as [[[v results'] s']|e|]; [|done..].
  destruct Ht as (Hs' & Hd' & _). by apply IH.
Qed.
End Steps.

(** ** Traces *)

Section Traces.
Context `{Blake2b} `{Pallas} `{UnifiedAddress} `{!CanonicalJson Manifest} `{Hex}.
Context (network : Network) (p : Parameters) (parent : list byte) (names : list (list byte * Name)).
#[local] Notation V := ExplicitProofVerdicts.
#[local] Notation synced := (synced p parent names).
Implicit Types (r : Reducer V) (x : ExactResolver V) (s : Replicas).

(** An advance ends below [u32::MAX], and evidence is about every tracked name. *)
Definition step_ok (step : Step) : Prop :=
  match step with
  | StepAdvanceEmpty _ through_height _ => through_height < u32_max
  | StepApply _ input refs => ∀ previous block evidence,
      corpus_block input previous network = Ok block → referenced refs = Ok evidence →
      evidence_shared names block evidence
  | StepRollback _ _ _ _ => True
  end.

Lemma synced_name s label name x :
  synced s → rp_exact s !! label = Some (name, x) → (label, name) ∈ names ∧ Name_ok name
  ∧ Name_id name = Ok (er_name_id x) ∧ lockstep (rp_full s) x ∧ er_name x = name.
Proof.
  intros Hs Hx. destruct (sy_exact _ _ _ _ Hs label name x Hx) as [Hl En].
  destruct (lockstep_mirrors _ _ Hl) as [Hf _]. rewrite <- En at 2 3.
  split_and!; [|apply Hf|apply Hf|done|done].
  assert (label ∈ names.*1) as ([l n] & -> & Hn)%list_elem_of_fmap.
  { apply (elem_of_list_to_set (C := gset _)). rewrite <- (sy_labels _ _ _ _ Hs). by eapply elem_of_dom_2. }
  destruct (sy_names _ _ _ _ Hs l n Hn) as [y Hy]. simpl in Hx. rewrite Hy in Hx. by injection Hx as -> _.
Qed.

Lemma rollback_tip_cases hash r x :
  lockstep r x →
  (∃ e, rollback_tip hash r = (Err e, r) ∧ exact_rollback_tip hash x = (Err e, x))
  ∨ ∃ r' z, rollback_tip hash r = (Ok tt, r') ∧ exact_rollback_tip hash x = (Ok tt, with_reducer x z)
      ∧ lockstep r' (with_reducer x z).
Proof.
  intros Hl. unfold exact_rollback_tip. rewrite delegate_eq, !rollback_tip_eq.
  destruct (lockstep_rollback hash r x Hl) as [(e & -> & ->)|(d & r' & d' & z & -> & -> & Hl')].
  - left. exists e. simpl. by rewrite with_own_reducer.
  - right. by exists r', z.
Qed.

Lemma rollback_recoverable hash r :
  recoverable (activated p parent) r →
  (rollback_tip hash r).1 ≠ Panic ∧ recoverable (activated p parent) (rollback_tip hash r).2.
Proof.
  intros Hr. rewrite rollback_tip_eq. cbn [fst snd].
  destruct (rollback_tip_detailed hash r) as [[d|e|] r'] eqn:E; simpl.
  - split; [done|]. eapply (recoverable_step (host := named_host)); [exact Hr|by eapply step_rollback].
  - split; [done|]. unfold rollback_tip_detailed in E.
    destruct (last (history r)); [destruct (_ || _)|]; by simplify_eq.
  - unfold rollback_tip_detailed in E. destruct (last (history r)); [destruct (_ || _)|]; by simplify_eq.
Qed.

Lemma same_refusal_object fields fields' :
  (∀ k, k ∈ ["error"; "clause_id"]%string → field_of fields' k JNull = field_of fields k JNull) →
  same_refusal (json_object fields) (json_object fields').
Proof. intros Hk k Hin. rewrite !json_index_object. by apply Hk. Qed.

(** What a step leaves, and the refusals of its results. *)
Definition stepped : list byte * Value * gmap (list byte) Value * Replicas → Prop :=
  λ '(_, full_result, exact_results, s'),
    synced s' ∧ dom exact_results = dom (rp_exact s')
    ∧ ∀ label w, exact_results !! label = Some w → same_refusal full_result w.

Lemma advance_settled label through_height branch_byte s :
  synced s → through_height < u32_max →
  settled stepped (run_step network p parent names (StepAdvanceEmpty label through_height branch_byte) s).
Proof.
  intros Hs Hok. cbn [run_step].
  destruct (advance_loop_settled network p parent names (S (Z.to_nat (through_height + 1)))
    through_height branch_byte [] (btree_collect (map (λ '(label, _), (label, [])) names)) s Hs)
    as (m & -> & Hm).
  - rewrite dom_btree_collect, (sy_labels _ _ _ _ Hs). f_equal. clear.
    induction names as [|[l n] k IH]; [done|]. simpl. by f_equal.
  - done.
  - pose proof (synced_activated p parent names s Hs) as ([Hp _ Ht] & Ep & _).
    assert (0 ≤ next_height_of p (rp_full s)); [|lia].
    rewrite <- Ep. pose proof (ok_activation _ Hp). unfold is_u32, next_height_of, tip in *.
    destruct (tip_height (rp_full s)); simpl; [|lia]. unfold u32_max. lia.
  - lia.
  - eapply settles_bind; [eapply returns_settles, Hm|].
    intros [[full_results results'] s'] [Hs' Hd']. simpl. split_and!; [done|by rewrite dom_fmap_L|].
    intros l w (k & <- & _)%lookup_fmap_Some. apply same_refusal_object.
    intros ? [->|[->|?%not_elem_of_nil]%elem_of_cons]%elem_of_cons; done.
Qed.

Lemma apply_settled label input refs s :
  synced s → step_ok (StepApply label input refs) →
  settled stepped (run_step network p parent names (StepApply label input refs) s).
Proof.
  intros Hs Hok. cbn [run_step step_ok] in *.
  pose proof (corpus_block_settled input (previous_hash_of parent (rp_full s)) network) as Hb.
  destruct (corpus_block input _ network) as [block|e|] eqn:Eb; [|exact Hb|exact Hb].
  cbn [res_bind]. pose proof (referenced_settled refs) as Hr.
  destruct (referenced refs) as [evidence|e|] eqn:Er; [|exact Hr|exact Hr]. cbn [res_bind].
  destruct Hb as [Hn Hlen].
  eapply settles_bind; [eapply returns_settles, (apply_everywhere_returns p parent names); [done..|]|].
  - intros l n x Hx. destruct (synced_name s l n x Hs Hx) as (Hin & _ & Hi & _).
    by apply (Hok _ block evidence Eb eq_refl l n).
  - intros [[full_result results] s'] (Hs' & Hd & Hsame & _). simpl.
    split_and!; [done| |done]. by rewrite Hd, (sy_labels _ _ _ _ Hs), (sy_labels _ _ _ _ Hs').
Qed.

Lemma rollback_settled label height branch_byte expected s :
  synced s →
  settled stepped (run_step network p parent names (StepRollback label height branch_byte expected) s).
Proof.
  intros Hs. cbn [run_step].
  eapply settles_bind; [apply transpose_settled; intros; apply bytes32_settled|]. intros o _.
  set (hash := default _ o). destruct (rollback_recoverable hash (rp_full s) (sy_full _ _ _ _ Hs)) as [Hnp Hfull].
  destruct (rollback_tip hash (rp_full s)) as [result full] eqn:Ea. cbn [fst snd] in *.
  eapply settles_bind; [eapply returns_settles, rollback_result_returns, Hnp|]. intros full_result Hfr.
  eapply settles_bind.
  { eapply returns_settles, (for_exact_returns (λ _ name x v x',
      lockstep full x' ∧ er_name x' = er_name x ∧ rollback_refusal result v)).
    intros l n x Hx. destruct (synced_name s l n x Hs Hx) as (_ & _ & _ & Hl & _).
    destruct (rollback_tip_cases hash (rp_full s) x Hl) as [(e & Ha & Hax)|(r' & z & Ha & Hax & Hl')];
      rewrite Ea in Ha; injection Ha as -> ->; rewrite Hax;
      (eapply settles_bind; [by apply rollback_result_returns|intros v Hv]); by split_and!. }
  intros [results exact] (Hd & Hd' & Hall). simpl.
  destruct (synced_turn p parent names s full exact results (rollback_refusal result) Hs Hfull Hd Hd') as (Hs' & _ & Hsame).
  { intros l n x Hx. destruct (Hall l n x Hx) as (a & x' & ? & ? & ? & ? & Hv).
    exists a, x'. split_and!; [done..|exact Hv]. }
  split_and!; [done|by rewrite Hd, (sy_labels _ _ _ _ Hs), <- (sy_labels _ _ _ _ Hs')|].
  intros l w Hw. eapply refusal_same; [exact Hfr|exact (Hsame l w Hw)].
Qed.

Lemma run_step_settled step s :
  synced s → step_ok step → settled stepped (run_step network p parent names step s).
Proof.
  intros Hs Hok. destruct step; [by apply advance_settled|by apply apply_settled|by apply rollback_settled].
Qed.

(** ** Snapshots *)

Context (known : list CorpusCommitRef) (manifest_encoded : is_Some (to_value_vec EMBEDDED_MANIFEST)).

Definition resolution_at r (name : Name) : res TraceError Value :=
  resolution_result_json (resolve_authenticated r name (height_of p (tip r))).

(** The printed state of [r], with the resolutions [m]. *)
Definition state_of r (m : gmap (list byte) Value) (v : Value) : Prop :=
  ∃ identity pending,
    protocol_identity (E := TraceError) r = Ok identity
    ∧ res_mapM (pending_json (pending_commit r)) known = Ok pending
    ∧ v = state_json identity (tip r) (map_value m) pending.

Lemma state_of_intro r m identity pending :
  protocol_identity (E := TraceError) r = Ok identity →
  res_mapM (pending_json (pending_commit r)) known = Ok pending →
  state_of r m (state_json identity (tip r) (map_value m) pending).
Proof. intros Hi Hp. exists identity, pending. split; [exact Hi|]. split; [exact Hp|reflexivity]. Qed.

Lemma identity_total {E} r : ∃ identity, protocol_identity (E := E) r = Ok identity.
Proof.
  unfold protocol_identity. destruct (ruleset_fingerprint_total (E := E) manifest_encoded) as [f ->].
  by eexists.
Qed.

Lemma pending_settled r :
  settled (λ pending, res_mapM (pending_json (pending_commit r)) known = Ok pending)
    (res_mapM (pending_json (pending_commit r)) known).
Proof.
  eapply settles_eq, (settles_mapM (λ _ _, True)). intros c _.
  by eapply settles_bind; [apply corpus_commit_ref_settled|].
Qed.

Lemma resolve_authenticated_no_panic r name height :
  Name_ok name → resolve_authenticated r name height ≠ Panic.
Proof.
  intros Hn. unfold resolve_authenticated, resolve. pose proof (Name_id_no_panic name Hn).
  destruct (_ && _); [by destruct (Name_id name)|]. destruct (tip_height r) as [t|]; [|done].
  destruct (height <=? t); [|done]. cbn [ensure res_bind]. case_bool_decide; [done|].
  by destruct (Name_id name).
Qed.

Lemma resolution_returns r name :
  Name_ok name →
  returns (λ w, resolution_at r name = Ok w ∧ ∃ fields, w = JObject fields) (resolution_at r name).
Proof.
  intros Hn. unfold resolution_at.
  pose proof (resolve_authenticated_no_panic r name (height_of p (tip r)) Hn).
  destruct (resolve_authenticated _ _ _) as [a|[]|]; simpl; eauto.
Qed.

Lemma full_snapshot_settled s :
  synced s →
  settled (λ v, ∃ m, state_of (rp_full s) m v
    ∧ ∀ label name, (label, name) ∈ names →
        ∃ w, m !! label = Some w ∧ resolution_at (rp_full s) name = Ok w ∧ ∃ fields, w = JObject fields)
    (full_snapshot p names (rp_full s) known).
Proof.
  intros Hs. unfold full_snapshot. eapply settles_bind.
  { apply (settles_mapM (λ '(label, name) '(label', w), label' = label
      ∧ resolution_at (rp_full s) name = Ok w ∧ ∃ fields, w = JObject fields)).
    intros [label name] Hin. destruct (sy_names _ _ _ _ Hs _ _ Hin) as [x Hx].
    destruct (synced_name s label name x Hs Hx) as (_ & Hn & _).
    eapply settles_bind; [eapply returns_settles, (resolution_returns (rp_full s) name Hn)|].
    intros w Hw. by split. }
  intros l Hl. eapply settles_bind; [apply pending_settled|]. intros pending Hp.
  destruct (identity_total (E := TraceError) (rp_full s)) as [identity Hi]. rewrite Hi.
  cbn [res_bind settles]. exists (btree_collect l).
  split; [exact (state_of_intro _ _ _ _ Hi Hp)|].
  intros label name Hin. apply list_elem_of_lookup in Hin as [i Hi'].
  destruct (Forall2_lookup_l _ _ _ _ _ Hl Hi') as ([label' w] & Hw & -> & Hr & Hobj).
  exists w. split; [|exact (conj Hr Hobj)]. apply lookup_btree_collect_fun; [by eapply list_elem_of_lookup_2|].
  intros w' [j Hj]%list_elem_of_lookup.
  destruct (Forall2_lookup_r _ _ _ _ _ Hl Hj) as ([label' name'] & Hn' & <- & Hr' & _).
  destruct (sy_names _ _ _ _ Hs label name) as [x Hx]; [by eapply list_elem_of_lookup_2|].
  destruct (sy_names _ _ _ _ Hs label name') as [x' Hx']; [by eapply list_elem_of_lookup_2|].
  rewrite Hx in Hx'. injection Hx' as -> _. rewrite Hr in Hr'. by apply Ok_inj in Hr'.
Qed.

Lemma exact_snapshot_settled s label name x :
  synced s → rp_exact s !! label = Some (name, x) →
  settled (λ v, ∃ w, state_of (rp_full s) {[label := w]} v ∧ resolution_at (rp_full s) name = Ok w)
    (exact_snapshot p x label known).
Proof.
  intros Hs Hx. destruct (synced_name s label name x Hs Hx) as (_ & Hn & _ & Hl & En).
  destruct (lockstep_mirrors _ _ Hl) as [Hf Hc].
  assert (exact_snapshot p x label known =
    let? w := resolution_at (rp_full s) name in
    let? pending := res_mapM (pending_json (pending_commit (rp_full s))) known in
    let? identity := protocol_identity (rp_full s) in
    Ok (state_json identity (tip (rp_full s)) (map_value {[label := w]}) pending)) as ->.
  { unfold exact_snapshot, resolution_at. rewrite (exact_resolve_agree _ _ _ Hf), En.
    unfold exact_tip, exact_pending_commit, pending_commit, protocol_identity.
    by rewrite (fo_tip _ _ Hf), (fo_parameters _ _ Hf), Hc. }
  eapply settles_bind; [eapply returns_settles, (resolution_returns (rp_full s) name Hn)|].
  intros w [Hw _]. eapply settles_bind; [apply pending_settled|]. intros pending Hp.
  destruct (identity_total (E := TraceError) (rp_full s)) as [identity Hi]. rewrite Hi.
  exists w. split; [exact (state_of_intro _ _ _ _ Hi Hp)|exact Hw].
Qed.

Lemma exact_states_settled s :
  synced s →
  settled (λ m, ∀ label name, (label, name) ∈ names →
      ∃ v w, m !! label = Some v ∧ state_of (rp_full s) {[label := w]} v
        ∧ resolution_at (rp_full s) name = Ok w)
    (exact_states p (rp_exact s) known).
Proof.
  intros Hs. unfold exact_states. eapply settles_bind.
  { apply (settles_mapM (λ '(label, (name, _)) '(label', v), label' = label
      ∧ ∃ w, state_of (rp_full s) {[label := w]} v ∧ resolution_at (rp_full s) name = Ok w)).
    intros [label [name x]] Hin%elem_of_btree_iter.
    eapply settles_bind; [by apply (exact_snapshot_settled s label name x)|]. intros v Hv. by split. }
  intros l Hl. simpl. intros label name Hin.
  destruct (sy_names _ _ _ _ Hs label name Hin) as [x Hx].
  apply elem_of_btree_iter, list_elem_of_lookup in Hx as [i Hi].
  destruct (Forall2_lookup_l _ _ _ _ _ Hl Hi) as ([label' v] & Hv & -> & w & Hst & Hw).
  exists v, w. split; [|exact (conj Hst Hw)]. apply lookup_btree_collect; [|by eapply list_elem_of_lookup_2].
  replace (l.*1) with (btree_iter (rp_exact s)).*1; [rewrite btree_iter_keys; apply NoDup_btree_keys|].
  clear -Hl. induction Hl as [|[k [n y]] [k' v] a b [-> _] _ IH]; [done|]. simpl. by f_equal.
Qed.

(** ** Entries *)

(** In an entry of the trace, the exact resolver of every tracked name printed the
    identity, tip, pending COMMITs and resolution of the full reducer, and refused
    what it refused. *)
Definition entry_parity (entry : Value) : Prop :=
  ∀ label name, (label, name) ∈ names →
    let full_state := json_index entry (lit "full_state") in
    let exact_state := json_index (json_index entry (lit "exact_state")) label in
    (∀ k, k ∈ ["protocol_identity"; "tip"; "pending_commits"]%string →
       json_index exact_state (lit k) = json_index full_state (lit k))
    ∧ resolution_of exact_state label = resolution_of full_state label
    ∧ (∃ fields, resolution_of full_state label = JObject fields)
    ∧ same_refusal (json_index entry (lit "full_result"))
        (json_index (json_index entry (lit "exact_results")) label).

Lemma resolution_of_state r m v label :
  state_of r m v → resolution_of v label = default JNull (m !! label).
Proof.
  intros (identity & pending & _ & _ & ->). unfold resolution_of, state_json.
  rewrite json_index_object. cbn [field_of String.eqb Ascii.eqb Bool.eqb]. apply json_index_map.
Qed.

Lemma state_of_same r m m' v v' k :
  state_of r m v → state_of r m' v' → k ∈ ["protocol_identity"; "tip"; "pending_commits"]%string →
  json_index v' (lit k) = json_index v (lit k).
Proof.
  intros (identity & pending & Hi & Hp & ->) (identity' & pending' & Hi' & Hp' & ->) Hk.
  rewrite Hi in Hi'. apply Ok_inj in Hi' as <-. rewrite Hp in Hp'. apply Ok_inj in Hp' as <-.
  unfold state_json. rewrite !json_index_object.
  clear Hi Hp.
  apply elem_of_cons in Hk as [->|[->|[->|[]%not_elem_of_nil]%elem_of_cons]%elem_of_cons]; reflexivity.
Qed.

Lemma trace_step_settled id step s trace :
  synced s → step_ok step →
  settled (λ '(s', trace'), synced s' ∧ ∃ entry, trace' = trace ++ [entry] ∧ entry_parity entry)
    (trace_step network p parent names id known (s, trace) step).
Proof.
  intros Hs Hok. unfold trace_step.
  eapply settles_bind; [by apply run_step_settled|].
  intros [[[label full_result] results] s'] (Hs' & Hd & Hsame).
  eapply settles_bind; [by apply full_snapshot_settled|]. intros full_state (m & Hst & Hfull).
  eapply settles_bind; [by apply exact_states_settled|]. intros exact_state Hexact.
  assert (∀ l n, (l, n) ∈ names → ∃ v w, exact_state !! l = Some v
    ∧ state_of (rp_full s') {[l := JObject w]} v ∧ m !! l = Some (JObject w)) as Hall.
  { intros l n Hin. destruct (Hexact l n Hin) as (v & w & Hv & Hvs & Hw).
    destruct (Hfull l n Hin) as (w' & Hm & Hw' & fields & Ew). rewrite Hw in Hw'.
    apply Ok_inj in Hw' as <-. subst w. exists v, fields. exact (conj Hv (conj Hvs Hm)). }
  eapply (settles_bind (λ _, True)).
  { eapply settles_mono; [|intros; exact I]. apply (settles_mapM (λ _ _, True)).
    intros [l n] Hin. destruct (Hall l n Hin) as (v & w & Hv & Hvs & Hm). unfold compare_states.
    rewrite Hv. cbn [expect res_bind].
    rewrite bool_decide_true; [exact I|]. rewrite (resolution_of_state _ _ _ l Hst),
      (resolution_of_state _ _ _ l Hvs), Hm, lookup_singleton_eq. reflexivity. }
  intros _ _. split; [exact Hs'|]. eexists. split; [reflexivity|].
  intros l n Hin full_state' exact_state'. destruct (Hall l n Hin) as (v & w & Hv & Hvs & Hm).
  subst full_state' exact_state'. rewrite !json_index_object.
  cbn [field_of String.eqb Ascii.eqb Bool.eqb]. rewrite !json_index_map, Hv. change (default JNull (Some v)) with v.
  rewrite (resolution_of_state _ _ _ l Hst), (resolution_of_state _ _ _ l Hvs), Hm, lookup_singleton_eq.
  split; [|split; [reflexivity|split; [exists w; reflexivity|]]].
  - intros k Hk. exact (state_of_same _ _ _ _ _ _ Hst Hvs Hk).
  - assert (is_Some (results !! l)) as [x Hx].
    { apply elem_of_dom. rewrite Hd, (sy_labels _ _ _ _ Hs'). apply elem_of_list_to_set, list_elem_of_fmap.
      by exists (l, n). }
    rewrite Hx. exact (Hsame l x Hx).
Qed.
End Traces.

(** ** Cases *)

Section Cases.
Context `{Blake2b} `{Pallas} `{UnifiedAddress} `{!CanonicalJson Manifest} `{Hex}.

Lemma tracked_name_settled label :
  settled (λ '(label', name), label' = name_bytes name ∧ Name_ok name) (tracked_name label).
Proof.
  eapply settles_bind; [apply settled_map_err; [done|apply Name_parse_no_panic]|].
  intros n Hn. split; [done|exact (Name_parse_ok _ _ Hn)].
Qed.

(** The ranges of the corpus types. *)
Definition corpus_parameters_typed (value : CorpusParameters) : Prop :=
  is_u32 (cpa_activation_height value) ∧ is_u32 (cpa_epoch_blocks value)
  ∧ is_u32 (cpa_window_blocks value) ∧ is_u32 (cpa_commit_maturity_blocks value)
  ∧ is_u32 (cpa_commit_ttl_blocks value) ∧ is_u32 (cpa_lease_blocks value)
  ∧ is_u32 (cpa_cooldown_blocks value).

Lemma corpus_parameters_settled value :
  corpus_parameters_typed value → settled Parameters_typed (corpus_parameters value).
Proof. intros Hty. eapply settles_bind; [apply bytes32_settled|]. intros b _. exact Hty. Qed.

Lemma new_no_panic {V : Type} p hash (v : V) : Parameters_typed p → new p hash v ≠ Panic.
Proof. intros _. unfold new, validate. by destruct (_ || _). Qed.

Lemma resolver_of_settled p parent entry :
  Parameters_typed p → Name_ok entry.2 →
  settled (λ e, e.1 = entry.1 ∧ e.2.1 = entry.2
      ∧ exact_new p parent entry.2 MkExplicitProofVerdicts = Ok e.2.2)
    (resolver_of p parent entry).
Proof.
  destruct entry as [label name]. intros Hp Hn. eapply settles_bind.
  - apply settled_map_err; [done|]. unfold exact_new. apply bind_no_panic.
    + apply map_err_no_panic, Name_id_no_panic, Hn.
    + intros i _. apply bind_no_panic; [by apply new_no_panic|done].
  - intros x Hx. by split_and!.
Qed.

(** The replicas before the first step. *)
Lemma synced_initial p parent names full exact :
  Parameters_typed p → Forall (λ '(label, name), label = name_bytes name ∧ Name_ok name) names →
  new p parent MkExplicitProofVerdicts = Ok full →
  Forall2 (λ entry e, e.1 = entry.1 ∧ e.2.1 = entry.2
    ∧ exact_new p parent entry.2 MkExplicitProofVerdicts = Ok e.2.2) names exact →
  synced p parent names (MkReplicas full (btree_collect exact)).
Proof.
  intros Hp Hn Hnew Hx. destruct (new_ok _ _ _ _ Hp Hnew) as [Hr Hh].
  assert (∀ label name x, (label, (name, x)) ∈ exact →
    (label, name) ∈ names ∧ Name_ok name ∧ label = name_bytes name
    ∧ exact_new p parent name MkExplicitProofVerdicts = Ok x) as Hin.
  { intros label name x [i Hi]%list_elem_of_lookup.
    destruct (Forall2_lookup_r _ _ _ _ _ Hx Hi) as ([l n] & Hl & E1 & E2 & E3). simpl in *. subst l n.
    apply list_elem_of_lookup_2 in Hl. rewrite Forall_forall in Hn. by destruct (Hn _ Hl). }
  constructor; simpl.
  - apply recoverable_new; [|done]. split; [done|].
    apply res_bind_Ok in Hnew as (q & Hq%map_err_Ok & <-%Ok_inj). by apply validate_Ok in Hq as [-> _].
  - intros label name x (_ & Hok & _ & Hxn)%lookup_btree_collect_in%Hin.
    by eapply lockstep_new.
  - rewrite dom_btree_collect. f_equal. clear -Hx.
    induction Hx as [|[l n] [l' e] a b [E _] _ IH]; [done|]. simpl in *. by f_equal.
  - intros label name Hl. apply list_elem_of_lookup in Hl as [i Hi].
    destruct (Forall2_lookup_l _ _ _ _ _ Hx Hi) as ([l' [n' x]] & He & E1 & E2 & E3). simpl in *. subst.
    apply list_elem_of_lookup_2 in He. exists x. apply lookup_btree_collect_fun; [done|].
    intros [n2 x2] (_ & _ & Eb & Ex)%Hin. destruct (Hin _ _ _ He) as (_ & _ & Eb' & _).
    assert (n2 = name) as -> by (destruct n2, name; simpl in *; congruence).
    rewrite E3 in Ex. by apply Ok_inj in Ex as ->.
Qed.

(** The ranges of the corpus types hold, and the steps are [step_ok]. *)
Definition case_ok (network : Network) (case : Case) : Prop :=
  corpus_parameters_typed (cs_parameters case)
  ∧ ∀ names, res_mapM tracked_name (cs_tracked_names case) = Ok names →
      Forall (step_ok network names) (cs_steps case).
End Cases.

(** C16: on a case whose advances end below [u32::MAX] and whose evidence is about every
    tracked name, the trace binary never reports a divergence of the two replays, and
    never panics or loops.  Running it gives a trace with an entry for every step, or
    the error of a malformed corpus; and in every entry, after blocks that were
    applied or refused, evidence, rollbacks and reorganizations, the exact resolver
    of every tracked name printed the identity, tip, pending COMMITs and resolution
    of the full reducer, and refused what it refused. *)
Theorem trace_never_diverges `{Blake2b} `{Pallas} `{UnifiedAddress} `{!CanonicalJson Manifest} `{Hex}
  (case : Case) (network : Network) :
  is_Some (to_value_vec EMBEDDED_MANIFEST) → case_ok network case →
  match run_case case network with
  | Ok v => ∃ names trace,
      res_mapM tracked_name (cs_tracked_names case) = Ok names
      ∧ json_index v (lit "trace") = JArray trace
      ∧ length trace = length (cs_steps case)
      ∧ Forall (entry_parity names) trace
  | Err e => malformed e
  | Panic => False
  end.
Proof.
  intros Hm [Hty Hsteps]. apply (settles_mono (R := malformed) (λ v, ∃ names trace,
    res_mapM tracked_name (cs_tracked_names case) = Ok names
    ∧ json_index v (lit "trace") = JArray trace ∧ length trace = length (cs_steps case)
    ∧ Forall (entry_parity names) trace)); [|done].
  unfold run_case. eapply settles_bind; [apply corpus_parameters_settled, Hty|]. intros p Hp.
  eapply settles_bind; [apply bytes32_settled|]. intros parent _.
  eapply settles_bind; [eapply settles_and;
    [eapply settles_eq|]; apply settles_mapM; intros; apply tracked_name_settled|].
  intros names [Enames Hnames].
  eapply settles_bind; [apply settled_map_err; [done|by apply new_no_panic]|]. intros full Hfull.
  assert (Forall (λ '(label, name), label = name_bytes name ∧ Name_ok name) names) as Hn.
  { apply Forall_forall. intros e [i Hi]%list_elem_of_lookup.
    by destruct (Forall2_lookup_r _ _ _ _ _ Hnames Hi) as (? & _ & ?). }
  eapply settles_bind.
  { apply settles_mapM. intros e He. apply resolver_of_settled; [done|].
    rewrite Forall_forall in Hn. specialize (Hn e He). by destruct e, Hn. }
  intros exact Hexact. pose proof (synced_initial p parent names full exact Hp Hn Hfull Hexact) as Hs.
  eapply settles_bind.
  { apply (settles_fold (λ steps '(s, trace),
      synced p parent names s ∧ length trace = length steps ∧ Forall (entry_parity names) trace));
      [by split_and!|].
    intros l [s trace] step Hstep (Hs' & Hl & Hpar).
    eapply settles_mono; [apply (trace_step_settled network p parent names _ Hm); [done|]|].
    - specialize (Hsteps names Enames). rewrite Forall_forall in Hsteps. by apply Hsteps.
    - intros [s' trace'] (Hs2 & entry & -> & He). split; [done|]. rewrite !length_app, Hl.
      split; [done|]. by apply Forall_app, conj, Forall_singleton. }
  intros [s trace] (_ & Hl & Hpar). exists names, trace. split_and!; [done| |done|done].
  by rewrite json_index_object.
Qed.
