(* ===== verification/Reference.v ===== *)
(** * The independent checker ([scripts/verify-semantic-histories.py])

    The repository tests the crate against a second implementation of the
    protocol, written in Python from its specification: the class [Reducer] of the
    script, over values whose hexadecimal is decoded.  It has no index and no journal:
    the heads are a dictionary that is visited whole, and a rollback restores copies.
    An exception is an error of the model. *)

From S2P Require Import Prelude Bytes BTree External Protocol Schedule Codec Statement.
From S2P Require Import Records State Reducer Journal Ledger Invariant Safety SemanticTrace.

#[local] Open Scope string_scope.
#[local] Open Scope list_scope.
#[local] Open Scope Z_scope.

(** ** Dictionaries

    In the order of insertion, which an iteration observes. *)

Section Dict.
Context {K A : Type} `{EqDecision K}.

(** [d.get(k)] *)
Fixpoint dict_get (d : list (K * A)) (k : K) : option A :=
  match d with
  | [] => None
  | (i, x) :: d => if decide (i = k) then Some x else dict_get d k
  end.

(** [d[k] = x] *)
Fixpoint dict_set (d : list (K * A)) (k : K) (x : A) : list (K * A) :=
  match d with
  | [] => [(k, x)]
  | (i, y) :: d => if decide (i = k) then (i, x) :: d else (i, y) :: dict_set d k x
  end.

(** [del d[k]] of a key that is present. *)
Definition dict_del (d : list (K * A)) (k : K) : list (K * A) := filter (λ x, x.1 ≠ k) d.
End Dict.

(** ** State *)

(** The dictionary [before] of [apply]. *)
Record Saved := MkSaved {
  sv_next_height : option Z;
  sv_tip : option ReducerTip;
  sv_previous_hash : list byte;
  sv_commits : gmap CommitRef Commitment;
  sv_heads : list (NameId * Head);
}.

(** [class Reducer].  The order of [commits] is not observed. *)
Record Reference := MkReference {
  py_parameters : Parameters;
  py_next_height : option Z;
  py_tip : option ReducerTip;
  py_previous_hash : list byte;
  py_commits : gmap CommitRef Commitment;
  py_heads : list (NameId * Head);
  py_history : list Saved;
}.

Definition with_maps (s : Reference) (commits : gmap CommitRef Commitment)
  (heads : list (NameId * Head)) : Reference :=
  MkReference (py_parameters s) (py_next_height s) (py_tip s) (py_previous_hash s) commits heads
    (py_history s).

(** The exceptions that end the script. *)
Inductive SemanticError :=
  | PyInvalidParameters
  | NameHashExhausted
  | PyInvalidName
  | Expected32Bytes
  | FieldLength
  | NonCanonicalField
  | InvalidUaLength
  | WrongUaNetwork
  | ZeroCommit
  | ZeroReferencedCommit.

(** The dictionary that [apply] returns: the kinds of the accepted operations, the
    decisions, and the two kinds of transitions, in that order. *)
Record RefOutcome := MkRefOutcome {
  ro_accepted : list Accepted;
  ro_decisions : list OperationDecision;
  ro_compacted : list Compaction;
  ro_terminated : list Termination;
}.

Section Checker.
Context `{Blake2b} `{Pallas}.

(** [validate_parameters] *)
Definition py_valid_parameters (p : Parameters) : bool :=
  (0 <? window_blocks p) && (window_blocks p <=? commit_maturity_blocks p)
  && (commit_maturity_blocks p <? commit_ttl_blocks p) && (commit_ttl_blocks p <? epoch_blocks p)
  && (epoch_blocks p <? lease_blocks p) && (cooldown_blocks p =? epoch_blocks p).

(** [Reducer.__init__] *)
Definition py_new (p : Parameters) (activation_parent_hash : list byte)
  : res SemanticError Reference :=
  let? _ := ensure (py_valid_parameters p) PyInvalidParameters in
  Ok (MkReference p (Some (activation_height p)) None activation_parent_hash ∅ [] []).

(** *** Values *)

(** [bytes32] *)
Definition py_bytes32 (value : list byte) : res SemanticError unit :=
  ensure (bool_decide (length value = 32%nat)) Expected32Bytes.

(** [parse_field]: 32 bytes below the modulus. *)
Definition py_parse_field (value : list byte) : res SemanticError base :=
  let? _ := ensure (bool_decide (length value = 32%nat)) FieldLength in
  ok_or (from_repr value) NonCanonicalField.

(** [parse_field(value) == 0] raises. *)
Definition py_nonzero (value : list byte) (error : SemanticError) : res SemanticError unit :=
  let? field := py_parse_field value in ensure (bool_decide (field ≠ base_zero)) error.

Definition py_label_byte (b : byte) : bool :=
  let v := byte_val b in
  ((97 <=? v) && (v <=? 122)) || ((48 <=? v) && (v <=? 57)) || (v =? 45).

(** [parse_name], which also raises on a name that is not ASCII. *)
Definition py_parse_name (value : list byte) : res SemanticError (list byte) :=
  let bare := default value (strip_suffix (lit ".zec") value) in
  let? _ := ensure (negb (bool_decide (bare = []) || (63 <? Z.of_nat (length bare))
                          || bool_decide (byte_val <$> head bare = Some 45)
                          || bool_decide (byte_val <$> last bare = Some 45)
                          || negb (forallb py_label_byte bare))) PyInvalidName in
  Ok bare.

(** [canonical = parse_name(..)], as a name. *)
Definition py_canonical (name : Name) : res SemanticError Name :=
  let? bare := py_parse_name (name_bytes name) in Ok (MkName bare).

(** [name_id] *)
Definition py_name_id (name : Name) : res SemanticError NameId :=
  let? canonical := py_canonical name in
  map_err (λ _, NameHashExhausted) (Name_id canonical).

(** [validate_ua] *)
Definition py_validate_ua (value : list byte) (network : Network) : res SemanticError unit :=
  let prefix := match network with
                | Main => lit "u1" | Test => lit "utest1" | Regtest => lit "uregtest1"
                end in
  let? _ := ensure ((0 <? Z.of_nat (length value)) && (Z.of_nat (length value) <=? 1024))
              InvalidUaLength in
  ensure (bool_decide (is_Some (strip_prefix prefix value))) WrongUaNetwork.

(** [operation_window], on unbounded integers. *)
Definition py_operation_window (p : Parameters) (name : Name) (height : Z) : res SemanticError bool :=
  if height <? activation_height p then Ok false
  else
    let epoch := (height - activation_height p) / epoch_blocks p in
    let epoch_start := activation_height p + epoch * epoch_blocks p in
    let? identity := py_name_id name in
    let digest := blake2b 32 (lit "CoppiceNmOff") [] (deployment_id p ++ name_id_bytes identity) in
    let span := epoch_blocks p - window_blocks p + 1 in
    let start := epoch_start + le_val (take 8 digest) mod span in
    Ok ((start <=? height) && (height <? start + window_blocks p)).

(** [lifecycle] *)
Definition py_lifecycle (p : Parameters) (head : Head) (height : Z) : Lifecycle :=
  let terminal :=
    if bool_decide (hd_terminal_height head = None) && (hd_expiry_height head <=? height)
    then Some (hd_expiry_height head) else hd_terminal_height head in
  match terminal with
  | None => Active
  | Some terminal => if terminal + cooldown_blocks p <=? height then Missing else Cooldown
  end.

(** [resolve] *)
Definition py_resolve (s : Reference) (name : Name) (height : Z) : res SemanticError Resolution :=
  let? canonical := py_canonical name in
  let? identity := py_name_id canonical in
  match dict_get (py_heads s) identity with
  | None => Ok missing
  | Some head =>
      match py_lifecycle (py_parameters s) head height with
      | Missing => Ok missing
      | Active => Ok (MkResolution Active (Some (hd_ua head)) (Some head))
      | Cooldown => Ok (MkResolution Cooldown None (Some head))
      end
  end.

(** *** [_validate_block]

    First every value of the block is parsed, which raises; addresses are those of
    the default network of [validate_ua]. *)

(** A loop whose body raises or does nothing. *)
Fixpoint py_each {A : Type} (f : A → res SemanticError unit) (l : list A) : res SemanticError unit :=
  match l with
  | [] => Ok tt
  | x :: l => let? _ := f x in py_each f l
  end.

Definition py_check_named (name : Name) (ua : CanonicalUa) (successor : FieldElement)
  (txid : list byte) : res SemanticError unit :=
  let? _ := py_parse_name (name_bytes name) in
  let? _ := py_validate_ua (ua_bytes ua) Regtest in
  let? _ := py_parse_field (field_bytes successor) in
  py_bytes32 txid.

Definition py_check_operation (operation : Operation) : res SemanticError unit :=
  match operation with
  | Commit commitment => py_nonzero (commitment_bytes commitment) ZeroCommit
  | Reveal name commit ua _ successor _ => py_check_named name ua successor (cr_txid commit)
  | Refresh name predecessor ua _ successor _ => py_check_named name ua successor (sr_txid predecessor)
  end.

Definition py_check_action (action : Action) : res SemanticError unit :=
  let? _ := py_parse_field (field_bytes (ac_nullifier action)) in
  let? _ := py_parse_field (field_bytes (ac_commitment action)) in
  Ok tt.

Definition py_check_transaction (transaction : Transaction) : res SemanticError unit :=
  let? _ := py_bytes32 (tx_txid transaction) in
  let? _ := py_each py_check_action (tx_actions transaction) in
  match tx_operation transaction with
  | Some operation => py_check_operation operation
  | None => Ok tt
  end.

Definition py_check_referenced (evidence : ReferencedCommit) : res SemanticError unit :=
  let? _ := py_bytes32 (cr_txid (rc_reference evidence)) in
  py_nonzero (commitment_bytes (rc_commitment evidence)) ZeroReferencedCommit.

Definition py_check_values (block : Block) (referenced : list ReferencedCommit)
  : res SemanticError unit :=
  let? _ := py_bytes32 (bl_hash block) in
  let? _ := py_bytes32 (bl_prev_hash block) in
  let? _ := py_each py_check_transaction (bl_transactions block) in
  py_each py_check_referenced referenced.

Fixpoint py_check_actions (position : Z) (actions : list Action) : option ApplyError :=
  match actions with
  | [] => None
  | action :: actions =>
      if negb (ac_action_index action =? position) then Some NonCanonicalActionIndex
      else py_check_actions (position + 1) actions
  end.

Fixpoint py_check_transactions (previous_index : option Z) (txs : list Transaction)
  : option ApplyError :=
  match txs with
  | [] => None
  | tx :: txs =>
      if match previous_index with Some previous => tx_tx_index tx <=? previous | None => false end
      then Some NonCanonicalTransactionIndex
      else match py_check_actions 0 (tx_actions tx) with
           | Some e => Some e
           | None => py_check_transactions (Some (tx_tx_index tx)) txs
           end
  end.

(** [key in d and d[key] != value] *)
Definition py_conflict (d : gmap CommitRef Commitment) (key : CommitRef) (value : Commitment) : bool :=
  match d !! key with Some x => bool_decide (x ≠ value) | None => false end.

Fixpoint py_check_evidence (s : Reference) (block : Block) (reveal_refs : list CommitRef)
  (supplied : gmap CommitRef Commitment) (referenced : list ReferencedCommit) : option ApplyError :=
  match referenced with
  | [] => None
  | evidence :: referenced =>
      let key := rc_reference evidence in
      let reference_height := cr_height key in
      if negb (bool_decide (key ∈ reveal_refs))
         || (reference_height <? activation_height (py_parameters s))
         || (bl_height block <=? reference_height)
         || (commit_ttl_blocks (py_parameters s) <=? bl_height block - reference_height)
      then Some InvalidReferencedCommit
      else if py_conflict supplied key (rc_commitment evidence) then Some ConflictingReferencedCommit
      else if py_conflict (py_commits s) key (rc_commitment evidence)
      then Some ConflictingReferencedCommit
      else py_check_evidence s block reveal_refs (<[key := rc_commitment evidence]> supplied) referenced
  end.

Definition py_reveal_refs (block : Block) : list CommitRef :=
  omap (λ tx, match tx_operation tx with
              | Some (Reveal _ commit _ _ _ _) => Some commit
              | _ => None
              end) (bl_transactions block).

(** The part after the values. *)
Definition py_validate_order (s : Reference) (block : Block) (referenced : list ReferencedCommit)
  : option ApplyError :=
  if bool_decide (py_next_height s ≠ Some (bl_height block)) then Some WrongHeight
  else if bool_decide (bl_prev_hash block ≠ py_previous_hash s) then Some WrongPreviousHash
  else match py_check_transactions None (bl_transactions block) with
       | Some e => Some e
       | None => py_check_evidence s block (py_reveal_refs block) ∅ referenced
       end.

Definition py_validate_block (s : Reference) (block : Block) (referenced : list ReferencedCommit)
  : res SemanticError (option ApplyError) :=
  let? _ := py_check_values block referenced in Ok (py_validate_order s block referenced).

(** *** The phases of [apply] *)

(** [_prune_commits] *)
Definition py_prune_commits (p : Parameters) (height : Z) (commits : gmap CommitRef Commitment)
  : gmap CommitRef Commitment :=
  filter (λ x, height - cr_height x.1 < commit_ttl_blocks p) commits.

(** [_mark_expired] *)
Definition py_mark_expired (height : Z) (heads : list (NameId * Head)) : list (NameId * Head) :=
  map (λ '(identity, head),
    (identity,
     if bool_decide (hd_terminal_height head = None) && (hd_expiry_height head <=? height)
     then set_terminal (hd_expiry_height head) head else head)) heads.

(** [_compact_claimable] *)
Definition py_compacted (p : Parameters) (height : Z) (heads : list (NameId * Head))
  : list Compaction :=
  omap (λ identity,
    head ← dict_get heads identity;
    match hd_terminal_height head with
    | Some terminal =>
        if terminal + cooldown_blocks p <=? height
        then Some (MkCompaction identity (hd_producer head) height) else None
    | None => None
    end) (merge_sort key_le heads.*1).

Definition py_compact (compacted : list Compaction) (heads : list (NameId * Head))
  : list (NameId * Head) :=
  fold_left (λ heads event, dict_del heads (cp_name_id event)) compacted heads.

(** The head both operations install. *)
Definition py_head (p : Parameters) (name : Name) (ua : CanonicalUa) (height : Z)
  (transaction : Transaction) (action_index : Z) (action : Action) (successor : FieldElement)
  (epoch : Z) : Head :=
  MkHead name ua (MkStateRef height (tx_tx_index transaction) (tx_txid transaction) action_index)
    (ac_commitment action) successor epoch (height + lease_blocks p) None.

(** [proof_valid]: the verdict the corpus states. *)
Definition proof_valid (proof : list byte) : bool := bool_decide (proof = [x01]).

(** A rejection changes nothing. *)
Definition reject (s : Reference) (clause_id : string)
  : res SemanticError (Reference * OperationDecision) :=
  Ok (s, MkOperationDecision None clause_id).

(** [_apply_reveal] *)
Definition py_apply_reveal (s : Reference) (height : Z) (transaction : Transaction) (name : Name)
  (commit : CommitRef) (ua : CanonicalUa) (action_index : Z) (successor : FieldElement)
  (proof : list byte) : res SemanticError (Reference * OperationDecision) :=
  let p := py_parameters s in
  let? canonical := py_canonical name in
  let? identity := py_name_id canonical in
  match dict_get (py_heads s) identity with
  | Some _ => reject s "NAMES.REVEAL.MISSING"
  | None =>
      let age := height - cr_height commit in
      let? window := py_operation_window p canonical height in
      if negb window || (cr_height commit <? activation_height p)
         || (age <? commit_maturity_blocks p) || (commit_ttl_blocks p <=? age)
      then reject s (if negb window then "NAMES.REVEAL.SCHEDULE" else "NAMES.REVEAL.COMMIT")
      else match py_commits s !! commit with
      | None => reject s "NAMES.REVEAL.COMMIT"
      | Some _ =>
          match tx_actions transaction !! Z.to_nat action_index with
          | Some action =>
              if negb (ac_action_index action =? action_index) then reject s "NAMES.REVEAL.ACTION"
              else if negb (proof_valid proof) then reject s "NAMES.REVEAL.PROOF"
              else
                let epoch := (height - activation_height p) / epoch_blocks p in
                let head := py_head p canonical ua height transaction action_index action successor epoch in
                Ok (with_maps s (py_commits s) (dict_set (py_heads s) identity head),
                    MkOperationDecision (Some AcceptedReveal) "NAMES.REVEAL.ACCEPT")
          | None => reject s "NAMES.REVEAL.ACTION"
          end
      end
  end.

(** [_apply_refresh] *)
Definition py_apply_refresh (s : Reference) (height : Z) (transaction : Transaction) (name : Name)
  (predecessor_ref : StateRef) (ua : CanonicalUa) (action_index : Z) (successor : FieldElement)
  (proof : list byte) : res SemanticError (Reference * OperationDecision) :=
  let p := py_parameters s in
  let? canonical := py_canonical name in
  let? identity := py_name_id canonical in
  match dict_get (py_heads s) identity with
  | None => reject s "NAMES.REFRESH.CURRENT"
  | Some predecessor =>
      let epoch := (height - activation_height p) / epoch_blocks p in
      if bool_decide (py_lifecycle p predecessor height ≠ Active)
         || bool_decide (hd_producer predecessor ≠ predecessor_ref)
      then reject s "NAMES.REFRESH.CURRENT"
      else if epoch <=? hd_producer_epoch predecessor then reject s "NAMES.REFRESH.EPOCH"
      else
        let? window := py_operation_window p canonical height in
        if negb window then reject s "NAMES.REFRESH.SCHEDULE"
        else match tx_actions transaction !! Z.to_nat action_index with
        | None => reject s "NAMES.REFRESH.ACTION"
        | Some action =>
            if negb (ac_action_index action =? action_index)
               || bool_decide (ac_nullifier action ≠ hd_future_nf predecessor)
            then reject s "NAMES.REFRESH.ACTION"
            else if negb (proof_valid proof) then reject s "NAMES.REFRESH.PROOF"
            else
              let head := py_head p canonical ua height transaction action_index action successor epoch in
              Ok (with_maps s (py_commits s) (dict_set (py_heads s) identity head),
                  MkOperationDecision (Some AcceptedRefresh) "NAMES.REFRESH.ACCEPT")
        end
  end.

(** The operation phase of [_apply_transaction]. *)
Definition py_apply_operation (s : Reference) (height : Z) (transaction : Transaction)
  : res SemanticError (Reference * OperationDecision) :=
  match tx_operation transaction with
  | Some (Commit commitment) =>
      let reference := MkCommitRef height (tx_tx_index transaction) (tx_txid transaction) in
      Ok (with_maps s (<[reference := commitment]> (py_commits s)) (py_heads s),
          MkOperationDecision (Some AcceptedCommit) "NAMES.COMMIT.ACCEPT")
  | Some (Reveal name commit ua action_index successor proof) =>
      py_apply_reveal s height transaction name commit ua action_index successor proof
  | Some (Refresh name predecessor ua action_index successor proof) =>
      py_apply_refresh s height transaction name predecessor ua action_index successor proof
  | None => Ok (s, MkOperationDecision None "NAMES.BLOCK.ORDER")
  end.

(** The heads the transaction spends, in the order of the dictionary. *)
Definition py_spent (heads : list (NameId * Head)) (transaction : Transaction)
  : list (NameId * StateRef) :=
  omap (λ '(identity, head),
    if existsb (λ action, bool_decide (ac_nullifier action = hd_future_nf head)) (tx_actions transaction)
    then Some (identity, hd_producer head) else None) heads.

(** The loop body over [spent]. *)
Definition py_terminate (height : Z) (acc : list (NameId * Head) * list Termination)
  (spent : NameId * StateRef) : list (NameId * Head) * list Termination :=
  let '(heads, transitions) := acc in
  let '(identity, producer) := spent in
  match dict_get heads identity with
  | Some head =>
      if bool_decide (hd_producer head = producer) && bool_decide (hd_terminal_height head = None)
      then (dict_set heads identity (set_terminal height head),
            transitions ++ [MkTermination identity producer height])
      else (heads, transitions)
  | None => (heads, transitions)
  end.

(** [_apply_transaction] *)
Definition py_apply_transaction (s : Reference) (height : Z) (transaction : Transaction)
  : res SemanticError (Reference * OperationDecision * list Termination) :=
  let spent := py_spent (py_heads s) transaction in
  let? (s, decision) := py_apply_operation s height transaction in
  let '(heads, transitions) := fold_left (py_terminate height) spent (py_heads s, []) in
  Ok (with_maps s (py_commits s) heads, decision, transitions).

(** The loop over the transactions. *)
Fixpoint py_apply_transactions (s : Reference) (height : Z) (txs : list Transaction)
  : res SemanticError (Reference * list OperationDecision * list Termination) :=
  match txs with
  | [] => Ok (s, [], [])
  | tx :: txs =>
      let? (s, decision, transitions) := py_apply_transaction s height tx in
      let? (s, decisions, transitions') := py_apply_transactions s height txs in
      Ok (s, decision :: decisions, transitions ++ transitions')
  end.

Definition py_supply (commits : gmap CommitRef Commitment) (referenced : list ReferencedCommit)
  : gmap CommitRef Commitment :=
  fold_left (λ commits evidence, <[rc_reference evidence := rc_commitment evidence]> commits)
    referenced commits.

(** [apply] *)
Definition py_apply (block : Block) (referenced : list ReferencedCommit) (s : Reference)
  : res SemanticError ((ApplyError + RefOutcome) * Reference) :=
  let? refused := py_validate_block s block referenced in
  match refused with
  | Some error => Ok (inl error, s)
  | None =>
      let before := MkSaved (py_next_height s) (py_tip s) (py_previous_hash s) (py_commits s)
                      (py_heads s) in
      let height := bl_height block in
      let heads := py_mark_expired height (py_heads s) in
      let compacted := py_compacted (py_parameters s) height heads in
      let heads := py_compact compacted heads in
      let commits := py_supply (py_prune_commits (py_parameters s) height (py_commits s)) referenced in
      let? (s, decisions, transitions) :=
        py_apply_transactions (with_maps s commits heads) height (bl_transactions block) in
      let next_height := if height <? u32_max then Some (height + 1) else None in
      Ok (inr (MkRefOutcome (omap od_accepted decisions) decisions compacted transitions),
          MkReference (py_parameters s) next_height (Some (MkReducerTip height (bl_hash block)))
            (bl_hash block) (py_commits s) (py_heads s) (py_history s ++ [before]))
  end.

(** [rollback] *)
Definition py_rollback (expected_hash : list byte) (s : Reference)
  : option RollbackError * Reference :=
  match last (py_history s) with
  | None =>
      (Some (match py_tip s with Some _ => BeyondRetention | None => NoAppliedBlock end), s)
  | Some previous =>
      if match py_tip s with
         | None => true
         | Some tip => bool_decide (tip_hash tip ≠ expected_hash)
         end
      then (Some WrongTipHash, s)
      else
        (None, MkReference (py_parameters s) (sv_next_height previous) (sv_tip previous)
                 (sv_previous_hash previous) (sv_commits previous) (sv_heads previous)
                 (removelast (py_history s)))
  end.

(** The resolution of a name in [snapshot]; [inl] is the error it reports. *)
Definition py_snapshot_resolution (s : Reference) (name : Name)
  : res SemanticError (ResolutionError + Resolution) :=
  match py_tip s with
  | Some tip => let? resolution := py_resolve s name (tip_height_ tip) in Ok (inr resolution)
  | None => Ok (inl (IncompleteHistory (activation_height (py_parameters s)) None))
  end.

(** [ExactResolver.apply], for the name of an identity. *)
Definition py_filter (identity : NameId) (transaction : Transaction) : res SemanticError Transaction :=
  match tx_operation transaction with
  | Some (Reveal name _ _ _ _ _) | Some (Refresh name _ _ _ _ _) =>
      let? i := py_name_id name in
      Ok (if bool_decide (i ≠ identity)
          then MkTransaction (tx_tx_index transaction) (tx_txid transaction) (tx_actions transaction) None
          else transaction)
  | _ => Ok transaction
  end.

Definition py_exact_apply (identity : NameId) (block : Block) (referenced : list ReferencedCommit)
  (s : Reference) : res SemanticError ((ApplyError + RefOutcome) * Reference) :=
  let? transactions := res_mapM (py_filter identity) (bl_transactions block) in
  py_apply (MkBlock (bl_height block) (bl_hash block) (bl_prev_hash block) transactions) referenced s.
End Checker.
