(* ===== verification/ReferenceFacts.v ===== *)
(** * The reducer against the independent checker

    Every run of rollbacks and of regtest blocks of values in range gets the same
    answers from the reducer of the crate and from the checker, below the last lease
    of the 32-bit heights; and the checker raises nothing. *)

From S2P Require Import Prelude Bytes BTree External Protocol Schedule Codec Statement.
From S2P Require Import Records State Reducer Journal Ledger Invariant Safety Snapshot SemanticTrace Reference.

(** ** Dictionaries as maps *)

(** The dictionary holds the entries of the map, once each. *)
Record mirrors {K A : Type} `{Countable K} (d : list (K * A)) (m : gmap K A) : Prop := {
  mi_keys : NoDup d.*1;
  mi_get k : dict_get d k = m !! k;
}.

Section Dict.
Context {K A : Type} `{Countable K}.
Implicit Types (d : list (K * A)) (m : gmap K A).

Lemma dict_get_set d k x j : dict_get (dict_set d k x) j = if decide (k = j) then Some x else dict_get d j.
Proof.
  induction d as [|[i y] d IH]; simpl; [by destruct (decide (k = j))|].
  destruct (decide (i = k)) as [->|]; simpl; [by destruct (decide (k = j))|].
  destruct (decide (i = j)) as [->|]; [|done]. by destruct (decide (k = j)).
Qed.

Lemma dict_get_elem d k x : NoDup d.*1 → (k, x) ∈ d ↔ dict_get d k = Some x.
Proof.
  induction d as [|[i y] d IH]; simpl.
  { split; [by intros ?%not_elem_of_nil|done]. }
  intros [Hi Hd]%NoDup_cons. rewrite elem_of_cons, IH by done.
  destruct (decide (i = k)) as [->|Hne]; [|naive_solver].
  split; [intros [[= ->]|Hx]; [done|]|intros [= ->]; by left].
  exfalso. apply Hi. apply IH in Hx; [|done]. apply list_elem_of_fmap. by exists (k, x).
Qed.

Lemma dict_get_None d k : dict_get d k = None ↔ k ∉ d.*1.
Proof.
  induction d as [|[i y] d IH]; simpl.
  { split; [intros _; apply not_elem_of_nil|done]. }
  rewrite not_elem_of_cons. destruct (decide (i = k)) as [->|]; [naive_solver|]. rewrite IH. naive_solver.
Qed.

Lemma dict_set_keys d k x :
  (dict_set d k x).*1 = if dict_get d k then d.*1 else d.*1 ++ [k].
Proof.
  induction d as [|[i y] d IH]; csimpl; [done|]. destruct (decide (i = k)) as [->|]; csimpl; [done|].
  rewrite IH. by destruct (dict_get d k).
Qed.

Lemma mirrors_empty : mirrors [] (∅ : gmap K A).
Proof. split; [constructor|done]. Qed.

Lemma mirrors_set d m k x : mirrors d m → mirrors (dict_set d k x) (<[k := x]> m).
Proof.
  intros [Hd Hg]. split.
  - rewrite dict_set_keys. destruct (dict_get d k) eqn:E; [done|]. apply dict_get_None in E.
    apply NoDup_app. split; [done|]. split; [|apply NoDup_singleton].
    intros j Hj ->%list_elem_of_singleton. done.
  - intros j. rewrite dict_get_set. destruct (decide (k = j)) as [->|].
    + by rewrite lookup_insert_eq.
    + by rewrite lookup_insert_ne.
Qed.

Lemma mirrors_map (f : A → A) d m : mirrors d m → mirrors (map (λ '(i, x), (i, f x)) d) (f <$> m).
Proof.
  intros [Hd Hg]. split.
  - rewrite <- list_fmap_compose. erewrite list_fmap_ext; [exact Hd|]. by intros ? [].
  - intros k. rewrite lookup_fmap, <- Hg. clear. induction d as [|[i x] d IH]; simpl; [done|].
    by destruct (decide (i = k)).
Qed.

Lemma mirrors_del d m k : mirrors d m → mirrors (dict_del d k) (delete k m).
Proof.
  intros [Hd Hg]. assert (NoDup (dict_del d k).*1) as Hnd.
  { unfold dict_del. clear Hg. induction d as [|[i x] d IH]; simpl; [constructor|].
    apply NoDup_cons in Hd as [Hi Hd]. rewrite filter_cons. cbn [fst].
    destruct (decide (i ≠ k)); [|by apply IH]. simpl. apply NoDup_cons. split; [|by apply IH].
    intros (y & -> & Hy)%list_elem_of_fmap. apply list_elem_of_filter in Hy as [_ Hy].
    apply Hi, list_elem_of_fmap. by exists y. }
  split; [done|]. intros j. apply option_eq. intros x.
  rewrite <- dict_get_elem by done. unfold dict_del. rewrite list_elem_of_filter. simpl.
  rewrite dict_get_elem, Hg by done. rewrite lookup_delete_Some. naive_solver.
Qed.

Lemma mirrors_elem d m k x : mirrors d m → (k, x) ∈ d ↔ m !! k = Some x.
Proof. intros [Hd Hg]. by rewrite dict_get_elem, Hg. Qed.
End Dict.

Lemma omap_Permutation {A B : Type} (f : A → option B) (l k : list A) :
  l ≡ₚ k → omap f l ≡ₚ omap f k.
Proof.
  induction 1 as [|x l k _ IH|x y l|? ? ? _ IH1 _ IH2]; simpl; [done| | |by etrans].
  - destruct (f x); [by constructor|done].
  - destruct (f x), (f y); try done. by constructor.
Qed.

(** ** Values *)

Section Values.
Context `{Blake2b} `{Pallas}.

Lemma py_label_byte_eq b : py_label_byte b = name_byte b.
Proof.
  apply eq_bool_prop_intro. rewrite !Is_true_true, name_byte_spec. unfold py_label_byte, is_ascii_lowercase,
    is_ascii_digit. rewrite !orb_true_iff, !Is_true_true, Z.eqb_eq. tauto.
Qed.

Lemma py_dash (o : option byte) : bool_decide (byte_val <$> o = Some 45) = bool_decide (o = head (lit "-")).
Proof.
  apply bool_decide_ext. change (head (lit "-")) with (Some (byte_of 45)).
  destruct o as [b|]; [|done]. simpl. split; [|by intros [= ->]].
  intros [= Hb]. f_equal. by apply byte_val_inj.
Qed.

(** The checker parses the names that [Name::parse] parses. *)
Lemma py_parse_name_eq value :
  py_parse_name value
  = match Name_parse value with Ok name => Ok (name_bytes name) | _ => Err PyInvalidName end.
Proof.
  unfold py_parse_name, Name_parse. generalize (default value (strip_suffix (lit ".zec") value)). intros bare.
  assert (forallb py_label_byte bare = forallb name_byte bare) as El.
  { induction bare as [|b bare IH]; simpl; [done|]. by rewrite IH, py_label_byte_eq. }
  assert (forallb name_byte bare = true → is_ascii bare = true) as Ha.
  { intros Hb. apply forallb_forall. intros x Hx. rewrite forallb_forall in Hb.
    apply Hb, name_byte_range in Hx. apply Z.ltb_lt. lia. }
  rewrite !py_dash, El. unfold name_rejected, MAX_NAME_BYTES.
  destruct (forallb name_byte bare); [rewrite (Ha eq_refl)|]; cbn [negb].
  - rewrite !orb_false_r. by destruct (_ || _).
  - by rewrite !orb_true_r.
Qed.

Lemma py_parse_name_ok name : Name_ok name → py_parse_name (name_bytes name) = Ok (name_bytes name).
Proof. intros Hn. by rewrite py_parse_name_eq, Name_parse_name. Qed.

Lemma py_canonical_ok name : Name_ok name → py_canonical name = Ok name.
Proof. intros Hn. unfold py_canonical. rewrite py_parse_name_ok by done. by destruct name. Qed.

Lemma py_name_id_ok name :
  Name_ok name → py_name_id name = map_err (λ _, NameHashExhausted) (Name_id name).
Proof. intros Hn. unfold py_name_id. by rewrite py_canonical_ok. Qed.

Lemma py_bytes32_ok b : length b = 32%nat → py_bytes32 b = Ok tt.
Proof. intros Hb. unfold py_bytes32. by rewrite bool_decide_true. Qed.

Lemma py_parse_field_ok b x : from_repr b = Some x → py_parse_field b = Ok x.
Proof.
  intros Hb. unfold py_parse_field. rewrite bool_decide_true by (by eapply from_repr_length).
  cbn [ensure res_bind]. by rewrite Hb.
Qed.

Lemma py_field_ok f : FieldElement_ok f → ∃ x, py_parse_field (field_bytes f) = Ok x.
Proof. intros [[x Hx] _]%FieldElement_from_bytes_Ok. exists x. by apply py_parse_field_ok. Qed.

Lemma py_nonzero_ok c error : Commitment_ok c → py_nonzero (commitment_bytes c) error = Ok tt.
Proof.
  intros (x & Hx & Hz & _)%Commitment_from_bytes_Ok. unfold py_nonzero.
  rewrite (py_parse_field_ok _ x) by done. cbn [res_bind]. by rewrite bool_decide_true.
Qed.

Lemma py_each_ok {A : Type} (f : A → res SemanticError unit) l :
  (∀ x, x ∈ l → f x = Ok tt) → py_each f l = Ok tt.
Proof.
  induction l as [|x l IH]; intros Hf; [done|]. simpl. rewrite Hf by left. apply IH.
  intros y Hy. apply Hf. by right.
Qed.

Context `{UnifiedAddress}.

(** The checker takes an address for one of the network when the crate does: it asks
    for the prefix and the length only. *)
Lemma py_validate_ua_ok network ua : CanonicalUa_ok network ua → py_validate_ua (ua_bytes ua) network = Ok tt.
Proof.
  intros (Hl & Hp & _)%CanonicalUa_parse_Ok. unfold py_validate_ua, MAX_UA_BYTES in *.
  rewrite (proj2 (Z.ltb_lt _ _)), (proj2 (Z.leb_le _ _)) by lia. cbn [andb ensure res_bind].
  rewrite bool_decide_true; [done|].
  unfold matches_hrp in Hp.
  destruct (strip_prefix _ (ua_bytes ua)) as [suffix|] eqn:E; [|done]. apply strip_prefix_Some in E.
  apply bool_decide_eq_true in Hp. destruct suffix as [|b suffix]; [done|]. injection Hp as ->.
  exists suffix. rewrite E. apply strip_prefix_Some. by destruct network.
Qed.

(** *** The values of a block

    As many actions as an index can count and values in the range of their types, the
    addresses of regtest: nothing is raised. *)

Definition actions_counted (txs : list Transaction) : Prop :=
  ∀ tx, tx ∈ txs → Z.of_nat (length (tx_actions tx)) ≤ u32_max.

Record values_typed (block : Block) (refs : list ReferencedCommit) : Prop := {
  vt_typed : typed_host Regtest block refs;
  vt_hash : length (bl_hash block) = 32%nat;
  vt_prev_hash : length (bl_prev_hash block) = 32%nat;
  vt_txid tx : tx ∈ bl_transactions block → length (tx_txid tx) = 32%nat;
  vt_nullifier tx a : tx ∈ bl_transactions block → a ∈ tx_actions tx → FieldElement_ok (ac_nullifier a);
  vt_reference ev : ev ∈ refs → length (cr_txid (rc_reference ev)) = 32%nat;
}.

Lemma py_check_named_ok name ua successor txid :
  Name_ok name → CanonicalUa_ok Regtest ua → FieldElement_ok successor → length txid = 32%nat →
  py_check_named name ua successor txid = Ok tt.
Proof.
  intros Hn Hu [x Hx]%py_field_ok Ht. unfold py_check_named.
  rewrite py_parse_name_ok, (py_validate_ua_ok Regtest), Hx by done. by apply py_bytes32_ok.
Qed.

Lemma py_check_operation_ok op : Operation_ok Regtest op → py_check_operation op = Ok tt.
Proof.
  destruct op; cbn [Operation_ok py_check_operation]; [apply py_nonzero_ok|..];
    intros (Hn & (? & ? & Hr) & Hu & _ & _ & Hs); apply py_check_named_ok; try done; apply Hr.
Qed.

Lemma py_check_values_ok block refs : values_typed block refs → py_check_values block refs = Ok tt.
Proof.
  intros [[Hty Hev] Hh Hp Htx Hnf Hrf]. unfold py_check_values.
  rewrite !py_bytes32_ok by done. cbn [res_bind].
  rewrite (py_each_ok py_check_transaction). { cbn [res_bind]. apply py_each_ok. intros ev Hin.
    unfold py_check_referenced. rewrite py_bytes32_ok by auto. by apply py_nonzero_ok, Hev. }
  intros tx Hin. destruct (Hty tx Hin) as [Hac Hop]. unfold py_check_transaction.
  rewrite py_bytes32_ok by auto. cbn [res_bind]. rewrite py_each_ok.
  { cbn [res_bind]. destruct (tx_operation tx); [|done]. by apply py_check_operation_ok, Hop. }
  intros a Ha. unfold py_check_action. destruct (py_field_ok _ (Hnf tx a Hin Ha)) as [x ->].
  by destruct (py_field_ok _ (Hac a Ha)) as [y ->].
Qed.
End Values.

(** ** The schedule *)

Section Schedule.
Context `{Blake2b} `{Pallas}.
Context (p : Parameters) (Hp : Parameters_ok p).

(** The heights whose lease does not overflow. *)
Definition below_horizon (height : Z) : Prop :=
  activation_height p ≤ height ∧ height + lease_blocks p ≤ u32_max.

Lemma epoch_below height :
  activation_height p ≤ height →
  epoch p height = Ok ((height - activation_height p) / epoch_blocks p).
Proof.
  intros Ha. destruct Hp. unfold epoch.
  destruct (Z.ltb_spec height (activation_height p)); [lia|]. by destruct (Z.eqb_spec (epoch_blocks p) 0); [lia|].
Qed.

(** The window of the checker, on unbounded integers, is that of the crate. *)
Lemma py_operation_window_eq name i height :
  below_horizon height → Name_ok name → Name_id name = Ok i →
  py_operation_window p name height = Ok (accepts_b p i height).
Proof.
  intros [Ha Hh] Hn Hi. unfold py_operation_window, accepts_b, accepts_operation.
  destruct (Z.ltb_spec height (activation_height p)); [lia|]. rewrite py_name_id_ok, Hi by done. cbn [map_err res_bind].
  pose proof (epoch_below height Ha) as He. rewrite He. cbn [res_bind].
  apply epoch_Ok in He as (_ & He); [|done]. pose proof Hp as [_ _ ? ? ? ? ? _].
  destruct (offset_ok (E := unit) p i Hp) as [_ Ho].
  set (e := (height - activation_height p) / epoch_blocks p) in *.
  rewrite (proj2 (window_Ok p i e (MkWindow (window_start p i e) (window_start p i e + window_blocks p)) Hp
    ltac:(apply Z.div_pos; lia))); [done|].
  split; [done|]. unfold window_start. lia.
Qed.

Lemma py_lifecycle_eq head height : py_lifecycle p head height = lifecycle head height p.
Proof.
  unfold py_lifecycle, lifecycle, is_claimable, terminal_at.
  destruct (hd_terminal_height head); [done|]. rewrite bool_decide_true by done. simpl.
  destruct (hd_expiry_height head <=? height); [|done].
  by destruct (hd_expiry_height head + cooldown_blocks p <=? height).
Qed.

(** The age conditions of the checker are [accepts_commit]. *)
Lemma py_age_eq commit height :
  (commit <? activation_height p) || (height - commit <? commit_maturity_blocks p)
    || (commit_ttl_blocks p <=? height - commit)
  = negb (accepts_commit p commit height).
Proof.
  destruct Hp. apply eq_bool_prop_intro. rewrite !Is_true_true.
  rewrite negb_true_iff, <- not_true_iff_false, accepts_commit_spec, !orb_true_iff, !Z.ltb_lt, Z.leb_le. lia.
Qed.
End Schedule.

Lemma py_valid_parameters_eq p : Parameters_typed p → py_valid_parameters p = is_ok (validate p).
Proof.
  intros (_ & _ & [Hw _] & _). unfold py_valid_parameters, validate.
  repeat match goal with
  | |- context [?x <? ?y] => destruct (Z.ltb_spec x y)
  | |- context [?x <=? ?y] => destruct (Z.leb_spec x y)
  | |- context [?x =? ?y] => destruct (Z.eqb_spec x y)
  end; try reflexivity; lia.
Qed.

(** ** Operations *)

Section Operations.
Context `{Blake2b} `{Pallas}.
Context (p : Parameters) (Hp : Parameters_ok p).
#[local] Notation V := ExplicitProofVerdicts.
Implicit Types (s : Reference) (l : Ledger).

(** The checker holds the ledger. *)
Record holds s l : Prop := {
  hl_parameters : py_parameters s = p;
  hl_heads : mirrors (py_heads s) (lg_heads l);
  hl_commits : py_commits s = lg_commits l;
}.

(** An operation whose name is one and has an identifier. *)
Definition identified (op : Operation) : Prop :=
  match op with
  | Commit _ => True
  | Reveal name _ _ _ _ _ | Refresh name _ _ _ _ _ => Name_ok name ∧ ∃ i, Name_id name = Ok i
  end.

(** An operation whose name has an identifier. *)
Definition has_identifier (op : Operation) : Prop :=
  match op with
  | Commit _ => True
  | Reveal name _ _ _ _ _ | Refresh name _ _ _ _ _ => ∃ i, Name_id name = Ok i
  end.

(** What an operation leaves alone. *)
Definition same_frame s s' : Prop := s' = with_maps s (py_commits s') (py_heads s').

Lemma holds_with_maps s l commits heads l' :
  holds s l → commits = lg_commits l' → mirrors heads (lg_heads l') →
  holds (with_maps s commits heads) l'.
Proof. intros [E _ _] Ec Eh. by split. Qed.

(** What the two sides of an operation have in common. *)
Definition operation_agrees {E} s l (py : res SemanticError (Reference * OperationDecision))
  (rs : res E (OperationDecision * Ledger)) : Prop :=
  ∃ s' d l', py = Ok (s', d) ∧ rs = Ok (d, l') ∧ holds s' l' ∧ same_frame s s'.

Lemma rejected {E} s l clause kind accept :
  holds s l → operation_agrees s l (reject s clause) (ledger_update (E := E) l (Err clause) kind accept).
Proof. intros Hs. eexists _, _, _. split; [done|]. split; [done|]. split; [done|]. by destruct s. Qed.

Lemma installed {E} s l i hd kind accept :
  holds s l →
  operation_agrees s l
    (Ok (with_maps s (py_commits s) (dict_set (py_heads s) i hd), MkOperationDecision (Some kind) accept))
    (ledger_update (E := E) l (Ok (i, hd)) kind accept).
Proof.
  intros [Ep Hh Ec]. eexists _, _, _. split; [done|]. split; [done|]. split; [|done].
  split; [done|by apply mirrors_set|done].
Qed.

Lemma py_apply_operation_sim {E} height tx s l :
  below_horizon p height → holds s l →
  (∀ op, tx_operation tx = Some op → identified op) →
  operation_agrees s l (py_apply_operation s height tx)
    (ledger_operation (E := E) p MkExplicitProofVerdicts height tx l).
Proof.
  intros Hh Hs Hid. pose proof Hs as [Ep [Hnd Hget] Ec]. pose proof Hh as [Hact Hlease].
  pose proof (epoch_below p Hp height Hact) as Hepoch.
  assert (expiry p height = Ok (height + lease_blocks p)) as Hexp by by apply expiry_Ok.
  unfold py_apply_operation, ledger_operation.
  destruct (tx_operation tx) as [[cm|name commit ua ai nf proof|name pr ua ai nf proof]|].
  - eexists _, _, _. split; [done|]. split; [done|]. split; [|done].
    split; [done|done|]. cbn [with_maps py_commits lg_commits]. by rewrite Ec.
  - destruct (Hid _ eq_refl) as [Hn [i Hi]]. unfold py_apply_reveal, check_reveal.
    rewrite py_canonical_ok by done. cbn [res_bind]. rewrite py_name_id_ok, Hi, Ep by done. cbn [map_err res_bind view heads parameters commits verifier]. rewrite Hget.
    destruct (lg_heads l !! i) as [hd|]; [by apply rejected|]. rewrite bool_decide_true by done.
    rewrite (py_operation_window_eq p Hp name i), accepts_operation_total by done.
    cbn [ensure res_bind]. rewrite <- orb_assoc, <- orb_assoc, (orb_assoc (_ <? _)), py_age_eq by done.
    destruct (accepts_b p i height); cbn [negb orb ensure res_bind]; [|by apply rejected].
    destruct (accepts_commit p (cr_height commit) height); cbn [negb ensure res_bind]; [|by apply rejected].
    rewrite Ec. destruct (lg_commits l !! commit); cbn [ok_or res_bind]; [|by apply rejected].
    destruct (tx_actions tx !! Z.to_nat ai) as [a|]; cbn [ok_or res_bind]; [|by apply rejected].
    destruct (ac_action_index a =? ai); cbn [negb ensure res_bind]; [|by apply rejected].
    rewrite Hepoch. cbn [map_err res_bind].
    change (verify_reveal _ _ proof) with (proof_valid proof).
    destruct (proof_valid proof); cbn [negb ensure res_bind]; [|by apply rejected].
    rewrite Hexp. cbn [map_err res_bind]. rewrite <- Ec. by apply installed.
  - destruct (Hid _ eq_refl) as [Hn [i Hi]]. unfold py_apply_refresh, check_refresh.
    rewrite py_canonical_ok by done. cbn [res_bind]. rewrite py_name_id_ok, Hi, Ep by done. cbn [map_err res_bind view heads parameters commits verifier]. rewrite Hget.
    destruct (lg_heads l !! i) as [hd|]; cbn [ok_or res_bind]; [|by apply rejected].
    rewrite Hepoch, py_lifecycle_eq. cbn [map_err res_bind].
    rewrite !bool_decide_not, <- negb_andb.
    destruct (_ && _); cbn [negb ensure res_bind]; [|by apply rejected].
    rewrite Z.leb_antisym.
    destruct (_ <? _); cbn [negb ensure res_bind]; [|by apply rejected].
    rewrite (py_operation_window_eq p Hp name i), accepts_operation_total by done.
    cbn [res_bind]. destruct (accepts_b p i height); cbn [negb ensure res_bind]; [|by apply rejected].
    destruct (tx_actions tx !! Z.to_nat ai) as [a|]; cbn [ok_or res_bind]; [|by apply rejected].
    rewrite bool_decide_not, <- negb_andb.
    destruct (_ && _); cbn [negb ensure res_bind]; [|by apply rejected].
    change (verify_refresh _ _ proof) with (proof_valid proof).
    destruct (proof_valid proof); cbn [negb ensure res_bind]; [|by apply rejected].
    rewrite Hexp. cbn [map_err res_bind]. by apply installed.
  - eexists _, _, _. split; [done|]. split; [done|]. split; [done|]. by destruct s.
Qed.

(** *** The spent heads *)

Lemma spends_eq tx hd :
  existsb (λ action, bool_decide (ac_nullifier action = hd_future_nf hd)) (tx_actions tx) = spends tx hd.
Proof.
  unfold spends. induction (tx_actions tx) as [|a l IH]; simpl; [done|]. rewrite IH. f_equal.
  apply bool_decide_ext. destruct (ac_nullifier a), (hd_future_nf hd). simpl. split; congruence.
Qed.

Lemma py_spent_listed d m tx : mirrors d m → listed tx m (py_spent d tx).
Proof.
  intros Hm i q. unfold py_spent. rewrite list_elem_of_omap.
  split.
  - intros ([j hd] & Hin%(mirrors_elem d m) & Hs); [|done]. rewrite spends_eq in Hs.
    destruct (spends tx hd) eqn:E; [|done]. injection Hs as -> <-. by exists hd.
  - intros (hd & E & Hs & <-). exists (i, hd). rewrite (mirrors_elem d m) by done.
    by rewrite spends_eq, Hs.
Qed.

Lemma py_spent_NoDup d tx : NoDup d.*1 → NoDup (py_spent d tx).*1.
Proof.
  induction d as [|[i hd] d IH]; csimpl; [constructor|]. intros [Hi Hd]%NoDup_cons.
  destruct (existsb _ _); csimpl; [|by apply IH]. apply NoDup_cons. split; [|by apply IH].
  intros ([j q] & -> & Hin)%list_elem_of_fmap. apply Hi. apply list_elem_of_omap in Hin as ([k hd'] & Hk & Hq).
  destruct (existsb _ _); [|done]. injection Hq as -> _. apply list_elem_of_fmap. by exists (j, hd').
Qed.

(** The loop over the spent heads, on the map. *)
Definition end_listed (height : Z) (k : list (NameId * StateRef)) (m : gmap NameId Head)
  : gmap NameId Head :=
  map_imap (λ i hd, Some (if bool_decide ((i, hd_producer hd) ∈ k)
                             && bool_decide (hd_terminal_height hd = None)
                          then set_terminal height hd else hd)) m.

Lemma lookup_end_listed height k m i :
  end_listed height k m !! i
  = (λ hd, if bool_decide ((i, hd_producer hd) ∈ k) && bool_decide (hd_terminal_height hd = None)
           then set_terminal height hd else hd) <$> m !! i.
Proof. unfold end_listed. rewrite map_lookup_imap. by destruct (m !! i). Qed.

(** One turn of the loop. *)
Lemma end_listed_step height i q k m :
  (∀ x, (i, x) ∉ k) →
  end_listed height k (alter (λ hd, if ended q hd then set_terminal height hd else hd) i m)
  = end_listed height ((i, q) :: k) m.
Proof.
  intros Hni. apply map_eq. intros j. rewrite !lookup_end_listed.
  assert (∀ hd, bool_decide ((i, hd_producer hd) ∈ (i, q) :: k) = bool_decide (hd_producer hd = q)) as Hb.
  { intros hd. apply bool_decide_ext. rewrite elem_of_cons. pose proof (Hni (hd_producer hd)). naive_solver. }
  destruct (decide (j = i)) as [->|Hne].
  - rewrite lookup_alter_eq. destruct (m !! i) as [hd|]; [|done]. cbn [fmap option_fmap option_map].
    rewrite Hb, (bool_decide_false ((i, _) ∈ k)) by apply Hni. done.
  - rewrite lookup_alter_ne by done. destruct (m !! j) as [hd|]; [|done]. cbn [fmap option_fmap option_map].
    rewrite (bool_decide_ext ((j, hd_producer hd) ∈ (i, q) :: k) ((j, hd_producer hd) ∈ k)); [done|].
    rewrite elem_of_cons. naive_solver.
Qed.

Lemma mirrors_alter_same (d : list (NameId * Head)) m (f : Head → Head) i :
  mirrors d m → (∀ hd, m !! i = Some hd → f hd = hd) → mirrors d (alter f i m).
Proof.
  intros Hm Hf. replace (alter f i m) with m; [done|]. apply map_eq. intros j.
  destruct (decide (j = i)) as [->|]; [|by rewrite lookup_alter_ne].
  rewrite lookup_alter_eq. destruct (m !! i) as [hd|]; [|done]. simpl. by rewrite Hf.
Qed.

Lemma py_terminate_step height d m t i q :
  mirrors d m →
  let acc := py_terminate height (d, t) (i, q) in
  mirrors acc.1 (alter (λ hd, if ended q hd then set_terminal height hd else hd) i m)
  ∧ acc.2 = t ++ match m !! i with
                 | Some hd => if ended q hd then [MkTermination i q height] else []
                 | None => []
                 end.
Proof.
  intros Hm. cbv zeta. unfold py_terminate. rewrite (mi_get d m Hm).
  destruct (m !! i) as [hd|] eqn:E.
  - change (bool_decide (hd_producer hd = q) && bool_decide (hd_terminal_height hd = None)) with (ended q hd).
    destruct (ended q hd) eqn:Ee; cbn [fst snd]; (split; [|by rewrite ?app_nil_r]).
    + replace (alter _ i m) with (<[i := set_terminal height hd]> m); [by apply mirrors_set|].
      apply map_eq. intros j. destruct (decide (j = i)) as [->|].
      * rewrite lookup_insert_eq, lookup_alter_eq, E. simpl. by rewrite Ee.
      * by rewrite lookup_insert_ne, lookup_alter_ne.
    + apply mirrors_alter_same; [done|]. intros hd'. rewrite E. intros [= <-]. by rewrite Ee.
  - cbn [fst snd]. split; [|by rewrite app_nil_r]. apply mirrors_alter_same; [done|]. by rewrite E.
Qed.

Lemma py_terminate_fold height k d m t :
  NoDup k.*1 → mirrors d m →
  let acc := fold_left (py_terminate height) k (d, t) in
  mirrors acc.1 (end_listed height k m)
  ∧ acc.2 = t ++ omap (λ '(i, p), hd ← m !! i;
                         if ended p hd then Some (MkTermination i p height) else None) k.
Proof.
  revert d m t. induction k as [|[i q] k IH]; intros d m t Hnd Hm; cbv zeta.
  { cbn [fold_left fst snd omap list_omap]. rewrite app_nil_r. split; [|done].
    replace (end_listed height [] m) with m; [done|]. apply map_eq. intros i.
    rewrite lookup_end_listed. destruct (m !! i); [|done]. cbn [fmap option_fmap option_map].
    rewrite bool_decide_false; [done|apply not_elem_of_nil]. }
  rewrite fmap_cons in Hnd. apply NoDup_cons in Hnd as [Hi Hnd]. cbn [fst] in Hi.
  assert (∀ x, (i, x) ∉ k) as Hni.
  { intros x Hx. apply Hi, list_elem_of_fmap. by exists (i, x). }
  cbn [fold_left]. destruct (py_terminate_step height d m t i q Hm) as [Hm1 Ht1].
  destruct (py_terminate height (d, t) (i, q)) as [d1 t1]. cbn [fst snd] in Hm1, Ht1.
  destruct (IH d1 _ t1 Hnd Hm1) as [IHm IHt]. rewrite end_listed_step in IHm by done.
  split; [exact IHm|]. rewrite IHt, Ht1, <- app_assoc. f_equal. simpl.
  erewrite (omap_ext_in _ (λ '(j, p), hd ← m !! j; if ended p hd then Some (MkTermination j p height) else None)).
  - destruct (m !! i) as [hd|]; simpl; [|done]. by destruct (ended q hd).
  - intros [j x] Hj. rewrite lookup_alter_ne; [done|]. intros <-. by apply (Hni x).
Qed.

(** *** Transactions *)

Lemma end_spent_listed height tx pre post k :
  listed tx pre k → end_spent height tx pre post = end_listed height k post.
Proof.
  intros Hk. apply map_eq. intros i. rewrite lookup_end_listed. unfold end_spent.
  rewrite map_lookup_imap. destruct (post !! i) as [hd|]; [|done]. simpl.
  by rewrite <- (terminates_listed tx pre k).
Qed.

Lemma terminations_permuted height tx pre (post : gmap NameId Head) k :
  listed tx pre k → NoDup k.*1 →
  omap (λ '(i, p), hd ← post !! i; if ended p hd then Some (MkTermination i p height) else None) k
  ≡ₚ spent_terminations height tx pre post.
Proof.
  intros Hk Hnd. rewrite (terminations_listed height tx pre) by done.
  rewrite spent_terminations_filter. apply omap_Permutation, NoDup_Permutation.
  - done.
  - apply NoDup_filter, NoDup_btree_keys.
  - intros i. rewrite list_elem_of_filter, elem_of_btree_keys, list_elem_of_fmap. split.
    + intros ([j q] & -> & (hd & E & Hs & _)%Hk). cbn [fst]. by rewrite E.
    + intros [Hs [hd E]]. rewrite E in Hs. exists (i, hd_producer hd). split; [done|].
      apply Hk. by exists hd.
Qed.

Definition transaction_agrees {E} s l
  (py : res SemanticError (Reference * OperationDecision * list Termination))
  (rs : res E (OperationDecision * list Termination * Ledger)) : Prop :=
  ∃ s' d t t' l', py = Ok (s', d, t) ∧ rs = Ok (d, t', l') ∧ t ≡ₚ t' ∧ holds s' l' ∧ same_frame s s'.

Lemma py_apply_transaction_sim {E} height tx s l :
  below_horizon p height → holds s l →
  (∀ op, tx_operation tx = Some op → identified op) →
  transaction_agrees s l (py_apply_transaction s height tx)
    (ledger_transaction (E := E) p MkExplicitProofVerdicts height tx l).
Proof.
  intros Hh Hs Hid.
  destruct (py_apply_operation_sim (E := E) height tx s l Hh Hs Hid)
    as (s1 & d & l1 & Hpy & Hl & [Ep1 Hm1 Ec1] & Hf).
  unfold transaction_agrees, py_apply_transaction, ledger_transaction. rewrite Hpy, Hl. cbn [res_bind].
  pose proof (py_spent_listed (py_heads s) (lg_heads l) tx (hl_heads _ _ Hs)) as Hk.
  pose proof (py_spent_NoDup (py_heads s) tx (mi_keys _ _ (hl_heads _ _ Hs))) as Hnd.
  destruct (py_terminate_fold height _ (py_heads s1) (lg_heads l1) [] Hnd Hm1) as [Hm2 Ht].
  destruct (fold_left _ _ _) as [heads t]. cbn [fst snd app] in Hm2, Ht.
  eexists _, _, _, _, _. split; [done|]. split; [done|]. split; [|split].
  - rewrite Ht. by apply terminations_permuted.
  - split; [done| |done]. cbn [with_maps py_heads lg_heads].
    by rewrite (end_spent_listed _ _ _ _ _ Hk).
  - rewrite Hf. by destruct s.
Qed.

Definition transactions_agree {E} s
  (py : res SemanticError (Reference * list OperationDecision * list Termination))
  (rs : res E (list OperationDecision * list Termination * Ledger)) : Prop :=
  ∃ s' d t t' l', py = Ok (s', d, t) ∧ rs = Ok (d, t', l') ∧ t ≡ₚ t' ∧ holds s' l' ∧ same_frame s s'.

Lemma same_frame_trans s1 s2 s3 : same_frame s1 s2 → same_frame s2 s3 → same_frame s1 s3.
Proof. unfold same_frame. intros E1 E2. rewrite E2, E1. by destruct s1. Qed.

Lemma py_apply_transactions_sim {E} height txs s l :
  below_horizon p height → holds s l →
  (∀ tx op, tx ∈ txs → tx_operation tx = Some op → identified op) →
  transactions_agree s (py_apply_transactions s height txs)
    (ledger_transactions (E := E) p MkExplicitProofVerdicts height txs l).
Proof.
  intros Hh. revert s l. induction txs as [|tx txs IH]; intros s l Hs Hid.
  { eexists _, _, _, _, _. split; [done|]. split; [done|]. split; [done|]. split; [done|]. by destruct s. }
  destruct (py_apply_transaction_sim (E := E) height tx s l Hh Hs)
    as (s1 & d & t & t' & l1 & Hpy & Hl & Hp1 & Hs1 & Hf1); [intros op; apply Hid; left|].
  destruct (IH s1 l1 Hs1) as (s2 & ds & ts & ts' & l2 & Hpy2 & Hl2 & Hp2 & Hs2 & Hf2);
    [intros tx' op Hin; apply Hid; by right|].
  cbn [py_apply_transactions ledger_transactions]. rewrite Hpy, Hl. cbn [res_bind].
  rewrite Hpy2, Hl2. cbn [res_bind]. eexists _, _, _, _, _. split; [done|]. split; [done|].
  split; [by apply Permutation_app|]. split; [done|]. by eapply same_frame_trans.
Qed.
End Operations.

(** ** The checks before a block *)

Section Checks.
Context `{Blake2b} `{Pallas} {V : Type} `{!ProofVerifier V}.
Implicit Types (r : Reducer V) (s : Reference).

Lemma py_check_actions_eq n l :
  0 ≤ n → n + Z.of_nat (length l) ≤ u32_max + 1 →
  py_check_actions n l = match check_action_indices n l with Err e => Some e | _ => None end.
Proof.
  revert n. induction l as [|a l IH]; intros n Hge Hn; [reflexivity|].
  cbn [py_check_actions check_action_indices length] in *.
  unfold u32_try_from. destruct (Z.leb_spec n u32_max); [|lia].
  change (default u32_max (Some n)) with n.
  destruct (ac_action_index a =? n); cbn [negb ensure res_bind]; [|reflexivity].
  apply IH; lia.
Qed.

Lemma py_check_transactions_eq previous txs :
  actions_counted txs →
  py_check_transactions previous txs
  = match check_transactions previous txs with Err e => Some e | _ => None end.
Proof.
  revert previous. induction txs as [|tx txs IH]; intros previous Hc; [done|].
  cbn [py_check_transactions check_transactions].
  assert (match previous with Some q => tx_tx_index tx <=? q | None => false end
    = negb (match previous with Some q => q <? tx_tx_index tx | None => true end)) as ->.
  { destruct previous; [apply Z.leb_antisym|done]. }
  destruct (match previous with Some q => q <? tx_tx_index tx | None => true end);
    cbn [negb ensure res_bind]; [|done].
  rewrite py_check_actions_eq; [|lia|specialize (Hc tx (list_elem_of_here _ _)); lia].
  pose proof (check_action_indices_no_panic 0 (tx_actions tx)).
  destruct (check_action_indices 0 (tx_actions tx)); cbn [res_bind]; [|done..].
  apply IH. intros tx' Hin. apply Hc. by right.
Qed.

Lemma py_conflict_eq d key value : py_conflict d key value = conflicts (d !! key) value.
Proof. unfold py_conflict, conflicts. by destruct (d !! key). Qed.

Lemma elem_of_reveal_refs block c : c ∈ py_reveal_refs block ↔ c ∈ reveal_references block.
Proof. unfold py_reveal_refs, reveal_references. by rewrite elem_of_list_to_set. Qed.

(** The evidence, in one pass: the error, or what was supplied. *)
Lemma py_check_evidence_eq r s block supplied refs :
  py_parameters s = parameters r → py_commits s = commits r →
  match res_fold (admit_evidence r block) supplied refs with
  | Ok m => py_check_evidence s block (py_reveal_refs block) supplied refs = None
            ∧ m = py_supply supplied refs
  | Err e => py_check_evidence s block (py_reveal_refs block) supplied refs = Some e
  | Panic => True
  end.
Proof.
  intros Ep Ec. revert supplied. induction refs as [|ev refs IH]; intros supplied; [done|].
  cbn [res_fold py_check_evidence py_supply fold_left]. rewrite Ep, Ec, !py_conflict_eq.
  unfold admit_evidence at 1.
  set (reference := rc_reference ev).
  assert (negb (bool_decide (reference ∈ py_reveal_refs block))
    || (cr_height reference <? activation_height (parameters r))
    || (bl_height block <=? cr_height reference)
    = negb (bool_decide (reference ∈ reveal_references block)
            && (activation_height (parameters r) <=? cr_height reference)
            && (cr_height reference <? bl_height block))) as ->.
  { rewrite !negb_andb, <- Z.ltb_antisym, <- Z.leb_antisym. do 3 f_equal.
    apply bool_decide_ext, elem_of_reveal_refs. }
  destruct (_ && _ && _) eqn:G; cbn [negb orb ensure res_bind]; [|done].
  apply andb_true_iff in G as [_ G%Z.ltb_lt].
  unfold u32_checked_sub. destruct (Z.leb_spec (cr_height reference) (bl_height block)); [|lia].
  cbn [expect res_bind]. rewrite Z.leb_antisym.
  destruct (_ <? _); cbn [negb ensure res_bind]; [|done].
  destruct (conflicts (supplied !! reference) _); cbn [negb andb ensure res_bind]; [done|].
  destruct (conflicts (commits r !! reference) _); cbn [negb ensure res_bind]; [done|].
  apply IH.
Qed.

(** The checker and the reducer refuse the same blocks, with the same error. *)
Lemma py_validate_order_eq r s block refs :
  py_parameters s = parameters r → py_commits s = commits r →
  py_next_height s = next_height r → py_previous_hash s = previous_hash r →
  actions_counted (bl_transactions block) →
  match check_block r block refs with
  | Ok m => py_validate_order s block refs = None ∧ m = py_supply ∅ refs
  | Err e => py_validate_order s block refs = Some e
  | Panic => False
  end.
Proof.
  intros Ep Ec En Eh Hc. pose proof (check_block_no_panic r block refs) as Hno. revert Hno.
  unfold check_block, py_validate_order. rewrite En, Eh, !bool_decide_not.
  rewrite (bool_decide_ext (next_height r = Some (bl_height block)) (Some (bl_height block) = next_height r)) by done.
  destruct (bool_decide (Some _ = _)); cbn [negb ensure res_bind]; [|done].
  destruct (bool_decide (_ = previous_hash r)); cbn [negb ensure res_bind]; [|done].
  rewrite py_check_transactions_eq by done.
  destruct (check_transactions None (bl_transactions block)); cbn [res_bind]; [|done..].
  pose proof (py_check_evidence_eq r s block ∅ refs Ep Ec) as He.
  by destruct (res_fold _ ∅ refs).
Qed.

(** Supplying evidence to a map. *)
Lemma py_supply_union m refs : py_supply m refs = py_supply ∅ refs ∪ m.
Proof.
  unfold py_supply. induction refs as [|ev refs IH] using rev_ind; simpl; [by rewrite map_empty_union|].
  rewrite !fold_left_app. simpl. by rewrite IH, insert_union_l.
Qed.
End Checks.

(** ** The start of a block *)

Section Start.
Context (p : Parameters).
Implicit Types (d : list (NameId * Head)) (m : gmap NameId Head).

Lemma py_mark_expired_mirrors height d m :
  mirrors d m → mirrors (py_mark_expired height d) (expire height <$> m).
Proof. apply (mirrors_map (expire height)). Qed.

Lemma py_compact_mirrors l d m :
  mirrors d m →
  mirrors (py_compact l d) (filter (λ x, x.1 ∉ map cp_name_id l) m).
Proof.
  revert d m. induction l as [|c l IH]; intros d m Hm.
  { simpl. rewrite map_filter_id; [done|]. intros i x _. apply not_elem_of_nil. }
  unfold py_compact. cbn [fold_left]. fold (py_compact l (dict_del d (cp_name_id c))).
  replace (filter _ m) with (filter (λ x : NameId * Head, x.1 ∉ map cp_name_id l) (delete (cp_name_id c) m)).
  { by apply IH, mirrors_del. }
  apply map_eq. intros i. apply option_eq. intros hd.
  rewrite !map_lookup_filter_Some, lookup_delete_Some. simpl. rewrite not_elem_of_cons. naive_solver.
Qed.

Lemma elem_of_py_compacted height d m c :
  mirrors d m →
  c ∈ py_compacted p height d
  ↔ ∃ i hd, m !! i = Some hd ∧ cooled p height hd = true ∧ c = MkCompaction i (hd_producer hd) height.
Proof.
  intros Hm. unfold py_compacted, cooled. rewrite list_elem_of_omap. split.
  - intros (i & _ & Hi). rewrite (mi_get d m Hm) in Hi. destruct (m !! i) as [hd|] eqn:E; [|done].
    simpl in Hi. destruct (hd_terminal_height hd) as [t|] eqn:T; [|done].
    destruct (t + cooldown_blocks p <=? height) eqn:Et; [|done]. injection Hi as <-.
    exists i, hd. by rewrite T.
  - intros (i & hd & E & Hc & ->). exists i. split.
    + rewrite merge_sort_Permutation, list_elem_of_fmap. exists (i, hd). split; [done|].
      by apply (mirrors_elem d m).
    + rewrite (mi_get d m Hm), E. simpl. destruct (hd_terminal_height hd); [|done]. by rewrite Hc.
Qed.

(** The events are in the order of their names. *)
Lemma py_compacted_names height d m :
  mirrors d m →
  map cp_name_id (py_compacted p height d)
  = filter (λ i, from_option (cooled p height) false (m !! i) = true) (merge_sort key_le d.*1).
Proof.
  intros Hm. unfold py_compacted. induction (merge_sort key_le d.*1) as [|i l IH]; [done|].
  cbn [omap list_omap]. rewrite filter_cons, (mi_get d m Hm).
  destruct (decide _) as [Hc|Hc]; unfold cooled in Hc;
    (destruct (m !! i) as [hd|]; cbn [mbind option_bind from_option] in *; [|done || exact IH]);
    (destruct (hd_terminal_height hd) as [t|]; [|done || exact IH]).
  - rewrite Hc. cbn [map cp_name_id]. f_equal. exact IH.
  - apply not_true_is_false in Hc. rewrite Hc. exact IH.
Qed.

Lemma py_compacted_sorted height d m :
  mirrors d m →
  NoDup (map cp_name_id (py_compacted p height d))
  ∧ StronglySorted key_le (map cp_name_id (py_compacted p height d)).
Proof.
  intros Hm. rewrite (py_compacted_names height d m) by done. split.
  - apply NoDup_filter. rewrite merge_sort_Permutation. apply Hm.
  - apply StronglySorted_filter, StronglySorted_merge_sort; apply _.
Qed.

Lemma py_start_heads height d m :
  mirrors d m →
  mirrors (py_compact (py_compacted p height (py_mark_expired height d)) (py_mark_expired height d))
    (start_heads p height m).
Proof.
  intros Hm%(py_mark_expired_mirrors height). unfold start_heads.
  set (d1 := py_mark_expired height d) in *. set (m1 := expire height <$> m) in *.
  replace (filter _ m1) with (filter (λ x : NameId * Head, x.1 ∉ map cp_name_id (py_compacted p height d1)) m1).
  { by apply py_compact_mirrors. }
  apply map_filter_ext. intros i hd E. simpl. rewrite list_elem_of_fmap.
  rewrite <- not_true_iff_false. apply not_iff_compat. split.
  - intros (c & -> & (j & hd' & E' & Hc & ->)%(elem_of_py_compacted _ _ m1)); [|done]. simpl in E.
    rewrite E in E'. by injection E' as <-.
  - intros Hc. eexists (MkCompaction i (hd_producer hd) height). split; [done|].
    apply (elem_of_py_compacted _ _ m1); [done|]. by exists i, hd.
Qed.

Lemma py_prune_commits_eq height (cs : gmap CommitRef Commitment) : py_prune_commits p height cs = live_commits p height cs.
Proof. apply map_filter_ext. intros c x _. simpl. lia. Qed.
End Start.

(** Lists that a key orders are determined by their elements. *)
Lemma sorted_by_unique {A K : Type} `{OrdKey K} (f : A → K) (l k : list A) :
  NoDup (map f l) → NoDup (map f k) →
  StronglySorted key_le (map f l) → StronglySorted key_le (map f k) →
  (∀ x, x ∈ l ↔ x ∈ k) → (∀ x y, x ∈ l → y ∈ l → f x = f y → x = y) → l = k.
Proof.
  intros Nl Nk Sl Sk Hlk Hinj.
  assert (map f l = map f k) as E.
  { apply (StronglySorted_unique key_le); [done..|]. apply NoDup_Permutation; [done..|].
    intros i. rewrite !list_elem_of_fmap. by setoid_rewrite Hlk. }
  assert (∀ x y, x ∈ l → y ∈ k → f x = f y → x = y) as Hx.
  { intros x y Hx Hy%Hlk. by apply Hinj. }
  clear -E Hx. revert k E Hx. induction l as [|x l IH]; intros [|y k] E Hx; try done.
  injection E as E1 E2. f_equal.
  - apply Hx; [by left|by left|done].
  - apply IH; [done|]. intros a b Ha Hb. by apply Hx; right.
Qed.

(** ** Blocks *)

Section Blocks.
Context `{Blake2b} `{Pallas} `{UnifiedAddress}.
#[local] Notation V := ExplicitProofVerdicts.
Implicit Types (r : Reducer V) (s : Reference).

(** The blocks the two are compared on: values in the range of their types, on
    regtest, as many actions as an index can count, names that have an identifier, a
    lease that does not overflow. *)
Record comparable (p : Parameters) (block : Block) (refs : list ReferencedCommit) : Prop := {
  cm_typed : values_typed block refs;
  cm_counted : actions_counted (bl_transactions block);
  cm_identified tx op :
    tx ∈ bl_transactions block → tx_operation tx = Some op → has_identifier op;
  cm_horizon : bl_height block + lease_blocks p ≤ u32_max;
}.

Lemma comparable_named p block refs : comparable p block refs → block_named block.
Proof. intros [[[Hty _] _ _ _ _ _] _ _ _]. by eapply block_typed_named. Qed.

Lemma comparable_identified p block refs tx op :
  comparable p block refs → tx ∈ bl_transactions block → tx_operation tx = Some op → identified op.
Proof.
  intros Hc Hin Hop. pose proof (comparable_named _ _ _ Hc tx op Hin Hop) as Hn.
  pose proof (cm_identified _ _ _ Hc tx op Hin Hop) as Hi. by destruct op.
Qed.

(** The checker refuses the blocks that the reducer refuses, and raises nothing. *)
Lemma py_validate_block_eq r s block refs :
  comparable (parameters r) block refs →
  py_parameters s = parameters r → py_commits s = commits r →
  py_next_height s = next_height r → py_previous_hash s = previous_hash r →
  match check_block r block refs with
  | Ok m => py_validate_block s block refs = Ok None ∧ m = py_supply ∅ refs
  | Err e => py_validate_block s block refs = Ok (Some e)
  | Panic => False
  end.
Proof.
  intros [Hv Hc _ _] Ep Ec En Eh. pose proof (py_validate_order_eq r s block refs Ep Ec En Eh Hc) as Ho.
  unfold py_validate_block. rewrite py_check_values_ok by done. cbn [res_bind].
  destruct (check_block r block refs); [destruct Ho as [-> ->]|rewrite Ho|]; done.
Qed.

(** The same state, without the histories. *)
Record state_agrees s r : Prop := {
  sa_holds : holds (parameters r) s (ledger_of r);
  sa_next : py_next_height s = next_height r;
  sa_tip : py_tip s = tip r;
  sa_hash : py_previous_hash s = previous_hash r;
}.

(** The same outcome; the spent heads are reported in the order of each side. *)
Record outcome_agrees (o : RefOutcome) (out : BlockOutcome) : Prop := {
  oa_accepted : ro_accepted o = bo_accepted out;
  oa_decisions : ro_decisions o = bo_decisions out;
  oa_compacted : ro_compacted o = bo_compacted out;
  oa_terminated : ro_terminated o ≡ₚ bo_terminated out;
}.

Definition saved s : Saved :=
  MkSaved (py_next_height s) (py_tip s) (py_previous_hash s) (py_commits s) (py_heads s).

(** The compactions of the checker are those of the reducer, in the same order. *)
Lemma py_compacted_eq s r block refs out r' :
  reducer_ok r → block_named block → holds (parameters r) s (ledger_of r) →
  apply_block_detailed block refs r = (Ok out, r') →
  py_compacted (parameters r) (bl_height block) (py_mark_expired (bl_height block) (py_heads s))
  = bo_compacted out.
Proof.
  intros Hr Hn Hs Ha. destruct (compactions_ordered r r' block refs out Hr Hn Ha) as (Nd & Sd & _).
  pose proof (apply_block_step block refs r Hr Hn) as Hstep.
  destruct (check_block r block refs) as [m|e|]; [|congruence|done].
  destruct Hstep as (y & out1 & r1 & _ & Ha1 & Hb & _). rewrite Ha in Ha1. injection Ha1 as <- <-.
  pose proof (py_mark_expired_mirrors (bl_height block) _ _ (hl_heads _ _ _ Hs)) as Hm.
  destruct (py_compacted_sorted (parameters r) (bl_height block) _ _ Hm) as [Np Sp].
  apply (sorted_by_unique cp_name_id); try done.
  - intros c. rewrite (elem_of_py_compacted _ _ _ _ c Hm), (br_compacted _ _ _ _ _ _ _ Hb c). done.
  - intros c c' (i & hd & E & _ & ->)%(elem_of_py_compacted _ _ _ _ _ Hm)
      (j & hd' & E' & _ & ->)%(elem_of_py_compacted _ _ _ _ _ Hm). simpl. intros <-. congruence.
Qed.

Lemma py_apply_sim block refs s r :
  reducer_ok r → comparable (parameters r) block refs → state_agrees s r →
  match py_apply block refs s, apply_block_detailed block refs r with
  | Ok (inl e, s'), (Err e', r') => e = e' ∧ s' = s ∧ r' = r
  | Ok (inr o, s'), (Ok out, r') =>
      outcome_agrees o out ∧ reducer_ok r' ∧ state_agrees s' r' ∧ parameters r' = parameters r
      ∧ py_history s' = py_history s ++ [saved s]
  | _, _ => False
  end.
Proof.
  intros Hr Hc [Hs En Et Eh]. pose proof Hs as [Ep Hm Ec]. pose proof (cm_horizon _ _ _ Hc) as Hhor.
  pose proof (comparable_named _ _ _ Hc) as Hn.
  pose proof (λ tx op, comparable_identified _ _ _ tx op Hc) as Hid.
  pose proof (apply_block_step block refs r Hr Hn) as Hstep.
  pose proof (py_validate_block_eq r s block refs Hc Ep Ec En Eh) as Hv.
  unfold py_apply. destruct (check_block r block refs) as [m|e|] eqn:Eck; [|by rewrite Hv, Hstep|done].
  destruct Hv as [-> ->]. destruct Hstep as (y & out & r' & Hl & Ha & Hb & Hr').
  apply check_block_Ok in Eck as (Hnext & _ & _).
  destruct (reducer_ok_next r _ Hr Hnext) as [[Hact _] _].
  pose proof (py_compacted_eq s r block refs out r' Hr Hn Hs Ha) as Hcomp.
  rewrite Ha, Ep. cbv zeta.
  set (h := bl_height block) in *.
  set (s0 := with_maps s _ _).
  assert (holds (parameters r) s0 (start_ledger (parameters r) h (py_supply ∅ refs) (ledger_of r))) as Hs0.
  { split; [done| |]; cbn [s0 with_maps py_heads py_commits start_ledger lg_heads lg_commits].
    - by apply py_start_heads.
    - by rewrite py_supply_union, py_prune_commits_eq, Ec. }
  destruct (py_apply_transactions_sim (parameters r) (rk_parameters _ Hr) (E := ApplyError) h
    (bl_transactions block) s0 _ (conj Hact Hhor) Hs0 Hid)
    as (s1 & d & t & t' & l' & Hpy & Hl2 & Hp & Hs1 & Hf).
  unfold ledger_block in Hl. fold h in Hl.
  assert (verifier r = MkExplicitProofVerdicts) as Ev by by destruct (verifier r).
  rewrite Ev, Hl2 in Hl. injection Hl as <-.
  cbn [fst snd] in Hb. rewrite Hpy. cbn [res_bind].
  split; [|split; [done|split; [|split]]].
  - split; cbn [ro_accepted ro_decisions ro_compacted ro_terminated].
    + by rewrite (br_accepted _ _ _ _ _ _ _ Hb).
    + by rewrite (br_decisions _ _ _ _ _ _ _ Hb).
    + exact Hcomp.
    + by rewrite (br_terminated _ _ _ _ _ _ _ Hb).
  - pose proof Hs1 as [Ep1 Hm1 Ec1].
    split; cbn [py_next_height py_tip py_previous_hash].
    + rewrite (br_parameters _ _ _ _ _ _ _ Hb), (br_ledger _ _ _ _ _ _ _ Hb). by split.
    + rewrite (br_next _ _ _ _ _ _ _ Hb). unfold u32_checked_add. fold h.
      destruct (Z.ltb_spec h u32_max), (Z.leb_spec (h + 1) u32_max); try done; lia.
    + by rewrite (br_tip _ _ _ _ _ _ _ Hb).
    + pose proof (br_tip _ _ _ _ _ _ _ Hb) as Htip. unfold tip in Htip.
      destruct (tip_height r'); [|done]. by injection Htip as _ ->.
  - apply (br_parameters _ _ _ _ _ _ _ Hb).
  - rewrite Hf. done.
Qed.

(** ** Rollbacks *)

(** The state that a rollback of the checker restores. *)
Definition restored s (b : Saved) : Reference :=
  MkReference (py_parameters s) (sv_next_height b) (sv_tip b) (sv_previous_hash b) (sv_commits b)
    (sv_heads b) (removelast (py_history s)).

(** The same state, and so on down the histories: the checker holds a copy of the
    state that the journal of the reducer undoes to. *)
Inductive bisimilar : Reference → Reducer V → Prop :=
  | bisimilar_start s r :
      reducer_ok r → state_agrees s r → py_history s = [] → history r = [] → bisimilar s r
  | bisimilar_block s r b u d r0 :
      reducer_ok r → state_agrees s r →
      last (py_history s) = Some b → last (history r) = Some u →
      un_hash u = previous_hash r → is_Some (tip_height r) →
      rollback_tip_detailed (previous_hash r) r = (Ok d, r0) → bisimilar (restored s b) r0 →
      bisimilar s r.

Lemma bisimilar_agrees s r : bisimilar s r → reducer_ok r ∧ state_agrees s r.
Proof. by destruct 1. Qed.

Lemma bisimilar_apply block refs s r :
  comparable (parameters r) block refs → bisimilar s r →
  match py_apply block refs s, apply_block_detailed block refs r with
  | Ok (inl e, s'), (Err e', r') => e = e' ∧ bisimilar s' r' ∧ parameters r' = parameters r
  | Ok (inr o, s'), (Ok out, r') =>
      outcome_agrees o out ∧ bisimilar s' r' ∧ parameters r' = parameters r
  | _, _ => False
  end.
Proof.
  intros Hc Hb. pose proof (bisimilar_agrees s r Hb) as [Hr Hs].
  pose proof (py_apply_sim block refs s r Hr Hc Hs) as Hsim.
  destruct (py_apply block refs s) as [[[e|o] s']| |];
    destruct (apply_block_detailed block refs r) as [[out|e'|] r'] eqn:Ha; try done.
  - by destruct Hsim as (-> & -> & ->).
  - destruct Hsim as (Ho & Hr' & Hs' & E3 & Hh). split; [done|]. split; [|done].
    pose proof (rollback_apply block refs r r' out (rk_indexed _ Hr) Ha) as Hroll.
    pose proof (apply_block_inv _ _ _ _ _ (rk_indexed _ Hr) Ha) as (r1 & u & Ht & Er & _).
    assert (previous_hash r' = bl_hash block) as Eh by by rewrite Er.
    apply (bisimilar_block s' r' (saved s) u (inverse_delta (bo_state_delta out)) r); try done.
    + rewrite Hh. apply last_snoc.
    + rewrite Er. cbn [history set_history]. apply last_snoc.
    + rewrite Eh. pose proof (tr_undo _ _ _ _ Ht) as Eu. cbn [snd] in Eu. by rewrite Eu.
    + by rewrite Er.
    + by rewrite Eh.
    + replace (restored s' (saved s)) with s; [done|]. unfold restored. rewrite Hh, removelast_last.
      pose proof (hl_parameters _ _ _ (sa_holds _ _ Hs)) as E1.
      pose proof (hl_parameters _ _ _ (sa_holds _ _ Hs')) as E2.
      rewrite E2, E3, <- E1. by destruct s.
Qed.

Lemma bisimilar_rollback hash s r :
  bisimilar s r →
  match py_rollback hash s, rollback_tip hash r with
  | (None, s'), (Ok _, r') => bisimilar s' r'
  | (Some e, s'), (Err e', r') => e = e' ∧ bisimilar s' r'
  | _, _ => False
  end.
Proof.
  intros Hb. unfold rollback_tip, sbind, mret. destruct Hb as [s r Hr Hs Ep Eh|s r b u d r0 Hr Hs Ep Eh Eu [t Et] Hroll Hb].
  - unfold py_rollback, rollback_tip_detailed. rewrite Ep, Eh. cbn [last].
    rewrite (sa_tip _ _ Hs). unfold tip. split; [by destruct (tip_height r)|]. by apply bisimilar_start.
  - unfold py_rollback. rewrite Ep, (sa_tip _ _ Hs). unfold tip. rewrite Et.
    cbn [fmap option_fmap option_map tip_hash].
    destruct (decide (previous_hash r = hash)) as [<-|Hne].
    + rewrite bool_decide_false by (intros Hx; by apply Hx). by rewrite Hroll.
    + rewrite bool_decide_true by done. unfold rollback_tip_detailed. rewrite Eh, Eu, bool_decide_true by done.
      split; [done|]. by eapply bisimilar_block.
Qed.

(** ** Runs *)

(** A call of both: a block with its evidence, or a rollback. *)
Inductive RefCall :=
  | RefApply (block : Block) (referenced : list ReferencedCommit)
  | RefRollback (expected_hash : list byte).

Definition call_comparable (p : Parameters) (c : RefCall) : Prop :=
  match c with RefApply block refs => comparable p block refs | RefRollback _ => True end.

(** What [snapshot] and [full_snapshot] say of a state. *)
Definition views_agree s r : Prop :=
  py_tip s = tip r
  ∧ (∀ reference, py_commits s !! reference = pending_commit r reference)
  ∧ ∀ name i, Name_ok name → Name_id name = Ok i →
      match py_snapshot_resolution s name,
            resolve_authenticated r name (height_of (parameters r) (tip r)) with
      | Ok (inl e), Err e' => e = e'
      | Ok (inr x), Ok y => x = y
      | _, _ => False
      end.

(** The two give the same answers to every call, and the same views of every state
    on the way. *)
Fixpoint answers_agree (calls : list RefCall) s r : Prop :=
  views_agree s r
  ∧ match calls with
    | [] => True
    | RefApply block refs :: calls =>
        match py_apply block refs s, apply_block_detailed block refs r with
        | Ok (inl e, s'), (Err e', r') => e = e' ∧ answers_agree calls s' r'
        | Ok (inr o, s'), (Ok out, r') => outcome_agrees o out ∧ answers_agree calls s' r'
        | _, _ => False
        end
    | RefRollback hash :: calls =>
        match py_rollback hash s, rollback_tip hash r with
        | (None, s'), (Ok _, r') => answers_agree calls s' r'
        | (Some e, s'), (Err e', r') => e = e' ∧ answers_agree calls s' r'
        | _, _ => False
        end
    end.

Lemma bisimilar_views s r : bisimilar s r → views_agree s r.
Proof.
  intros [Hr [[Ep Hm Ec] _ Et _]]%bisimilar_agrees. split; [done|]. split; [by rewrite Ec|].
  intros name i Hn Hi. unfold py_snapshot_resolution, resolve_authenticated, py_resolve, resolve, height_of.
  rewrite Et, py_canonical_ok by done. cbn [res_bind]. rewrite py_name_id_ok, Hi, Ep by done. cbn [map_err res_bind]. rewrite (mi_get _ _ Hm). unfold tip.
  destruct (tip_height r) as [t|] eqn:E; cbn [fmap option_fmap option_map tip_height_].
  - rewrite (bool_decide_false (Some t = None)) by done. cbn [andb].
    rewrite Z.leb_refl. cbn [ensure res_bind]. rewrite bool_decide_false by (intros Hx; by apply Hx).
    unfold resolve_head. cbn [ledger_of lg_heads]. destruct (heads r !! i) as [hd|]; [|done].
    cbn [res_bind]. rewrite py_lifecycle_eq. by destruct (lifecycle hd t (parameters r)).
  - rewrite bool_decide_true by done. cbn [andb].
    rewrite bool_decide_false; [done|]. intros [? ?]%u32_checked_sub_Some. lia.
Qed.

Lemma py_rollback_parameters hash s : py_parameters (py_rollback hash s).2 = py_parameters s.
Proof. unfold py_rollback. destruct (last _); [|done]. destruct (py_tip s); [by destruct (bool_decide _)|done]. Qed.

Lemma bisimilar_answers p calls s r :
  parameters r = p → Forall (call_comparable p) calls → bisimilar s r → answers_agree calls s r.
Proof.
  revert s r. induction calls as [|c calls IH]; intros s r Ep Hc Hb;
    (split; [by apply bisimilar_views|]); [done|].
  apply Forall_cons in Hc as [Hc Hcs]. destruct c as [block refs|hash]; cbn [call_comparable] in Hc.
  - rewrite <- Ep in Hc. pose proof (bisimilar_apply block refs s r Hc Hb) as Hs.
    destruct (py_apply block refs s) as [[[e|o] s']| |];
      destruct (apply_block_detailed block refs r) as [[out|e'|] r']; try done;
      destruct Hs as (He & Hb' & Ep'); (split; [done|]); apply IH; try done; congruence.
  - pose proof (bisimilar_rollback hash s r Hb) as Hs.
    pose proof (py_rollback_parameters hash s) as Hp.
    assert (∀ s r, bisimilar s r → py_parameters s = parameters r) as Hpar.
    { intros ? ? [_ Ha]%bisimilar_agrees. apply Ha. }
    pose proof (Hpar s r Hb) as Hsr.
    destruct (py_rollback hash s) as [[e|] s'], (rollback_tip hash r) as [[?|e'|] r']; try done.
    + destruct Hs as [He Hb']. split; [done|]. apply IH; [|done..].
      rewrite <- (Hpar s' r' Hb'), <- Ep, <- Hsr. exact Hp.
    + apply IH; [|done..]. rewrite <- (Hpar s' r' Hs), <- Ep, <- Hsr. exact Hp.
Qed.
End Blocks.

(** C8: on regtest blocks whose values are in the range of their types, whose names
    have an identifier and whose leases end below 2^32, the independent checker
    raises nothing, and it and the reducer give the same answers to every sequence
    of blocks and rollbacks: the same refusals with the same errors, the same
    accepted operations, decisions and compactions, the same terminations up to
    their order, the same rollbacks; and after every call the same tip, the same
    pending commitments and the same resolution of every name. *)
Theorem reference_agrees `{Blake2b} `{Pallas} `{UnifiedAddress} (p : Parameters) (parent_hash : list byte)
  (calls : list RefCall) :
  Parameters_typed p → Forall (call_comparable p) calls →
  match py_new p parent_hash, new p parent_hash MkExplicitProofVerdicts with
  | Ok s, Ok r => answers_agree calls s r
  | Err _, Err _ => True
  | _, _ => False
  end.
Proof.
  intros Hty Hc. unfold py_new. rewrite (py_valid_parameters_eq p Hty).
  destruct (new p parent_hash MkExplicitProofVerdicts) as [r|e|] eqn:Hn.
  - destruct (new_ok _ _ _ _ Hty Hn) as [Hr Hh]. unfold new in Hn.
    destruct (validate p) as [q|e|] eqn:Hv; [|done..]. cbn [map_err res_bind is_ok ensure] in *.
    apply validate_Ok in Hv as [-> _]; [|done]. injection Hn as <-.
    eapply bisimilar_answers; [done|exact Hc|]. apply bisimilar_start; [done| |done|done].
    split; [|done..]. split; [done|apply mirrors_empty|done].
  - unfold new in Hn. destruct (validate p); [done|done|done].
  - unfold new in Hn. destruct (validate p) eqn:Hv; [done..|]. unfold validate in Hv. by destruct (_ || _).
Qed.
