(* ===== verification/Transport.v ===== *)
(** * Authenticated transport decoding ([crates/coppice-names/src/transport.rs])

    The global positions of actions, the inspection of one transaction at a
    Names rendezvous, and the conversion of an authenticated block to the
    reducer's input for one name. *)

From S2P Require Import Prelude Bytes BTree External Protocol Schedule Codec Records.
From S2P Require Import State Reducer Invariant Safety Ruleset Snapshot Deployment.

Inductive TransportConfigurationError `{CoppiceCarrier} :=
  | ConfigInvalidDeployment (error : DeploymentError)
  | ConfigInvalidName (error : ValueError)
  | ConfigInvalidRendezvous (error : RendezvousError)
  | RuntimeMismatch.

Inductive BlockTransportError `{CoppiceCarrier} :=
  | Configuration (error : TransportConfigurationError)
  | InvalidActionEffects
  | InvalidActionPosition.

Inductive TransportRejection `{CoppiceCarrier} :=
  | UnauthenticatedFullTransaction
  | NonZeroCarrierValue
  | MalformedCarrier (error : CarrierError)
  | MalformedEnvelope
  | WrongApplication
  | InvalidOperation (error : CodecError)
  | WrongRoute.

Inductive NamesTransportStatus `{CoppiceCarrier} :=
  | NoOperation
  | Rejected (rejection : TransportRejection)
  | StatusOperation (operation : Operation).

Inductive ExpectedRoute :=
  | RouteCommit
  | RouteName (name : Name).

(** ** Positions *)

Section Positions.
Context `{CoppiceReplay}.

(** The check of one transaction's effects. *)
Definition check_effects (transaction : CoreTransaction) : res BlockTransportError unit :=
  ensure (bool_decide (length (ct_nullifiers transaction) = length (ct_commitments transaction)))
    InvalidActionEffects.

Definition action_count (transaction : CoreTransaction) : res BlockTransportError Z :=
  ok_or (u32_try_from (Z.of_nat (length (ct_commitments transaction)))) InvalidActionPosition.

(** The [try_fold] over the block. *)
Definition count_actions (total : Z) (transaction : CoreTransaction) : res BlockTransportError Z :=
  let? _ := check_effects transaction in
  let? count := action_count transaction in
  ok_or (u32_checked_add total count) InvalidActionPosition.

(** The branch taken at the requested transaction. *)
Definition within (position count action_index : Z) : res BlockTransportError Z :=
  if count <=? action_index then Err InvalidActionPosition
  else ok_or (u32_checked_add position action_index) InvalidActionPosition.

(** The [for] loop of [authenticated_action_position]. *)
Fixpoint authenticated_loop (transactions : list CoreTransaction) (position tx_index action_index : Z)
  : res BlockTransportError Z :=
  match transactions with
  | [] => Err InvalidActionPosition
  | transaction :: transactions =>
      let? count := action_count transaction in
      if ct_tx_index transaction =? tx_index then within position count action_index
      else
        let? position := ok_or (u32_checked_add position count) InvalidActionPosition in
        authenticated_loop transactions position tx_index action_index
  end.

Definition authenticated_action_position (block : CoreBlock) (tx_index action_index : Z)
  : res BlockTransportError Z :=
  let? total_actions := res_fold count_actions 0 (cb_transactions block) in
  let? position := ok_or (u32_checked_sub (cb_tree_size block) total_actions) InvalidActionPosition in
  authenticated_loop (cb_transactions block) position tx_index action_index.

Fixpoint action_position (transactions : list CoreTransaction) (position tx_index action_index : Z)
  : res BlockTransportError Z :=
  match transactions with
  | [] => Err InvalidActionPosition
  | transaction :: transactions =>
      let? _ := check_effects transaction in
      let? count := action_count transaction in
      if ct_tx_index transaction =? tx_index then within position count action_index
      else
        let? position := ok_or (u32_checked_add position count) InvalidActionPosition in
        action_position transactions position tx_index action_index
  end.

Definition positioned_action_position (block : CorePositionedBlock) (tx_index action_index : Z)
  : res BlockTransportError Z :=
  action_position (pb_transactions block) (pb_pre_tree_size block) tx_index action_index.
End Positions.

(** ** One transaction at a rendezvous *)

Section Inspection.
Context `{Blake2b} `{Pallas} `{OrchardKeys} `{UnifiedAddress} `{CoppiceReplay}
  `{!CanonicalJson Manifest}.

(** [validate_runtime] *)
Definition validate_runtime (deployment : DeploymentParameters) (runtime : RuntimeParameters)
  : res TransportConfigurationError DeploymentParameters :=
  let? validated := map_err ConfigInvalidDeployment (dp_validate deployment) in
  let? _ := ensure (bool_decide (dp_core_runtime_id validated = runtime_core_id runtime))
              RuntimeMismatch in
  Ok validated.

(** The codec parameters of a deployment. *)
Definition codec_parameters (deployment : DeploymentParameters) : CodecParameters := {|
  reveal_proof_bytes := pf_reveal_proof_bytes (dp_proof deployment);
  refresh_proof_bytes := pf_refresh_proof_bytes (dp_proof deployment) |}.

(** [on_expected_route] *)
Definition on_expected_route (operation : Operation) (expected : ExpectedRoute) : bool :=
  match operation, expected with
  | Commit _, RouteCommit => true
  | Reveal name _ _ _ _ _, RouteName expected
  | Refresh name _ _ _ _ _, RouteName expected => bool_decide (name = expected)
  | _, _ => false
  end.

(** [classify_inspection] from the envelope on. *)
Definition classify_envelope {E : Type} (envelope : ApplicationEnvelope)
  (deployment : DeploymentParameters) (network : Network) (expected : ExpectedRoute)
  : res E NamesTransportStatus :=
  match dp_deployment_id deployment with
  | Panic => Panic
  | Err _ => Ok (Rejected WrongApplication)
  | Ok deployment_id =>
      let? application := names_application_id deployment_id in
      if bool_decide (envelope_key envelope ≠ application_key application)
      then Ok (Rejected WrongApplication)
      else
        match decode (envelope_payload envelope) network (codec_parameters deployment) with
        | Panic => Panic
        | Err error => Ok (Rejected (InvalidOperation error))
        | Ok operation =>
            if negb (on_expected_route operation expected) then Ok (Rejected WrongRoute)
            else Ok (StatusOperation operation)
        end
  end.

Definition classify_inspection {E : Type} (routed_frames : list Z)
  (message : ApplicationMessageStatus) (deployment : DeploymentParameters) (network : Network)
  (expected : ExpectedRoute) : res E NamesTransportStatus :=
  if existsb (λ value, negb (value =? 0)) routed_frames then Ok (Rejected NonZeroCarrierValue)
  else
    match message with
    | NotCandidate | NoMessage => Ok NoOperation
    | MalformedTransport error => Ok (Rejected (MalformedCarrier error))
    | MalformedEnvelopeMessage _ => Ok (Rejected MalformedEnvelope)
    | Message envelope => classify_envelope envelope deployment network expected
    end.

Definition inspect_validated {E : Type} (transaction : FullTransaction)
  (rendezvous : CoreRendezvous) (deployment : DeploymentParameters) (network : Network)
  (expected : ExpectedRoute) : res E NamesTransportStatus :=
  let '(routed_frames, message) :=
    inspect_transaction_at_rendezvous transaction rendezvous (dp_core_runtime_id deployment) in
  classify_inspection routed_frames message deployment network expected.

Definition inspect_authenticated (transaction : CoreTransaction) (rendezvous : CoreRendezvous)
  (deployment : DeploymentParameters) (network : Network) (expected : ExpectedRoute)
  : res TransportConfigurationError NamesTransportStatus :=
  let? validated := map_err ConfigInvalidDeployment (dp_validate deployment) in
  match ct_full transaction with
  | None => Ok (Rejected UnauthenticatedFullTransaction)
  | Some full => inspect_validated full rendezvous validated network expected
  end.

Definition inspect_commit_transaction (transaction : CoreTransaction) (runtime : RuntimeParameters)
  (deployment : DeploymentParameters) (network : Network)
  : res TransportConfigurationError NamesTransportStatus :=
  let? validated := validate_runtime deployment runtime in
  let public_rendezvous := rendezvous_from_validated runtime in
  inspect_authenticated transaction public_rendezvous validated network RouteCommit.

Definition inspect_validated_commit_transaction (transaction : FullTransaction)
  (runtime : RuntimeParameters) (deployment : DeploymentParameters) (network : Network)
  : res TransportConfigurationError NamesTransportStatus :=
  let? validated := validate_runtime deployment runtime in
  let public_rendezvous := rendezvous_from_validated runtime in
  inspect_validated transaction public_rendezvous validated network RouteCommit.

(** The rendezvous both name inspections derive. *)
Definition name_rendezvous (validated : DeploymentParameters) (name : Name)
  : res TransportConfigurationError CoreRendezvous :=
  let? deployment_id := map_err ConfigInvalidDeployment (dp_deployment_id validated) in
  let? name_id := map_err ConfigInvalidName (Name_id name) in
  let? route := map_err ConfigInvalidName (NameRoute_derive deployment_id name_id) in
  lift_err ConfigInvalidRendezvous (rendezvous_new (incoming_viewing_key route) (receiver route)).

Definition inspect_name_transaction (transaction : CoreTransaction) (runtime : RuntimeParameters)
  (deployment : DeploymentParameters) (network : Network) (name : Name)
  : res TransportConfigurationError NamesTransportStatus :=
  let? validated := validate_runtime deployment runtime in
  let? rendezvous := name_rendezvous validated name in
  inspect_authenticated transaction rendezvous validated network (RouteName name).

Definition inspect_validated_name_transaction (transaction : FullTransaction)
  (runtime : RuntimeParameters) (deployment : DeploymentParameters) (network : Network) (name : Name)
  : res TransportConfigurationError NamesTransportStatus :=
  let? validated := validate_runtime deployment runtime in
  let? rendezvous := name_rendezvous validated name in
  inspect_validated transaction rendezvous validated network (RouteName name).

(** ** Blocks *)

Definition select_single_operation (commit named : NamesTransportStatus) : option Operation :=
  match commit, named with
  | StatusOperation operation, NoOperation
  | NoOperation, StatusOperation operation => Some operation
  | StatusOperation operation, Rejected WrongApplication
  | Rejected WrongApplication, StatusOperation operation => Some operation
  | _, _ => None
  end.

(** The closure over [nullifiers.zip(commitments).enumerate()]. *)
Definition core_action (effect : Z * (list byte * list byte)) : res BlockTransportError Action :=
  let '(action_index, (nullifier, commitment)) := effect in
  let? index := ok_or (u32_try_from action_index) InvalidActionEffects in
  let? nf := map_err (λ _, InvalidActionEffects) (FieldElement_from_bytes nullifier) in
  let? cmx := map_err (λ _, InvalidActionEffects) (FieldElement_from_bytes commitment) in
  Ok (MkAction index nf cmx).

(** The operation of a transaction that keeps exactly one candidate. *)
Definition core_operation (transaction : CoreTransaction) (runtime : RuntimeParameters)
  (validated : DeploymentParameters) (network : Network) (name : Name)
  : res BlockTransportError (option Operation) :=
  match ct_full transaction with
  | None => Ok None
  | Some _ =>
      let? commit := map_err Configuration
                       (inspect_commit_transaction transaction runtime validated network) in
      let? named := map_err Configuration
                      (inspect_name_transaction transaction runtime validated network name) in
      Ok (select_single_operation commit named)
  end.

(** The closure over [core_transactions]. *)
Definition core_transaction (runtime : RuntimeParameters) (validated : DeploymentParameters)
  (network : Network) (name : Name) (transaction : CoreTransaction)
  : res BlockTransportError Transaction :=
  let? _ := check_effects transaction in
  let? actions := res_mapM core_action
                    (enumerate (zip (ct_nullifiers transaction) (ct_commitments transaction))) in
  let? operation := core_operation transaction runtime validated network name in
  Ok (MkTransaction (ct_tx_index transaction) (ct_txid transaction) actions operation).

Definition inspect_exact_name_block_parts (height : Z) (hash prev_hash : list byte)
  (core_transactions : list CoreTransaction) (runtime : RuntimeParameters)
  (deployment : DeploymentParameters) (network : Network) (name : Name)
  : res BlockTransportError Block :=
  let? validated := map_err Configuration (validate_runtime deployment runtime) in
  let? transactions := res_mapM (core_transaction runtime validated network name) core_transactions in
  Ok (MkBlock height hash prev_hash transactions).

Definition inspect_exact_name_block (block : CoreBlock) :=
  inspect_exact_name_block_parts (cb_height block) (cb_hash block) (cb_prev_hash block)
    (cb_transactions block).

Definition inspect_exact_name_positioned_block (block : CorePositionedBlock) :=
  inspect_exact_name_block_parts (pb_height block) (pb_hash block) (pb_prev_hash block)
    (pb_transactions block).
End Inspection.

(** ** Positions, as a reference definition *)

Section PositionFacts.
Context `{CoppiceReplay}.
Implicit Types (t : CoreTransaction) (ts : list CoreTransaction).

Definition balanced t : Prop := length (ct_nullifiers t) = length (ct_commitments t).
Definition size t : Z := Z.of_nat (length (ct_commitments t)).

(** The actions of a block, in canonical order. *)
Definition action_slots ts : list (Z * Z) :=
  t ← ts; pair (ct_tx_index t) <$> seqZ 0 (size t).

Definition total ts : Z := Z.of_nat (length (action_slots ts)).

Lemma total_cons t ts : total (t :: ts) = size t + total ts.
Proof.
  unfold total. cbn [action_slots mbind list_bind]. fold (action_slots ts).
  rewrite length_app, length_fmap, length_seqZ. unfold size. lia.
Qed.

Lemma size_nonneg t : 0 ≤ size t.
Proof. unfold size. lia. Qed.

Lemma total_nonneg ts : 0 ≤ total ts.
Proof. unfold total. lia. Qed.

Lemma slot_tx ts i a : (i, a) ∈ action_slots ts ↔ ∃ t, t ∈ ts ∧ ct_tx_index t = i ∧ 0 ≤ a < size t.
Proof.
  unfold action_slots. rewrite list_elem_of_bind. split.
  - intros (t & (z & [= -> ->] & Hz%elem_of_seqZ)%list_elem_of_fmap & Ht). exists t. split; [done|split; [done|lia]].
  - intros (t & Ht & <- & Ha). exists t. split; [|done]. apply list_elem_of_fmap. exists a.
    split; [done|]. apply elem_of_seqZ. lia.
Qed.

Lemma action_count_small t : size t ≤ u32_max → action_count t = Ok (size t).
Proof.
  intros Hs. unfold action_count, u32_try_from. pose proof (size_nonneg t). fold (size t).
  by rewrite (proj2 (Z.leb_le _ _) Hs).
Qed.

Lemma slot_lookup t ts k i a :
  action_slots (t :: ts) !! k = Some (i, a) ↔
    (ct_tx_index t = i ∧ a = Z.of_nat k ∧ a < size t)
    ∨ ∃ j, k = (length (ct_commitments t) + j)%nat ∧ action_slots ts !! j = Some (i, a).
Proof.
  cbn [action_slots mbind list_bind]. fold (action_slots ts).
  rewrite lookup_app_Some, list_lookup_fmap_Some, length_fmap, length_seqZ.
  setoid_rewrite lookup_seqZ. unfold size. split.
  - intros [(z & [= -> ->] & -> & Hk)|[Hk Hl]]; [left; split; [done|lia]|right].
    exists (k - length (ct_commitments t))%nat. split; [lia|].
    rewrite <- Hl. f_equal. lia.
  - intros [(<- & -> & Hk)|(j & -> & Hl)]; [left; exists (Z.of_nat k); split; [done|lia]|right].
    split; [lia|]. rewrite <- Hl. f_equal. lia.
Qed.

Lemma slot_not_here t ts i a :
  ct_tx_index t = i → NoDup (ct_tx_index <$> t :: ts) → (i, a) ∉ action_slots ts.
Proof.
  intros <- Hnd (t' & Ht' & Et & _)%slot_tx. apply NoDup_cons in Hnd as [Hn _].
  apply Hn, list_elem_of_fmap. by exists t'.
Qed.

Lemma within_spec position count action_index :
  position + count ≤ u32_max →
  within position count action_index =
    if action_index <? count then Ok (position + action_index) else Err InvalidActionPosition.
Proof.
  intros Hc. unfold within. destruct (Z.leb_spec count action_index), (Z.ltb_spec action_index count);
    [lia|done| |lia]. unfold u32_checked_add. by rewrite (proj2 (Z.leb_le _ _)) by lia.
Qed.

(** Both loops number the slots of the block from the given position. *)
Lemma authenticated_loop_position ts position i a :
  (∀ t, t ∈ ts → balanced t) →
  authenticated_loop ts position i a = action_position ts position i a.
Proof.
  revert position. induction ts as [|t ts IH]; intros position Hb; cbn [authenticated_loop action_position]; [done|].
  unfold check_effects. rewrite bool_decide_true by apply Hb, list_elem_of_here.
  cbn [ensure res_bind]. destruct (action_count t) as [c|e|]; cbn [res_bind]; [|done..].
  destruct (_ =? _); [done|]. destruct (u32_checked_add position c); cbn [ok_or res_bind]; [|done].
  apply IH. intros; apply Hb. by right.
Qed.

Lemma action_position_slots ts position i a :
  (∀ t, t ∈ ts → balanced t) → NoDup (ct_tx_index <$> ts) →
  0 ≤ position → position + total ts ≤ u32_max → 0 ≤ a →
  (∀ p, action_position ts position i a = Ok p ↔
    ∃ k, action_slots ts !! k = Some (i, a) ∧ p = position + Z.of_nat k)
  ∧ ((i, a) ∉ action_slots ts → action_position ts position i a = Err InvalidActionPosition).
Proof.
  intros Hb Hnd Hp Ht Ha. revert position Hb Hnd Hp Ht.
  induction ts as [|t ts IH]; intros position Hb Hnd Hp Ht; cbn [action_position].
  { split; [|done]. intros p. split; [done|]. by intros (k & ? & _). }
  rewrite total_cons in Ht. pose proof (total_nonneg ts). pose proof (size_nonneg t).
  unfold check_effects. rewrite bool_decide_true by apply Hb, list_elem_of_here.
  cbn [ensure res_bind]. rewrite action_count_small by lia. cbn [res_bind].
  setoid_rewrite slot_lookup. destruct (Z.eqb_spec (ct_tx_index t) i) as [Ei|Ei].
  - rewrite within_spec by lia. pose proof (slot_not_here t ts i a Ei Hnd) as Hn. split.
    + intros p. destruct (Z.ltb_spec a (size t)); split.
      * intros <-%Ok_inj. exists (Z.to_nat a). split; [left; lia|lia].
      * intros (k & [(_ & -> & _)|(j & _ & Hj%list_elem_of_lookup_2)] & ->); [done|done].
      * done.
      * intros (k & [(_ & -> & ?)|(j & _ & Hj%list_elem_of_lookup_2)] & ->); [lia|done].
    + intros Hni. destruct (Z.ltb_spec a (size t)); [|done]. destruct Hni.
      apply slot_tx. exists t. split; [by left|done].
  - unfold u32_checked_add. rewrite (proj2 (Z.leb_le _ _)) by lia. cbn [ok_or res_bind].
    apply NoDup_cons in Hnd as [_ Hnd].
    destruct (IH (position + size t)) as [IH1 IH2]; [intros; apply Hb; by right|done|lia|lia|]. split.
    + intros p. rewrite IH1. split.
      * intros (k & Hk & ->). exists (length (ct_commitments t) + k)%nat. split; [right; by exists k|].
        unfold size. lia.
      * intros (k & [(? & _)|(j & -> & Hj)] & ->); [done|]. exists j. split; [done|]. unfold size. lia.
    + intros Hni. apply IH2. intros (t' & Ht' & E)%slot_tx. apply Hni, slot_tx. exists t'. split; [by right|done].
Qed.

Lemma count_actions_total ts n :
  (∀ t, t ∈ ts → balanced t) → 0 ≤ n → n + total ts ≤ u32_max →
  res_fold count_actions n ts = Ok (n + total ts).
Proof.
  revert n. induction ts as [|t ts IH]; intros n Hb Hn Ht; cbn [res_fold].
  { unfold total. cbn. by rewrite Z.add_0_r. }
  rewrite total_cons in *. pose proof (total_nonneg ts). pose proof (size_nonneg t).
  unfold count_actions at 1, check_effects. rewrite bool_decide_true by apply Hb, list_elem_of_here.
  cbn [ensure res_bind]. rewrite action_count_small by lia. cbn [res_bind].
  unfold u32_checked_add. rewrite (proj2 (Z.leb_le _ _)) by lia. cbn [ok_or res_bind].
  rewrite IH; [by rewrite Z.add_assoc|intros; apply Hb; by right|lia..].
Qed.
End PositionFacts.

(** ** What an inspection reports *)

Section InspectionFacts.
Context `{Blake2b} `{Pallas} `{OrchardKeys} `{UnifiedAddress} `{CoppiceReplay}
  `{!CanonicalJson Manifest}.

(** A message at the rendezvous: zero-valued frames that make up an envelope of
    the deployment's application, whose payload is the operation's encoding. *)
Definition delivered (full : FullTransaction) (rendezvous : CoreRendezvous)
  (d : DeploymentParameters) (network : Network) (op : Operation) : Prop :=
  ∃ frames envelope id application,
    inspect_transaction_at_rendezvous full rendezvous (dp_core_runtime_id d) = (frames, Message envelope)
    ∧ (∀ value, value ∈ frames → value = 0)
    ∧ dp_deployment_id d = Ok id
    ∧ derive_application_id (NAMES_CANONICAL_APPLICATION_IDENTITY ++ [x00] ++ id) = Some application
    ∧ envelope_key envelope = application_key application
    ∧ decode (envelope_payload envelope) network (codec_parameters d) = Ok op.

Lemma existsb_nonzero frames :
  existsb (λ value, negb (value =? 0)) frames = false ↔ ∀ value, value ∈ frames → value = 0.
Proof.
  rewrite <- not_true_iff_false, existsb_exists. setoid_rewrite negb_true_iff.
  setoid_rewrite Z.eqb_neq. setoid_rewrite <- list_elem_of_In. split.
  - intros Hn v Hv. destruct (decide (v = 0)); [done|]. destruct Hn. eauto.
  - intros Hz (v & Hv & Hne). auto.
Qed.

Lemma classify_envelope_operation {E} envelope d network expected op :
  classify_envelope (E := E) envelope d network expected = Ok (StatusOperation op) ↔
    (∃ id application, dp_deployment_id d = Ok id
      ∧ derive_application_id (NAMES_CANONICAL_APPLICATION_IDENTITY ++ [x00] ++ id) = Some application
      ∧ envelope_key envelope = application_key application
      ∧ decode (envelope_payload envelope) network (codec_parameters d) = Ok op)
    ∧ on_expected_route op expected = true.
Proof.
  unfold classify_envelope, names_application_id.
  destruct (dp_deployment_id d) as [id|e|]; [|naive_solver..].
  destruct (derive_application_id _) as [application|] eqn:Ed; cbn [expect res_bind];
    [|split; [done|]; intros [(? & ? & [= <-] & ? & _) _]; congruence].
  case_bool_decide as Ek.
  { split; [done|]. intros [(? & ? & [= <-] & ? & ? & _) _]. congruence. }
  destruct (decode _ _ _) as [o|e|] eqn:Eo;
    [|by (split; [done|]; intros [(? & ? & _ & _ & _ & ?) _])..].
  destruct (on_expected_route o expected) eqn:Er; cbn [negb]; split.
  - intros [= <-]. split; [|done]. by exists id, application.
  - by intros [(? & ? & _ & _ & _ & [= <-]) _].
  - done.
  - intros [(? & ? & _ & _ & _ & [= <-]) ?]. congruence.
Qed.

Lemma inspect_validated_operation {E} full rendezvous d network expected op :
  inspect_validated (E := E) full rendezvous d network expected = Ok (StatusOperation op) ↔
    delivered full rendezvous d network op ∧ on_expected_route op expected = true.
Proof.
  unfold inspect_validated, delivered.
  destruct (inspect_transaction_at_rendezvous _ _ _) as [frames message]. unfold classify_inspection.
  destruct (existsb _ _) eqn:Ef.
  { split; [done|]. intros [(f & ? & ? & ? & [= -> ->] & Hz & _) _].
    apply existsb_nonzero in Hz. congruence. }
  pose proof (proj1 (existsb_nonzero frames) Ef) as Hzero. destruct message as [| |e|e|envelope];
    try (split; [done|by intros [(? & ? & ? & ? & ? & _) _]]).
  rewrite classify_envelope_operation. split.
  - intros [(id & a & ?) ?]. split; [|done]. by exists frames, envelope, id, a.
  - intros [(? & ? & id & a & [= -> ->] & _ & ?) ?]. split; [|done]. by exists id, a.
Qed.

Lemma codec_parameters_ok d :
  deployment_typed d → dp_validate d = Ok d → CodecParameters_ok (codec_parameters d).
Proof.
  intros Hd (_ & _ & _ & Hrp & Hfp)%dp_validate_Ok; [|done].
  destruct Hd as [_ _ (k & n & m & rk & fk & (_ & ? & ? & _) & Ep)].
  unfold CodecParameters_ok, codec_parameters. rewrite Ep in *. cbn in *. lia.
Qed.

Lemma validate_runtime_Ok d runtime e :
  validate_runtime d runtime = Ok e →
  e = d ∧ dp_validate d = Ok d ∧ dp_core_runtime_id d = runtime_core_id runtime.
Proof.
  unfold validate_runtime. intros (v & Hv%map_err_Ok & (u & Hr%ensure_Ok%bool_decide_eq_true & <-%Ok_inj)%res_bind_Ok)%res_bind_Ok.
  pose proof Hv as ->%dp_validate_id. done.
Qed.

Lemma delivered_ok full rendezvous d network op :
  deployment_typed d → dp_validate d = Ok d → delivered full rendezvous d network op →
  Operation_ok network op.
Proof.
  intros Hd Hv (frames & envelope & id & a & _ & _ & _ & _ & _ & Hdec).
  apply decode_encodes in Hdec as [? _]; [done|]. by apply codec_parameters_ok.
Qed.

Lemma inspect_authenticated_operation t rendezvous d network expected op :
  inspect_authenticated t rendezvous d network expected = Ok (StatusOperation op) →
  ∃ full, ct_full t = Some full ∧ delivered full rendezvous d network op
    ∧ on_expected_route op expected = true.
Proof.
  intros (v & ->%map_err_Ok%dp_validate_id & Hi)%res_bind_Ok.
  destruct (ct_full t) as [full|]; [|done]. exists full. split; [done|].
  by apply inspect_validated_operation in Hi.
Qed.

(** Where the operation of a converted transaction comes from. *)
Definition routed (t : CoreTransaction) (runtime : RuntimeParameters) (d : DeploymentParameters)
  (network : Network) (name : Name) (op : Operation) : Prop :=
  ∃ full, ct_full t = Some full
    ∧ ((∃ c, op = Commit c) ∧ delivered full (rendezvous_from_validated runtime) d network op
       ∨ on_expected_route op (RouteName name) = true
         ∧ ∃ rendezvous, name_rendezvous d name = Ok rendezvous ∧ delivered full rendezvous d network op).

Lemma select_single_operation_Some commit named op :
  select_single_operation commit named = Some op →
  commit = StatusOperation op ∨ named = StatusOperation op.
Proof.
  destruct commit as [|[]|], named as [|[]|]; simpl; try done; intros [= ->]; auto.
Qed.

Lemma core_operation_routed t runtime d network name op :
  core_operation t runtime d network name = Ok (Some op) → routed t runtime d network name op.
Proof.
  unfold core_operation. destruct (ct_full t) as [full|] eqn:Ef; [|done].
  intros (commit & Hc%map_err_Ok & (named & Hn%map_err_Ok & Hs%Ok_inj)%res_bind_Ok)%res_bind_Ok.
  unfold routed. rewrite Ef. exists full. split; [done|].
  apply select_single_operation_Some in Hs as [-> | ->].
  - apply res_bind_Ok in Hc as (v & (-> & _)%validate_runtime_Ok & Hi).
    apply inspect_authenticated_operation in Hi as (full' & Ef' & Hd & Hr).
    rewrite Ef in Ef'. injection Ef' as <-. left. split; [|done].
    destruct op; try done. eauto.
  - apply res_bind_Ok in Hn as (v & (-> & _)%validate_runtime_Ok & (rendezvous & Hrd & Hi)%res_bind_Ok).
    apply inspect_authenticated_operation in Hi as (full' & Ef' & Hd & Hr).
    rewrite Ef in Ef'. injection Ef' as <-. right. eauto.
Qed.

Lemma core_actions_spec n nfs cms actions :
  length nfs = length cms → res_mapM core_action (enumerate_from n (zip nfs cms)) = Ok actions →
  map (λ a, field_bytes (ac_nullifier a)) actions = nfs
  ∧ map (λ a, field_bytes (ac_commitment a)) actions = cms
  ∧ check_action_indices n actions = Ok tt
  ∧ ∀ a, a ∈ actions → FieldElement_ok (ac_nullifier a) ∧ FieldElement_ok (ac_commitment a).
Proof.
  revert n cms actions. induction nfs as [|nf nfs IH]; intros n [|cm cms] actions Hl; try done; cbn.
  { intros <-%Ok_inj. split_and!; [done..|]. by intros a ?%not_elem_of_nil. }
  intros (a & (i & Hi%ok_or_Ok & (f & Hf%map_err_Ok & (c & Hc%map_err_Ok & <-%Ok_inj)%res_bind_Ok)%res_bind_Ok)%res_bind_Ok
    & (rest & Hr & <-%Ok_inj)%res_bind_Ok)%res_bind_Ok.
  assert (field_bytes f = nf ∧ field_bytes c = cm) as [Ef Ec].
  { apply FieldElement_from_bytes_Ok in Hf as [_ ->], Hc as [_ ->]. done. }
  injection Hl as Hl. apply IH in Hr as (En & Em & Hx & Ht); [|done]. cbn.
  rewrite Ef, Ec, Hi, En, Em. cbn [default]. rewrite Z.eqb_refl. cbn [ensure res_bind].
  split_and!; [done..|]. intros a [-> | Ha]%elem_of_cons; [|by apply Ht]. cbn.
  unfold FieldElement_ok. by rewrite Ef, Ec.
Qed.

(** A converted transaction: the authenticated actions in order, at most one
    operation, and only one that arrived on its route. *)
Record carried (runtime : RuntimeParameters) (d : DeploymentParameters) (network : Network)
  (name : Name) (t : CoreTransaction) (tx : Transaction) : Prop := {
  ca_tx_index : tx_tx_index tx = ct_tx_index t;
  ca_txid : tx_txid tx = ct_txid t;
  ca_nullifiers : map (λ a, field_bytes (ac_nullifier a)) (tx_actions tx) = ct_nullifiers t;
  ca_commitments : map (λ a, field_bytes (ac_commitment a)) (tx_actions tx) = ct_commitments t;
  ca_indices : check_action_indices 0 (tx_actions tx) = Ok tt;
  ca_typed a : a ∈ tx_actions tx → FieldElement_ok (ac_nullifier a) ∧ FieldElement_ok (ac_commitment a);
  ca_operation op : tx_operation tx = Some op → routed t runtime d network name op;
}.

Lemma core_transaction_carried runtime d network name t tx :
  core_transaction runtime d network name t = Ok tx → carried runtime d network name t tx.
Proof.
  intros (u & Hl%ensure_Ok%bool_decide_eq_true & (actions & Ha & (op & Ho & <-%Ok_inj)%res_bind_Ok)%res_bind_Ok)%res_bind_Ok.
  apply core_actions_spec in Ha as (Hn & Hc & Hi & Ht); [|done]. constructor; try done.
  cbn. intros o ->. by apply core_operation_routed.
Qed.

Lemma routed_ok t runtime d network name op :
  deployment_typed d → dp_validate d = Ok d → routed t runtime d network name op →
  Operation_ok network op.
Proof.
  intros Hd Hv (full & _ & [[_ Hop]|(_ & rendezvous & _ & Hop)]); by eapply delivered_ok.
Qed.

Lemma inspect_block_Ok height hash prev ts runtime d network name b :
  inspect_exact_name_block_parts height hash prev ts runtime d network name = Ok b →
  dp_validate d = Ok d ∧ dp_core_runtime_id d = runtime_core_id runtime
  ∧ bl_height b = height ∧ bl_hash b = hash ∧ bl_prev_hash b = prev
  ∧ Forall2 (carried runtime d network name) ts (bl_transactions b).
Proof.
  intros (v & (-> & Hv & Hr)%map_err_Ok%validate_runtime_Ok & (txs & Htx%res_mapM_Ok & <-%Ok_inj)%res_bind_Ok)%res_bind_Ok.
  split_and!; [done..|]. eapply Forall2_impl; [exact Htx|]. intros t tx. apply core_transaction_carried.
Qed.

Lemma carried_canonical runtime d network name ts txs previous :
  Forall2 (carried runtime d network name) ts txs →
  StronglySorted Z.lt (ct_tx_index <$> ts) →
  (∀ p, previous = Some p → ∀ t, t ∈ ts → p < ct_tx_index t) →
  check_transactions previous txs = Ok tt.
Proof.
  intros Hf. revert previous. induction Hf as [|t tx ts txs Ht Hf IH]; intros previous Hs Hp; [done|].
  cbn in Hs. apply StronglySorted_inv in Hs as [Hs Hlt]. destruct Ht as [Ei _ _ _ Hi _ _].
  cbn [check_transactions]. rewrite Ei. replace (match previous with Some p => _ | None => true end) with true.
  - cbn [ensure res_bind]. rewrite Hi. cbn [res_bind]. apply IH; [done|]. intros p [= <-] t' Ht'.
    rewrite Forall_forall in Hlt. apply Hlt, list_elem_of_fmap. by exists t'.
  - destruct previous as [p|]; [|done]. symmetry. apply Z.ltb_lt, (Hp p eq_refl). by left.
Qed.
End InspectionFacts.

Section TransportPanics.
Context `{Blake2b} `{Pallas} `{OrchardKeys} `{!OrchardKeysLaws} `{UnifiedAddress} `{CoppiceReplay}
  `{!CanonicalJson Manifest}.
Context (Hm : is_Some (to_value_vec EMBEDDED_MANIFEST)).

Lemma classify_no_panic {E} frames message d network expected :
  deployment_typed d → dp_validate d = Ok d →
  classify_inspection (E := E) frames message d network expected ≠ Panic.
Proof.
  intros Hd Hv. unfold classify_inspection, classify_envelope. destruct (existsb _ _); [done|].
  destruct message as [| | | |envelope]; try done.
  pose proof (dp_deployment_id_no_panic d Hm Hd). destruct (dp_deployment_id d) as [id|e|]; [|done..].
  destruct (names_application_total (E := E) id) as [a Ha]. rewrite Ha. cbn [res_bind].
  destruct (bool_decide _); [done|].
  pose proof (decode_no_panic network _ (envelope_payload envelope) (codec_parameters_ok d Hd Hv)).
  destruct (decode _ _ _); [|done..]. by destruct (negb _).
Qed.

Lemma inspect_authenticated_no_panic t rendezvous d network expected :
  deployment_typed d → dp_validate d = Ok d →
  inspect_authenticated t rendezvous d network expected ≠ Panic.
Proof.
  intros Hd Hv. unfold inspect_authenticated. rewrite Hv. cbn [map_err res_bind].
  destruct (ct_full t); [|done]. unfold inspect_validated. destruct (inspect_transaction_at_rendezvous _ _ _).
  by apply classify_no_panic.
Qed.

Lemma validate_runtime_no_panic d runtime : validate_runtime d runtime ≠ Panic.
Proof.
  unfold validate_runtime. apply bind_no_panic; [by apply map_err_no_panic, dp_validate_no_panic|].
  auto with panics.
Qed.

Lemma name_rendezvous_no_panic d name : deployment_typed d → Name_ok name → name_rendezvous d name ≠ Panic.
Proof.
  intros Hd Hn. unfold name_rendezvous.
  apply bind_no_panic; [by apply map_err_no_panic, dp_deployment_id_no_panic|intros id _].
  apply bind_no_panic; [by apply map_err_no_panic, Name_id_no_panic|intros i _].
  apply bind_no_panic; [by apply map_err_no_panic, NameRoute_derive_no_panic|auto with panics].
Qed.

Lemma core_transaction_no_panic runtime d network name t :
  deployment_typed d → dp_validate d = Ok d → Name_ok name →
  core_transaction runtime d network name t ≠ Panic.
Proof.
  intros Hd Hv Hn. unfold core_transaction. apply bind_no_panic; [apply ensure_no_panic|intros _ _].
  apply bind_no_panic.
  { unfold enumerate. generalize 0. generalize (zip (ct_nullifiers t) (ct_commitments t)).
    intros l. induction l as [|[nf cm] l IH]; intros n; cbn; [done|].
    apply bind_no_panic; [|intros; apply bind_no_panic; [apply IH|done]].
    apply bind_no_panic; [apply ok_or_no_panic|intros i _].
    unfold FieldElement_from_bytes, canonical_field.
    destruct (from_repr nf), (from_repr cm); done. }
  intros actions _. apply bind_no_panic; [|done]. unfold core_operation. destruct (ct_full t); [|done].
  apply bind_no_panic; [apply map_err_no_panic|intros commit _].
  { apply bind_no_panic; [apply validate_runtime_no_panic|]. intros v (-> & _)%validate_runtime_Ok.
    by apply inspect_authenticated_no_panic. }
  apply bind_no_panic; [apply map_err_no_panic|done].
  apply bind_no_panic; [apply validate_runtime_no_panic|]. intros v (-> & _)%validate_runtime_Ok.
  apply bind_no_panic; [by apply name_rendezvous_no_panic|intros rd _].
  by apply inspect_authenticated_no_panic.
Qed.

Lemma inspect_block_no_panic height hash prev ts runtime d network name :
  deployment_typed d → Name_ok name →
  inspect_exact_name_block_parts height hash prev ts runtime d network name ≠ Panic.
Proof.
  intros Hd Hn. unfold inspect_exact_name_block_parts.
  apply bind_no_panic; [apply map_err_no_panic, validate_runtime_no_panic|].
  intros v (-> & Hv & _)%map_err_Ok%validate_runtime_Ok. apply bind_no_panic; [|done].
  induction ts as [|t ts IH]; cbn [res_mapM]; [done|].
  apply bind_no_panic; [by apply core_transaction_no_panic|intros tx _].
  apply bind_no_panic; [exact IH|done].
Qed.
End TransportPanics.

(** ** Theorems *)

(** C33: an action's global position is its rank in the block.  Over a block with
    as many nullifiers as commitments per transaction and distinct transaction
    indices, the position of action [a] of transaction [i] is the tree size before
    the block plus the number of actions that precede it, every other pair of
    indices is [InvalidActionPosition], and the position computed from the
    authenticated post-block tree size is the one computed from the pre-block size. *)
Theorem action_positions_rank `{CoppiceReplay} (block : CoreBlock) (positioned : CorePositionedBlock)
  (i a : Z) :
  let ts := pb_transactions positioned in
  let pre := pb_pre_tree_size positioned in
  (∀ t, t ∈ ts → balanced t) → NoDup (ct_tx_index <$> ts) →
  0 ≤ pre → pre + total ts ≤ u32_max → 0 ≤ a →
  (∀ p, positioned_action_position positioned i a = Ok p ↔
    ∃ k, action_slots ts !! k = Some (i, a) ∧ p = pre + Z.of_nat k)
  ∧ ((i, a) ∉ action_slots ts →
     positioned_action_position positioned i a = Err InvalidActionPosition)
  ∧ (cb_transactions block = ts → cb_tree_size block = pre + total ts →
     authenticated_action_position block i a = positioned_action_position positioned i a).
Proof.
  intros ts pre Hb Hnd Hpre Htot Ha.
  destruct (action_position_slots ts pre i a Hb Hnd Hpre Htot Ha) as [Hs He].
  split; [exact Hs|]. split; [exact He|]. intros Et Es.
  unfold authenticated_action_position. rewrite Et.
  rewrite count_actions_total by (done || lia). cbn [res_bind].
  rewrite Es. unfold u32_checked_sub. rewrite (proj2 (Z.leb_le _ _)) by lia. cbn [ok_or res_bind].
  rewrite authenticated_loop_position by done. unfold positioned_action_position. fold ts.
  by replace (pre + total ts - (0 + total ts)) with pre by lia.
Qed.

(** C18: the transport hands the reducer only what its host must.  Converting an
    authenticated block never panics.  What it returns carries the authenticated
    actions unchanged and in canonical order, passes the reducer's index checks,
    is well-typed at the deployment's network, and holds an operation only where
    the authenticated transaction delivered one, encoded under the deployment's
    application on the public route (a COMMIT) or on the name's own route. *)
Theorem transport_is_host `{Blake2b} `{Pallas} `{OrchardKeys} `{!OrchardKeysLaws}
  `{UnifiedAddress} `{CoppiceReplay} `{!CanonicalJson Manifest} (height : Z) (hash prev : list byte)
  (ts : list CoreTransaction) (runtime : RuntimeParameters) (d : DeploymentParameters)
  (network : Network) (name : Name) :
  is_Some (to_value_vec EMBEDDED_MANIFEST) → deployment_typed d → Name_ok name →
  inspect_exact_name_block_parts height hash prev ts runtime d network name ≠ Panic
  ∧ ∀ b, inspect_exact_name_block_parts height hash prev ts runtime d network name = Ok b →
    bl_height b = height ∧ bl_hash b = hash ∧ bl_prev_hash b = prev
    ∧ Forall2 (carried runtime d network name) ts (bl_transactions b)
    ∧ typed_host network b []
    ∧ (StronglySorted Z.lt (ct_tx_index <$> ts) → check_transactions None (bl_transactions b) = Ok tt).
Proof.
  intros Hm Hd Hn. split; [by apply inspect_block_no_panic|].
  intros b (Hv & _ & Hh & Hha & Hp & Hf)%inspect_block_Ok. split_and!; [done..| |].
  - split; [|by intros ev ?%not_elem_of_nil]. intros tx Htx.
    destruct (Forall2_in_r _ _ _ _ Hf Htx) as (t & _ & [_ _ _ _ _ Hty Hop]). split.
    + intros a Ha. by apply Hty.
    + intros op Ho. eapply routed_ok; [done..|]. by apply Hop.
  - intros Hs. eapply carried_canonical; [exact Hf|exact Hs|done].
Qed.
