(* ===== verification/Publication.v ===== *)
(** * Outbound publication ([crates/coppice-names/src/publication.rs])

    The encoding of one operation to an envelope and its frames, on the route the
    operation itself selects; and that the transport reads it back. *)

From S2P Require Import Prelude Bytes BTree External Protocol Schedule Codec Records.
From S2P Require Import Ruleset Deployment Transport.

Definition NAMES_CARRIER_VALUE_ZATOSHIS : Z := 0.

Inductive PublicationRoute :=
  | Generic
  | NameRouted (route : NameRoute).

Record PreparedPublication := MkPreparedPublication {
  pp_operation : Operation;
  pp_route : PublicationRoute;
  pp_encoded_operation : list byte;
  pp_encoded_envelope : list byte;
  pp_frames : list (list byte);
}.

(** [PreparedPublication::carrier_value_zatoshis] *)
Definition carrier_value_zatoshis (self : PreparedPublication) : Z := NAMES_CARRIER_VALUE_ZATOSHIS.

Inductive PublicationError `{CoppiceCarrier} :=
  | PubInvalidDeployment (error : DeploymentError)
  | PubInvalidName (error : ValueError)
  | PubInvalidOperation (error : CodecError)
  | PubInvalidEnvelope (error : ApplicationEnvelopeError)
  | PubInvalidTransport (error : CarrierError).

Section Publication.
Context `{Blake2b} `{Pallas} `{OrchardKeys} `{CoppicePayload} `{CoppiceCarrier}
  `{!CanonicalJson Manifest}.

(** The [route] of an operation. *)
Definition publication_route (deployment_id : list byte) (operation : Operation)
  : res PublicationError PublicationRoute :=
  match operation with
  | Commit _ => Ok Generic
  | Reveal name _ _ _ _ _ | Refresh name _ _ _ _ _ =>
      let? name_id := map_err PubInvalidName (Name_id name) in
      let? route := map_err PubInvalidName (NameRoute_derive deployment_id name_id) in
      Ok (NameRouted route)
  end.

Definition prepare_publication (operation : Operation) (deployment : DeploymentParameters)
  : res PublicationError PreparedPublication :=
  let? deployment := map_err PubInvalidDeployment (dp_validate deployment) in
  let? deployment_id := map_err PubInvalidDeployment (dp_deployment_id deployment) in
  let? route := publication_route deployment_id operation in
  let? encoded_operation :=
    map_err PubInvalidOperation (encode operation (codec_parameters deployment)) in
  let? application := names_application_id deployment_id in
  let? envelope :=
    lift_err PubInvalidEnvelope (envelope_new (application_key application) encoded_operation) in
  let encoded_envelope := envelope_encode envelope in
  let? frames :=
    lift_err PubInvalidTransport
      (encode_frames (runtime_id_bytes (dp_core_runtime_id deployment)) encoded_envelope) in
  Ok (MkPreparedPublication operation route encoded_operation encoded_envelope frames).
End Publication.

(** ** Reading a publication back *)

Section ReadBack.
Context `{Blake2b} `{Pallas} `{OrchardKeys} `{UnifiedAddress} `{CoppicePayload} `{CoppiceReplay}
  `{!CanonicalJson Manifest}.

(** The rendezvous of a publication, and the inspection that listens there. *)
Definition publication_rendezvous (runtime : RuntimeParameters) (p : PreparedPublication)
  : RendezvousError + CoreRendezvous :=
  match pp_route p with
  | Generic => inr (rendezvous_from_validated runtime)
  | NameRouted route => rendezvous_new (incoming_viewing_key route) (receiver route)
  end.

Definition listening_route (op : Operation) : ExpectedRoute :=
  match op with
  | Commit _ => RouteCommit
  | Reveal name _ _ _ _ _ | Refresh name _ _ _ _ _ => RouteName name
  end.

Definition inspect_on_route (route : ExpectedRoute) (full : FullTransaction)
  (runtime : RuntimeParameters) (d : DeploymentParameters) (network : Network)
  : res TransportConfigurationError NamesTransportStatus :=
  match route with
  | RouteCommit => inspect_validated_commit_transaction full runtime d network
  | RouteName name => inspect_validated_name_transaction full runtime d network name
  end.

(** Core delivers the frames of a publication: zero-valued frames at its
    rendezvous that make up its envelope. *)
Definition carries (full : FullTransaction) (runtime : RuntimeParameters) (d : DeploymentParameters)
  (p : PreparedPublication) : Prop :=
  ∃ rendezvous frames envelope,
    publication_rendezvous runtime p = inr rendezvous
    ∧ inspect_transaction_at_rendezvous full rendezvous (dp_core_runtime_id d) = (frames, Message envelope)
    ∧ (∀ value, value ∈ frames → value = carrier_value_zatoshis p)
    ∧ envelope_encode envelope = pp_encoded_envelope p.

Lemma on_listening_route op : on_expected_route op (listening_route op) = true.
Proof. destruct op; cbn; by rewrite ?bool_decide_true. Qed.

Lemma prepare_publication_Ok op d p :
  prepare_publication op d = Ok p →
  ∃ id route encoded application envelope,
    dp_validate d = Ok d ∧ dp_deployment_id d = Ok id
    ∧ publication_route id op = Ok route ∧ encode op (codec_parameters d) = Ok encoded
    ∧ derive_application_id (NAMES_CANONICAL_APPLICATION_IDENTITY ++ [x00] ++ id) = Some application
    ∧ envelope_new (application_key application) encoded = inr envelope
    ∧ pp_operation p = op ∧ pp_route p = route ∧ pp_encoded_envelope p = envelope_encode envelope
    ∧ encode_frames (runtime_id_bytes (dp_core_runtime_id d)) (envelope_encode envelope)
        = inr (pp_frames p).
Proof.
  intros (v & Hv%map_err_Ok & Hp)%res_bind_Ok. pose proof Hv as ->%dp_validate_id.
  apply res_bind_Ok in Hp as (id & Hid%map_err_Ok & (route & Hr & (enc & He%map_err_Ok & (a & Ha%expect_Ok &
    (env & Henv%lift_err_Ok & (frames & Hf%lift_err_Ok & <-%Ok_inj)%res_bind_Ok)%res_bind_Ok)%res_bind_Ok)%res_bind_Ok)%res_bind_Ok).
  by exists id, route, enc, a, env.
Qed.

Lemma prepare_publication_intro op d id route encoded application envelope frames :
  dp_validate d = Ok d → dp_deployment_id d = Ok id → publication_route id op = Ok route →
  encode op (codec_parameters d) = Ok encoded →
  derive_application_id (NAMES_CANONICAL_APPLICATION_IDENTITY ++ [x00] ++ id) = Some application →
  envelope_new (application_key application) encoded = inr envelope →
  encode_frames (runtime_id_bytes (dp_core_runtime_id d)) (envelope_encode envelope) = inr frames →
  prepare_publication op d
    = Ok (MkPreparedPublication op route encoded (envelope_encode envelope) frames).
Proof.
  intros Hv Hid Hr He Ha Hn Hf. unfold prepare_publication, names_application_id.
  rewrite Hv. cbn [map_err res_bind]. rewrite Hid. cbn [map_err res_bind]. rewrite Hr. cbn [res_bind].
  rewrite He. cbn [map_err res_bind]. rewrite Ha. cbn [expect res_bind]. rewrite Hn.
  cbn [lift_err res_bind]. by rewrite Hf.
Qed.

Lemma route_rendezvous op d id route rendezvous (runtime : RuntimeParameters) p :
  dp_deployment_id d = Ok id → publication_route id op = Ok route → pp_route p = route →
  publication_rendezvous runtime p = inr rendezvous →
  match listening_route op with
  | RouteCommit => rendezvous = rendezvous_from_validated runtime
  | RouteName name => name_rendezvous d name = Ok rendezvous
  end.
Proof.
  unfold publication_rendezvous, name_rendezvous. intros Hid Hr -> Hp. rewrite Hid. cbn [map_err res_bind].
  destruct op as [c|name ? ? ? ? ?|name ? ? ? ? ?]; cbn in *.
  - apply Ok_inj in Hr as <-. by injection Hp as <-.
  - apply res_bind_Ok in Hr as (i & ->%map_err_Ok & (r & Hr%map_err_Ok & <-%Ok_inj)%res_bind_Ok).
    cbn [map_err res_bind]. rewrite Hr. cbn [map_err res_bind]. by rewrite Hp.
  - apply res_bind_Ok in Hr as (i & ->%map_err_Ok & (r & Hr%map_err_Ok & <-%Ok_inj)%res_bind_Ok).
    cbn [map_err res_bind]. rewrite Hr. cbn [map_err res_bind]. by rewrite Hp.
Qed.

Lemma validate_runtime_same d runtime :
  dp_validate d = Ok d → runtime_core_id runtime = dp_core_runtime_id d →
  validate_runtime d runtime = Ok d.
Proof.
  intros Hv Hr. unfold validate_runtime. rewrite Hv. cbn [map_err res_bind].
  by rewrite bool_decide_true by done.
Qed.

(** An authenticated transaction is inspected as its full transaction. *)
Lemma inspect_commit_full t full runtime d network :
  ct_full t = Some full →
  inspect_commit_transaction t runtime d network = inspect_on_route RouteCommit full runtime d network.
Proof.
  intros Hf. unfold inspect_commit_transaction, inspect_on_route, inspect_validated_commit_transaction.
  destruct (validate_runtime d runtime) as [v|e|] eqn:Hv; cbn [res_bind]; [|done..].
  apply validate_runtime_Ok in Hv as (-> & Hv & _). unfold inspect_authenticated. rewrite Hv, Hf. done.
Qed.

Lemma inspect_name_full t full runtime d network name :
  ct_full t = Some full →
  inspect_name_transaction t runtime d network name
    = inspect_on_route (RouteName name) full runtime d network.
Proof.
  intros Hf. unfold inspect_name_transaction, inspect_on_route, inspect_validated_name_transaction.
  destruct (validate_runtime d runtime) as [v|e|] eqn:Hv; cbn [res_bind]; [|done..].
  apply validate_runtime_Ok in Hv as (-> & Hv & _).
  destruct (name_rendezvous d name); cbn [res_bind]; [|done..].
  unfold inspect_authenticated. rewrite Hv, Hf. done.
Qed.

Lemma core_operation_full t full runtime d network name :
  ct_full t = Some full →
  core_operation t runtime d network name =
    (let? commit := map_err Configuration (inspect_on_route RouteCommit full runtime d network) in
     let? named := map_err Configuration (inspect_on_route (RouteName name) full runtime d network) in
     Ok (select_single_operation commit named)).
Proof.
  intros Hf. unfold core_operation. rewrite Hf. by erewrite inspect_commit_full, inspect_name_full.
Qed.

(** The route a block conversion for [name] inspects besides the operation's. *)
Definition other_route (op : Operation) (name : Name) : ExpectedRoute :=
  match listening_route op with RouteCommit => RouteName name | RouteName _ => RouteCommit end.

(** A carried publication is delivered. *)
Lemma carries_delivered network op d p runtime full :
  deployment_typed d → Operation_ok network op → prepare_publication op d = Ok p →
  carries full runtime d p →
  ∃ rendezvous, publication_rendezvous runtime p = inr rendezvous
    ∧ delivered full rendezvous d network op.
Proof.
  intros Hd Hop Hp (rendezvous & frames & envelope & Hr & Hi & Hz & Henv).
  apply prepare_publication_Ok in Hp as (id & route & enc & a & env & Hv & Hid & _ & He & Ha & Hnew & _ & _ & Hee & _).
  rewrite Hee in Henv. apply envelope_encode_inj in Henv as ->.
  apply envelope_new_inr in Hnew as [Hk Hpl]. exists rendezvous. split; [done|].
  exists frames, env, id, a. split_and!; try done. rewrite Hpl.
  apply decode_encodes; [by apply codec_parameters_ok|]. split; [done|]. by apply encode_encodes.
Qed.
End ReadBack.

(** C20: what is published is what is read.  When Core delivers the frames of a
    prepared publication at the publication's rendezvous, the inspection that
    listens on the operation's route decodes exactly the published operation, and
    a message with the same envelope at any other name's rendezvous, or an update
    at the public rendezvous, is refused as wrongly routed.  A transaction that
    is silent on the other route is converted with that operation. *)
Theorem publication_read_back `{Blake2b} `{Pallas} `{OrchardKeys} `{UnifiedAddress}
  `{CoppicePayload} `{CoppiceReplay} `{!CanonicalJson Manifest} (network : Network) (op : Operation)
  (d : DeploymentParameters) (p : PreparedPublication) (runtime : RuntimeParameters)
  (full : FullTransaction) :
  deployment_typed d → Operation_ok network op → runtime_core_id runtime = dp_core_runtime_id d →
  prepare_publication op d = Ok p → carries full runtime d p →
  inspect_on_route (listening_route op) full runtime d network = Ok (StatusOperation op)
  ∧ (∀ rendezvous route frames envelope,
      inspect_transaction_at_rendezvous full rendezvous (dp_core_runtime_id d) = (frames, Message envelope) →
      (∀ value, value ∈ frames → value = 0) → envelope_encode envelope = pp_encoded_envelope p →
      route ≠ listening_route op →
      inspect_validated full rendezvous d network route
        = Ok (E := TransportConfigurationError) (Rejected WrongRoute))
  ∧ (∀ t name, ct_full t = Some full →
      listening_route op = RouteCommit ∨ listening_route op = RouteName name →
      inspect_on_route (other_route op name) full runtime d network = Ok NoOperation →
      core_operation t runtime d network name = Ok (Some op)).
Proof.
  intros Hd Hop Hrt Hp Hc.
  destruct (carries_delivered network op d p runtime full Hd Hop Hp Hc) as (rendezvous & Hr & Hdel).
  pose proof (prepare_publication_Ok _ _ _ Hp) as (id & route & enc & a & env & Hv & Hid & Hroute & He & Ha & Hnew & _ & Epr & Hee & _).
  assert (inspect_on_route (listening_route op) full runtime d network = Ok (StatusOperation op)) as Hon.
  { pose proof (route_rendezvous op d id route rendezvous runtime p Hid Hroute Epr Hr) as Hrv.
    pose proof (on_listening_route op) as Hl. unfold inspect_on_route.
    destruct (listening_route op) as [|name] eqn:El.
    + unfold inspect_validated_commit_transaction. rewrite validate_runtime_same by done.
      cbn [res_bind]. rewrite <- Hrv. by apply inspect_validated_operation.
    + unfold inspect_validated_name_transaction. rewrite validate_runtime_same by done.
      cbn [res_bind]. rewrite Hrv. cbn [res_bind]. by apply inspect_validated_operation. }
  split; [exact Hon|]. split.
  - intros rv route' frames envelope Hi Hz Henv Hne. rewrite Hee in Henv.
    apply envelope_encode_inj in Henv as ->. apply envelope_new_inr in Hnew as [Hk Hpl].
    unfold inspect_validated. rewrite Hi. unfold classify_inspection.
    apply existsb_nonzero in Hz. rewrite Hz. unfold classify_envelope. rewrite Hid.
    unfold names_application_id. rewrite Ha. cbn [expect res_bind].
    rewrite bool_decide_false by (intros Hn; by apply Hn). rewrite Hpl.
    assert (decode enc network (codec_parameters d) = Ok op) as ->.
    { apply decode_encodes; [by apply codec_parameters_ok|]. split; [done|]. by apply encode_encodes. }
    destruct (on_expected_route op route') eqn:E; [|done]. destruct Hne.
    destruct op, route'; try done; apply bool_decide_eq_true in E as ->; done.
  - intros t name Hf Hname Hq. rewrite (core_operation_full t full) by done.
    unfold other_route in Hq. destruct Hname as [E|E]; rewrite E in Hon, Hq;
      rewrite Hon, Hq; by destruct op.
Qed.
