(* ===== verification/Routes.v ===== *)
(** * Replay by routes ([docs/SPECIFICATION.md], sections 5 and 11)

    A complete replay inspects every transaction at the generic route and at the
    route of every name; an exact resolver at the generic route and at its name's
    ([transport.rs], [inspect_exact_name_block]).  The specification requires both to
    resolve the name alike.  Here the block conversion of [Transport] is composed with
    the lockstep of the two replays. *)

From S2P Require Import Prelude Bytes BTree External Protocol Schedule Codec Records.
From S2P Require Import State Reducer Ledger Invariant Safety Ruleset Resolver Lockstep Snapshot.
From S2P Require Import Deployment Transport.

(** ** The complete conversion

    Section 5: exactly one correctly routed operation may survive the inspection of
    all routes. *)

Section Complete.
Context `{Blake2b} `{Pallas} `{OrchardKeys} `{UnifiedAddress} `{CoppiceReplay}
  `{!CanonicalJson Manifest}.
Context (runtime : RuntimeParameters) (deployment : DeploymentParameters) (network : Network).

(** A route with no message of this deployment. *)
Definition quiet (status : NamesTransportStatus) : bool :=
  match status with NoOperation | Rejected WrongApplication => true | _ => false end.

(** The statuses of the routes that are not quiet. *)
Definition busy (statuses : list NamesTransportStatus) : list NamesTransportStatus :=
  filter (λ s, negb (quiet s)) statuses.

Definition surviving (statuses : list NamesTransportStatus) : option Operation :=
  match busy statuses with [StatusOperation operation] => Some operation | _ => None end.

(** The statuses of a transaction at the generic route and the route of each name. *)
Definition route_statuses (names : list Name) (transaction : CoreTransaction)
  : res BlockTransportError (list NamesTransportStatus) :=
  map_err Configuration (
    let? commit := inspect_commit_transaction transaction runtime deployment network in
    let? named := res_mapM (inspect_name_transaction transaction runtime deployment network) names in
    Ok (commit :: named)).

Definition complete_operation (names : list Name) (transaction : CoreTransaction)
  : res BlockTransportError (option Operation) :=
  match ct_full transaction with
  | None => Ok None
  | Some _ => let? statuses := route_statuses names transaction in Ok (surviving statuses)
  end.

Definition complete_transaction (names : list Name) (transaction : CoreTransaction)
  : res BlockTransportError Transaction :=
  let? _ := check_effects transaction in
  let? actions := res_mapM core_action
                    (enumerate (zip (ct_nullifiers transaction) (ct_commitments transaction))) in
  let? operation := complete_operation names transaction in
  Ok (MkTransaction (ct_tx_index transaction) (ct_txid transaction) actions operation).

Definition complete_block (names : list Name) (block : CoreBlock) : res BlockTransportError Block :=
  let? _ := map_err Configuration (validate_runtime deployment runtime) in
  let? transactions := res_mapM (complete_transaction names) (cb_transactions block) in
  Ok (MkBlock (cb_height block) (cb_hash block) (cb_prev_hash block) transactions).

(** At most one route of the transaction is busy. *)
Definition unambiguous (names : list Name) (transaction : CoreTransaction) : Prop :=
  ∀ statuses, route_statuses names transaction = Ok statuses → (length (busy statuses) ≤ 1)%nat.

(** The rule of [select_single_operation] is that of a replay of one name. *)
Lemma select_is_surviving commit named :
  select_single_operation commit named = surviving [commit; named].
Proof. by destruct commit as [|[]|], named as [|[]|]. Qed.

Lemma core_operation_complete name transaction :
  core_operation transaction runtime deployment network name = complete_operation [name] transaction.
Proof.
  unfold core_operation, complete_operation, route_statuses. destruct (ct_full transaction); [|done].
  destruct (inspect_commit_transaction _ _ _ _) as [commit|e|]; [|done..]. cbn [map_err res_bind res_mapM].
  destruct (inspect_name_transaction _ _ _ _ _) as [named|e|]; [|done..]. cbn [map_err res_bind].
  by rewrite select_is_surviving.
Qed.

(** ** One name's part of the survivors *)

Lemma surviving_Some statuses op :
  surviving statuses = Some op ↔ busy statuses = [StatusOperation op].
Proof.
  unfold surviving. destruct (busy statuses) as [|[] []]; naive_solver.
Qed.

Lemma busy_cons s statuses :
  busy (s :: statuses) = if quiet s then busy statuses else s :: busy statuses.
Proof. unfold busy. rewrite filter_cons. by destruct (quiet s). Qed.

Lemma name_status_about t name op :
  inspect_name_transaction t runtime deployment network name = Ok (StatusOperation op) →
  on_expected_route op (RouteName name) = true.
Proof.
  intros (v & (-> & _)%validate_runtime_Ok & (rendezvous & _ & Hi)%res_bind_Ok)%res_bind_Ok.
  by apply inspect_authenticated_operation in Hi as (_ & _ & _ & Hr).
Qed.

Lemma commit_status_about t op :
  inspect_commit_transaction t runtime deployment network = Ok (StatusOperation op) →
  on_expected_route op RouteCommit = true.
Proof.
  intros (v & (-> & _)%validate_runtime_Ok & Hi)%res_bind_Ok.
  by apply inspect_authenticated_operation in Hi as (_ & _ & _ & Hr).
Qed.
Lemma busy_elem s statuses : s ∈ busy statuses ↔ s ∈ statuses ∧ quiet s = false.
Proof. unfold busy. rewrite list_elem_of_filter, negb_True, <- not_true_iff_false, Is_true_true. tauto. Qed.

Lemma busy_pair commit named : quiet commit = true → quiet named = true → busy [commit; named] = [].
Proof. intros Hc Hn. by rewrite !busy_cons, Hc, Hn. Qed.

(** What the name's two routes show of an unambiguous transaction: its operation,
    or nothing if the operation is about another name. *)
Lemma name_part names name t statuses :
  route_statuses names t = Ok statuses → (length (busy statuses) ≤ 1)%nat → name ∈ names →
  ∃ commit named,
    inspect_commit_transaction t runtime deployment network = Ok commit
    ∧ inspect_name_transaction t runtime deployment network name = Ok named
    ∧ (surviving [commit; named] = surviving statuses
       ∨ surviving [commit; named] = None
         ∧ ∀ op, surviving statuses = Some op →
             ∃ other, other ∈ names ∧ other ≠ name ∧ on_expected_route op (RouteName other) = true).
Proof.
  intros (commit & Hc & (sts & Hs%res_mapM_Ok & <-%Ok_inj)%res_bind_Ok)%map_err_Ok%res_bind_Ok Hl Hin.
  destruct (Forall2_in_l _ _ _ _ Hs Hin) as (named & Hn & En).
  exists commit, named. split; [done|]. split; [done|].
  unfold surviving at 1 2 3. rewrite busy_cons in Hl. rewrite !busy_cons.
  destruct (quiet commit) eqn:Qc; [destruct (quiet named) eqn:Qn|].
  - right. split; [done|]. intros op Hop%surviving_Some. rewrite busy_cons, Qc in Hop.
    assert (StatusOperation op ∈ busy sts) as [Ho _]%busy_elem by (rewrite Hop; by left).
    destruct (Forall2_in_r _ _ _ _ Hs Ho) as (other & Hother & Eo).
    exists other. split; [done|]. split; [congruence || by (intros ->; rewrite En in Eo; injection Eo as ->)|].
    by eapply name_status_about.
  - left. assert (named ∈ busy sts) as Hb by (by apply busy_elem).
    destruct (busy sts) as [|s [|s' l]]; [by apply not_elem_of_nil in Hb| |simpl in Hl; lia].
    by apply list_elem_of_singleton in Hb as ->.
  - left. destruct (busy sts) as [|s l] eqn:Eb; [|simpl in Hl; lia].
    destruct (quiet named) eqn:Qn; [done|].
    assert (named ∈ busy sts) as Hb by (by apply busy_elem). rewrite Eb in Hb. by apply not_elem_of_nil in Hb.
Qed.
End Complete.

(** ** The exact resolver's view *)

Section Views.
Context `{Blake2b} `{Pallas} `{OrchardKeys} `{UnifiedAddress} `{CoppiceReplay}
  `{!CanonicalJson Manifest}.
Context (runtime : RuntimeParameters) (deployment : DeploymentParameters) (network : Network).

(** The names of a complete replay: valid, and with distinct identifiers. *)
Record separate (names : list Name) : Prop := {
  se_ok name : name ∈ names → Name_ok name;
  se_inj m n i : m ∈ names → n ∈ names → Name_id m = Ok i → Name_id n = Ok i → m = n;
}.

Lemma irrelevant_silenced {E : Type} names name i tx op other :
  separate names → name ∈ names → Name_id name = Ok i →
  tx_operation tx = Some op → other ∈ names → other ≠ name →
  on_expected_route op (RouteName other) = true →
  filter_transaction (E := E) i tx = Ok (silenced tx).
Proof.
  intros Hs Hin Hi Hop Ho Hne Hr. unfold filter_transaction, relevant. rewrite Hop.
  assert (name_matches (E := E) i other = Ok false) as Hm.
  { unfold name_matches. pose proof (Name_id_no_panic other (se_ok _ Hs other Ho)).
    destruct (Name_id other) as [j|e|] eqn:Hj; [|done..]. f_equal. apply bool_decide_eq_false. intros ->.
    by apply Hne, (se_inj _ Hs other name i). }
  destruct op as [c|n ? ? ? ? ?|n ? ? ? ? ?]; [done|..]; apply bool_decide_eq_true in Hr as ->; by rewrite Hm.
Qed.

(** The name's conversion succeeds with the complete one, and the resolver's filter
    makes them the same. *)
Lemma core_transaction_filtered {E : Type} names name i t tx :
  separate names → name ∈ names → Name_id name = Ok i → unambiguous runtime deployment network names t →
  complete_transaction runtime deployment network names t = Ok tx →
  ∃ y, core_transaction runtime deployment network name t = Ok y
    ∧ filter_transaction (E := E) i y = filter_transaction i tx.
Proof.
  intros Hs Hin Hi Hu (? & He & (actions & Ha & (o & Ho & <-%Ok_inj)%res_bind_Ok)%res_bind_Ok)%res_bind_Ok.
  unfold core_transaction. rewrite He. cbn [res_bind]. rewrite Ha. cbn [res_bind].
  rewrite core_operation_complete. unfold complete_operation, core_operation in *.
  destruct (ct_full t) eqn:Hf; [|apply Ok_inj in Ho as <-; by eexists].
  apply res_bind_Ok in Ho as (statuses & Hst & <-%Ok_inj).
  destruct (name_part _ _ _ names name t statuses Hst (Hu _ Hst) Hin) as (commit & named & Hc & Hn & Hpart).
  unfold route_statuses. cbn [res_mapM]. rewrite Hc. cbn [res_bind]. rewrite Hn. cbn [res_bind map_err].
  eexists. split; [done|]. destruct Hpart as [->|[-> Hother]]; [done|].
  destruct (surviving statuses) as [op|] eqn:Eop; [|done].
  destruct (Hother op eq_refl) as (other & Ho & Hne & Hr).
  by rewrite (irrelevant_silenced names name i
    (MkTransaction (ct_tx_index t) (ct_txid t) actions (Some op)) op other).
Qed.

Lemma exact_block_filtered {E : Type} names name i core block :
  separate names → name ∈ names → Name_id name = Ok i →
  (∀ t, t ∈ cb_transactions core → unambiguous runtime deployment network names t) →
  complete_block runtime deployment network names core = Ok block →
  ∃ given, inspect_exact_name_block core runtime deployment network name = Ok given
    ∧ filter_block (E := E) i given = filter_block i block.
Proof.
  intros Hs Hin Hi Hu (v & Hv%map_err_Ok & (txs & Htx%res_mapM_Ok & <-%Ok_inj)%res_bind_Ok)%res_bind_Ok.
  unfold inspect_exact_name_block, inspect_exact_name_block_parts. rewrite Hv. cbn [map_err res_bind].
  pose proof Hv as (-> & _)%validate_runtime_Ok. unfold filter_block. cbn [bl_transactions].
  assert (∃ ys, res_mapM (core_transaction runtime deployment network name) (cb_transactions core) = Ok ys
    ∧ res_mapM (filter_transaction (E := E) i) ys = res_mapM (filter_transaction i) txs) as (ys & -> & Hys).
  { revert Hu. induction Htx as [|t tx ts txs Ht Htx IH]; intros Hu; [by exists []|].
    destruct IH as (ys & Hys & Hfs); [intros; apply Hu; by right|].
    destruct (core_transaction_filtered (E := E) names name i t tx Hs Hin Hi) as (y & Hy & Hf);
      [apply Hu; by left|done|].
    exists (y :: ys). cbn [res_mapM]. rewrite Hy. cbn [res_bind]. rewrite Hys. split; [done|].
    by rewrite Hf, Hfs. }
  eexists. split; [done|]. cbn [bl_transactions bl_height bl_hash bl_prev_hash]. by rewrite Hys.
Qed.

(** Only decoded operations survive. *)
Lemma complete_block_named names core block :
  deployment_typed deployment → (∀ name, name ∈ names → Name_ok name) →
  complete_block runtime deployment network names core = Ok block → block_named block.
Proof.
  intros Hd Hn (v & Hv%map_err_Ok & (txs & Htx%res_mapM_Ok & <-%Ok_inj)%res_bind_Ok)%res_bind_Ok.
  intros tx op Hin Hop. cbn [bl_transactions] in Hin.
  destruct (Forall2_in_r _ _ _ _ Htx Hin) as (t & _ & Ht).
  apply res_bind_Ok in Ht as (? & _ & (? & _ & (o & Ho & <-%Ok_inj)%res_bind_Ok)%res_bind_Ok).
  cbn [tx_operation] in Hop. subst o. unfold complete_operation in Ho. destruct (ct_full t); [|done].
  apply res_bind_Ok in Ho as (statuses & Hst & Hs%Ok_inj%surviving_Some).
  assert (StatusOperation op ∈ busy statuses) as [Hop _]%busy_elem by (rewrite Hs; by left).
  unfold route_statuses in Hst.
  apply map_err_Ok, res_bind_Ok in Hst as (commit & Hc & (sts & Hsts%res_mapM_Ok & <-%Ok_inj)%res_bind_Ok).
  apply elem_of_cons in Hop as [<-|Hop].
  - apply commit_status_about in Hc. by destruct op.
  - destruct (Forall2_in_r _ _ _ _ Hsts Hop) as (name & Hname & Hst%name_status_about).
    destruct op; simpl in *; [done|..]; apply bool_decide_eq_true in Hst as ->; by apply Hn.
Qed.
End Views.

(** ** Hosts

    A host of either replay: it converts each block it is given, and applies it. *)

Inductive HostCall `{CoppiceReplay} :=
  | HostBlock (core : CoreBlock) (referenced_commits : list ReferencedCommit)
  | HostRollback (expected_hash : list byte)
  | HostFinalize (height : Z).

Section Hosts.
Context `{Blake2b} `{Pallas} `{OrchardKeys} `{UnifiedAddress} `{CoppiceReplay}
  `{!CanonicalJson Manifest}.
Context {V : Type} `{!ProofVerifier V}.
Context (runtime : RuntimeParameters) (deployment : DeploymentParameters) (network : Network).

Definition host_call (convert : CoreBlock → res BlockTransportError Block) (c : HostCall)
  : res BlockTransportError Call :=
  match c with
  | HostBlock core refs => let? block := convert core in Ok (CallApply block refs)
  | HostRollback hash => Ok (CallRollback hash)
  | HostFinalize height => Ok (CallFinalize height)
  end.

Definition complete_host (names : list Name) : list HostCall → res BlockTransportError (list Call) :=
  res_mapM (host_call (complete_block runtime deployment network names)).
Definition exact_host (name : Name) : list HostCall → res BlockTransportError (list Call) :=
  res_mapM (host_call (λ core, inspect_exact_name_block core runtime deployment network name)).

(** What the host must know of its input: no transaction is ambiguous, and the
    evidence of a block is about the name. *)
Definition host_unambiguous (names : list Name) (c : HostCall) : Prop :=
  match c with
  | HostBlock core _ =>
      ∀ t, t ∈ cb_transactions core → unambiguous runtime deployment network names t
  | _ => True
  end.
Definition call_evidence (i : NameId) (c : Call) : Prop :=
  match c with CallApply block refs => shared_evidence i block refs | _ => True end.

Lemma exact_apply_filtered block given refs (x : ExactResolver V) :
  filter_block (E := ApplyError) (er_name_id x) given = filter_block (er_name_id x) block →
  exact_apply_block_detailed given refs x = exact_apply_block_detailed block refs x.
Proof. intros Hf. unfold exact_apply_block_detailed, sbind, mget, mlift. by rewrite Hf. Qed.

Lemma exact_call_id c (x : ExactResolver V) : er_name_id (exact_call c x).2 = er_name_id x.
Proof.
  destruct c; cbn [exact_call]; unfold answered; cbn [snd];
    unfold exact_rollback_tip, exact_finalize_through, exact_apply_block_detailed, sbind, mget, mlift;
    try destruct (filter_block _ _); rewrite ?delegate_eq; done.
Qed.

(** The two hosts make calls that the resolver does not distinguish. *)
Lemma exact_host_calls names name i host l :
  separate names → name ∈ names → Name_id name = Ok i → Forall (host_unambiguous names) host →
  complete_host names host = Ok l →
  ∃ given, exact_host name host = Ok given
    ∧ ∀ x : ExactResolver V, er_name_id x = i → calls exact_call given x = calls exact_call l x.
Proof.
  intros Hs Hin Hi Hu Hl%res_mapM_Ok. revert Hu.
  induction Hl as [|h c host l Hc Hl IH]; intros Hu; [by exists []|].
  apply Forall_cons in Hu as [Hu Hus]. destruct (IH Hus) as (given & Hg & Heq).
  assert (∃ g, host_call (λ core, inspect_exact_name_block core runtime deployment network name) h = Ok g
    ∧ ∀ x : ExactResolver V, er_name_id x = i → exact_call g x = exact_call c x) as (g & Hgc & Hgx).
  { destruct h as [core refs|hash|height]; [|apply Ok_inj in Hc as <-; by eexists..].
    apply res_bind_Ok in Hc as (block & Hb & <-%Ok_inj).
    destruct (exact_block_filtered (E := ApplyError) _ _ _ names name i core block Hs Hin Hi Hu Hb)
      as (b & Hbe & Hf).
    cbn [host_call]. rewrite Hbe. eexists. split; [done|]. intros x <-. cbn [exact_call].
    by rewrite (exact_apply_filtered block b). }
  exists (g :: given). split; [by unfold exact_host in *; cbn [res_mapM]; rewrite Hgc; cbn [res_bind]; rewrite Hg|].
  intros x Hx. cbn [calls]. rewrite (Hgx x Hx). pose proof (exact_call_id c x) as Hid.
  destruct (exact_call c x) as [a x']. cbn [snd] in Hid. by rewrite Heq by congruence.
Qed.

Lemma complete_host_ok names i host l :
  deployment_typed deployment → separate names → complete_host names host = Ok l →
  Forall (call_evidence i) l → Forall (call_ok i) l.
Proof.
  intros Hd Hs Hl%res_mapM_Ok Hev. revert Hev.
  induction Hl as [|h c host l Hc Hl IH]; intros Hev; [done|].
  apply Forall_cons in Hev as [Hev Hevs].
  constructor; [|by apply IH]. destruct h as [core refs| |]; [|by apply Ok_inj in Hc as <-..].
  apply res_bind_Ok in Hc as (block & Hb & <-%Ok_inj). split; [|exact Hev].
  eapply complete_block_named; [done|apply Hs|exact Hb].
Qed.
End Hosts.

(** C19: exact replay of a name's routes is complete replay.  A host that inspects
    every transaction at the generic route and at the route of every name, and a host
    that inspects it at the generic route and at one name's, make the same calls:
    blocks, rollbacks and finalizations, accepted or refused.  If no transaction has
    messages on two of the routes, the conversion of the second host succeeds, its
    exact resolver gives the answers of the full reducer of the first, without a
    panic, and resolves the name alike. *)
Theorem routes_in_lockstep `{Blake2b} `{Pallas} `{OrchardKeys} `{UnifiedAddress}
  `{CoppiceReplay} `{!CanonicalJson Manifest} {V : Type} `{!ProofVerifier V}
  (runtime : RuntimeParameters) (deployment : DeploymentParameters) (network : Network)
  (p : Parameters) (hash : list byte) (v : V) (names : list Name) (name : Name)
  (r0 r : Reducer V) (x0 : ExactResolver V) (host : list HostCall) (l : list Call)
  (answers : list Answer) :
  Parameters_typed p → deployment_typed deployment → separate names → name ∈ names →
  new p hash v = Ok r0 → exact_new p hash name v = Ok x0 →
  Forall (host_unambiguous runtime deployment network names) host →
  complete_host runtime deployment network names host = Ok l →
  Forall (call_evidence (er_name_id x0)) l →
  calls full_call l r0 = (answers, r) →
  ∃ given x, exact_host runtime deployment network name host = Ok given
    ∧ calls exact_call given x0 = (answers, x)
    ∧ Panicked ∉ answers
    ∧ exact_tip x = tip r
    ∧ ∀ height, exact_resolve x height = resolve_authenticated r name height.
Proof.
  intros Hty Hd Hs Hin Hr0 Hx0 Hu Hl Hev Hc.
  pose proof (se_ok _ Hs name Hin) as Hn.
  destruct (lockstep_new p hash name v r0 x0 Hty Hn Hr0 Hx0) as [Hlk En].
  pose proof (fo_id _ _ (proj1 (lockstep_mirrors _ _ Hlk))) as Hi. rewrite En in Hi.
  destruct (exact_host_calls (V := V) _ _ _ names name _ host l Hs Hin Hi Hu Hl) as (given & Hg & Heq).
  pose proof (complete_host_ok _ _ _ names _ host l Hd Hs Hl Hev) as Hok.
  destruct (lockstep_calls l r0 x0 Hlk Hok) as (answers' & r' & s & Hr & Hx & Hlk' & Hp).
  rewrite Hc in Hr. injection Hr as <- <-.
  exists given, (with_reducer x0 s). destruct (lockstep_mirrors _ _ Hlk') as [Hf _].
  split_and!; [done|by rewrite Heq|done|apply Hf|].
  intros height. rewrite <- En. by apply (exact_resolve_agree r (with_reducer x0 s)).
Qed.
