(* ===== verification/Orchard.v ===== *)
(** * The Orchard crate, as the wallet calls it

    Keys, notes and the Names circuit of [orchard]: third-party code, one class
    each, with the documented behaviour the wallet relies on. *)

From S2P Require Import Prelude Bytes External.

(** [orchard::keys], [orchard::note], [orchard::Address] *)
Class OrchardNotes := {
  SpendingKey : Type;
  sk_from_bytes : list byte → option SpendingKey;
  sk_to_bytes : SpendingKey → list byte;
  (** [circuit::state_note_binding::v2::owner_commitment(sk).to_bytes()] *)
  sk_owner_commitment : SpendingKey → list byte;
  FullViewingKey : Type;
  fvk_of : SpendingKey → FullViewingKey;
  Address : Type;
  (** [fvk.address_at(index, Scope::External)] *)
  address_at : FullViewingKey → Z → Address;
  address_from_raw : list byte → option Address;
  Rho : Type;
  rho_from_bytes : list byte → option Rho;
  rho_to_bytes : Rho → list byte;
  RandomSeed : Type;
  seed_from_bytes : list byte → Rho → option RandomSeed;
  Note : Type;
  (** [Note::from_parts] of version 3 *)
  note_from_parts : Address → Z → Rho → RandomSeed → option Note;
  note_value : Note → Z;
  note_rho : Note → Rho;
  (** [ExtractedNoteCommitment::from(note.commitment()).to_bytes()] *)
  note_commitment : Note → list byte;
  (** [note.nullifier(fvk).to_bytes()] *)
  note_nullifier : Note → FullViewingKey → list byte;
}.

(** A note has the value and the nullifier seed it is made from, and a seed the
    encoding it is read from. *)
Class OrchardNotesLaws `{OrchardNotes} := {
  note_from_parts_Some address value rho seed note :
    note_from_parts address value rho seed = Some note → note_value note = value ∧ note_rho note = rho;
  rho_to_from_bytes b rho : rho_from_bytes b = Some rho → rho_to_bytes rho = b;
}.

(** [orchard::circuit::state_note_binding::v2] *)
Class OrchardCircuit `{OrchardNotes} := {
  CIRCUIT_K : Z;
  REVEAL_PROOF_BYTES : Z;
  REFRESH_PROOF_BYTES : Z;
  ProvingKeys : Type;
  VerifyingKeys : Type;
  circuit_keygen : ProvingKeys * VerifyingKeys;
  reveal_fingerprint : VerifyingKeys → list byte;
  refresh_fingerprint : VerifyingKeys → list byte;
  StatementDigest : Type;
  digest_from_bytes : list byte → option StatementDigest;
  TranscriptField : Type;
  transcript_from_bytes : list byte → option TranscriptField;
  CommitSecret : Type;
  secret_from_bytes : list byte → option CommitSecret;
  Rng : Type;
  ProvingError : Type;
  circuit_prove_reveal : ProvingKeys → Note * SpendingKey * CommitSecret * list TranscriptField →
    StatementDigest → Rng → ProvingError + list byte;
  circuit_prove_refresh : ProvingKeys → Note * Note * SpendingKey * list TranscriptField →
    StatementDigest → Rng → ProvingError + list byte;
  circuit_verify_reveal : VerifyingKeys → list byte → StatementDigest → bool;
  circuit_verify_refresh : VerifyingKeys → list byte → StatementDigest → bool;
}.

(** The encodings of field elements are the canonical ones. *)
Class OrchardCircuitLaws `{Pallas} `{OrchardCircuit} := {
  digest_from_repr x : is_Some (digest_from_bytes (to_repr x));
  transcript_from_repr x : is_Some (transcript_from_bytes (to_repr x));
}.
