(* ===== verification/Pczt.v ===== *)
(** * The Orchard builder and the PCZT roles, as the wallet calls them

    Third-party code: the bundle builder of [orchard], the roles of [pczt], the
    extracted transaction and the ZIP-317 fee rule, one class each.  Nothing is
    assumed of what a role does: the wallet checks it. *)

From S2P Require Import Prelude Bytes Orchard.

(** [orchard::builder] and [orchard::pczt::Bundle].  A [None] is an error whose
    cause is dropped. *)
Class OrchardBuilder `{OrchardNotes} := {
  OutgoingViewingKey : Type;
  (** [BundleType::UNPADDED.num_actions(Flags::ENABLED, spends, outputs)] *)
  num_actions : Z → Z → option Z;
  Builder : Type;
  (** [Builder::new_with_anchor_deferred(UNPADDED, ironwood_v3, ENABLED, V6)] *)
  builder_new : option Builder;
  add_spend_unwitnessed : Builder → FullViewingKey → Note → option Builder;
  add_output_note : Builder → option OutgoingViewingKey → Note → list byte → option Builder;
  add_output : Builder → option OutgoingViewingKey → Address → Z → list byte → option Builder;
  add_change_output :
    Builder → FullViewingKey → option OutgoingViewingKey → Address → Z → list byte → option Builder;
  value_balance : Builder → option Z;
  OrchardBundle : Type;
  (** The nullifier and the extracted commitment of each action. *)
  bundle_actions : OrchardBundle → list (list byte * list byte);
  BundleMetadata : Type;
  spend_action_index : BundleMetadata → Z → option Z;
  output_action_index : BundleMetadata → Z → option Z;
  BuilderRng : Type;
  build_for_pczt : Builder → BuilderRng → option (OrchardBundle * BundleMetadata);
  (** With the [spend_index], [output_index] and [action_index] of the pair. *)
  build_for_pczt_with_action_pair :
    Builder → BuilderRng → Z → Z → Z → option (OrchardBundle * BundleMetadata);
}.

(** [pczt::Pczt], its Ironwood bundle by its accessors, and the roles. *)
Class PcztRoles `{OrchardBuilder} := {
  ConsensusParameters : Type;
  BranchId : Type;
  BranchId_eq_dec :: EqDecision BranchId;
  Nu6_3 : BranchId;
  Anchor : Type;
  Anchor_eq_dec :: EqDecision Anchor;
  anchor_bytes : Anchor → list byte;
  MerklePath : Type;
  (** [(path.position(), path.auth_path().map(to_bytes))] *)
  path_witness : MerklePath → Z * list (list byte);
  SpendAuthorizingKey : Type;
  CircuitProvingKey : Type;
  Pczt : Type;
  PcztAction : Type;
  pczt_actions : Pczt → list PcztAction;
  pa_nullifier : PcztAction → list byte;
  pa_cmx : PcztAction → option (list byte);
  pa_witness : PcztAction → option (Z * list (list byte));
  pa_spend_auth_sig : PcztAction → option (list byte);
  value_sum : Pczt → Z * bool;
  pczt_anchor : Pczt → option (list byte);
  zkproof : Pczt → option (list byte);
  inputs_modifiable : Pczt → bool;
  outputs_modifiable : Pczt → bool;
  shielded_modifiable : Pczt → bool;
  (** [Creator::build_from_parts] of a V6 transaction with only an Ironwood
      bundle: parameters, branch, lock time and expiry height. *)
  build_from_parts : ConsensusParameters → BranchId → Z → Z → OrchardBundle → option Pczt;
  (** [IoFinalizer::new(pczt).finalize_io()] *)
  finalize_io : Pczt → option Pczt;
  Updater : Type;
  updater_new : Pczt → Updater;
  set_ironwood_anchor : Updater → Anchor → option Updater;
  set_ironwood_spend_witnesses : Updater → list (Z * MerklePath) → option Updater;
  updater_finish : Updater → Pczt;
  Prover : Type;
  prover_new : Pczt → Prover;
  create_ironwood_proof : Prover → CircuitProvingKey → option Prover;
  prover_finish : Prover → Pczt;
  Signer : Type;
  signer_new : Pczt → option Signer;
  (** The signer it leaves; the code returns at an error. *)
  sign_ironwood : Signer → Z → SpendAuthorizingKey → option Signer;
  signer_finish : Signer → Pczt;
}.

(** [zcash_primitives::transaction]: the extracted transaction and its Ironwood
    bundle, and the fee rule. *)
Class ConsensusTransactions `{PcztRoles} := {
  ConsensusTransaction : Type;
  (** [TransactionExtractor::new(pczt).extract()] *)
  tx_extract : Pczt → option ConsensusTransaction;
  (** [transaction.version() == V6] *)
  tx_is_v6 : ConsensusTransaction → bool;
  TransactionId : Type;
  tx_id : ConsensusTransaction → TransactionId;
  (** [transaction.write(..)] *)
  tx_write : ConsensusTransaction → option (list byte);
  IronwoodBundle : Type;
  ironwood_bundle : ConsensusTransaction → option IronwoodBundle;
  ib_actions : IronwoodBundle → list (list byte * list byte);
  ib_value_balance : IronwoodBundle → Z;
  ib_anchor : IronwoodBundle → Anchor;
  ib_proof : IronwoodBundle → list byte;
  (** [StandardFeeRule::Zip317.fee_required(params, height, transparent inputs,
      transparent outputs, sapling inputs, sapling outputs, orchard, ironwood)] *)
  fee_required : ConsensusParameters → Z → list Z → list Z → Z → Z → Z → Z → option Z;
}.
