(* ===== verification/Builder.v ===== *)
(** * Construction of the Ironwood PCZT of a Names operation
    ([crates/coppice-names-wallet/src/builder.rs])

    The stages from a plan to an extracted transaction, each of which checks what
    the third-party role it calls has done, and the ordinary spend that releases a
    bond.  An [anyhow] error is its outermost message. *)

From S2P Require Import Prelude Bytes External Protocol Orchard Pczt.

(** ** Plans *)

Record CarrierOutput `{OrchardNotes} := MkCarrierOutput {
  car_recipient : Address;
  car_value : Z;
  car_memo : list byte;
}.

Record FundingSpend `{OrchardNotes} := MkFundingSpend {
  fs_fvk : FullViewingKey;
  fs_note : Note;
}.

Record ChangeOutput `{OrchardBuilder} := MkChangeOutput {
  chg_fvk : FullViewingKey;
  chg_ovk : option OutgoingViewingKey;
  chg_recipient : Address;
  chg_value : Z;
  chg_memo : list byte;
}.

Record NamesIronwoodPlan `{OrchardBuilder} := MkNamesIronwoodPlan {
  pl_designated_fvk : FullViewingKey;
  pl_designated_spend : Note;
  pl_successor_note : Note;
  pl_successor_ovk : option OutgoingViewingKey;
  pl_successor_memo : list byte;
  pl_carrier_outputs : list CarrierOutput;
  pl_funding_spends : list FundingSpend;
  pl_change_outputs : list ChangeOutput;
  pl_designated_action_index : Z;
  pl_operation_height : Z;
}.

Record NamesIronwoodShape := MkNamesIronwoodShape {
  real_spend_count : Z;
  requested_output_count : Z;
  carrier_output_count : Z;
  change_output_count : Z;
  action_count : Z;
}.

(** What every stage carries on: the designated pair, the shape and the value
    balance. *)
Record NamesMetadata := MkNamesMetadata {
  designated_action_index : Z;
  designated_nullifier : list byte;
  designated_commitment : list byte;
  shape : NamesIronwoodShape;
  ironwood_value_balance : Z;
}.

Record NamesBuiltBundle `{OrchardBuilder} := MkNamesBuiltBundle {
  bb_bundle : OrchardBundle;
  bb_metadata : NamesMetadata;
  bb_operation_height : Z;
}.

Record NamesPcztPlan `{PcztRoles} := MkNamesPcztPlan {
  pcp_ironwood : NamesBuiltBundle;
  pcp_params : ConsensusParameters;
  pcp_consensus_branch_id : BranchId;
  pcp_expiry_height : Z;
  pcp_fallback_lock_time : Z;
}.

Record NamesBuiltPczt `{PcztRoles} := MkNamesBuiltPczt {
  bp_pczt : Pczt;
  bp_metadata : NamesMetadata;
}.

Record NamesFinalizedPczt `{PcztRoles} := MkNamesFinalizedPczt {
  fp_pczt : Pczt;
  fp_metadata : NamesMetadata;
}.

Record NamesIronwoodWitness `{PcztRoles} := MkNamesIronwoodWitness {
  iw_nullifier : list byte;
  iw_merkle_path : MerklePath;
}.

Record NamesWitnessPlan `{PcztRoles} := MkNamesWitnessPlan {
  wpl_anchor : Anchor;
  wpl_spends : list NamesIronwoodWitness;
}.

Record NamesWitnessedPczt `{PcztRoles} := MkNamesWitnessedPczt {
  wp_pczt : Pczt;
  wp_anchor : Anchor;
  wp_witnessed_action_indices : list (list byte * Z);
  wp_metadata : NamesMetadata;
}.

Record NamesProvedPczt `{PcztRoles} := MkNamesProvedPczt {
  vp_pczt : Pczt;
  vp_anchor : Anchor;
  vp_witnessed_action_indices : list (list byte * Z);
  vp_metadata : NamesMetadata;
  vp_ironwood_proof_byte_len : Z;
}.

Record NamesIronwoodSigningKey `{PcztRoles} := MkNamesIronwoodSigningKey {
  sk_nullifier : list byte;
  sk_ask : SpendAuthorizingKey;
}.

Record NamesSigningPlan `{PcztRoles} := MkNamesSigningPlan {
  spl_spends : list NamesIronwoodSigningKey;
}.

Record NamesSignedPczt `{PcztRoles} := MkNamesSignedPczt {
  sp_pczt : Pczt;
  sp_anchor : Anchor;
  sp_witnessed_action_indices : list (list byte * Z);
  sp_metadata : NamesMetadata;
  sp_ironwood_proof_byte_len : Z;
}.

Record NamesExtractedTransaction `{ConsensusTransactions} := MkNamesExtractedTransaction {
  xt_transaction : ConsensusTransaction;
  xt_txid : TransactionId;
  xt_consensus_tx_size : Z;
  xt_anchor : Anchor;
  xt_metadata : NamesMetadata;
  xt_ironwood_proof_byte_len : Z;
  xt_ironwood_spend_authorization_count : Z;
  xt_ironwood_binding_signature_present : bool;
}.

Record OrdinaryIronwoodSpendPlan `{PcztRoles} := MkOrdinaryIronwoodSpendPlan {
  os_params : ConsensusParameters;
  os_consensus_branch_id : BranchId;
  os_expiry_height : Z;
  os_fallback_lock_time : Z;
  os_anchor : Anchor;
  os_input_fvk : FullViewingKey;
  os_input_note : Note;
  os_input_witness : MerklePath;
  os_input_ask : SpendAuthorizingKey;
  os_output : ChangeOutput;
}.

Record OrdinaryIronwoodTransaction `{ConsensusTransactions} := MkOrdinaryIronwoodTransaction {
  ot_transaction : ConsensusTransaction;
  ot_txid : TransactionId;
  ot_consensus_tx_size : Z;
  ot_fee_zatoshi : Z;
}.

Record NamesSigningMetadata `{PcztRoles} := MkNamesSigningMetadata {
  sm_anchor : Anchor;
  sm_witnessed_action_indices : list (list byte * Z);
  sm_designated_action_index : Z;
  sm_designated_nullifier : list byte;
  sm_designated_commitment : list byte;
  sm_action_count : Z;
  sm_real_spend_count : Z;
  sm_ironwood_value_balance : Z;
}.

Arguments MkCarrierOutput {_}.
Arguments MkFundingSpend {_}.
Arguments MkChangeOutput {_ _}.
Arguments MkNamesIronwoodPlan {_ _}.
Arguments MkNamesBuiltBundle {_ _}.
Arguments MkNamesPcztPlan {_ _ _}.
Arguments MkNamesBuiltPczt {_ _ _}.
Arguments MkNamesFinalizedPczt {_ _ _}.
Arguments MkNamesIronwoodWitness {_ _ _}.
Arguments MkNamesWitnessPlan {_ _ _}.
Arguments MkNamesWitnessedPczt {_ _ _}.
Arguments MkNamesProvedPczt {_ _ _}.
Arguments MkNamesIronwoodSigningKey {_ _ _}.
Arguments MkNamesSigningPlan {_ _ _}.
Arguments MkNamesSignedPczt {_ _ _}.
Arguments MkNamesExtractedTransaction {_ _ _ _}.
Arguments MkOrdinaryIronwoodSpendPlan {_ _ _}.
Arguments MkOrdinaryIronwoodTransaction {_ _ _ _}.
Arguments MkNamesSigningMetadata {_ _ _}.

#[global] Instance NamesIronwoodShape_eq_dec : EqDecision NamesIronwoodShape.
Proof. solve_decision. Defined.
#[global] Instance NamesMetadata_eq_dec : EqDecision NamesMetadata.
Proof. solve_decision. Defined.

(** ** Checks *)

(** The ordered [(nullifier, commitment)] pairs of a bundle. *)
Notation layout := (list (list byte * list byte)) (only parsing).

(** [.filter(|(nf, cmx)| nf == nullifier && cmx == commitment).count()] *)
Definition matching_pairs (nullifier commitment : list byte) (l : layout) : Z :=
  Z.of_nat (length (filter (λ pair, pair = (nullifier, commitment)) l)).

Definition value_sum_parts (value_balance : Z) : res string (Z * bool) :=
  if value_balance <? 0 then
    let? magnitude := with_context (i64_checked_neg value_balance) "negative Ironwood value balance overflow" in
    let? magnitude := with_context (u64_try_from magnitude) "Ironwood value balance does not fit u64" in
    Ok (magnitude, true)
  else
    let? magnitude := with_context (u64_try_from value_balance) "Ironwood value balance does not fit u64" in
    Ok (magnitude, false).

Section Checks.
Context `{ConsensusTransactions}.

Definition action_pair_layout (bundle : OrchardBundle) : layout := bundle_actions bundle.

Definition embedded_action_layout (pczt : Pczt) : res string layout :=
  res_mapM (λ action,
    let? commitment := with_context (pa_cmx action) "embedded Ironwood action is missing its commitment" in
    Ok (pa_nullifier action, commitment)) (pczt_actions pczt).

Definition transaction_action_layout (transaction : ConsensusTransaction) : res string layout :=
  let? ironwood := with_context (ironwood_bundle transaction) "transaction has no Ironwood bundle" in
  Ok (ib_actions ironwood).

Definition serialize_consensus_transaction (transaction : ConsensusTransaction)
  : res string (list byte) :=
  with_context (tx_write transaction) "serialize consensus transaction".

Definition verify_designated_action (bundle : OrchardBundle) (action_index : Z)
  (expected_nullifier expected_commitment : list byte) : res string unit :=
  let? action := with_context (bundle_actions bundle !! Z.to_nat action_index)
                   "designated action index is outside the Ironwood bundle" in
  let? _ := ensures (bool_decide (action.1 = expected_nullifier))
              "designated action nullifier mismatch" in
  ensures (bool_decide (action.2 = expected_commitment)) "designated action commitment mismatch".

Definition verify_embedded_designated_action (pczt : Pczt) (action_index : Z)
  (expected_nullifier expected_commitment : list byte) : res string unit :=
  let? action := with_context (pczt_actions pczt !! Z.to_nat action_index)
                   "embedded designated action index is outside the Ironwood bundle" in
  let? _ := ensures (bool_decide (pa_nullifier action = expected_nullifier))
              "embedded designated action nullifier mismatch" in
  let? commitment := with_context (pa_cmx action)
                       "embedded designated action is missing its commitment" in
  let? _ := ensures (bool_decide (commitment = expected_commitment))
              "embedded designated action commitment mismatch" in
  let matching_actions := Z.of_nat (length (filter (λ action,
    pa_nullifier action = expected_nullifier ∧ pa_cmx action = Some expected_commitment)
    (pczt_actions pczt))) in
  ensures (matching_actions =? 1) "embedded designated NF/CMX pair is not unique".

(** [pczt.ironwood().actions()[action_index]] *)
Definition action_at (pczt : Pczt) (action_index : Z) : res string PcztAction :=
  expect (pczt_actions pczt !! Z.to_nat action_index).

Definition action_len (pczt : Pczt) : Z := Z.of_nat (length (pczt_actions pczt)).

(** The signatures already there: [(index, signature)]. *)
Definition dummy_signatures (pczt : Pczt) : list (Z * list byte) :=
  omap (λ '(action_index, action), pair action_index <$> pa_spend_auth_sig action)
    (enumerate (pczt_actions pczt)).

(** The loop that ends [prove] and [sign]: they are unchanged. *)
Definition check_dummy_signatures (pczt : Pczt) (signatures : list (Z * list byte)) (message : string)
  : res string unit :=
  res_fold (λ _ '(action_index, expected_signature),
    let? action := action_at pczt action_index in
    ensures (bool_decide (pa_spend_auth_sig action = Some expected_signature)) message) tt signatures.
End Checks.

(** ** Shape and fee *)

Section Shapes.
Context `{ConsensusTransactions}.

Definition names_ironwood_shape_from_counts
  (real_spend_count carrier_output_count change_output_count designated_action_index : Z)
  : res string NamesIronwoodShape :=
  let? _ := ensures (0 <? real_spend_count) "Names bundle must contain a designated real spend" in
  let? requested_output_count :=
    with_context (count ← usize_checked_add 1 carrier_output_count;
                  usize_checked_add count change_output_count)
      "Names requested-output count overflowed usize" in
  let? action_count := with_context (num_actions real_spend_count requested_output_count)
                         "compute Names Ironwood action count" in
  let? _ := ensures (designated_action_index <? action_count)
              "designated Names action index is outside the planned Ironwood shape" in
  Ok (MkNamesIronwoodShape real_spend_count requested_output_count carrier_output_count
        change_output_count action_count).

Definition names_ironwood_shape (plan : NamesIronwoodPlan) : res string NamesIronwoodShape :=
  let? real_spend_count :=
    with_context (usize_checked_add 1 (Z.of_nat (length (pl_funding_spends plan))))
      "Names real-spend count overflowed usize" in
  names_ironwood_shape_from_counts real_spend_count (Z.of_nat (length (pl_carrier_outputs plan)))
    (Z.of_nat (length (pl_change_outputs plan))) (pl_designated_action_index plan).

Definition required_zip317_fee_for_names (params : ConsensusParameters) (target_height : Z)
  (shape : NamesIronwoodShape) : res string Z :=
  with_context (fee_required params target_height [] [] 0 0 0 (action_count shape))
    "compute ZIP-317 Names fee".
End Shapes.

(** ** The stages *)

Section Stages.
Context `{ConsensusTransactions}.

(** The builder of [build_names_bundle] with every spend and output added. *)
Definition planned_builder (plan : NamesIronwoodPlan) : res string Builder :=
  let? builder := with_context builder_new "create deferred-anchor Ironwood builder" in
  let? builder := with_context
    (add_spend_unwitnessed builder (pl_designated_fvk plan) (pl_designated_spend plan))
    "add designated Names spend" in
  let? builder := res_fold (λ builder funding,
    with_context (add_spend_unwitnessed builder (fs_fvk funding) (fs_note funding))
      "add Ironwood funding spend") builder (pl_funding_spends plan) in
  let? builder := with_context
    (add_output_note builder (pl_successor_ovk plan) (pl_successor_note plan) (pl_successor_memo plan))
    "add exact Names successor note" in
  let? builder := res_fold (λ builder carrier,
    with_context (add_output builder None (car_recipient carrier) (car_value carrier) (car_memo carrier))
      "add CPCF carrier output") builder (pl_carrier_outputs plan) in
  res_fold (λ builder change,
    with_context (add_change_output builder (chg_fvk change) (chg_ovk change) (chg_recipient change)
               (chg_value change) (chg_memo change))
      "add Ironwood change output") builder (pl_change_outputs plan).

Definition build_names_bundle (plan : NamesIronwoodPlan) (rng : BuilderRng)
  : res string NamesBuiltBundle :=
  let? shape := names_ironwood_shape plan in
  let? _ := ensures (note_value (pl_designated_spend plan) =? BOND_ZATOSHIS)
              "designated Names input is not exactly the one-ZEC bond" in
  let? _ := ensures (note_value (pl_successor_note plan) =? BOND_ZATOSHIS)
              "Names successor is not exactly the one-ZEC bond" in
  let? _ := ensures (forallb (λ carrier, car_value carrier =? 0) (pl_carrier_outputs plan))
              "Names carrier outputs must be zero value" in
  let designated_nullifier := note_nullifier (pl_designated_spend plan) (pl_designated_fvk plan) in
  let designated_commitment := note_commitment (pl_successor_note plan) in
  let? _ := ensures (bool_decide
                (rho_to_bytes (note_rho (pl_successor_note plan)) = designated_nullifier))
              "successor rho does not derive from the designated input nullifier" in
  let? builder := planned_builder plan in
  let? ironwood_value_balance := with_context (value_balance builder) "compute Ironwood value balance" in
  let index := pl_designated_action_index plan in
  let? (bundle, metadata) := with_context (build_for_pczt_with_action_pair builder rng 0 0 index)
                               "build designated-pair Ironwood PCZT bundle" in
  let? _ := ensures (bool_decide (spend_action_index metadata 0 = Some index)
                     && bool_decide (output_action_index metadata 0 = Some index))
              "builder metadata did not preserve the designated pair" in
  let? _ := verify_designated_action bundle index designated_nullifier designated_commitment in
  let matching_actions :=
    matching_pairs designated_nullifier designated_commitment (bundle_actions bundle) in
  let? _ := ensures (matching_actions =? 1) "designated NF/CMX pair is not unique" in
  let count := Z.of_nat (length (bundle_actions bundle)) in
  let? _ := ensures (count =? action_count shape)
              "built Ironwood action count differs from the planned shape" in
  Ok (MkNamesBuiltBundle bundle
        (MkNamesMetadata index designated_nullifier designated_commitment
           (MkNamesIronwoodShape (real_spend_count shape) (requested_output_count shape)
              (carrier_output_count shape) (change_output_count shape) count)
           ironwood_value_balance)
        (pl_operation_height plan)).

(** [ensure!] that the value sum is the [value_sum_parts(balance)?]. *)
Definition check_value_sum (pczt : Pczt) (balance : Z) (message : string) : res string unit :=
  let? expected := value_sum_parts balance in
  ensures (bool_decide (value_sum pczt = expected)) message.

(** [ensure!] that the [embedded_action_layout(&pczt)?] is the one before. *)
Definition check_layout (pczt : Pczt) (before : layout) (message : string) : res string unit :=
  let? after := embedded_action_layout pczt in
  ensures (bool_decide (after = before)) message.

Definition verify_metadata (pczt : Pczt) (m : NamesMetadata) : res string unit :=
  verify_embedded_designated_action pczt (designated_action_index m) (designated_nullifier m)
    (designated_commitment m).

Definition build_names_pczt (plan : NamesPcztPlan) : res string NamesBuiltPczt :=
  let ironwood := pcp_ironwood plan in
  let m := bb_metadata ironwood in
  let? _ := ensures (bool_decide (pcp_consensus_branch_id plan = Nu6_3))
              "Names Ironwood PCZT requires the NU6.3 V6 consensus branch" in
  let? _ := ensures (bb_operation_height ironwood <=? pcp_expiry_height plan)
              "Names PCZT expiry height precedes the operation's declared height" in
  let? index := with_context (u32_try_from (designated_action_index m))
                  "convert designated Names action index to Names u32" in
  let source_action_layout := action_pair_layout (bb_bundle ironwood) in
  let? pczt := with_context
    (build_from_parts (pcp_params plan) (pcp_consensus_branch_id plan) (pcp_fallback_lock_time plan)
       (pcp_expiry_height plan) (bb_bundle ironwood))
    "V6 transaction parts are incompatible with PCZTs" in
  let m := MkNamesMetadata index (designated_nullifier m) (designated_commitment m) (shape m)
             (ironwood_value_balance m) in
  let? _ := verify_metadata pczt m in
  let? _ := check_layout pczt source_action_layout
              "Creator changed the Ironwood action ordering or NF/CMX fields" in
  let? _ := ensures (action_len pczt =? action_count (shape m))
              "embedded Ironwood action count changed" in
  let? _ := check_value_sum pczt (ironwood_value_balance m)
              "embedded Ironwood value balance changed" in
  Ok (MkNamesBuiltPczt pczt m).

Definition finalize_names_pczt_io (built : NamesBuiltPczt) : res string NamesFinalizedPczt :=
  let pczt := bp_pczt built in
  let m := bp_metadata built in
  let? before_action_layout := embedded_action_layout pczt in
  let before_action_count := action_len pczt in
  let? _ := ensures (before_action_count =? action_count (shape m))
              "pre-finalization Ironwood action count changed" in
  let? _ := check_value_sum pczt (ironwood_value_balance m)
              "pre-finalization Ironwood value balance changed" in
  let? pczt := with_context (finalize_io pczt) "finalize Names PCZT IO" in
  let? _ := ensures (action_len pczt =? before_action_count)
              "IO finalization changed the Ironwood action count" in
  let? _ := check_layout pczt before_action_layout
              "IO finalization changed the ordered Ironwood action layout" in
  let? _ := check_value_sum pczt (ironwood_value_balance m)
              "IO finalization changed the Ironwood value balance" in
  let? _ := ensures (negb (inputs_modifiable pczt) && negb (outputs_modifiable pczt)
                     && negb (shielded_modifiable pczt))
              "IO finalization left transaction effects modifiable" in
  let? _ := verify_metadata pczt m in
  Ok (MkNamesFinalizedPczt pczt m).
End Stages.

(** ** Witnesses *)

Section Witnesses.
Context `{ConsensusTransactions}.

(** The indices of the actions whose spends have no witness. *)
Definition unwitnessed_indices (pczt : Pczt) : list Z :=
  (filter (λ '(_, action), pa_witness action = None) (enumerate (pczt_actions pczt))).*1.

(** [(index, witness, signature)] of the actions that have a witness. *)
Definition dummy_state (pczt : Pczt) : list (Z * (Z * list (list byte)) * option (list byte)) :=
  omap (λ '(index, action), witness ← pa_witness action;
                            Some (index, witness, pa_spend_auth_sig action))
    (enumerate (pczt_actions pczt)).

(** One iteration over the witnesses of the plan: [updater_witnesses],
    [expected_witnesses] and [witnessed_action_indices]. *)
Definition resolve_witness (pczt : Pczt)
  (st : list (Z * MerklePath) * list (Z * (Z * list (list byte))) * list (list byte * Z))
  (witness : NamesIronwoodWitness)
  : res string (list (Z * MerklePath) * list (Z * (Z * list (list byte))) * list (list byte * Z)) :=
  let '(updater_witnesses, expected_witnesses, witnessed_action_indices) := st in
  match filter (λ '(_, action), pa_nullifier action = iw_nullifier witness)
          (enumerate (pczt_actions pczt)) with
  | [] => Err "Ironwood witness nullifier is absent from the PCZT"%string
  | (action_index, action) :: matching_actions =>
      let? _ := ensures (bool_decide (matching_actions = []))
                  "Ironwood witness nullifier occurs more than once in the PCZT" in
      let? _ := ensures (bool_decide (pa_witness action = None))
                  "Ironwood witness target already has a witness (or is a padding spend)" in
      let? _ := ensures (negb (existsb (λ '(_, resolved_index), resolved_index =? action_index)
                                 witnessed_action_indices))
                  "witness plan contains duplicate Ironwood spend targets" in
      Ok (updater_witnesses ++ [(action_index, iw_merkle_path witness)],
          expected_witnesses ++ [(action_index, path_witness (iw_merkle_path witness))],
          witnessed_action_indices ++ [(iw_nullifier witness, action_index)])
  end.

(** The checks of the updated PCZT, action by action. *)
Definition check_installed (pczt : Pczt) (expected : list (Z * (Z * list (list byte))))
  : res string unit :=
  res_fold (λ _ '(action_index, expected_witness),
    let? action := action_at pczt action_index in
    ensures (bool_decide (pa_witness action = Some expected_witness))
      "Updater did not install the expected Ironwood witness") tt expected.

Definition check_dummies (pczt : Pczt)
  (dummies : list (Z * (Z * list (list byte)) * option (list byte))) : res string unit :=
  res_fold (λ _ '(action_index, expected_witness, expected_signature),
    let? action := action_at pczt action_index in
    let? _ := ensures (bool_decide (pa_witness action = Some expected_witness))
                "Updater changed a dummy Ironwood witness" in
    ensures (bool_decide (pa_spend_auth_sig action = expected_signature))
      "Updater changed a dummy Ironwood spend signature") tt dummies.

Definition install_names_ironwood_witnesses (finalized : NamesFinalizedPczt) (plan : NamesWitnessPlan)
  : res string NamesWitnessedPczt :=
  let pczt := fp_pczt finalized in
  let m := fp_metadata finalized in
  let anchor := wpl_anchor plan in
  let spends := wpl_spends plan in
  let? before_action_layout := embedded_action_layout pczt in
  let before_action_count := action_len pczt in
  let? _ := ensures (before_action_count =? action_count (shape m))
              "pre-update Ironwood action count changed" in
  let? _ := check_value_sum pczt (ironwood_value_balance m)
              "pre-update Ironwood value balance changed" in
  let real_action_indices := unwitnessed_indices pczt in
  let? _ := ensures (Z.of_nat (length real_action_indices) =? real_spend_count (shape m))
              "unexpected number of unwitnessed real Ironwood spends" in
  let? _ := ensures (length spends =? length real_action_indices)%nat
              "witness plan does not cover exactly the real Ironwood spends" in
  let dummies := dummy_state pczt in
  let? (updater_witnesses, expected_witnesses, witnessed_action_indices) :=
    res_fold (resolve_witness pczt) ([], [], []) spends in
  let resolved_action_indices := merge_sort (≤) witnessed_action_indices.*2 in
  let? _ := ensures (bool_decide (resolved_action_indices = real_action_indices))
              "witness plan did not resolve exactly the real Ironwood spends" in
  let? updater := with_context (set_ironwood_anchor (updater_new pczt) anchor)
                    "set Names Ironwood anchor" in
  let? updater := with_context (set_ironwood_spend_witnesses updater updater_witnesses)
                    "set Names Ironwood spend witnesses" in
  let pczt := updater_finish updater in
  let expected_anchor := anchor_bytes anchor in
  let? _ := ensures (bool_decide (pczt_anchor pczt = Some expected_anchor))
              "Updater did not install the requested Ironwood anchor" in
  let? _ := ensures (action_len pczt =? before_action_count)
              "Updater changed the Ironwood action count" in
  let? _ := check_layout pczt before_action_layout
              "Updater changed the ordered Ironwood action layout" in
  let? _ := check_value_sum pczt (ironwood_value_balance m)
              "Updater changed the Ironwood value balance" in
  let? _ := verify_metadata pczt m in
  let? _ := check_installed pczt expected_witnesses in
  let? _ := check_dummies pczt dummies in
  Ok (MkNamesWitnessedPczt pczt anchor witnessed_action_indices m).
End Witnesses.

(** ** The proof *)

(** [.windows(2).all(|w| w[0] != w[1])] *)
Fixpoint adjacent_distinct (l : list Z) : bool :=
  match l with
  | a :: (b :: _) as rest => negb (a =? b) && adjacent_distinct rest
  | _ => true
  end.

Section Proving.
Context `{ConsensusTransactions}.

(** The loop over the real spends before and after the prover: witnessed, and
    not signed. *)
Definition check_unsigned (pczt : Pczt) (indices : list Z) (no_witness signed : string)
  : res string unit :=
  res_fold (λ _ action_index,
    let? action := action_at pczt action_index in
    let? _ := ensures (bool_decide (pa_witness action ≠ None)) no_witness in
    ensures (bool_decide (pa_spend_auth_sig action = None)) signed) tt indices.

Definition proof_len (pczt : Pczt) : option Z := (λ proof, Z.of_nat (length proof)) <$> zkproof pczt.

Definition prove_names_ironwood_pczt (witnessed : NamesWitnessedPczt) (proving_key : CircuitProvingKey)
  : res string NamesProvedPczt :=
  let pczt := wp_pczt witnessed in
  let m := wp_metadata witnessed in
  let? before_action_layout := embedded_action_layout pczt in
  let before_action_count := action_len pczt in
  let before_value_balance := value_sum pczt in
  let expected_anchor := anchor_bytes (wp_anchor witnessed) in
  let? _ := ensures (bool_decide (zkproof pczt = None)) "Ironwood proof is already present" in
  let? _ := ensures (bool_decide (pczt_anchor pczt = Some expected_anchor))
              "witnessed PCZT anchor does not match the expected anchor" in
  let? _ := ensures (before_action_count =? action_count (shape m))
              "pre-proof Ironwood action count changed" in
  let? _ := check_value_sum pczt (ironwood_value_balance m)
              "pre-proof Ironwood value balance changed" in
  let? _ := verify_metadata pczt m in
  let real_action_indices := (wp_witnessed_action_indices witnessed).*2 in
  let? _ := ensures (Z.of_nat (length real_action_indices) =? real_spend_count (shape m))
              "witness metadata does not cover exactly the real Ironwood spends" in
  let real_action_indices := merge_sort (≤) real_action_indices in
  let? _ := ensures (adjacent_distinct real_action_indices)
              "witness metadata contains duplicate real Ironwood spends" in
  let? _ := check_unsigned pczt real_action_indices
              "a real Ironwood spend is missing its witness before proving"
              "a real Ironwood spend is already signed before proving" in
  let dummies := dummy_signatures pczt in
  let? dummy_count := with_context (usize_checked_sub (action_count (shape m)) (real_spend_count (shape m)))
                        "real spend count exceeds Ironwood action count" in
  let? _ := ensures (Z.of_nat (length dummies) =? dummy_count)
              "unexpected number of pre-existing dummy Ironwood signatures" in
  let? prover := with_context (create_ironwood_proof (prover_new pczt) proving_key)
                   "create Names Ironwood proof" in
  let pczt := prover_finish prover in
  let? proof_byte_len := with_context (proof_len pczt) "Prover returned no Ironwood proof" in
  let? _ := ensures (0 <? proof_byte_len) "Prover returned an empty Ironwood proof" in
  let? _ := ensures (action_len pczt =? before_action_count)
              "Prover changed the Ironwood action count" in
  let? _ := check_layout pczt before_action_layout
              "Prover changed the ordered Ironwood action layout" in
  let? _ := ensures (bool_decide (value_sum pczt = before_value_balance))
              "Prover changed the Ironwood value balance" in
  let? _ := ensures (bool_decide (pczt_anchor pczt = Some expected_anchor))
              "Prover changed the Ironwood anchor" in
  let? _ := verify_metadata pczt m in
  let? _ := check_unsigned pczt real_action_indices
              "Prover removed a real Ironwood spend witness"
              "Prover signed a real Ironwood spend" in
  let? _ := check_dummy_signatures pczt dummies "Prover changed a dummy Ironwood spend signature" in
  Ok (MkNamesProvedPczt pczt (wp_anchor witnessed) (wp_witnessed_action_indices witnessed) m
        proof_byte_len).
End Proving.

(** ** Signatures *)

Section Signing.
Context `{ConsensusTransactions}.

(** One iteration over the witness metadata: [witnessed_indices], with the
    earlier entries. *)
Definition check_witnessed (pczt : Pczt) (before_action_count : Z)
  (st : list (list byte) * list Z) (entry : list byte * Z) : res string (list (list byte) * list Z) :=
  let '(prior_nullifiers, witnessed_indices) := st in
  let '(nullifier, action_index) := entry in
  let? _ := ensures (action_index <? before_action_count)
              "witness metadata contains an invalid Ironwood action index" in
  let? _ := ensures (bool_decide (nullifier ∉ prior_nullifiers))
              "witness metadata contains duplicate real-spend nullifiers" in
  let? _ := ensures (bool_decide (action_index ∉ witnessed_indices))
              "witness metadata contains duplicate real-spend action indices" in
  let? action := action_at pczt action_index in
  let? _ := ensures (bool_decide (pa_nullifier action = nullifier))
              "witness metadata nullifier does not match its Ironwood action" in
  let? _ := ensures (bool_decide (pa_witness action ≠ None))
              "a real Ironwood spend is missing its witness before signing" in
  let? _ := ensures (bool_decide (pa_spend_auth_sig action = None))
              "a real Ironwood spend is already signed before signing" in
  Ok (prior_nullifiers ++ [nullifier], witnessed_indices ++ [action_index]).

(** One iteration over the signing plan: [signing_targets]. *)
Definition signing_target (pczt : Pczt) (witnessed_action_indices : list (list byte * Z))
  (signing_targets : list (Z * SpendAuthorizingKey)) (signing_key : NamesIronwoodSigningKey)
  : res string (list (Z * SpendAuthorizingKey)) :=
  match filter (λ entry, entry.1 = sk_nullifier signing_key) witnessed_action_indices with
  | [] => Err "signing nullifier is not one of the real witnessed Ironwood spends"%string
  | (_, action_index) :: matching_actions =>
      let? _ := ensures (bool_decide (matching_actions = []))
                  "signing nullifier maps to more than one witnessed Ironwood spend" in
      let? _ := ensures (negb (existsb (λ '(resolved_index, _), resolved_index =? action_index)
                                 signing_targets))
                  "signing plan contains a duplicate real-spend target" in
      let? action := action_at pczt action_index in
      let? _ := ensures (bool_decide (pa_nullifier action = sk_nullifier signing_key))
                  "resolved signing action has an unexpected nullifier" in
      Ok (signing_targets ++ [(action_index, sk_ask signing_key)])
  end.

(** The loop over the real spends after the signer: witnessed and signed. *)
Definition check_signed (pczt : Pczt) (indices : list Z) : res string unit :=
  res_fold (λ _ action_index,
    let? action := action_at pczt action_index in
    let? _ := ensures (bool_decide (pa_witness action ≠ None))
                "Signer removed a real Ironwood spend witness" in
    ensures (bool_decide (pa_spend_auth_sig action ≠ None))
      "Signer did not authorize a real Ironwood spend") tt indices.

(** [.filter(|action| action.spend().spend_auth_sig().is_some()).count()] *)
Definition signed_count (pczt : Pczt) : Z :=
  Z.of_nat (length (filter (λ action, pa_spend_auth_sig action ≠ None) (pczt_actions pczt))).

Definition sign_names_ironwood_pczt_core (pczt : Pczt) (metadata : NamesSigningMetadata)
  (plan : NamesSigningPlan) : res string Pczt :=
  let witnessed_action_indices := sm_witnessed_action_indices metadata in
  let? before_action_layout := embedded_action_layout pczt in
  let before_action_count := action_len pczt in
  let before_value_balance := value_sum pczt in
  let before_anchor := pczt_anchor pczt in
  let before_proof := zkproof pczt in
  let expected_anchor := anchor_bytes (sm_anchor metadata) in
  let? _ := ensures (bool_decide (before_anchor = Some expected_anchor))
              "signing PCZT anchor does not match the expected anchor" in
  let? _ := ensures (before_action_count =? sm_action_count metadata)
              "pre-sign Ironwood action count changed" in
  let? _ := check_value_sum pczt (sm_ironwood_value_balance metadata)
              "pre-sign Ironwood value balance changed" in
  let? _ := verify_embedded_designated_action pczt (sm_designated_action_index metadata)
              (sm_designated_nullifier metadata) (sm_designated_commitment metadata) in
  let? (_, witnessed_indices) :=
    res_fold (check_witnessed pczt before_action_count) ([], []) witnessed_action_indices in
  let? _ := ensures (Z.of_nat (length witnessed_indices) =? sm_real_spend_count metadata)
              "witness metadata does not cover exactly the real Ironwood spends" in
  let dummies := dummy_signatures pczt in
  let? dummy_count :=
    with_context (usize_checked_sub (sm_action_count metadata) (sm_real_spend_count metadata))
      "real spend count exceeds Ironwood action count" in
  let? _ := ensures (Z.of_nat (length dummies) =? dummy_count)
              "unexpected number of pre-existing Ironwood spend signatures" in
  let spends := spl_spends plan in
  let? _ := ensures (Z.of_nat (length spends) =? sm_real_spend_count metadata)
              "signing plan does not cover exactly the real Ironwood spends" in
  let? signing_targets := res_fold (signing_target pczt witnessed_action_indices) [] spends in
  let resolved_indices := merge_sort (≤) signing_targets.*1 in
  let witnessed_indices := merge_sort (≤) witnessed_indices in
  let? _ := ensures (bool_decide (resolved_indices = witnessed_indices))
              "signing plan does not cover every real witnessed Ironwood spend" in
  let? signer := with_context (signer_new pczt) "initialize Names PCZT signer" in
  let? signer := res_fold (λ signer '(action_index, ask),
    with_context (sign_ironwood signer action_index ask) "sign Names Ironwood spend")
    signer signing_targets in
  let pczt := signer_finish signer in
  let? _ := ensures (action_len pczt =? before_action_count)
              "Signer changed the Ironwood action count" in
  let? _ := check_layout pczt before_action_layout
              "Signer changed the ordered Ironwood action layout" in
  let? _ := ensures (bool_decide (value_sum pczt = before_value_balance))
              "Signer changed the Ironwood value balance" in
  let? _ := ensures (bool_decide (pczt_anchor pczt = before_anchor))
              "Signer changed the Ironwood anchor" in
  let? _ := ensures (bool_decide (zkproof pczt = before_proof)) "Signer changed the Ironwood proof" in
  let? _ := verify_embedded_designated_action pczt (sm_designated_action_index metadata)
              (sm_designated_nullifier metadata) (sm_designated_commitment metadata) in
  let? _ := check_signed pczt witnessed_indices in
  let? _ := check_dummy_signatures pczt dummies "Signer changed a dummy Ironwood spend signature" in
  let? _ := ensures (signed_count pczt =? sm_action_count metadata)
              "Signer did not authorize every Ironwood action" in
  Ok pczt.

Definition sign_names_ironwood_pczt (proved : NamesProvedPczt) (plan : NamesSigningPlan)
  : res string NamesSignedPczt :=
  let pczt := vp_pczt proved in
  let m := vp_metadata proved in
  let? proof_byte_len := with_context (proof_len pczt) "proved PCZT has no Ironwood proof" in
  let? _ := ensures (0 <? proof_byte_len) "proved PCZT has an empty Ironwood proof" in
  let? _ := ensures (proof_byte_len =? vp_ironwood_proof_byte_len proved)
              "proved PCZT Ironwood proof length differs from its metadata" in
  let? pczt := sign_names_ironwood_pczt_core pczt
    (MkNamesSigningMetadata (vp_anchor proved) (vp_witnessed_action_indices proved)
       (designated_action_index m) (designated_nullifier m) (designated_commitment m)
       (action_count (shape m)) (real_spend_count (shape m)) (ironwood_value_balance m)) plan in
  let? _ := ensures (bool_decide (proof_len pczt = Some proof_byte_len))
              "signed PCZT Ironwood proof length changed" in
  Ok (MkNamesSignedPczt pczt (vp_anchor proved) (vp_witnessed_action_indices proved) m
        (vp_ironwood_proof_byte_len proved)).
End Signing.

(** ** Extraction *)

Section Extraction.
Context `{ConsensusTransactions}.

Definition extract_names_transaction (signed : NamesSignedPczt) : res string NamesExtractedTransaction :=
  let pczt := sp_pczt signed in
  let m := sp_metadata signed in
  let anchor := sp_anchor signed in
  let? proof_bytes := with_context (zkproof pczt) "signed PCZT has no Ironwood proof" in
  let? _ := ensures (bool_decide (proof_bytes ≠ [])) "signed PCZT has an empty Ironwood proof" in
  let? _ := ensures (Z.of_nat (length proof_bytes) =? sp_ironwood_proof_byte_len signed)
              "signed PCZT Ironwood proof length differs from its metadata" in
  let? before_action_layout := embedded_action_layout pczt in
  let before_action_count := action_len pczt in
  let expected_anchor := anchor_bytes anchor in
  let? _ := ensures (before_action_count =? action_count (shape m))
              "pre-extraction Ironwood action count changed" in
  let? _ := check_value_sum pczt (ironwood_value_balance m)
              "pre-extraction Ironwood value balance changed" in
  let? _ := ensures (bool_decide (pczt_anchor pczt = Some expected_anchor))
              "signed PCZT anchor does not match its metadata" in
  let? _ := verify_metadata pczt m in
  let? _ := ensures (signed_count pczt =? action_count (shape m))
              "not every Ironwood action has a spend authorization before extraction" in
  let? transaction := with_context (tx_extract pczt) "extract Names consensus transaction" in
  let? _ := ensures (tx_is_v6 transaction) "extracted transaction is not V6" in
  let? ironwood := with_context (ironwood_bundle transaction)
                     "extracted transaction has no Ironwood bundle" in
  let after_action_count := Z.of_nat (length (ib_actions ironwood)) in
  let? _ := ensures (after_action_count =? before_action_count)
              "transaction extraction changed the Ironwood action count" in
  let? after_action_layout := transaction_action_layout transaction in
  let? _ := ensures (bool_decide (after_action_layout = before_action_layout))
              "transaction extraction changed the ordered Ironwood action layout" in
  let? designated_action := with_context (ib_actions ironwood !! Z.to_nat (designated_action_index m))
    "extracted designated action index is outside the Ironwood bundle" in
  let? _ := ensures (bool_decide (designated_action.1 = designated_nullifier m))
              "extracted designated action nullifier mismatch" in
  let? _ := ensures (bool_decide (designated_action.2 = designated_commitment m))
              "extracted designated action commitment mismatch" in
  let matching_designated_pairs :=
    matching_pairs (designated_nullifier m) (designated_commitment m) after_action_layout in
  let? _ := ensures (matching_designated_pairs =? 1) "extracted designated NF/CMX pair is not unique" in
  let after_value_balance := ib_value_balance ironwood in
  let? _ := ensures (after_value_balance =? ironwood_value_balance m)
              "transaction extraction changed the Ironwood value balance" in
  let? _ := ensures (bool_decide (ib_anchor ironwood = anchor))
              "transaction extraction changed the Ironwood anchor" in
  let? _ := ensures (bool_decide (ib_proof ironwood ≠ [])) "extracted Ironwood proof is empty" in
  let? _ := ensures (bool_decide (ib_proof ironwood = proof_bytes))
              "transaction extraction changed the Ironwood proof bytes" in
  let ironwood_spend_authorization_count := Z.of_nat (length (ib_actions ironwood)) in
  let? _ := ensures (ironwood_spend_authorization_count =? action_count (shape m))
              "extracted transaction does not contain every Ironwood spend authorization" in
  let? serialized_transaction := serialize_consensus_transaction transaction in
  Ok (MkNamesExtractedTransaction transaction (tx_id transaction)
        (Z.of_nat (length serialized_transaction)) anchor m (sp_ironwood_proof_byte_len signed)
        ironwood_spend_authorization_count true).

(** ** The ordinary spend *)

Definition build_ordinary_ironwood_spend (plan : OrdinaryIronwoodSpendPlan)
  (proving_key : CircuitProvingKey) (rng : BuilderRng) : res string OrdinaryIronwoodTransaction :=
  let output := os_output plan in
  let? _ := ensures (bool_decide (os_consensus_branch_id plan = Nu6_3))
              "ordinary Ironwood spend requires the NU6.3 V6 consensus branch" in
  let input_value := note_value (os_input_note plan) in
  let output_value := chg_value output in
  let? fee_zatoshi := with_context (usize_checked_sub input_value output_value)
                        "ordinary Ironwood output exceeds its input" in
  let? _ := ensures (0 <? fee_zatoshi) "ordinary Ironwood spend must pay a fee" in
  let input_nullifier := note_nullifier (os_input_note plan) (os_input_fvk plan) in
  let? builder := with_context builder_new "create deferred-anchor ordinary Ironwood builder" in
  let? builder := with_context (add_spend_unwitnessed builder (os_input_fvk plan) (os_input_note plan))
                    "add ordinary Ironwood spend" in
  let? builder := with_context
    (add_change_output builder (chg_fvk output) (chg_ovk output) (chg_recipient output)
       (chg_value output) (chg_memo output)) "add ordinary Ironwood output" in
  let? balance := with_context (value_balance builder) "compute ordinary Ironwood value balance" in
  let? fee := with_context (i64_try_from fee_zatoshi) "fee exceeds i64" in
  let? _ := ensures (balance =? fee) "ordinary Ironwood value balance differs from its fee" in
  let? (bundle, metadata) := with_context (build_for_pczt builder rng)
                               "build ordinary Ironwood PCZT bundle" in
  let? action_index := with_context (spend_action_index metadata 0)
                         "ordinary Ironwood spend action is missing" in
  let? _ := ensures ((length (bundle_actions bundle) =? 1)%nat && (action_index =? 0))
              "ordinary one-input/one-output spend did not produce one action" in
  let? pczt := with_context
    (build_from_parts (os_params plan) (os_consensus_branch_id plan) (os_fallback_lock_time plan)
       (os_expiry_height plan) bundle) "embed ordinary Ironwood bundle in V6 PCZT" in
  let? pczt := with_context (finalize_io pczt) "finalize ordinary Ironwood PCZT" in
  let? action := action_at pczt action_index in
  let? _ := ensures (bool_decide (pa_nullifier action = input_nullifier))
              "ordinary Ironwood spend moved during PCZT creation" in
  let? updater := with_context (set_ironwood_anchor (updater_new pczt) (os_anchor plan))
                    "set ordinary Ironwood anchor" in
  let? updater := with_context
    (set_ironwood_spend_witnesses updater [(action_index, os_input_witness plan)])
    "set ordinary Ironwood witness" in
  let? prover := with_context (create_ironwood_proof (prover_new (updater_finish updater)) proving_key)
                   "prove ordinary Ironwood spend" in
  let? signer := with_context (signer_new (prover_finish prover))
                   "initialize ordinary Ironwood signer" in
  let? signer := with_context (sign_ironwood signer action_index (os_input_ask plan))
                   "sign ordinary Ironwood spend" in
  let? transaction := with_context (tx_extract (signer_finish signer))
                        "extract ordinary Ironwood transaction" in
  let? _ := ensures (tx_is_v6 transaction) "extracted ordinary Ironwood transaction is not V6" in
  let? serialized := serialize_consensus_transaction transaction in
  Ok (MkOrdinaryIronwoodTransaction transaction (tx_id transaction)
        (Z.of_nat (length serialized)) fee_zatoshi).
End Extraction.
