(* ===== verification/BuilderFacts.v ===== *)
(** * The construction keeps the designated pair, and authorizes every spend

    What the checks of [Builder] guarantee of the transaction they let through,
    whatever the builder and the PCZT roles do. *)

From S2P Require Import Prelude Bytes External Protocol Orchard Pczt Builder.

(** ** Lists *)

Lemma res_fold_unit {E A : Type} (f : A → res E unit) l u :
  res_fold (λ _, f) tt l = Ok u ↔ Forall (λ x, f x = Ok tt) l.
Proof.
  destruct u. induction l as [|x l IH]; cbn [res_fold]; [by rewrite Forall_nil|].
  rewrite Forall_cons, <- IH. destruct (f x) as [[]| |]; naive_solver.
Qed.

Lemma enumerate_lookup {A : Type} (l : list A) (i : nat) :
  enumerate l !! i = pair (Z.of_nat i) <$> l !! i.
Proof. apply enumerate_from_lookup. Qed.

Lemma elem_of_enumerate {A : Type} (l : list A) (i : Z) (x : A) :
  (i, x) ∈ enumerate l ↔ 0 ≤ i ∧ l !! Z.to_nat i = Some x.
Proof.
  rewrite list_elem_of_lookup. setoid_rewrite enumerate_lookup. split.
  - intros [k Hk]. destruct (l !! k) eqn:El; [|done]. injection Hk as <- <-. rewrite Nat2Z.id. split; [lia|done].
  - intros [Hi Hx]. exists (Z.to_nat i). rewrite Hx. simpl. by rewrite Z2Nat.id.
Qed.

Lemma NoDup_enumerate_from {A : Type} (n : Z) (l : list A) : NoDup (enumerate_from n l).*1.
Proof.
  revert n. induction l as [|x l IH]; intros n; simpl; constructor; [|apply IH].
  intros ([i y] & -> & Hi)%list_elem_of_fmap. apply list_elem_of_lookup in Hi as [k Hk]. simpl in Hk.
  rewrite enumerate_from_lookup in Hk. destruct (l !! k); [|done]. injection Hk as Hk _. lia.
Qed.

Lemma NoDup_fst_filter {A B : Type} (P : A * B → Prop) `{∀ x, Decision (P x)} (l : list (A * B)) :
  NoDup l.*1 → NoDup (filter P l).*1.
Proof. intros Hl. eapply sublist_NoDup; [exact Hl|]. apply fmap_sublist, sublist_filter. Qed.

Lemma existsb_key_fresh {A : Type} (i : Z) (l : list (A * Z)) :
  negb (existsb (λ '(_, j), j =? i) l) = true ↔ i ∉ l.*2.
Proof.
  rewrite negb_true_iff, <- not_true_iff_false, existsb_exists, list_elem_of_fmap. split.
  - intros Hn ([a j] & -> & Hin). apply Hn. exists (a, j). rewrite <- list_elem_of_In. simpl. by rewrite Z.eqb_refl.
  - intros Hn ([a j] & Hin & ->%Z.eqb_eq). apply Hn. exists (a, i). by rewrite list_elem_of_In.
Qed.

Lemma length_filter_all {A : Type} (P : A → Prop) `{∀ x, Decision (P x)} (l : list A) :
  length (filter P l) = length l ↔ Forall P l.
Proof.
  split.
  - induction l as [|x l IH]; intros Hl; [constructor|]. destruct (decide (P x)).
    + rewrite filter_cons_True in Hl by done. constructor; [done|]. apply IH. simpl in Hl. lia.
    + rewrite filter_cons_False in Hl by done. pose proof (length_filter P l). simpl in Hl. lia.
  - induction 1 as [|x l Hx Hl IH]; [done|]. rewrite filter_cons_True by done. simpl. by rewrite IH.
Qed.

(** ** The designated pair at every stage *)

(** [pair] is at index [i] of the layout, and nowhere else. *)
Definition designated (l : layout) (i : Z) (nullifier commitment : list byte) : Prop :=
  l !! Z.to_nat i = Some (nullifier, commitment) ∧ matching_pairs nullifier commitment l = 1.

Lemma filter_one_unique {A : Type} (P : A → Prop) `{∀ x, Decision (P x)} (l : list A) i j x y :
  length (filter P l) = 1%nat → l !! i = Some x → l !! j = Some y → P x → P y → i = j.
Proof.
  revert i j. induction l as [|z l IH]; intros i j Hone Hi Hj Hx Hy; [done|].
  assert (∀ k w, P z → l !! k = Some w → P w → False) as Hrest.
  { intros k w Hz Hk Hw. rewrite filter_cons_True in Hone by done. simpl in Hone.
    assert (w ∈ filter P l) as Hin by (apply list_elem_of_filter; split; [done|by eapply list_elem_of_lookup_2]).
    destruct (filter P l); [by apply elem_of_nil in Hin|]. simpl in Hone. lia. }
  destruct i as [|i], j as [|j]; simpl in Hi, Hj.
  - done.
  - injection Hi as ->. exfalso. eauto.
  - injection Hj as ->. exfalso. eauto.
  - f_equal. apply IH; try done. destruct (decide (P z)) as [Hz|Hz]; [exfalso; eauto|].
    by rewrite filter_cons_False in Hone.
Qed.

Lemma matching_pairs_unique l nf cm i j :
  matching_pairs nf cm l = 1 → l !! i = Some (nf, cm) → l !! j = Some (nf, cm) → i = j.
Proof.
  intros Hone Hi Hj. eapply (filter_one_unique (λ pair, pair = (nf, cm)) l); [|done..].
  unfold matching_pairs in Hone. lia.
Qed.

Section Facts.
Context `{ConsensusTransactions}.

(** What the checks maintain of a PCZT. *)
Record stage_ok (l : layout) (m : NamesMetadata) (pczt : Pczt) : Prop := {
  so_layout : embedded_action_layout pczt = Ok l;
  so_count : Z.of_nat (length l) = action_count (shape m);
  so_sum : value_sum_parts (ironwood_value_balance m) = Ok (value_sum pczt);
  so_pair : designated l (designated_action_index m) (designated_nullifier m) (designated_commitment m);
}.

Lemma embedded_layout_Forall2 pczt l :
  embedded_action_layout pczt = Ok l ↔
    Forall2 (λ action pair, pa_cmx action = Some pair.2 ∧ pair.1 = pa_nullifier action) (pczt_actions pczt) l.
Proof.
  unfold embedded_action_layout. rewrite res_mapM_Ok. split; intros Hf.
  - eapply Forall2_impl; [exact Hf|]. intros a [n c] (c' & Hc%with_context_Ok & Hn)%res_bind_Ok.
    by injection Hn as <- <-.
  - eapply Forall2_impl; [exact Hf|]. intros a [n c] [Hc Hn]. simpl in *. rewrite Hc. cbn. by rewrite Hn.
Qed.

Lemma embedded_layout_length pczt l :
  embedded_action_layout pczt = Ok l → Z.of_nat (length l) = action_len pczt.
Proof.
  intros Hl%embedded_layout_Forall2%Forall2_length. unfold action_len. by rewrite Hl.
Qed.

Lemma embedded_matching pczt l nf cm :
  embedded_action_layout pczt = Ok l →
  length (filter (λ action, pa_nullifier action = nf ∧ pa_cmx action = Some cm) (pczt_actions pczt))
  = length (filter (λ pair, pair = (nf, cm)) l).
Proof.
  intros Hl%embedded_layout_Forall2. induction Hl as [|a [n c] la ll [Hc Hn] _ IH]; [done|]. simpl in *.
  destruct (decide (pa_nullifier a = nf ∧ pa_cmx a = Some cm)) as [[E1 E2]|Hne].
  - rewrite !filter_cons_True by (done || congruence). simpl. by rewrite IH.
  - rewrite !filter_cons_False; [done| |done]. intros [= -> ->]. by apply Hne.
Qed.

Lemma verify_embedded_Ok pczt l i nf cm u :
  embedded_action_layout pczt = Ok l →
  verify_embedded_designated_action pczt i nf cm = Ok u → designated l i nf cm.
Proof.
  intros Hl. unfold verify_embedded_designated_action. intros Hv. inv_res.
  repeat match goal with H : bool_decide _ = true |- _ => apply bool_decide_eq_true in H end.
  apply Z.eqb_eq in Hv. subst. split.
  - pose proof (proj1 (embedded_layout_Forall2 _ _) Hl) as Hf.
    destruct (Forall2_lookup_l _ _ _ _ _ Hf ltac:(eassumption)) as ([n c] & Hc & Hcm & Hn). simpl in *.
    rewrite Hc. congruence.
  - unfold matching_pairs. by rewrite <- (embedded_matching _ _ _ _ Hl).
Qed.

Lemma check_value_sum_Ok pczt b msg u :
  check_value_sum pczt b msg = Ok u ↔ value_sum_parts b = Ok (value_sum pczt).
Proof.
  unfold check_value_sum. split.
  - intros (e & He & Hd%ensures_Ok%bool_decide_eq_true)%res_bind_Ok. by rewrite Hd.
  - intros ->. cbn [res_bind]. rewrite bool_decide_true by done. by destruct u.
Qed.

Lemma check_layout_Ok pczt l msg u :
  check_layout pczt l msg = Ok u ↔ embedded_action_layout pczt = Ok l.
Proof.
  unfold check_layout. split.
  - intros (e & He & <-%ensures_Ok%bool_decide_eq_true)%res_bind_Ok. done.
  - intros ->. cbn [res_bind]. rewrite bool_decide_true by done. by destruct u.
Qed.

(** A PCZT whose layout, value sum and designated pair have been checked again
    is still in order. *)
Lemma stage_next l m pczt msg1 msg2 u1 u2 u3 :
  Z.of_nat (length l) = action_count (shape m) →
  check_layout pczt l msg1 = Ok u1 → check_value_sum pczt (ironwood_value_balance m) msg2 = Ok u2 →
  verify_metadata pczt m = Ok u3 → stage_ok l m pczt.
Proof.
  intros Hc Hl%check_layout_Ok Hs%check_value_sum_Ok Hv.
  split; [done..|]. by eapply verify_embedded_Ok.
Qed.
(** ** The stages, one by one *)

(** What a plan must satisfy for its bundle to be built. *)
Record plan_ok (plan : NamesIronwoodPlan) : Prop := {
  po_designated : note_value (pl_designated_spend plan) = BOND_ZATOSHIS;
  po_successor : note_value (pl_successor_note plan) = BOND_ZATOSHIS;
  po_carriers : ∀ carrier, carrier ∈ pl_carrier_outputs plan → car_value carrier = 0;
  po_rho : rho_to_bytes (note_rho (pl_successor_note plan))
           = note_nullifier (pl_designated_spend plan) (pl_designated_fvk plan);
}.

(** The metadata of a plan's bundle. *)
Definition plan_metadata (plan : NamesIronwoodPlan) (m : NamesMetadata) : Prop :=
  designated_action_index m = pl_designated_action_index plan
  ∧ designated_nullifier m = note_nullifier (pl_designated_spend plan) (pl_designated_fvk plan)
  ∧ designated_commitment m = note_commitment (pl_successor_note plan)
  ∧ names_ironwood_shape plan = Ok (shape m).

Lemma build_names_bundle_Ok plan rng b :
  build_names_bundle plan rng = Ok b →
  plan_ok plan ∧ plan_metadata plan (bb_metadata b)
  ∧ bb_operation_height b = pl_operation_height plan
  ∧ Z.of_nat (length (bundle_actions (bb_bundle b))) = action_count (shape (bb_metadata b))
  ∧ designated (bundle_actions (bb_bundle b)) (designated_action_index (bb_metadata b))
      (designated_nullifier (bb_metadata b)) (designated_commitment (bb_metadata b))
  ∧ ∃ builder, planned_builder plan = Ok builder
      ∧ value_balance builder = Some (ironwood_value_balance (bb_metadata b)).
Proof.
  intros (sh & Hsh & (? & Hd%ensures_Ok%Z.eqb_eq & (? & Hsu%ensures_Ok%Z.eqb_eq & Hb)%res_bind_Ok)%res_bind_Ok)%res_bind_Ok.
  apply res_bind_Ok in Hb as (? & Hca%ensures_Ok & (? & Hrho%ensures_Ok%bool_decide_eq_true & Hb)%res_bind_Ok).
  apply res_bind_Ok in Hb as (builder & Hbu & (bal & Hbal%with_context_Ok & Hb)%res_bind_Ok).
  apply res_bind_Ok in Hb as ([bundle meta] & Hbuild & (? & _ & Hb)%res_bind_Ok).
  apply res_bind_Ok in Hb as (? & Hv & (? & Hone%ensures_Ok%Z.eqb_eq & Hb)%res_bind_Ok).
  apply res_bind_Ok in Hb as (? & Hcount%ensures_Ok%Z.eqb_eq & <-%Ok_inj). cbn in *.
  split; [|split; [|split; [done|split; [done|split; [|eauto]]]]].
  - split; [done|done| |done]. intros c Hc%list_elem_of_In. rewrite forallb_forall in Hca.
    by apply Z.eqb_eq, Hca.
  - split; [done|split; [done|split; [done|]]]. rewrite Hsh, Hcount. by destruct sh.
  - split; [|done]. unfold verify_designated_action in Hv. inv_res.
    repeat match goal with H : bool_decide _ = true |- _ => apply bool_decide_eq_true in H end.
    match goal with Ha : _ !! _ = Some ?a |- _ => rewrite Ha; destruct a end. simpl in *. by subst.
Qed.

Lemma build_names_pczt_Ok plan p :
  build_names_pczt plan = Ok p →
  let b := pcp_ironwood plan in
  Z.of_nat (length (bundle_actions (bb_bundle b))) = action_count (shape (bb_metadata b)) →
  bp_metadata p = bb_metadata b ∧ stage_ok (bundle_actions (bb_bundle b)) (bp_metadata p) (bp_pczt p)
  ∧ designated_action_index (bb_metadata b) ≤ u32_max ∧ bb_operation_height b ≤ pcp_expiry_height plan
  ∧ pcp_consensus_branch_id plan = Nu6_3.
Proof.
  intros (? & Hbr%ensures_Ok%bool_decide_eq_true & (? & Hh%ensures_Ok%Z.leb_le & Hb)%res_bind_Ok)%res_bind_Ok b Hlen.
  apply res_bind_Ok in Hb as (i & Hi%with_context_Ok & (pczt & _ & Hb)%res_bind_Ok).
  apply res_bind_Ok in Hb as (? & Hv & (? & Hl & (? & Hc & (? & Hs & <-%Ok_inj)%res_bind_Ok)%res_bind_Ok)%res_bind_Ok).
  assert (i = designated_action_index (bb_metadata b) ∧ i ≤ u32_max) as [-> Hmax].
  { unfold u32_try_from in Hi. fold b in Hi. destruct (Z.leb_spec (designated_action_index (bb_metadata b)) u32_max); [|done].
    injection Hi as <-. done. }
  cbn [bp_metadata bp_pczt]. fold b. split; [by destruct (bb_metadata b)|]. split; [|done].
  eapply stage_next; [exact Hlen|exact Hl|exact Hs|exact Hv].
Qed.

(** A stage that keeps the metadata and the order of the PCZT. *)
Lemma finalize_names_pczt_io_Ok l built f :
  finalize_names_pczt_io built = Ok f → stage_ok l (bp_metadata built) (bp_pczt built) →
  fp_metadata f = bp_metadata built ∧ stage_ok l (fp_metadata f) (fp_pczt f)
  ∧ inputs_modifiable (fp_pczt f) = false ∧ outputs_modifiable (fp_pczt f) = false
  ∧ shielded_modifiable (fp_pczt f) = false.
Proof.
  intros (l' & Hl' & (? & _ & (? & _ & (pczt & _ & Hb)%res_bind_Ok)%res_bind_Ok)%res_bind_Ok)%res_bind_Ok
    [Hl Hlen _ _]. rewrite Hl in Hl'. apply Ok_inj in Hl' as <-.
  apply res_bind_Ok in Hb as (? & _ & (? & Hly & (? & Hs & (? & Hm%ensures_Ok & (? & Hv & <-%Ok_inj)%res_bind_Ok)%res_bind_Ok)%res_bind_Ok)%res_bind_Ok).
  cbn [fp_metadata fp_pczt]. split; [done|]. split; [|by rewrite !andb_true_iff, !negb_true_iff in Hm; tauto].
  eapply stage_next; [exact Hlen|exact Hly|exact Hs|exact Hv].
Qed.
Lemma install_Ok f plan w l :
  install_names_ironwood_witnesses f plan = Ok w → stage_ok l (fp_metadata f) (fp_pczt f) →
  wp_metadata w = fp_metadata f ∧ stage_ok l (wp_metadata w) (wp_pczt w) ∧ wp_anchor w = wpl_anchor plan
  ∧ Z.of_nat (length (unwitnessed_indices (fp_pczt f))) = real_spend_count (shape (wp_metadata w))
  ∧ merge_sort (≤) (wp_witnessed_action_indices w).*2 = unwitnessed_indices (fp_pczt f)
  ∧ ∃ updates expected, res_fold (resolve_witness (fp_pczt f)) ([], [], []) (wpl_spends plan)
        = Ok (updates, expected, wp_witnessed_action_indices w)
      ∧ check_installed (wp_pczt w) expected = Ok tt
      ∧ check_dummies (wp_pczt w) (dummy_state (fp_pczt f)) = Ok tt.
Proof.
  intros (l' & Hl' & (? & _ & (? & _ & (? & Hr%ensures_Ok%Z.eqb_eq & (? & _ & Hb)%res_bind_Ok)%res_bind_Ok)%res_bind_Ok)%res_bind_Ok)%res_bind_Ok
    [Hl Hlen _ _]. rewrite Hl in Hl'. apply Ok_inj in Hl' as <-. cbv zeta in Hb.
  apply res_bind_Ok in Hb as ([[uw ew] wi] & Hf & (? & Hm%ensures_Ok%bool_decide_eq_true & Hb)%res_bind_Ok).
  apply res_bind_Ok in Hb as (u1 & _ & (u2 & _ & (? & _ & (? & _ & Hb)%res_bind_Ok)%res_bind_Ok)%res_bind_Ok).
  apply res_bind_Ok in Hb as (? & Hly & (? & Hs & (? & Hv & Hb)%res_bind_Ok)%res_bind_Ok).
  apply res_bind_Ok in Hb as ([] & Hci & ([] & Hcd & <-%Ok_inj)%res_bind_Ok).
  cbn. split; [done|]. split; [|split; [done|split; [done|split; [done|]]]].
  - eapply stage_next; [exact Hlen|exact Hly|exact Hs|exact Hv].
  - by exists uw, ew.
Qed.

Lemma prove_Ok w key v l :
  prove_names_ironwood_pczt w key = Ok v → stage_ok l (wp_metadata w) (wp_pczt w) →
  vp_metadata v = wp_metadata w ∧ stage_ok l (vp_metadata v) (vp_pczt v) ∧ vp_anchor v = wp_anchor w
  ∧ vp_witnessed_action_indices v = wp_witnessed_action_indices w
  ∧ (∃ a b, check_unsigned (wp_pczt w) (merge_sort (≤) (wp_witnessed_action_indices w).*2) a b = Ok tt)
  ∧ Z.of_nat (length (dummy_signatures (wp_pczt w)))
      = action_count (shape (wp_metadata w)) - real_spend_count (shape (wp_metadata w))
  ∧ ∃ a, check_dummy_signatures (vp_pczt v) (dummy_signatures (wp_pczt w)) a = Ok tt.
Proof.
  intros (l' & Hl' & (? & _ & (? & _ & (? & _ & (? & _ & Hb)%res_bind_Ok)%res_bind_Ok)%res_bind_Ok)%res_bind_Ok)%res_bind_Ok
    [Hl Hlen Hsum _]. rewrite Hl in Hl'. apply Ok_inj in Hl' as <-. cbv zeta in Hb.
  apply res_bind_Ok in Hb as (? & _ & (? & _ & (? & _ & ([] & Hun & Hb)%res_bind_Ok)%res_bind_Ok)%res_bind_Ok).
  apply res_bind_Ok in Hb as (n & Hn%with_context_Ok & (? & Hd%ensures_Ok%Z.eqb_eq & (pr & _ & Hb)%res_bind_Ok)%res_bind_Ok).
  apply res_bind_Ok in Hb as (k & _ & (? & _ & (? & _ & (? & Hly & Hb)%res_bind_Ok)%res_bind_Ok)%res_bind_Ok).
  apply res_bind_Ok in Hb as (? & Hs%ensures_Ok%bool_decide_eq_true & (? & _ & (? & Hv & Hb)%res_bind_Ok)%res_bind_Ok).
  apply res_bind_Ok in Hb as (? & _ & ([] & Hds & <-%Ok_inj)%res_bind_Ok).
  cbn. split; [done|]. split; [|split; [done|split; [done|split; [by do 2 eexists|split; [|by eexists]]]]].
  - apply check_layout_Ok in Hly. split; [done|done|by rewrite Hs|].
    eapply verify_embedded_Ok; [exact Hly|exact Hv].
  - rewrite Hd. unfold usize_checked_sub in Hn. destruct (_ <=? _); [|done]. by injection Hn as <-.
Qed.

Lemma check_witnessed_fold pczt n entries st st' :
  res_fold (check_witnessed pczt n) st entries = Ok st' → st'.2 = st.2 ++ entries.*2.
Proof.
  revert st. induction entries as [|[nf i] entries IH]; intros [nfs ixs] Hr; cbn [res_fold] in Hr.
  { apply Ok_inj in Hr as <-. by rewrite app_nil_r. }
  apply res_bind_Ok in Hr as (st1 & Hc1 & Hr%IH). rewrite Hr. unfold check_witnessed in Hc1. inv_res.
  simpl. by rewrite <- app_assoc.
Qed.

Lemma sort_eq_Permutation (l k : list Z) : merge_sort (≤) l = merge_sort (≤) k → l ≡ₚ k.
Proof. intros E. by rewrite <- (merge_sort_Permutation (≤) l), E, merge_sort_Permutation. Qed.

Lemma sign_core_Ok pczt meta plan pczt' l :
  sign_names_ironwood_pczt_core pczt meta plan = Ok pczt' → embedded_action_layout pczt = Ok l →
  embedded_action_layout pczt' = Ok l ∧ value_sum pczt' = value_sum pczt
  ∧ signed_count pczt' = sm_action_count meta
  ∧ (∃ a, check_dummy_signatures pczt' (dummy_signatures pczt) a = Ok tt)
  ∧ ∃ targets,
      res_fold (signing_target pczt (sm_witnessed_action_indices meta)) [] (spl_spends plan) = Ok targets
      ∧ Z.of_nat (length (spl_spends plan)) = sm_real_spend_count meta
      ∧ targets.*1 ≡ₚ (sm_witnessed_action_indices meta).*2
      ∧ ∃ signer signer', signer_new pczt = Some signer
          ∧ res_fold (λ signer '(i, ask), with_context (sign_ironwood signer i ask)
              "sign Names Ironwood spend") signer targets = Ok signer'
          ∧ pczt' = signer_finish signer'.
Proof.
  intros (l' & Hl' & (? & _ & (? & _ & (? & _ & (? & _ & Hb)%res_bind_Ok)%res_bind_Ok)%res_bind_Ok)%res_bind_Ok)%res_bind_Ok
    Hl. rewrite Hl in Hl'. apply Ok_inj in Hl' as <-.
  apply res_bind_Ok in Hb as ([nfs wis] & Hw%check_witnessed_fold & (? & _ & (n & _ & Hb)%res_bind_Ok)%res_bind_Ok).
  apply res_bind_Ok in Hb as (? & _ & (? & Hn%ensures_Ok%Z.eqb_eq & (targets & Ht & Hb)%res_bind_Ok)%res_bind_Ok).
  apply res_bind_Ok in Hb as (? & Hp%ensures_Ok%bool_decide_eq_true & (sg & Hsg%with_context_Ok & (sg' & Hsg' & Hb)%res_bind_Ok)%res_bind_Ok).
  apply res_bind_Ok in Hb as (? & _ & (? & Hly%check_layout_Ok & (? & Hs%ensures_Ok%bool_decide_eq_true & Hb)%res_bind_Ok)%res_bind_Ok).
  apply res_bind_Ok in Hb as (? & _ & (? & _ & (? & _ & (? & _ & Hb)%res_bind_Ok)%res_bind_Ok)%res_bind_Ok).
  apply res_bind_Ok in Hb as ([] & Hds & (? & Hc%ensures_Ok%Z.eqb_eq & <-%Ok_inj)%res_bind_Ok).
  simpl in Hw. subst wis. apply sort_eq_Permutation in Hp. eauto 20.
Qed.

Lemma sign_Ok v plan s l :
  sign_names_ironwood_pczt v plan = Ok s → stage_ok l (vp_metadata v) (vp_pczt v) →
  sp_metadata s = vp_metadata v ∧ stage_ok l (sp_metadata s) (sp_pczt s) ∧ sp_anchor s = vp_anchor v
  ∧ signed_count (sp_pczt s) = action_count (shape (vp_metadata v))
  ∧ (∃ a, check_dummy_signatures (sp_pczt s) (dummy_signatures (vp_pczt v)) a = Ok tt)
  ∧ ∃ targets, res_fold (signing_target (vp_pczt v) (vp_witnessed_action_indices v)) [] (spl_spends plan)
        = Ok targets
      ∧ Z.of_nat (length (spl_spends plan)) = real_spend_count (shape (vp_metadata v))
      ∧ targets.*1 ≡ₚ (vp_witnessed_action_indices v).*2
      ∧ ∃ signer signer', signer_new (vp_pczt v) = Some signer
          ∧ res_fold (λ signer '(i, ask), with_context (sign_ironwood signer i ask)
              "sign Names Ironwood spend") signer targets = Ok signer'
          ∧ sp_pczt s = signer_finish signer'.
Proof.
  intros (n & _ & (? & _ & (? & _ & (pczt & Hc & (? & _ & <-%Ok_inj)%res_bind_Ok)%res_bind_Ok)%res_bind_Ok)%res_bind_Ok)%res_bind_Ok
    [Hl Hlen Hsum Hd]. cbn [sp_metadata sp_pczt sp_anchor].
  destruct (sign_core_Ok _ _ _ _ _ Hc Hl) as (Hl' & Hs & Hn & Hds & Ht).
  split; [done|]. split; [by split; [| |rewrite Hs|]|]. done.
Qed.

Lemma extract_Ok s x l :
  extract_names_transaction s = Ok x → stage_ok l (sp_metadata s) (sp_pczt s) →
  xt_metadata x = sp_metadata s ∧ xt_anchor x = sp_anchor s ∧ tx_is_v6 (xt_transaction x) = true
  ∧ xt_txid x = tx_id (xt_transaction x)
  ∧ ∃ bundle, ironwood_bundle (xt_transaction x) = Some bundle ∧ ib_actions bundle = l
      ∧ ib_value_balance bundle = ironwood_value_balance (xt_metadata x) ∧ ib_anchor bundle = xt_anchor x
      ∧ zkproof (sp_pczt s) = Some (ib_proof bundle) ∧ ib_proof bundle ≠ [].
Proof.
  intros (pf & Hpf%with_context_Ok & (? & _ & (? & _ & (l' & Hl' & Hb)%res_bind_Ok)%res_bind_Ok)%res_bind_Ok)%res_bind_Ok
    [Hl Hlen _ _]. rewrite Hl in Hl'. apply Ok_inj in Hl' as <-. cbv zeta in Hb.
  apply res_bind_Ok in Hb as (? & _ & (? & _ & (? & _ & (? & _ & (? & _ & Hb)%res_bind_Ok)%res_bind_Ok)%res_bind_Ok)%res_bind_Ok).
  apply res_bind_Ok in Hb as (t & _ & (? & H6%ensures_Ok & (ib & Hib%with_context_Ok & Hb)%res_bind_Ok)%res_bind_Ok).
  apply res_bind_Ok in Hb as (? & _ & (l2 & Hl2 & (? & Hll%ensures_Ok%bool_decide_eq_true & Hb)%res_bind_Ok)%res_bind_Ok).
  apply res_bind_Ok in Hb as (? & _ & (? & _ & (? & _ & (? & _ & Hb)%res_bind_Ok)%res_bind_Ok)%res_bind_Ok).
  apply res_bind_Ok in Hb as (? & Hvb%ensures_Ok%Z.eqb_eq & (? & Han%ensures_Ok%bool_decide_eq_true & Hb)%res_bind_Ok).
  apply res_bind_Ok in Hb as (? & Hne%ensures_Ok%bool_decide_eq_true & (? & Hpr%ensures_Ok%bool_decide_eq_true & Hb)%res_bind_Ok).
  apply res_bind_Ok in Hb as (? & _ & (ser & _ & <-%Ok_inj)%res_bind_Ok).
  unfold transaction_action_layout in Hl2. rewrite Hib in Hl2. cbn [with_context res_bind] in Hl2.
  apply Ok_inj in Hl2. cbn. split; [done|]. split; [done|]. split; [done|]. split; [done|].
  exists ib. split; [done|]. split; [congruence|]. split; [done|]. split; [done|]. split; [by rewrite Hpr|done].
Qed.
End Facts.

(** ** The whole construction *)

Section Pipeline.
Context `{ConsensusTransactions}.

(** The stages in the order the wallet calls them. *)
Definition names_pipeline (plan : NamesIronwoodPlan) (rng : BuilderRng) (params : ConsensusParameters)
  (branch : BranchId) (expiry_height lock_time : Z) (witnesses : NamesWitnessPlan)
  (key : CircuitProvingKey) (signing : NamesSigningPlan) : res string NamesExtractedTransaction :=
  let? bundle := build_names_bundle plan rng in
  let? built := build_names_pczt (MkNamesPcztPlan bundle params branch expiry_height lock_time) in
  let? finalized := finalize_names_pczt_io built in
  let? witnessed := install_names_ironwood_witnesses finalized witnesses in
  let? proved := prove_names_ironwood_pczt witnessed key in
  let? signed := sign_names_ironwood_pczt proved signing in
  extract_names_transaction signed.

(** What is known of a transaction the stages extract from a plan. *)
Definition carries_plan (plan : NamesIronwoodPlan) (x : NamesExtractedTransaction) : Prop :=
  plan_ok plan ∧ plan_metadata plan (xt_metadata x) ∧ pl_designated_action_index plan ≤ u32_max
  ∧ (∃ builder, planned_builder plan = Ok builder
       ∧ value_balance builder = Some (ironwood_value_balance (xt_metadata x)))
  ∧ tx_is_v6 (xt_transaction x) = true
  ∧ ∃ bundle, ironwood_bundle (xt_transaction x) = Some bundle
      ∧ Z.of_nat (length (ib_actions bundle)) = action_count (shape (xt_metadata x))
      ∧ designated (ib_actions bundle) (pl_designated_action_index plan)
          (note_nullifier (pl_designated_spend plan) (pl_designated_fvk plan))
          (note_commitment (pl_successor_note plan))
      ∧ ib_value_balance bundle = ironwood_value_balance (xt_metadata x)
      ∧ ib_anchor bundle = xt_anchor x ∧ ib_proof bundle ≠ [].

Lemma names_pipeline_Ok plan rng params branch expiry_height lock_time witnesses key signing x :
  names_pipeline plan rng params branch expiry_height lock_time witnesses key signing = Ok x →
  carries_plan plan x ∧ pl_operation_height plan ≤ expiry_height ∧ branch = Nu6_3
  ∧ xt_anchor x = wpl_anchor witnesses.
Proof.
  intros (b & Hb & (p & Hp & (f & Hf & (w & Hw & (v & Hv & (s & Hs & Hx)%res_bind_Ok)%res_bind_Ok)%res_bind_Ok)%res_bind_Ok)%res_bind_Ok)%res_bind_Ok.
  apply build_names_bundle_Ok in Hb as (Hplan & Hm & Hh & Hc & _ & Hbal).
  apply build_names_pczt_Ok in Hp as (Em1 & S1 & Hi & Hexp & Hbr); [|exact Hc].
  destruct (finalize_names_pczt_io_Ok _ _ _ Hf S1) as (Em2 & S2 & _).
  destruct (install_Ok _ _ _ _ Hw S2) as (Em3 & S3 & Ea3 & _).
  destruct (prove_Ok _ _ _ _ Hv S3) as (Em4 & S4 & Ea4 & _).
  destruct (sign_Ok _ _ _ _ Hs S4) as (Em5 & S5 & Ea5 & _).
  pose proof S5 as [_ Hlen _ Hd].
  destruct (extract_Ok _ _ _ Hx S5) as (Em6 & Ea6 & H6 & _ & ib & Hib & Hl & Hvb & Han & _ & Hne).
  cbn [pcp_ironwood pcp_expiry_height pcp_consensus_branch_id] in *.
  assert (sp_metadata s = bb_metadata b) as Es by congruence.
  assert (xt_metadata x = bb_metadata b) as Ex by congruence.
  rewrite Es in Hd, Hlen. rewrite Ex in Hvb. destruct Hm as (Ei & En & Ec & Esh). rewrite Ei, En, Ec in Hd.
  split; [|rewrite <- Hh; split; [exact Hexp|split; [exact Hbr|congruence]]].
  unfold carries_plan. rewrite Ex, <- Ei, Ei. split; [done|]. split; [done|]. split; [by rewrite <- Ei|].
  split; [done|]. split; [done|]. exists ib. rewrite Hl. done.
Qed.
End Pipeline.

(** C21: the construction cannot move the designated action.  Whatever the builder
    and the PCZT roles do, a transaction that the stages let through spends an
    exact bond into an exact bond: at the planned index, and at no other, it has
    the nullifier of the designated note and the commitment of the successor the
    proof binds, whose seed is that nullifier; every carrier is worth nothing; its
    actions are as many as the plan's shape says, its value balance is the one the
    builder computed, and it is a V6 transaction on the wallet's anchor that does
    not expire before the operation's height. *)
Theorem names_transaction_designated `{ConsensusTransactions} plan rng params branch expiry_height
  lock_time witnesses key signing x :
  names_pipeline plan rng params branch expiry_height lock_time witnesses key signing = Ok x →
  let nullifier := note_nullifier (pl_designated_spend plan) (pl_designated_fvk plan) in
  let commitment := note_commitment (pl_successor_note plan) in
  (note_value (pl_designated_spend plan) = BOND_ZATOSHIS
   ∧ note_value (pl_successor_note plan) = BOND_ZATOSHIS
   ∧ rho_to_bytes (note_rho (pl_successor_note plan)) = nullifier
   ∧ ∀ carrier, carrier ∈ pl_carrier_outputs plan → car_value carrier = 0)
  ∧ (∃ bundle shape builder, ironwood_bundle (xt_transaction x) = Some bundle
       ∧ names_ironwood_shape plan = Ok shape ∧ planned_builder plan = Ok builder
       ∧ Z.of_nat (length (ib_actions bundle)) = action_count shape
       ∧ ib_actions bundle !! Z.to_nat (pl_designated_action_index plan) = Some (nullifier, commitment)
       ∧ (∀ i, ib_actions bundle !! i = Some (nullifier, commitment) →
            i = Z.to_nat (pl_designated_action_index plan))
       ∧ value_balance builder = Some (ib_value_balance bundle)
       ∧ ib_anchor bundle = wpl_anchor witnesses ∧ ib_proof bundle ≠ [])
  ∧ tx_is_v6 (xt_transaction x) = true ∧ branch = Nu6_3 ∧ pl_operation_height plan ≤ expiry_height.
Proof.
  intros ((Hplan & (_ & _ & _ & Esh) & _ & (bu & Hbu & Hbal) & H6 & ib & Hib & Hlen & [Hi Hone] & Hvb & Han & Hne)
    & Hh & Hbr & Ea)%names_pipeline_Ok nullifier commitment.
  destruct Hplan as [Hd Hs Hca Hrho]. split; [done|]. split; [|done].
  exists ib, (shape (xt_metadata x)), bu. do 4 (split; [done|]). split; [done|].
  split; [|split; [by rewrite Hvb|split; [congruence|done]]].
  intros i Hj. by eapply matching_pairs_unique.
Qed.
