(* ===== verification/Authorizations.v ===== *)
(** * The wallet witnesses and signs the real spends, and only those

    The bookkeeping of [install_names_ironwood_witnesses],
    [prove_names_ironwood_pczt] and [sign_names_ironwood_pczt]: the real spends are
    the actions without a witness, every one gets the witness and the key of its
    nullifier, and the padding keeps its own. *)

From S2P Require Import Prelude Bytes External Protocol Orchard Pczt Builder BuilderFacts.

Section Indices.
Context `{ConsensusTransactions}.

Lemma elem_of_unwitnessed pczt i :
  i ∈ unwitnessed_indices pczt ↔
    0 ≤ i ∧ ∃ a, pczt_actions pczt !! Z.to_nat i = Some a ∧ pa_witness a = None.
Proof.
  unfold unwitnessed_indices. rewrite list_elem_of_fmap. split.
  - intros ([j a] & -> & [Hw [Hj Ha]%elem_of_enumerate]%list_elem_of_filter). eauto.
  - intros [Hi (a & Ha & Hw)]. exists (i, a). split; [done|].
    apply list_elem_of_filter. split; [done|]. by apply elem_of_enumerate.
Qed.

Lemma NoDup_unwitnessed pczt : NoDup (unwitnessed_indices pczt).
Proof. apply NoDup_fst_filter, NoDup_enumerate_from. Qed.

(** The indices of the actions without a signature. *)
Definition unsigned_indices (pczt : Pczt) : list Z :=
  (filter (λ '(_, action), pa_spend_auth_sig action = None) (enumerate (pczt_actions pczt))).*1.

Lemma elem_of_unsigned pczt i :
  i ∈ unsigned_indices pczt ↔
    0 ≤ i ∧ ∃ a, pczt_actions pczt !! Z.to_nat i = Some a ∧ pa_spend_auth_sig a = None.
Proof.
  unfold unsigned_indices. rewrite list_elem_of_fmap. split.
  - intros ([j a] & -> & [Hw [Hj Ha]%elem_of_enumerate]%list_elem_of_filter). eauto.
  - intros [Hi (a & Ha & Hw)]. exists (i, a). split; [done|].
    apply list_elem_of_filter. split; [done|]. by apply elem_of_enumerate.
Qed.

Lemma unsigned_signed_length pczt :
  (length (unsigned_indices pczt) + length (dummy_signatures pczt))%nat = length (pczt_actions pczt).
Proof.
  unfold unsigned_indices, dummy_signatures. rewrite length_fmap.
  rewrite <- (enumerate_from_length 0 (pczt_actions pczt)). fold (enumerate (pczt_actions pczt)).
  induction (enumerate (pczt_actions pczt)) as [|[i a] l IH]; [done|]. cbn [omap list_omap length].
  destruct (pa_spend_auth_sig a) as [sg|] eqn:Es.
  - rewrite filter_cons_False by (intros E; by rewrite E in Es). simpl. lia.
  - rewrite filter_cons_True by done. simpl. lia.
Qed.

(** As many unsigned actions as real spends, and every real spend unsigned: the
    unsigned actions are the real spends. *)
Lemma unsigned_are_real pczt real :
  NoDup real → (∀ i, i ∈ real → i ∈ unsigned_indices pczt) →
  Z.of_nat (length (dummy_signatures pczt)) = action_len pczt - Z.of_nat (length real) →
  real ≡ₚ unsigned_indices pczt.
Proof.
  intros Hnd Hin Hn. pose proof (unsigned_signed_length pczt). unfold action_len in Hn.
  apply submseteq_length_Permutation; [by apply NoDup_submseteq|lia].
Qed.

Lemma action_at_Ok pczt i a :
  action_at pczt i = Ok a ↔ pczt_actions pczt !! Z.to_nat i = Some a.
Proof. apply expect_Ok. Qed.

Lemma check_unsigned_Ok pczt indices a b :
  check_unsigned pczt indices a b = Ok tt → (∀ i, i ∈ indices → 0 ≤ i) →
  ∀ i, i ∈ indices → i ∈ unsigned_indices pczt.
Proof.
  intros Hc%(res_fold_unit (λ i, _)) Hpos i Hi. rewrite Forall_forall in Hc. apply Hc in Hi as Hf.
  apply res_bind_Ok in Hf as (x & Hx%action_at_Ok & (? & _ & Hs%ensures_Ok%bool_decide_eq_true)%res_bind_Ok).
  apply elem_of_unsigned. split; [auto|eauto].
Qed.

Lemma check_dummy_signatures_Ok pczt pczt' msg i a sg :
  check_dummy_signatures pczt' (dummy_signatures pczt) msg = Ok tt →
  pczt_actions pczt !! i = Some a → pa_spend_auth_sig a = Some sg →
  ∃ a', pczt_actions pczt' !! i = Some a' ∧ pa_spend_auth_sig a' = Some sg.
Proof.
  intros Hc%(res_fold_unit (λ '(i, sg), _)) Ha Hs. rewrite Forall_forall in Hc.
  assert ((Z.of_nat i, sg) ∈ dummy_signatures pczt) as Hin.
  { apply list_elem_of_omap. exists (Z.of_nat i, a). split; [|by rewrite Hs].
    apply elem_of_enumerate. split; [lia|by rewrite Nat2Z.id]. }
  apply Hc in Hin. apply res_bind_Ok in Hin as (a' & Ha'%action_at_Ok & He%ensures_Ok%bool_decide_eq_true).
  rewrite Nat2Z.id in Ha'. eauto.
Qed.

Lemma check_dummies_Ok pczt pczt' i a w :
  check_dummies pczt' (dummy_state pczt) = Ok tt →
  pczt_actions pczt !! i = Some a → pa_witness a = Some w →
  ∃ a', pczt_actions pczt' !! i = Some a' ∧ pa_witness a' = Some w
    ∧ pa_spend_auth_sig a' = pa_spend_auth_sig a.
Proof.
  intros Hc%(res_fold_unit (λ '(i, w, sg), _)) Ha Hw. rewrite Forall_forall in Hc.
  assert ((Z.of_nat i, w, pa_spend_auth_sig a) ∈ dummy_state pczt) as Hin.
  { apply list_elem_of_omap. exists (Z.of_nat i, a). split; [|by rewrite Hw].
    apply elem_of_enumerate. split; [lia|by rewrite Nat2Z.id]. }
  apply Hc in Hin. apply res_bind_Ok in Hin as (a' & Ha'%action_at_Ok & Hin).
  apply res_bind_Ok in Hin as (? & Hw1%ensures_Ok%bool_decide_eq_true & Hw2%ensures_Ok%bool_decide_eq_true).
  rewrite Nat2Z.id in Ha'. eauto.
Qed.

(** ** The loops over the plans *)

(** A witness of the plan, and the index it resolves to. *)
Definition resolved (pczt : Pczt) (i : Z) (witness : NamesIronwoodWitness) : Prop :=
  i ∈ unwitnessed_indices pczt
  ∧ ∃ a, pczt_actions pczt !! Z.to_nat i = Some a ∧ pa_nullifier a = iw_nullifier witness.

Lemma resolve_witness_Ok pczt updates expected entries witness st' :
  resolve_witness pczt (updates, expected, entries) witness = Ok st' →
  ∃ i, resolved pczt i witness ∧ i ∉ entries.*2
    ∧ st' = (updates ++ [(i, iw_merkle_path witness)],
             expected ++ [(i, path_witness (iw_merkle_path witness))],
             entries ++ [(iw_nullifier witness, i)]).
Proof.
  unfold resolve_witness.
  destruct (filter _ (enumerate (pczt_actions pczt))) as [|[i a] rest] eqn:Ef; [done|].
  assert ((i, a) ∈ filter (λ '(_, action), pa_nullifier action = iw_nullifier witness)
    (enumerate (pczt_actions pczt))) as [Hn [Hi Ha]%elem_of_enumerate]%list_elem_of_filter
    by (rewrite Ef; left).
  intros (? & _ & (? & Hw%ensures_Ok%bool_decide_eq_true & (? & Hd%ensures_Ok%existsb_key_fresh & <-%Ok_inj)%res_bind_Ok)%res_bind_Ok)%res_bind_Ok.
  exists i. split; [|done]. split; [|eauto]. apply elem_of_unwitnessed. eauto.
Qed.

Lemma resolve_fold pczt spends updates expected entries st' :
  res_fold (resolve_witness pczt) (updates, expected, entries) spends = Ok st' →
  ∃ ixs, Forall2 (resolved pczt) ixs spends
    ∧ st' = (updates ++ zip_with (λ i s, (i, iw_merkle_path s)) ixs spends,
             expected ++ zip_with (λ i s, (i, path_witness (iw_merkle_path s))) ixs spends,
             entries ++ zip_with (λ i s, (iw_nullifier s, i)) ixs spends).
Proof.
  revert updates expected entries. induction spends as [|s spends IH]; intros us es ws Hr; cbn [res_fold] in Hr.
  { apply Ok_inj in Hr as <-. exists []. split; [constructor|]. by rewrite !app_nil_r. }
  apply res_bind_Ok in Hr as (st1 & (i & Hi & _ & ->)%resolve_witness_Ok & (ixs & Hixs & ->)%IH).
  exists (i :: ixs). split; [by constructor|]. simpl. by rewrite <- !app_assoc.
Qed.

Lemma signing_target_Ok pczt entries targets key targets' :
  signing_target pczt entries targets key = Ok targets' →
  ∃ i a, targets' = targets ++ [(i, sk_ask key)] ∧ (sk_nullifier key, i) ∈ entries
    ∧ pczt_actions pczt !! Z.to_nat i = Some a ∧ pa_nullifier a = sk_nullifier key.
Proof.
  unfold signing_target.
  destruct (filter _ entries) as [|[nf i] rest] eqn:Ef; [done|].
  assert ((nf, i) ∈ filter (λ entry, entry.1 = sk_nullifier key) entries) as [Hn Hin]%list_elem_of_filter
    by (rewrite Ef; left). simpl in Hn. subst nf.
  intros (? & _ & (? & _ & (a & Ha%action_at_Ok & (? & He%ensures_Ok%bool_decide_eq_true & <-%Ok_inj)%res_bind_Ok)%res_bind_Ok)%res_bind_Ok)%res_bind_Ok.
  by exists i, a.
Qed.

Lemma signing_fold pczt entries spends targets targets' :
  res_fold (signing_target pczt entries) targets spends = Ok targets' →
  ∃ ixs, Forall2 (λ i key, ∃ a, pczt_actions pczt !! Z.to_nat i = Some a ∧ pa_nullifier a = sk_nullifier key)
           ixs spends
    ∧ targets' = targets ++ zip_with (λ i key, (i, sk_ask key)) ixs spends.
Proof.
  revert targets. induction spends as [|k spends IH]; intros ts Hr; cbn [res_fold] in Hr.
  { apply Ok_inj in Hr as <-. exists []. split; [constructor|]. by rewrite app_nil_r. }
  apply res_bind_Ok in Hr as (ts1 & (i & a & -> & _ & Ha & Hn)%signing_target_Ok & (ixs & Hixs & ->)%IH).
  exists (i :: ixs). split; [constructor; eauto|]. simpl. by rewrite <- app_assoc.
Qed.
End Indices.

Section Authorizations.
Context `{ConsensusTransactions}.

(** Finalization checks all it needs itself. *)
Lemma finalize_stage built f :
  finalize_names_pczt_io built = Ok f → ∃ l, stage_ok l (fp_metadata f) (fp_pczt f).
Proof.
  intros (l & Hl & (? & Hc%ensures_Ok%Z.eqb_eq & (? & _ & (pczt & _ & Hb)%res_bind_Ok)%res_bind_Ok)%res_bind_Ok)%res_bind_Ok.
  apply res_bind_Ok in Hb as (? & _ & (? & Hly & (? & Hs & (? & _ & (? & Hv & <-%Ok_inj)%res_bind_Ok)%res_bind_Ok)%res_bind_Ok)%res_bind_Ok).
  exists l. cbn [fp_metadata fp_pczt]. apply embedded_layout_length in Hl. rewrite Hc in Hl.
  eapply stage_next; [exact Hl|exact Hly|exact Hs|exact Hv].
Qed.

Lemma same_layout_lookup p p' l i a :
  embedded_action_layout p = Ok l → embedded_action_layout p' = Ok l →
  pczt_actions p !! i = Some a →
  ∃ a', pczt_actions p' !! i = Some a' ∧ pa_nullifier a' = pa_nullifier a ∧ pa_cmx a' = pa_cmx a.
Proof.
  intros Hf%embedded_layout_Forall2 Hf'%embedded_layout_Forall2 Ha.
  destruct (Forall2_lookup_l _ _ _ _ _ Hf Ha) as (pr & Hp & Hc & Hn).
  destruct (Forall2_lookup_r _ _ _ _ _ Hf' Hp) as (a' & Ha' & Hc' & Hn').
  exists a'. split; [done|]. split; congruence.
Qed.

Lemma signed_count_all pczt i a :
  signed_count pczt = action_len pczt → pczt_actions pczt !! i = Some a → pa_spend_auth_sig a ≠ None.
Proof.
  unfold signed_count, action_len. intros Hn%Nat2Z.inj%length_filter_all Ha.
  rewrite Forall_forall in Hn. by eapply Hn, list_elem_of_lookup_2.
Qed.

(** The signature of a padding action goes through every stage. *)
Lemma padding_signature f w v s l real i a0 a :
  stage_ok l (fp_metadata f) (fp_pczt f) → stage_ok l (wp_metadata w) (wp_pczt w) →
  stage_ok l (vp_metadata v) (vp_pczt v) → stage_ok l (sp_metadata s) (sp_pczt s) →
  real ≡ₚ unsigned_indices (wp_pczt w) → real = unwitnessed_indices (fp_pczt f) →
  check_dummies (wp_pczt w) (dummy_state (fp_pczt f)) = Ok tt →
  (∃ msg, check_dummy_signatures (vp_pczt v) (dummy_signatures (wp_pczt w)) msg = Ok tt) →
  (∃ msg, check_dummy_signatures (sp_pczt s) (dummy_signatures (vp_pczt v)) msg = Ok tt) →
  pczt_actions (fp_pczt f) !! i = Some a0 → pczt_actions (sp_pczt s) !! i = Some a →
  Z.of_nat i ∉ real → pa_spend_auth_sig a = pa_spend_auth_sig a0.
Proof.
  intros Sf Sw Sv Ss Hreal -> Hcd (m1 & Hv) (m2 & Hs) Ha0 Ha Hi.
  assert (∃ wit, pa_witness a0 = Some wit) as [wit Hwit].
  { destruct (pa_witness a0) eqn:E; [eauto|]. exfalso. apply Hi, elem_of_unwitnessed.
    split; [lia|]. rewrite Nat2Z.id. eauto. }
  destruct (check_dummies_Ok _ _ _ _ _ Hcd Ha0 Hwit) as (a1 & Ha1 & _ & Es).
  assert (∃ sg, pa_spend_auth_sig a1 = Some sg) as [sg Hsg].
  { destruct (pa_spend_auth_sig a1) eqn:E; [eauto|]. exfalso. apply Hi. rewrite Hreal.
    apply elem_of_unsigned. split; [lia|]. rewrite Nat2Z.id. eauto. }
  destruct (check_dummy_signatures_Ok _ _ _ _ _ _ Hv Ha1 Hsg) as (a2 & Ha2 & Hsg2).
  destruct (check_dummy_signatures_Ok _ _ _ _ _ _ Hs Ha2 Hsg2) as (a3 & Ha3 & Hsg3).
  rewrite Ha in Ha3. injection Ha3 as <-. congruence.
Qed.
End Authorizations.

(** C23: every real spend is witnessed and signed, exactly once, with what the plans
    give for its nullifier.  The real spends are the actions without a witness
    after finalization; both plans name each of them once; the planned witness is
    installed at the action of its nullifier; the signer is called on exactly the
    real spends, each with the key planned for its nullifier; and in the signed
    PCZT, whose actions are the finalized ones in order, every action is
    authorized and the padding has the signatures it had. *)
Theorem real_spends_authorized `{ConsensusTransactions} built f wplan w key v splan s :
  finalize_names_pczt_io built = Ok f → install_names_ironwood_witnesses f wplan = Ok w →
  prove_names_ironwood_pczt w key = Ok v → sign_names_ironwood_pczt v splan = Ok s →
  let real := unwitnessed_indices (fp_pczt f) in
  (NoDup real ∧ length (wpl_spends wplan) = length real ∧ length (spl_spends splan) = length real)
  ∧ (∀ witness, witness ∈ wpl_spends wplan →
       ∃ i a a', i ∈ real ∧ pczt_actions (fp_pczt f) !! Z.to_nat i = Some a
         ∧ pa_nullifier a = iw_nullifier witness ∧ pczt_actions (wp_pczt w) !! Z.to_nat i = Some a'
         ∧ pa_witness a' = Some (path_witness (iw_merkle_path witness)))
  ∧ (∃ targets signer signer',
       targets.*1 ≡ₚ real ∧ signer_new (vp_pczt v) = Some signer
       ∧ res_fold (λ signer '(i, ask), with_context (sign_ironwood signer i ask)
           "sign Names Ironwood spend") signer targets = Ok signer' ∧ sp_pczt s = signer_finish signer'
       ∧ Forall2 (λ '(i, ask) k, ask = sk_ask k ∧ ∃ a, pczt_actions (vp_pczt v) !! Z.to_nat i = Some a
           ∧ pa_nullifier a = sk_nullifier k) targets (spl_spends splan))
  ∧ ∀ i a0, pczt_actions (fp_pczt f) !! i = Some a0 →
      ∃ a, pczt_actions (sp_pczt s) !! i = Some a ∧ pa_nullifier a = pa_nullifier a0 ∧ pa_cmx a = pa_cmx a0
        ∧ pa_spend_auth_sig a ≠ None ∧ (Z.of_nat i ∉ real → pa_spend_auth_sig a = pa_spend_auth_sig a0).
Proof.
  intros Hf Hw Hv Hs real. destruct (finalize_stage _ _ Hf) as [l Sf].
  destruct (install_Ok _ _ _ _ Hw Sf) as (Em & Sw & _ & Hn & Hsort & us & es & Hr & Hci & Hcd).
  destruct (prove_Ok _ _ _ _ Hv Sw) as (Em' & Sv & _ & Ew & (m1 & m2 & Hun) & Hd & Hdv).
  destruct (sign_Ok _ _ _ _ Hs Sv) as (Em'' & Ss & _ & Hsc & Hds & ts & Ht & Hlen & Hperm & sg & sg' & Hsg & Hsf & Hfin).
  fold real in Hn, Hsort. rewrite Hsort in Hun. rewrite Ew in Hperm, Ht.
  assert (ts.*1 ≡ₚ real) as Htr by (by rewrite Hperm, <- Hsort, merge_sort_Permutation).
  apply resolve_fold in Hr as (ixs & Hixs & [= _ -> Hwi]).
  apply signing_fold in Ht as (jxs & Hjxs & ->). simpl in Htr, Hsf, Hwi.
  assert (NoDup real) as Hnd by apply NoDup_unwitnessed.
  assert (real ≡ₚ unsigned_indices (wp_pczt w)) as Hreal.
  { apply unsigned_are_real; [done| |].
    - eapply check_unsigned_Ok; [exact Hun|]. by intros i [Hi _]%elem_of_unwitnessed.
    - rewrite Hd, Hn, <- (embedded_layout_length _ l (so_layout _ _ _ Sw)). by rewrite (so_count _ _ _ Sw). }
  split; [split; [done|split]|split; [|split]].
  - pose proof (f_equal length Hsort) as El. rewrite merge_sort_Permutation, Hwi, length_fmap in El.
    rewrite <- El, length_zip_with, (Forall2_length _ _ _ Hixs). lia.
  - apply Nat2Z.inj. rewrite Hlen, Hn. by rewrite Em'.
  - intros wt (k & Hk)%list_elem_of_lookup_1.
    destruct (Forall2_lookup_r _ _ _ _ _ Hixs Hk) as (i & Hi & Hin & a & Ha & Hna).
    apply (res_fold_unit (λ '(i, w), _)) in Hci. rewrite Forall_forall in Hci.
    assert ((i, path_witness (iw_merkle_path wt)) ∈ zip_with (λ i s, (i, path_witness (iw_merkle_path s))) ixs (wpl_spends wplan))
      as Hz%Hci by (eapply list_elem_of_lookup_2, lookup_zip_with_Some; eauto).
    apply res_bind_Ok in Hz as (a' & Ha'%action_at_Ok & Hwit%ensures_Ok%bool_decide_eq_true).
    by exists i, a, a'.
  - exists (zip_with (λ i k, (i, sk_ask k)) jxs (spl_spends splan)), sg, sg'. do 4 (split; [done|]).
    clear -Hjxs. induction Hjxs; simpl; constructor; auto.
  - intros i a0 Ha0.
    destruct (same_layout_lookup _ _ _ _ _ (so_layout _ _ _ Sf) (so_layout _ _ _ Ss) Ha0) as (a & Ha & Hna & Hca).
    exists a. do 3 (split; [done|]). split.
    + eapply signed_count_all; [|exact Ha]. rewrite Hsc, <- Em''.
      by rewrite <- (embedded_layout_length _ l (so_layout _ _ _ Ss)), (so_count _ _ _ Ss).
    + by eapply padding_signature.
Qed.
