(* ===== verification/ProofSystem.v ===== *)
(** * Proof adapters ([crates/coppice-names/src/proof.rs])

    The prover of the wallet and the verifier of replay, over the Names circuit of
    Orchard: the circuit itself is third-party code ([Orchard.OrchardCircuit]). *)

From S2P Require Import Prelude Bytes External Protocol Statement Records.
From S2P Require Import Ruleset Deployment Orchard.

Inductive ProofError := InvalidSecret | InvalidStatement | Proving.

Record OrchardProofProver `{OrchardCircuit} := MkOrchardProofProver {
  prover_keys : ProvingKeys;
}.

Record OrchardProofVerifier `{OrchardCircuit} := MkOrchardProofVerifier {
  verifier_keys : VerifyingKeys;
}.

Arguments MkOrchardProofProver {_ _} _.
Arguments MkOrchardProofVerifier {_ _} _.

Section ProofSystem.
Context `{Blake2b} `{Pallas} `{!Poseidon} `{OrchardCircuit}.

(** [OrchardProofVerifier::identity] *)
Definition identity {E : Type} (self : OrchardProofVerifier) : res E ProofIdentity :=
  let? circuit_k := expect (u8_try_from CIRCUIT_K) in
  let? reveal_proof_bytes := expect (u16_try_from REVEAL_PROOF_BYTES) in
  let? refresh_proof_bytes := expect (u16_try_from REFRESH_PROOF_BYTES) in
  Ok (ProofIdentity_derive circuit_k reveal_proof_bytes refresh_proof_bytes
        (reveal_fingerprint (verifier_keys self)) (refresh_fingerprint (verifier_keys self))).

Definition keygen : OrchardProofProver * OrchardProofVerifier :=
  let (proving, verifying) := circuit_keygen in
  (MkOrchardProofProver proving, MkOrchardProofVerifier verifying).

Definition digest (b : list byte) : res ProofError StatementDigest :=
  ok_or (digest_from_bytes b) InvalidStatement.

Definition transcript {E : Type} (fields : list base) : res E (list TranscriptField) :=
  res_mapM (λ field, expect (transcript_from_bytes (to_repr field))) fields.

Definition prove_reveal (self : OrchardProofProver) (statement : RevealStatement) (successor : Note)
  (spending_key : SpendingKey) (secret : FieldElement) (rng : Rng) : res ProofError (list byte) :=
  let? secret := ok_or (secret_from_bytes (field_bytes secret)) InvalidSecret in
  let? d := RevealStatement_digest statement in
  let? digest := digest d in
  let? fields := RevealStatement_fields statement in
  let? fields := transcript fields in
  let witness := (successor, spending_key, secret, fields) in
  lift_err (λ _, Proving) (circuit_prove_reveal (prover_keys self) witness digest rng).

Definition prove_refresh (self : OrchardProofProver) (statement : RefreshStatement)
  (predecessor successor : Note) (spending_key : SpendingKey) (rng : Rng)
  : res ProofError (list byte) :=
  let? d := RefreshStatement_digest statement in
  let? digest := digest d in
  let? fields := RefreshStatement_fields statement in
  let? fields := transcript fields in
  let witness := (predecessor, successor, spending_key, fields) in
  lift_err (λ _, Proving) (circuit_prove_refresh (prover_keys self) witness digest rng).

(** [.is_ok_and(f)].  A panic of the digest has no boolean: the statements the
    reducer builds have none ([RevealStatement_fields_total]). *)
Definition is_ok_and {E A : Type} (m : res E A) (f : A → bool) : bool :=
  match m with Ok a => f a | Err _ | Panic => false end.

(** [impl ProofVerifier for OrchardProofVerifier] *)
#[export] Instance orchard_proof_verifier : ProofVerifier OrchardProofVerifier := {|
  Records.verify_reveal self statement proof :=
    is_ok_and (let? d := RevealStatement_digest statement in digest d)
      (λ digest, circuit_verify_reveal (verifier_keys self) proof digest);
  Records.verify_refresh self statement proof :=
    is_ok_and (let? d := RefreshStatement_digest statement in digest d)
      (λ digest, circuit_verify_refresh (verifier_keys self) proof digest) |}.

(** ** Properties *)

Lemma transcript_no_panic `{!OrchardCircuitLaws} {E} fields : transcript (E := E) fields ≠ Panic.
Proof.
  induction fields as [|x l IH]; [done|]. apply bind_no_panic; [|intros ? _].
  - apply expect_no_panic, transcript_from_repr.
  - by apply bind_no_panic.
Qed.

Lemma prove_reveal_no_panic `{!OrchardCircuitLaws} self s successor sk secret rng :
  RevealStatement_ok s → prove_reveal self s successor sk secret rng ≠ Panic.
Proof.
  intros Hs. destruct (RevealStatement_fields_total (E := ProofError) s Hs) as (xs & Hx & _).
  unfold prove_reveal, RevealStatement_digest. rewrite Hx. cbn [res_bind].
  apply bind_no_panic; [apply ok_or_no_panic|intros ? _].
  apply bind_no_panic; [apply ok_or_no_panic|intros ? _].
  apply bind_no_panic; [apply transcript_no_panic|intros; apply lift_err_no_panic].
Qed.

Lemma prove_refresh_no_panic `{!OrchardCircuitLaws} self s predecessor successor sk rng :
  RefreshStatement_ok s → prove_refresh self s predecessor successor sk rng ≠ Panic.
Proof.
  intros Hs. destruct (RefreshStatement_fields_total (E := ProofError) s Hs) as (xs & Hx & _).
  unfold prove_refresh, RefreshStatement_digest. rewrite Hx. cbn [res_bind].
  apply bind_no_panic; [apply ok_or_no_panic|intros ? _].
  apply bind_no_panic; [apply transcript_no_panic|intros; apply lift_err_no_panic].
Qed.
End ProofSystem.
