(* ===== verification/Recovery.v ===== *)
(** * Recovery from the wallet seed ([crates/coppice-names-wallet/src/recovery.rs])

    The per-name authority, the opening of a COMMIT and the successor notes, all
    derived from the seed by retrying until a candidate is acceptable. *)

From S2P Require Import Prelude Bytes External Protocol Statement Orchard.

Definition WALLET_SEED_BYTES : Z := 64.

Record CommitOpening := MkCommitOpening {
  co_commitment : Commitment;
  co_secret : FieldElement;
}.

Inductive RecoveryError :=
  | WrongSeedLength
  | AuthorityDerivationExhausted
  | CommitDerivationExhausted
  | InvalidActionNullifier
  | NoteDerivationExhausted.

(** ** [for retry in 0..=u32::MAX]

    A body continues with [Ok None], and leaves the loop with a value, an error or
    a panic.  The range is halved, so that the [2^32] iterations are 32 levels of
    recursion. *)

Section Retries.
Context {E A : Type}.
Implicit Types (f : Z → res E (option A)).

Fixpoint retries (k : nat) (start : Z) f : res E (option A) :=
  match k with
  | O => f start
  | S k =>
      let? found := retries k start f in
      match found with
      | Some a => Ok (Some a)
      | None => retries k (start + 2 ^ Z.of_nat k) f
      end
  end.

Definition for_retry f : res E (option A) := retries 32 0 f.

(** The loop stops at [i]. *)
Definition stops_at f (start i : Z) (r : res E (option A)) : Prop :=
  f i = r ∧ r ≠ Ok None ∧ ∀ j, start ≤ j < i → f j = Ok None.

Lemma retries_None k start f :
  retries k start f = Ok None → ∀ j, start ≤ j < start + 2 ^ Z.of_nat k → f j = Ok None.
Proof.
  revert start. induction k as [|k IH]; intros start Hr j Hj; cbn [retries] in Hr.
  { by replace j with start by (simpl in Hj; lia). }
  rewrite Nat2Z.inj_succ, Z.pow_succ_r in Hj by lia.
  destruct (retries k start f) as [[a|]|e|] eqn:E1; [done| |done..]. cbn [res_bind] in Hr.
  destruct (decide (j < start + 2 ^ Z.of_nat k)); [apply (IH start E1); lia|].
  apply (IH (start + 2 ^ Z.of_nat k)); [done|lia].
Qed.

Lemma retries_stops k start f :
  retries k start f ≠ Ok None →
  ∃ i, start ≤ i < start + 2 ^ Z.of_nat k ∧ stops_at f start i (retries k start f).
Proof.
  revert start. induction k as [|k IH]; intros start Hn; cbn [retries] in *.
  { exists start. split; [simpl; lia|]. split; [done|]. split; [done|]. lia. }
  rewrite Nat2Z.inj_succ, Z.pow_succ_r by lia. pose proof (IH start) as IH1.
  destruct (retries k start f) as [[a|]|e|] eqn:E1; cbn [res_bind] in *.
  2: { destruct (IH (start + 2 ^ Z.of_nat k) Hn) as (i & Hi & Hf & Hr & Hb). exists i. split; [lia|].
       split; [done|]. split; [done|]. intros j Hj. destruct (decide (j < start + 2 ^ Z.of_nat k)).
       - apply (retries_None k start f E1). lia.
       - apply Hb. lia. }
  all: destruct IH1 as (i & Hi & Hs); [done|]; exists i; split; [lia|done].
Qed.

(** The loop runs to its end, or stops at the first iteration that does not
    continue. *)
Lemma for_retry_spec f :
  (for_retry f = Ok None ∧ ∀ j, is_u32 j → f j = Ok None)
  ∨ ∃ i, is_u32 i ∧ stops_at f 0 i (for_retry f).
Proof.
  unfold for_retry, is_u32, u32_max.
  assert (retries 32 0 f = Ok None ∨ retries 32 0 f ≠ Ok None) as [E1|Hn]
    by (destruct (retries 32 0 f) as [[]| |]; auto).
  - left. split; [done|]. intros j Hj. apply (retries_None 32 0 f E1). simpl. lia.
  - right. destruct (retries_stops 32 0 f Hn) as (i & Hi & Hs). exists i. split; [simpl in Hi; lia|done].
Qed.

Lemma for_retry_Some f a :
  for_retry f = Ok (Some a) → ∃ i, is_u32 i ∧ f i = Ok (Some a) ∧ ∀ j, 0 ≤ j < i → f j = Ok None.
Proof.
  intros E1. destruct (for_retry_spec f) as [[? _]|(i & Hi & Hf & _ & Hb)]; [congruence|].
  exists i. by rewrite Hf.
Qed.

Lemma for_retry_no_panic f : (∀ i, is_u32 i → f i ≠ Panic) → for_retry f ≠ Panic.
Proof.
  intros Hf. destruct (for_retry_spec f) as [[-> _]|(i & Hi & <- & _)]; [done|by apply Hf].
Qed.
End Retries.

(** ** Derivations *)

Section Recovery.
Context `{Blake2b} `{Pallas} `{!Poseidon} `{OrchardNotes}.

Definition hash32 (personalization input : list byte) : list byte := blake2b 32 personalization [] input.
Definition keyed_hash32 (personalization key input : list byte) : list byte :=
  blake2b 32 personalization key input.
Definition keyed_hash64 (personalization key input : list byte) : list byte :=
  blake2b 64 personalization key input.

Definition derive_names_master (wallet_seed : list byte) : res RecoveryError (list byte) :=
  let? _ := ensure (Z.of_nat (length wallet_seed) =? WALLET_SEED_BYTES) WrongSeedLength in
  let root_input := be_bytes 2 (Z.of_nat (length wallet_seed)) ++ wallet_seed in
  Ok (hash32 (lit "CoppiceNmRoot_") root_input).

Definition derive_name_spending_key (wallet_seed deployment_id : list byte) (name : Name)
  : res RecoveryError SpendingKey :=
  let? master := derive_names_master wallet_seed in
  let? found := for_retry (λ retry,
    let? len := expect (u8_try_from (Z.of_nat (length (name_bytes name)))) in
    let input := deployment_id ++ [byte_of len] ++ name_bytes name ++ be_bytes 4 retry in
    let candidate := keyed_hash32 (lit "CoppiceNmOwner") master input in
    Ok (sk_from_bytes candidate)) in
  ok_or found AuthorityDerivationExhausted.

(** One iteration of [derive_commit_opening]. *)
Definition opening_candidate (key deployment_id : list byte) (name_id : NameId) (target_epoch : Z)
  (owner : FieldElement) (retry : Z) : res RecoveryError (option CommitOpening) :=
  let input := deployment_id ++ be_bytes 4 target_epoch ++ be_bytes 4 retry in
  let uniform := keyed_hash64 (lit "CoppiceNmComS") key input in
  let candidate := from_uniform_bytes uniform in
  if bool_decide (candidate = base_zero) then Ok None
  else
    let? secret := map_err (λ _, CommitDerivationExhausted) (FieldElement_from_bytes (to_repr candidate)) in
    let? commitment := registration_commitment deployment_id name_id target_epoch owner secret in
    match Commitment_from_bytes commitment with
    | Ok commitment => Ok (Some (MkCommitOpening commitment secret))
    | Err _ => Ok None
    | Panic => Panic
    end.

Definition derive_commit_opening (spending_key : SpendingKey) (deployment_id : list byte) (name : Name)
  (target_epoch : Z) : res RecoveryError CommitOpening :=
  let? name_id := map_err (λ _, CommitDerivationExhausted) (Name_id name) in
  let? owner := map_err (λ _, CommitDerivationExhausted)
                  (FieldElement_from_bytes (sk_owner_commitment spending_key)) in
  let key := sk_to_bytes spending_key in
  let? found := for_retry (opening_candidate key deployment_id name_id target_epoch owner) in
  ok_or found CommitDerivationExhausted.

(** The hashed input of one candidate of [derive_bond_note]. *)
Definition bond_note_input (deployment_id : list byte) (operation_tag : Z) (reference : list byte)
  (target_epoch : Z) (ua : list byte) (action_index : Z) (action_nullifier : FieldElement) (retry : Z)
  : list byte :=
  deployment_id ++ [byte_of operation_tag] ++ reference ++ be_bytes 4 target_epoch ++ ua
  ++ be_bytes 4 action_index ++ field_bytes action_nullifier ++ be_bytes 4 retry.

Definition derive_bond_note (spending_key : SpendingKey) (deployment_id : list byte) (operation_tag : Z)
  (reference : list byte) (target_epoch : Z) (ua : CanonicalUa) (action_index : Z)
  (action_nullifier : FieldElement) : res RecoveryError Note :=
  let? rho := ok_or (rho_from_bytes (field_bytes action_nullifier)) InvalidActionNullifier in
  let key := sk_to_bytes spending_key in
  let? ua := ua_field ua in
  let ua := to_repr ua in
  let fvk := fvk_of spending_key in
  let? found := for_retry (λ retry,
    let candidate := keyed_hash32 (lit "CoppiceNmNote_") key
      (bond_note_input deployment_id operation_tag reference target_epoch ua action_index
         action_nullifier retry) in
    match seed_from_bytes candidate rho with
    | None => Ok None
    | Some seed => Ok (note_from_parts (address_at fvk 0) BOND_ZATOSHIS rho seed)
    end) in
  ok_or found NoteDerivationExhausted.

Definition derive_reveal_bond_note (spending_key : SpendingKey) (deployment_id : list byte)
  (commit_ref : CommitRef) (target_epoch : Z) (ua : CanonicalUa) (action_index : Z)
  (action_nullifier : FieldElement) : res RecoveryError Note :=
  let reference := be_bytes 4 (cr_height commit_ref) ++ be_bytes 4 (cr_tx_index commit_ref)
    ++ cr_txid commit_ref in
  derive_bond_note spending_key deployment_id 1 reference target_epoch ua action_index action_nullifier.

Definition derive_refresh_bond_note (spending_key : SpendingKey) (deployment_id : list byte)
  (predecessor_ref : StateRef) (target_epoch : Z) (ua : CanonicalUa) (action_index : Z)
  (action_nullifier : FieldElement) : res RecoveryError Note :=
  let reference := be_bytes 4 (sr_height predecessor_ref) ++ be_bytes 4 (sr_tx_index predecessor_ref)
    ++ sr_txid predecessor_ref ++ be_bytes 4 (sr_action_index predecessor_ref) in
  derive_bond_note spending_key deployment_id 2 reference target_epoch ua action_index action_nullifier.
End Recovery.

(** ** Properties *)

Section RecoveryFacts.
Context `{Blake2b} `{Pallas} `{!Poseidon} `{OrchardNotes}.

Lemma derive_names_master_no_panic seed : derive_names_master seed ≠ Panic.
Proof. apply bind_no_panic; [apply ensure_no_panic|done]. Qed.

Lemma derive_names_master_length seed m : derive_names_master seed = Ok m → length m = 32%nat.
Proof. intros (? & _ & <-%Ok_inj)%res_bind_Ok. apply blake2b_length. Qed.

Lemma Name_ok_length_u8 name :
  Name_ok name → is_Some (u8_try_from (Z.of_nat (length (name_bytes name)))).
Proof.
  intros ((_ & Hlen) & _). unfold u8_try_from, u8_max, MAX_NAME_BYTES in *.
  destruct (Z.leb_spec (Z.of_nat (length (name_bytes name))) 255); [by eexists|lia].
Qed.

Lemma derive_name_spending_key_no_panic seed deployment_id name :
  Name_ok name → derive_name_spending_key seed deployment_id name ≠ Panic.
Proof.
  intros Hn. apply bind_no_panic; [apply derive_names_master_no_panic|intros m _].
  apply bind_no_panic; [|intros; apply ok_or_no_panic]. apply for_retry_no_panic. intros i _.
  apply bind_no_panic; [|done]. apply expect_no_panic. by apply Name_ok_length_u8.
Qed.

(** What the loop of [derive_commit_opening] accepts. *)
Definition opens (deployment_id : list byte) (name_id : NameId) (epoch : Z) (owner : FieldElement)
  (o : CommitOpening) : Prop :=
  Commitment_ok (co_commitment o) ∧ FieldElement_ok (co_secret o)
  ∧ from_repr (field_bytes (co_secret o)) ≠ Some base_zero
  ∧ registration_commitment (E := RecoveryError) deployment_id name_id epoch owner (co_secret o)
    = Ok (commitment_bytes (co_commitment o)).

Lemma opening_candidate_Ok key deployment_id name_id epoch owner retry o :
  opening_candidate key deployment_id name_id epoch owner retry = Ok (Some o) →
  opens deployment_id name_id epoch owner o
  ∧ co_secret o = MkFieldElement (to_repr (from_uniform_bytes (keyed_hash64 (lit "CoppiceNmComS") key
      (deployment_id ++ be_bytes 4 epoch ++ be_bytes 4 retry)))).
Proof.
  unfold opening_candidate. case_bool_decide as Hz; [done|].
  intros (s & Hs%map_err_Ok & (c & Hc & Hr)%res_bind_Ok)%res_bind_Ok.
  destruct (Commitment_from_bytes c) as [k|e|] eqn:Ek; [|done..]. apply Ok_inj in Hr as [= <-].
  cbn [co_commitment co_secret]. pose proof Hs as [_ ->]%FieldElement_from_bytes_Ok.
  pose proof Ek as (x & _ & _ & ->)%Commitment_from_bytes_Ok. split; [|done].
  split; [exact Ek|]. split; [exact Hs|]. split; [|exact Hc].
  cbn [co_secret field_bytes]. rewrite from_repr_to_repr. by intros [= E].
Qed.

Lemma opening_candidate_no_panic key deployment_id name_id epoch owner retry :
  length deployment_id = 32%nat → NameId_ok name_id → is_u32 epoch → FieldElement_ok owner →
  opening_candidate key deployment_id name_id epoch owner retry ≠ Panic.
Proof.
  intros Hd Hn He Ho. unfold opening_candidate. case_bool_decide; [done|].
  apply bind_no_panic; [apply map_err_no_panic|intros s Hs%map_err_Ok].
  { unfold FieldElement_from_bytes, canonical_field. by rewrite from_repr_to_repr. }
  assert (FieldElement_ok s) as Hok
    by (pose proof Hs as [_ ->]%FieldElement_from_bytes_Ok; exact Hs).
  destruct (registration_fields_total (E := RecoveryError) deployment_id name_id epoch owner s)
    as (xs & Hxs & _); [done..|].
  unfold registration_commitment. rewrite Hxs. cbn [res_bind].
  unfold Commitment_from_bytes, canonical_field. rewrite from_repr_to_repr. cbn [ok_or res_bind].
  by case_bool_decide.
Qed.

Lemma derive_commit_opening_Ok sk deployment_id name epoch o :
  derive_commit_opening sk deployment_id name epoch = Ok o →
  ∃ i owner retry, Name_id name = Ok i ∧ FieldElement_from_bytes (sk_owner_commitment sk) = Ok owner
    ∧ is_u32 retry
    ∧ opening_candidate (sk_to_bytes sk) deployment_id i epoch owner retry = Ok (Some o)
    ∧ ∀ j, 0 ≤ j < retry → opening_candidate (sk_to_bytes sk) deployment_id i epoch owner j = Ok None.
Proof.
  intros (i & Hi%map_err_Ok & (owner & Ho%map_err_Ok & Hr)%res_bind_Ok)%res_bind_Ok.
  apply res_bind_Ok in Hr as (found & Hf & Hr%ok_or_Ok). subst found.
  apply for_retry_Some in Hf as (retry & Hret & Hc & Hb). exists i, owner, retry. done.
Qed.

Lemma derive_bond_note_Ok sk deployment_id tag reference epoch ua index nf note :
  derive_bond_note sk deployment_id tag reference epoch ua index nf = Ok note →
  ∃ rho u retry seed, rho_from_bytes (field_bytes nf) = Some rho ∧ ua_field (E := RecoveryError) ua = Ok u
    ∧ is_u32 retry
    ∧ seed_from_bytes (keyed_hash32 (lit "CoppiceNmNote_") (sk_to_bytes sk)
        (bond_note_input deployment_id tag reference epoch (to_repr u) index nf retry)) rho = Some seed
    ∧ note_from_parts (address_at (fvk_of sk) 0) BOND_ZATOSHIS rho seed = Some note.
Proof.
  intros (rho & Hrho%ok_or_Ok & (u & Hu & Hr)%res_bind_Ok)%res_bind_Ok.
  apply res_bind_Ok in Hr as (found & Hf & ->%ok_or_Ok).
  apply for_retry_Some in Hf as (retry & Hret & Hc & _).
  cbv zeta in Hc.
  destruct (seed_from_bytes (keyed_hash32 (lit "CoppiceNmNote_") (sk_to_bytes sk)
    (bond_note_input deployment_id tag reference epoch (to_repr u) index nf retry)) rho)
    as [seed|] eqn:Es; [|done]. apply Ok_inj in Hc.
  by exists rho, u, retry, seed.
Qed.

(** The inputs hashed for two notes agree only in the same context. *)
Lemma bond_note_input_inj d1 t1 r1 e1 u1 a1 n1 i1 d2 t2 r2 e2 u2 a2 n2 i2 :
  length d1 = length d2 → length u1 = length u2 → length (field_bytes n1) = length (field_bytes n2) →
  0 ≤ t1 < 256 → 0 ≤ t2 < 256 → (t1 = t2 → length r1 = length r2) →
  is_u32 e1 → is_u32 e2 → is_u32 a1 → is_u32 a2 → is_u32 i1 → is_u32 i2 →
  bond_note_input d1 t1 r1 e1 u1 a1 n1 i1 = bond_note_input d2 t2 r2 e2 u2 a2 n2 i2 →
  d1 = d2 ∧ t1 = t2 ∧ r1 = r2 ∧ e1 = e2 ∧ u1 = u2 ∧ a1 = a2 ∧ n1 = n2 ∧ i1 = i2.
Proof.
  intros Ld Lu Ln Ht1 Ht2 Lr He1 He2 Ha1 Ha2 Hi1 Hi2. unfold bond_note_input.
  intros [-> Eq]%app_inj_length; [|done].
  apply (app_inj_length [_] [_]) in Eq as [[= Et] Eq]; [|done].
  assert (t1 = t2) as ->.
  { apply (f_equal byte_val) in Et. rewrite !byte_val_of, !Z.mod_small in Et by lia. done. }
  apply app_inj_length in Eq as [-> Eq]; [|by apply Lr].
  apply app_inj_length in Eq as [Ee Eq]; [|by rewrite !length_be_bytes].
  apply app_inj_length in Eq as [-> Eq]; [|done].
  apply app_inj_length in Eq as [Ea Eq]; [|by rewrite !length_be_bytes].
  apply app_inj_length in Eq as [En Ei]; [|done].
  apply u32_be_inj in Ee as ->, Ea as ->, Ei as ->; [|done..].
  destruct n1, n2. simpl in En. by subst.
Qed.
End RecoveryFacts.

(** C25: COMMIT openings are recoverable.  For every key, deployment, name and
    epoch the derivation ends without a panic; an opening it returns is that of
    the first retry whose secret is nonzero and whose commitment is canonical and
    nonzero, so that the same inputs recover the same opening; and its commitment
    is the registration commitment of exactly that deployment, name, epoch, owner
    and secret. *)
Theorem commit_opening_recoverable `{Blake2b} `{Pallas} `{!Poseidon} `{OrchardNotes}
  (sk : SpendingKey) (deployment_id : list byte) (name : Name) (epoch : Z) :
  length deployment_id = 32%nat → Name_ok name → is_u32 epoch →
  derive_commit_opening sk deployment_id name epoch ≠ Panic
  ∧ ∀ o, derive_commit_opening sk deployment_id name epoch = Ok o →
      ∃ i owner retry, Name_id name = Ok i
        ∧ FieldElement_from_bytes (sk_owner_commitment sk) = Ok owner
        ∧ opens deployment_id i epoch owner o
        ∧ is_u32 retry
        ∧ co_secret o = MkFieldElement (to_repr (from_uniform_bytes (keyed_hash64 (lit "CoppiceNmComS")
            (sk_to_bytes sk) (deployment_id ++ be_bytes 4 epoch ++ be_bytes 4 retry))))
        ∧ ∀ j, 0 ≤ j < retry →
            opening_candidate (sk_to_bytes sk) deployment_id i epoch owner j = Ok None.
Proof.
  intros Hd Hn He. split.
  - apply bind_no_panic; [by apply map_err_no_panic, Name_id_no_panic|intros i Hi%map_err_Ok].
    apply bind_no_panic; [apply map_err_no_panic|intros owner Ho%map_err_Ok].
    { unfold FieldElement_from_bytes, canonical_field. by destruct (from_repr _). }
    apply bind_no_panic; [|intros; apply ok_or_no_panic]. apply for_retry_no_panic. intros j _.
    apply opening_candidate_no_panic; [done|by eapply Name_id_ok|done|].
    pose proof Ho as [_ ->]%FieldElement_from_bytes_Ok. exact Ho.
  - intros o (i & owner & retry & Hi & Ho & Hret & Hc & Hb)%derive_commit_opening_Ok.
    destruct (opening_candidate_Ok _ _ _ _ _ _ _ Hc) as [Hop Hs]. by exists i, owner, retry.
Qed.

(** Successor notes are recoverable.  A derived REVEAL or REFRESH note is a
    bond of exactly the required value on the spent nullifier, at the name's own
    address; and the candidates hashed for two notes differ unless the deployment,
    the operation, its reference, the epoch, the address, the action and the
    nullifier are the same. *)
Theorem bond_note_recoverable `{Blake2b} `{Pallas} `{!Poseidon} `{OrchardNotes} `{!OrchardNotesLaws}
  (sk : SpendingKey) (deployment_id : list byte) (c : CommitRef) (p : StateRef) (epoch : Z)
  (ua : CanonicalUa) (index : Z) (nf : FieldElement) (note : Note) :
  CommitRef_ok c → StateRef_ok p → is_u32 epoch → is_u32 index →
  derive_reveal_bond_note sk deployment_id c epoch ua index nf = Ok note
  ∨ derive_refresh_bond_note sk deployment_id p epoch ua index nf = Ok note →
  note_value note = BOND_ZATOSHIS ∧ rho_from_bytes (field_bytes nf) = Some (note_rho note)
  ∧ (∃ seed, note_from_parts (address_at (fvk_of sk) 0) BOND_ZATOSHIS (note_rho note) seed = Some note)
  ∧ ∀ u retry d2 t2 r2 e2 u2 i2 n2 retry2,
      length d2 = length deployment_id → length u2 = length u →
      length (field_bytes n2) = length (field_bytes nf) → (t2 = 1 ∧ length r2 = 40%nat ∨ t2 = 2 ∧ length r2 = 44%nat) →
      is_u32 retry → is_u32 e2 → is_u32 i2 → is_u32 retry2 →
      (bond_note_input deployment_id 1 (commit_ref_bytes c) epoch u index nf retry
         = bond_note_input d2 t2 r2 e2 u2 i2 n2 retry2 →
       (deployment_id, 1, commit_ref_bytes c, epoch, u, index, nf) = (d2, t2, r2, e2, u2, i2, n2))
      ∧ (bond_note_input deployment_id 2 (state_ref_bytes p) epoch u index nf retry
           = bond_note_input d2 t2 r2 e2 u2 i2 n2 retry2 →
         (deployment_id, 2, state_ref_bytes p, epoch, u, index, nf) = (d2, t2, r2, e2, u2, i2, n2)).
Proof.
  intros (_ & _ & Hct) (_ & _ & Hst & _) He Hi Hd. split; [|split; [|split]].
  1-3: destruct Hd as [Hd|Hd]; apply derive_bond_note_Ok in Hd
    as (rho & u & retry & seed & Hrho & _ & _ & _ & Hnote);
    destruct (note_from_parts_Some _ _ _ _ _ Hnote) as [Hv Hn]; rewrite ?Hn;
    first [exact Hv|exact Hrho|by exists seed].
  intros u retry d2 t2 r2 e2 u2 i2 n2 retry2 Ld Lu Ln Ht Hr He2 Hi2 Hr2.
  assert (length (commit_ref_bytes c) = 40%nat ∧ length (state_ref_bytes p) = 44%nat) as [Lc Ls].
  { unfold commit_ref_bytes, state_ref_bytes. rewrite !length_app, !length_be_bytes, Hct, Hst. done. }
  split; intros Eq; apply bond_note_input_inj in Eq as (-> & -> & -> & -> & -> & -> & -> & _); try done; lia.
Qed.
