(* ===== verification/Checkpoint.v ===== *)
(** * Checkpoints and bonds of the wallet
    ([crates/coppice-names-wallet/src/checkpoint.rs], [bond.rs])

    The envelope that authenticates a replay checkpoint under the wallet seed,
    and the classification of the wallet's notes against the bond. *)

From S2P Require Import Prelude Bytes External Protocol Statement Orchard Recovery.

(** ** Bonds *)

Module Bond.
Definition REQUIRED_BOND_ZATOSHIS : Z := BOND_ZATOSHIS.

Inductive BondInventoryDecision := Ready | PrepareExactNote | InsufficientFunds.

(** [u64::saturating_add] *)
Definition saturating_add (a b : Z) : Z := Z.min (a + b) u64_max.

(** The loop of [classify_bond_inventory], with its early return. *)
Fixpoint inventory_loop (total : Z) (values : list Z) : BondInventoryDecision :=
  match values with
  | [] => if REQUIRED_BOND_ZATOSHIS <=? total then PrepareExactNote else InsufficientFunds
  | value :: values =>
      if value =? REQUIRED_BOND_ZATOSHIS then Ready
      else inventory_loop (saturating_add total value) values
  end.

Definition classify_bond_inventory (spendable_unreserved_values : list Z) : BondInventoryDecision :=
  inventory_loop 0 spendable_unreserved_values.

Definition sum (l : list Z) : Z := foldr Z.add 0 l.

Lemma sum_nonneg l : Forall (λ v, 0 ≤ v) l → 0 ≤ sum l.
Proof. induction 1; simpl; lia. Qed.

Lemma inventory_loop_spec total values :
  0 ≤ total ≤ u64_max → Forall (λ v, 0 ≤ v) values →
  inventory_loop total values
  = if bool_decide (REQUIRED_BOND_ZATOSHIS ∈ values) then Ready
    else if REQUIRED_BOND_ZATOSHIS <=? total + sum values then PrepareExactNote else InsufficientFunds.
Proof.
  revert total. induction values as [|v l IH]; intros total Ht Hv; cbn [inventory_loop sum foldr].
  { rewrite bool_decide_false by apply not_elem_of_nil. by rewrite Z.add_0_r. }
  apply Forall_cons in Hv as [Hv Hl]. pose proof (sum_nonneg l Hl) as Hs.
  destruct (Z.eqb_spec v REQUIRED_BOND_ZATOSHIS) as [->|Hne].
  { by rewrite bool_decide_true by left. }
  unfold saturating_add. rewrite IH by (done || unfold u64_max in *; lia).
  rewrite (bool_decide_ext (_ ∈ _ :: _) (REQUIRED_BOND_ZATOSHIS ∈ l)) by (rewrite elem_of_cons; naive_solver).
  destruct (bool_decide _); [done|]. fold (sum l).
  assert (REQUIRED_BOND_ZATOSHIS ≤ u64_max) as Hb by done.
  destruct (Z.leb_spec REQUIRED_BOND_ZATOSHIS (Z.min (total + v) u64_max + sum l)),
    (Z.leb_spec REQUIRED_BOND_ZATOSHIS (total + (v + sum l))); done || lia.
Qed.
End Bond.

(** ** Checkpoints *)

Definition MAGIC : list byte := lit "CNWC".
Definition FORMAT_VERSION : Z := 1.
Definition HEADER_BYTES : Z := 4 + 1 + 32 + 4.
Definition TAG_BYTES : Z := 32.

Inductive CheckpointError :=
  | CheckpointWrongSeedLength
  | PayloadTooLarge
  | InvalidEncoding
  | UnsupportedFormat
  | DeploymentMismatch
  | AuthenticationFailed.

(** A slice [b[from..to]] within the bounds. *)
Definition slice (from to : Z) (b : list byte) : list byte :=
  take (Z.to_nat (to - from)) (drop (Z.to_nat from) b).

Section Checkpoint.
Context `{Blake2b}.

Definition keyed_hash32 (personalization key input : list byte) : list byte :=
  blake2b 32 personalization key input.

Definition checkpoint_key (wallet_seed deployment_id : list byte) : res CheckpointError (list byte) :=
  let? master :=
    match derive_names_master wallet_seed with
    | Ok master => Ok master
    | Err WrongSeedLength => Err CheckpointWrongSeedLength
    | Err _ | Panic => Panic
    end in
  Ok (keyed_hash32 (lit "CoppiceNmCKey") master deployment_id).

(** What [seal_checkpoint] authenticates. *)
Definition sealed_body (deployment_id payload : list byte) : list byte :=
  MAGIC ++ [byte_of FORMAT_VERSION] ++ deployment_id ++ be_bytes 4 (Z.of_nat (length payload)) ++ payload.

Definition seal_checkpoint (wallet_seed deployment_id payload : list byte)
  : res CheckpointError (list byte) :=
  let? payload_len := ok_or (u32_try_from (Z.of_nat (length payload))) PayloadTooLarge in
  let? key := checkpoint_key wallet_seed deployment_id in
  let output := MAGIC ++ [byte_of FORMAT_VERSION] ++ deployment_id ++ be_bytes 4 payload_len ++ payload in
  let tag := keyed_hash32 (lit "CoppiceNmCTag") key output in
  Ok (output ++ tag).

Definition open_checkpoint (wallet_seed deployment_id envelope : list byte)
  : res CheckpointError (list byte) :=
  let len := Z.of_nat (length envelope) in
  let? _ := ensure (negb (len <? HEADER_BYTES + TAG_BYTES)) InvalidEncoding in
  let? _ := ensure (bool_decide (slice 0 4 envelope = MAGIC)) InvalidEncoding in
  let? _ := ensure (bool_decide (slice 4 5 envelope = [byte_of FORMAT_VERSION])) UnsupportedFormat in
  let? _ := ensure (bool_decide (slice 5 37 envelope = deployment_id)) DeploymentMismatch in
  let payload_len := be_val (slice 37 41 envelope) in
  let? expected_len := ok_or (length ← usize_checked_add HEADER_BYTES payload_len;
                              usize_checked_add length TAG_BYTES) InvalidEncoding in
  let? _ := ensure (len =? expected_len) InvalidEncoding in
  let tag_start := HEADER_BYTES + payload_len in
  let? key := checkpoint_key wallet_seed deployment_id in
  let expected := keyed_hash32 (lit "CoppiceNmCTag") key (slice 0 tag_start envelope) in
  let? _ := ensure (bool_decide (expected = slice tag_start len envelope)) AuthenticationFailed in
  Ok (slice HEADER_BYTES tag_start envelope).
End Checkpoint.

(** ** Properties *)

Section CheckpointFacts.
Context `{Blake2b}.

Lemma checkpoint_key_total seed deployment_id :
  checkpoint_key seed deployment_id
  = match derive_names_master seed with
    | Ok master => Ok (keyed_hash32 (lit "CoppiceNmCKey") master deployment_id)
    | _ => Err CheckpointWrongSeedLength
    end.
Proof.
  unfold checkpoint_key, derive_names_master. by destruct (_ =? WALLET_SEED_BYTES).
Qed.

(** ** Slices *)

Lemma slice_at from to a b c e :
  e = a ++ b ++ c → Z.of_nat (length a) = from → from + Z.of_nat (length b) = to → slice from to e = b.
Proof.
  intros -> <- <-. unfold slice. rewrite Nat2Z.id, drop_app_length, Z.add_simpl_l, Nat2Z.id.
  apply take_app_length.
Qed.

Lemma slice_append x y z e : 0 ≤ x ≤ y → y ≤ z → slice x y e ++ slice y z e = slice x z e.
Proof.
  intros Hx Hy. unfold slice.
  replace (drop (Z.to_nat y) e) with (drop (Z.to_nat (y - x)) (drop (Z.to_nat x) e))
    by (rewrite drop_drop; f_equal; lia).
  generalize (drop (Z.to_nat x) e) as l. intros l.
  replace (Z.to_nat (z - x)) with (Z.to_nat (y - x) + Z.to_nat (z - y))%nat by lia.
  apply take_take_drop.
Qed.

Lemma slice_all e : slice 0 (Z.of_nat (length e)) e = e.
Proof. unfold slice. rewrite drop_0, Z.sub_0_r, Nat2Z.id. by apply take_ge. Qed.

Lemma slice_length x y e :
  0 ≤ x ≤ y → y ≤ Z.of_nat (length e) → Z.of_nat (length (slice x y e)) = y - x.
Proof. intros Hx Hy. unfold slice. rewrite length_take, length_drop. lia. Qed.

Lemma sealed_body_length deployment_id payload :
  length deployment_id = 32%nat →
  Z.of_nat (length (sealed_body deployment_id payload)) = HEADER_BYTES + Z.of_nat (length payload).
Proof.
  intros Hd. unfold sealed_body. rewrite !length_app, Hd, length_be_bytes. change (length MAGIC) with 4%nat.
  unfold HEADER_BYTES. simpl length. lia.
Qed.

(** The envelope of a payload under a key. *)
Definition envelope_of (key deployment_id payload : list byte) : list byte :=
  sealed_body deployment_id payload
  ++ keyed_hash32 (lit "CoppiceNmCTag") key (sealed_body deployment_id payload).

Lemma seal_checkpoint_Ok seed deployment_id payload envelope :
  seal_checkpoint seed deployment_id payload = Ok envelope ↔
    Z.of_nat (length payload) ≤ u32_max
    ∧ ∃ key, checkpoint_key seed deployment_id = Ok key ∧ envelope = envelope_of key deployment_id payload.
Proof.
  unfold seal_checkpoint, u32_try_from.
  destruct (Z.leb_spec (Z.of_nat (length payload)) u32_max); cbn [ok_or res_bind]; [|naive_solver lia].
  destruct (checkpoint_key seed deployment_id) as [key|e|]; cbn [res_bind]; [|naive_solver..].
  split; [intros <-%Ok_inj; eauto|]. intros [_ (k & [= <-] & ->)]. done.
Qed.

Lemma open_sealed seed deployment_id payload key :
  length deployment_id = 32%nat → Z.of_nat (length payload) ≤ u32_max →
  checkpoint_key seed deployment_id = Ok key →
  open_checkpoint seed deployment_id (envelope_of key deployment_id payload) = Ok payload.
Proof.
  intros Hd Hp Hk. set (n := Z.of_nat (length payload)) in *.
  set (tag := keyed_hash32 (lit "CoppiceNmCTag") key (sealed_body deployment_id payload)).
  assert (Z.of_nat (length tag) = 32) as Ht by (unfold tag, keyed_hash32; by rewrite blake2b_length).
  assert (envelope_of key deployment_id payload
    = MAGIC ++ [byte_of FORMAT_VERSION] ++ deployment_id ++ be_bytes 4 n ++ payload ++ tag) as Ee
    by (unfold envelope_of, sealed_body; fold n tag; by rewrite <- !app_assoc).
  assert (Z.of_nat (length (envelope_of key deployment_id payload)) = HEADER_BYTES + n + TAG_BYTES) as El.
  { unfold envelope_of. rewrite length_app, Nat2Z.inj_add, sealed_body_length by done. fold tag n. by rewrite Ht. }
  assert (be_val (be_bytes 4 n) = n) as Hn by (apply u32_be_val; unfold is_u32; lia).
  unfold open_checkpoint. rewrite El.
  destruct (Z.ltb_spec (HEADER_BYTES + n + TAG_BYTES) (HEADER_BYTES + TAG_BYTES)); [lia|]. cbn [negb ensure res_bind].
  rewrite (slice_at 0 4 [] MAGIC _ _ Ee), bool_decide_true by done. cbn [ensure res_bind].
  rewrite (slice_at 4 5 MAGIC [byte_of FORMAT_VERSION] _ _ Ee), bool_decide_true by done. cbn [ensure res_bind].
  rewrite (slice_at 5 37 (MAGIC ++ [byte_of FORMAT_VERSION]) deployment_id
    (be_bytes 4 n ++ payload ++ tag)); [|by rewrite Ee, <- app_assoc|done|by rewrite Hd].
  rewrite bool_decide_true by done. cbn [ensure res_bind].
  rewrite (slice_at 37 41 (MAGIC ++ [byte_of FORMAT_VERSION] ++ deployment_id) (be_bytes 4 n) (payload ++ tag));
    [|by rewrite Ee, <- !app_assoc|by rewrite !length_app, Hd|by rewrite length_be_bytes].
  rewrite Hn. assert (n ≤ 4294967295) as Hmax by exact Hp.
  unfold usize_checked_add, u64_max. change HEADER_BYTES with 41 in *. change TAG_BYTES with 32 in *.
  rewrite (proj2 (Z.leb_le (41 + n) _)) by lia. cbn [mbind option_bind].
  rewrite (proj2 (Z.leb_le (41 + n + 32) _)) by lia. cbn [ok_or res_bind].
  rewrite Z.eqb_refl. cbn [ensure res_bind]. rewrite Hk. cbn [res_bind].
  pose proof (sealed_body_length deployment_id payload Hd) as Hb. fold n in Hb.
  change HEADER_BYTES with 41 in Hb.
  rewrite (slice_at 0 (41 + n) [] (sealed_body deployment_id payload) tag) by (done || lia).
  rewrite (slice_at (41 + n) (41 + n + 32) (sealed_body deployment_id payload) tag []);
    [|by rewrite app_nil_r|done|by rewrite Ht].
  rewrite bool_decide_true by done. cbn [ensure res_bind]. f_equal.
  apply (slice_at 41 (41 + n) (MAGIC ++ [byte_of FORMAT_VERSION] ++ deployment_id ++ be_bytes 4 n) payload tag);
    [by rewrite Ee, <- !app_assoc|by rewrite !length_app, Hd, length_be_bytes|done].
Qed.

Lemma open_checkpoint_inv seed deployment_id envelope payload :
  open_checkpoint seed deployment_id envelope = Ok payload →
  Z.of_nat (length payload) ≤ u32_max
  ∧ ∃ key, checkpoint_key seed deployment_id = Ok key ∧ envelope = envelope_of key deployment_id payload.
Proof.
  unfold open_checkpoint. set (len := Z.of_nat (length envelope)).
  intros (? & Hlen%ensure_Ok & (? & H4%ensure_Ok%bool_decide_eq_true & Ho)%res_bind_Ok)%res_bind_Ok.
  apply negb_true_iff, Z.ltb_ge in Hlen.
  apply res_bind_Ok in Ho as (? & H5%ensure_Ok%bool_decide_eq_true & Ho).
  apply res_bind_Ok in Ho as (? & H37%ensure_Ok%bool_decide_eq_true & Ho).
  set (L := slice 37 41 envelope) in *.
  assert (length L = 4%nat) as HL.
  { apply Nat2Z.inj. unfold L. rewrite slice_length; unfold HEADER_BYTES, TAG_BYTES in *; lia. }
  pose proof (be_val_u32 L HL) as [HL0 HLm].
  apply res_bind_Ok in Ho as (total & Htot%ok_or_Ok & (? & Heq%ensure_Ok%Z.eqb_eq & Ho)%res_bind_Ok).
  apply res_bind_Ok in Ho as (key & Hk & (? & Htag%ensure_Ok%bool_decide_eq_true & <-%Ok_inj)%res_bind_Ok).
  assert (len = 41 + be_val L + 32) as Hl.
  { rewrite Heq. unfold usize_checked_add in Htot.
    destruct (HEADER_BYTES + be_val L <=? u64_max); [|done]. cbn [mbind option_bind] in Htot.
    destruct (_ <=? u64_max); [|done]. injection Htot as <-. unfold HEADER_BYTES, TAG_BYTES. lia. }
  change HEADER_BYTES with 41 in *. set (payload := slice 41 (41 + be_val L) envelope) in *.
  assert (Z.of_nat (length payload) = be_val L) as Hp by (unfold payload; rewrite slice_length; lia).
  split; [unfold u32_max in *; lia|]. exists key. split; [done|].
  assert (slice 0 (41 + be_val L) envelope = sealed_body deployment_id payload) as Hb.
  { unfold sealed_body. rewrite Hp, <- H4, <- H5, <- H37 at 1.
    replace (be_bytes 4 (be_val L)) with L by (symmetry; rewrite <- HL at 1; apply be_bytes_be_val).
    unfold L, payload. rewrite !slice_append by lia. done. }
  unfold envelope_of. rewrite <- Hb, Htag, slice_append by lia. unfold len. by rewrite slice_all.
Qed.
End CheckpointFacts.

(** C24: a checkpoint is authenticated exactly.  Sealing succeeds for every 64-byte
    seed and every payload whose length fits; an envelope opens to a payload
    exactly when it is the envelope sealed for that payload, so that every other
    byte string is refused; an envelope opened under a second seed or deployment
    has the same deployment and payload, and then the second key gives the very
    tag of the first; and neither call panics. *)
Theorem checkpoint_authentic `{Blake2b} (seed deployment_id : list byte) :
  length deployment_id = 32%nat →
  (∀ payload, is_ok (seal_checkpoint seed deployment_id payload) = true
     ↔ length seed = 64%nat ∧ Z.of_nat (length payload) ≤ u32_max)
  ∧ (∀ payload envelope,
       open_checkpoint seed deployment_id envelope = Ok payload
       ↔ seal_checkpoint seed deployment_id payload = Ok envelope)
  ∧ (∀ payload envelope seed2 deployment2 payload2,
       seal_checkpoint seed deployment_id payload = Ok envelope → length deployment2 = 32%nat →
       open_checkpoint seed2 deployment2 envelope = Ok payload2 →
       deployment2 = deployment_id ∧ payload2 = payload
       ∧ ∃ key key2, checkpoint_key seed deployment_id = Ok key ∧ checkpoint_key seed2 deployment_id = Ok key2
           ∧ keyed_hash32 (lit "CoppiceNmCTag") key2 (sealed_body deployment_id payload)
             = keyed_hash32 (lit "CoppiceNmCTag") key (sealed_body deployment_id payload))
  ∧ ∀ input, seal_checkpoint seed deployment_id input ≠ Panic ∧ open_checkpoint seed deployment_id input ≠ Panic.
Proof.
  intros Hd. split; [|split; [|split]].
  - intros payload. unfold seal_checkpoint, u32_try_from. rewrite checkpoint_key_total.
    unfold derive_names_master, WALLET_SEED_BYTES.
    destruct (Z.leb_spec (Z.of_nat (length payload)) u32_max); cbn [ok_or res_bind is_ok]; [|naive_solver lia].
    destruct (Z.eqb_spec (Z.of_nat (length seed)) 64); cbn [ensure res_bind is_ok]; naive_solver lia.
  - intros payload envelope. rewrite seal_checkpoint_Ok. split; [apply open_checkpoint_inv|].
    intros (Hp & key & Hk & ->). by apply open_sealed.
  - intros payload envelope seed2 d2 p2 (Hp & key & Hk & ->)%seal_checkpoint_Ok Hd2
      (Hp2 & key2 & Hk2 & He)%open_checkpoint_inv.
    unfold envelope_of in He.
    apply app_inj_2 in He as [Hb Ht]; [|unfold keyed_hash32; by rewrite !blake2b_length].
    assert (d2 = deployment_id ∧ p2 = payload) as [-> ->].
    { unfold sealed_body in Hb. apply app_inj_length in Hb as [_ Hb]; [|done].
      apply (app_inj_length [_] [_]) in Hb as [_ Hb]; [|done].
      apply app_inj_length in Hb as [Ed Hb]; [|by rewrite Hd, Hd2].
      apply app_inj_length in Hb as [_ Ep]; [|by rewrite !length_be_bytes]. done. }
    split; [done|]. split; [done|]. exists key, key2. by rewrite Ht.
  - intros input. rewrite ?checkpoint_key_total. split.
    + apply bind_no_panic; [apply ok_or_no_panic|intros n _]. apply bind_no_panic; [|done].
      rewrite checkpoint_key_total. by destruct (derive_names_master seed).
    + unfold open_checkpoint. repeat (apply bind_no_panic; [apply ensure_no_panic|intros ? _]).
      apply bind_no_panic; [apply ok_or_no_panic|intros ? _].
      apply bind_no_panic; [apply ensure_no_panic|intros ? _].
      apply bind_no_panic; [|intros ? _; by apply bind_no_panic; [apply ensure_no_panic|]].
      rewrite checkpoint_key_total. by destruct (derive_names_master seed).
Qed.

(** The bond inventory is classified exactly.  Whatever values the wallet
    supplies, saturation included, the answer is [Ready] when one is exactly the
    bond, and otherwise tells whether their true sum covers it. *)
Lemma bond_inventory_exact (values : list Z) :
  Forall (λ v, 0 ≤ v ≤ u64_max) values →
  Bond.classify_bond_inventory values
  = if bool_decide (BOND_ZATOSHIS ∈ values) then Bond.Ready
    else if BOND_ZATOSHIS <=? Bond.sum values then Bond.PrepareExactNote else Bond.InsufficientFunds.
Proof.
  intros Hv. unfold Bond.classify_bond_inventory. rewrite Bond.inventory_loop_spec; [done|done|].
  eapply Forall_impl; [exact Hv|]. simpl. lia.
Qed.
