(* ===== verification/Replacement.v ===== *)
(** * Preparation of Names operations
    ([crates/coppice-names-wallet/src/replacement.rs])

    From the wallet seed to a publication: the COMMIT, the proven REVEAL and the
    proven REFRESH, and the plan of their Ironwood transaction.  An [anyhow] error
    is its outermost message. *)

From S2P Require Import Prelude Bytes External Protocol Schedule Codec Statement Records.
From S2P Require Import Ruleset Deployment Publication Orchard ProofSystem Recovery Pczt Builder.

Record PreparedCommit := MkPreparedCommit {
  pc_target_epoch : Z;
  pc_publication : PreparedPublication;
}.

Record PreparedReveal `{OrchardNotes} := MkPreparedReveal {
  pr_statement : RevealStatement;
  pr_successor_note : Note;
  pr_publication : PreparedPublication;
  pr_operation_height : Z;
}.

Record PreparedRefresh `{OrchardNotes} := MkPreparedRefresh {
  prf_statement : RefreshStatement;
  prf_successor_note : Note;
  prf_publication : PreparedPublication;
  prf_operation_height : Z;
}.

Record RevealInputs `{CoppiceIdentity} `{OrchardNotes} := MkRevealInputs {
  ri_wallet_seed : list byte;
  ri_deployment : DeploymentParameters;
  ri_name : Name;
  ri_commit_ref : CommitRef;
  ri_ua : CanonicalUa;
  ri_operation_height : Z;
  ri_designated_action_index : Z;
  ri_registration_fvk : FullViewingKey;
  ri_registration_note : Note;
}.

Record RefreshInputs `{CoppiceIdentity} `{OrchardNotes} := MkRefreshInputs {
  fi_wallet_seed : list byte;
  fi_deployment : DeploymentParameters;
  fi_name : Name;
  fi_predecessor : Head;
  fi_predecessor_note : Note;
  fi_ua : CanonicalUa;
  fi_operation_height : Z;
  fi_designated_action_index : Z;
}.

Arguments MkPreparedReveal {_}.
Arguments MkPreparedRefresh {_}.
Arguments MkRevealInputs {_ _}.
Arguments MkRefreshInputs {_ _}.

(** [.map_err(|error| anyhow!(message))] *)
Definition describe {E A : Type} (m : res E A) (message : string) : res string A :=
  map_err (λ _, message) m.
Arguments describe {E A} m message%_string.

Lemma describe_Ok {E A : Type} (m : res E A) message a : describe m message = Ok a ↔ m = Ok a.
Proof. apply map_err_Ok. Qed.

Section Replacement.
Context `{Blake2b} `{Pallas} `{!Poseidon} `{OrchardKeys} `{CoppicePayload} `{CoppiceCarrier}
  `{!CanonicalJson Manifest} `{OrchardCircuit}.

Definition prepare_commit (wallet_seed : list byte) (deployment : DeploymentParameters) (name : Name)
  (reveal_height : Z) : res string PreparedCommit :=
  let? deployment := describe (dp_validate deployment) "invalid Names deployment" in
  let? deployment_id := describe (dp_deployment_id deployment) "derive Names deployment ID" in
  let schedule := dp_schedule deployment deployment_id in
  let? name_id := describe (Name_id name) "derive canonical name ID" in
  let? scheduled := accepts_operation schedule name_id reveal_height in
  let? _ := ensures scheduled "REVEAL height is outside the name's canonical operation window" in
  let? target_epoch := describe (epoch schedule reveal_height) "derive REVEAL epoch" in
  let? spending_key := describe (derive_name_spending_key wallet_seed deployment_id name)
                         "derive per-name authority" in
  let? opening := describe (derive_commit_opening spending_key deployment_id name target_epoch)
                    "derive recoverable COMMIT opening" in
  let? publication := describe (prepare_publication (Commit (co_commitment opening)) deployment)
                        "prepare COMMIT publication" in
  Ok (MkPreparedCommit target_epoch publication).

Definition prepare_reveal (inputs : RevealInputs) (prover : OrchardProofProver) (rng : Rng)
  : res string PreparedReveal :=
  let name := ri_name inputs in
  let commit_ref := ri_commit_ref inputs in
  let ua := ri_ua inputs in
  let operation_height := ri_operation_height inputs in
  let index := ri_designated_action_index inputs in
  let? deployment := describe (dp_validate (ri_deployment inputs)) "invalid Names deployment" in
  let? deployment_id := describe (dp_deployment_id deployment) "derive Names deployment ID" in
  let schedule := dp_schedule deployment deployment_id in
  let? name_id := describe (Name_id name) "derive canonical name ID" in
  let? scheduled := accepts_operation schedule name_id operation_height in
  let? _ := ensures scheduled "REVEAL height is outside the name's canonical operation window" in
  let? _ := ensures (accepts_commit schedule (cr_height commit_ref) operation_height)
              "referenced COMMIT is not mature and unexpired at the REVEAL height" in
  let? _ := ensures (note_value (ri_registration_note inputs) =? BOND_ZATOSHIS)
              "REVEAL designated input is not exactly the one-ZEC bond" in
  let? target_epoch := describe (epoch schedule operation_height) "derive REVEAL epoch" in
  let? spending_key := describe (derive_name_spending_key (ri_wallet_seed inputs) deployment_id name)
                         "derive per-name authority" in
  let? opening := describe (derive_commit_opening spending_key deployment_id name target_epoch)
                    "derive recoverable COMMIT opening" in
  let? action_nullifier :=
    describe (FieldElement_from_bytes
                (note_nullifier (ri_registration_note inputs) (ri_registration_fvk inputs)))
      "derive designated nullifier" in
  let? successor_note :=
    describe (derive_reveal_bond_note spending_key deployment_id commit_ref target_epoch ua index
                action_nullifier) "derive recoverable REVEAL bond note" in
  let successor_fvk := fvk_of spending_key in
  let? action_commitment := describe (FieldElement_from_bytes (note_commitment successor_note))
                              "derive successor commitment" in
  let? successor_future_nf :=
    describe (FieldElement_from_bytes (note_nullifier successor_note successor_fvk))
      "derive successor nullifier" in
  let statement := {|
    rvs_deployment_id := deployment_id;
    rvs_name_id := name_id;
    rvs_inclusion_epoch := target_epoch;
    rvs_commitment := co_commitment opening;
    rvs_commit_ref := commit_ref;
    rvs_ua := ua;
    rvs_action_index := index;
    rvs_action_nullifier := action_nullifier;
    rvs_action_commitment := action_commitment;
    rvs_successor_future_nf := successor_future_nf |} in
  let? proof := describe (prove_reveal prover statement successor_note spending_key (co_secret opening) rng)
                  "prove REVEAL" in
  let operation := Reveal name commit_ref ua index successor_future_nf proof in
  let? publication := describe (prepare_publication operation deployment) "prepare REVEAL publication" in
  let? _ := ensures (carrier_value_zatoshis publication =? 0)
              "replacement Names carrier value is not zero" in
  Ok (MkPreparedReveal statement successor_note publication operation_height).

Definition prepare_refresh (inputs : RefreshInputs) (prover : OrchardProofProver) (rng : Rng)
  : res string PreparedRefresh :=
  let name := fi_name inputs in
  let predecessor := fi_predecessor inputs in
  let predecessor_note := fi_predecessor_note inputs in
  let ua := fi_ua inputs in
  let operation_height := fi_operation_height inputs in
  let index := fi_designated_action_index inputs in
  let? deployment := describe (dp_validate (fi_deployment inputs)) "invalid Names deployment" in
  let? deployment_id := describe (dp_deployment_id deployment) "derive Names deployment ID" in
  let schedule := dp_schedule deployment deployment_id in
  let? name_id := describe (Name_id name) "derive canonical name ID" in
  let? _ := ensures (bool_decide (hd_name predecessor = name)) "predecessor belongs to another name" in
  let? _ := ensures (bool_decide (lifecycle predecessor operation_height schedule = Active))
              "predecessor is not active at the REFRESH height" in
  let? scheduled := accepts_operation schedule name_id operation_height in
  let? _ := ensures scheduled "REFRESH height is outside the name's canonical operation window" in
  let? target_epoch := describe (epoch schedule operation_height) "derive REFRESH epoch" in
  let? _ := ensures (hd_producer_epoch predecessor <? target_epoch)
              "REFRESH must occur in a later epoch than its predecessor" in
  let? _ := ensures (note_value predecessor_note =? BOND_ZATOSHIS)
              "REFRESH predecessor is not exactly the one-ZEC bond" in
  let? spending_key := describe (derive_name_spending_key (fi_wallet_seed inputs) deployment_id name)
                         "derive per-name authority" in
  let fvk := fvk_of spending_key in
  let? predecessor_commitment := describe (FieldElement_from_bytes (note_commitment predecessor_note))
                                   "derive predecessor commitment" in
  let? predecessor_future_nf :=
    describe (FieldElement_from_bytes (note_nullifier predecessor_note fvk))
      "derive predecessor nullifier" in
  let? _ := ensures (bool_decide (predecessor_commitment = hd_commitment predecessor)
                     && bool_decide (predecessor_future_nf = hd_future_nf predecessor))
              "reconstructed predecessor note does not match the canonical head" in
  let? successor_note :=
    describe (derive_refresh_bond_note spending_key deployment_id (hd_producer predecessor) target_epoch
                ua index predecessor_future_nf) "derive recoverable REFRESH bond note" in
  let? action_commitment := describe (FieldElement_from_bytes (note_commitment successor_note))
                              "derive successor commitment" in
  let? successor_future_nf := describe (FieldElement_from_bytes (note_nullifier successor_note fvk))
                                "derive successor nullifier" in
  let statement := {|
    rfs_deployment_id := deployment_id;
    rfs_name_id := name_id;
    rfs_predecessor_ref := hd_producer predecessor;
    rfs_predecessor_commitment := predecessor_commitment;
    rfs_predecessor_future_nf := predecessor_future_nf;
    rfs_predecessor_epoch := hd_producer_epoch predecessor;
    rfs_inclusion_epoch := target_epoch;
    rfs_ua := ua;
    rfs_action_index := index;
    rfs_action_nullifier := predecessor_future_nf;
    rfs_action_commitment := action_commitment;
    rfs_successor_future_nf := successor_future_nf |} in
  let? proof := describe (prove_refresh prover statement predecessor_note successor_note spending_key rng)
                  "prove REFRESH" in
  let? publication :=
    describe (prepare_publication
                (Refresh name (hd_producer predecessor) ua index successor_future_nf proof) deployment)
      "prepare REFRESH publication" in
  let? _ := ensures (carrier_value_zatoshis publication =? 0)
              "replacement Names carrier value is not zero" in
  Ok (MkPreparedRefresh statement successor_note publication operation_height).

Definition recover_name_fvk (wallet_seed : list byte) (deployment : DeploymentParameters) (name : Name)
  : res string FullViewingKey :=
  let? deployment_id := describe (dp_deployment_id deployment) "derive Names deployment ID" in
  let? spending_key := describe (derive_name_spending_key wallet_seed deployment_id name)
                         "derive per-name authority" in
  Ok (fvk_of spending_key).
End Replacement.

(** ** Plans *)

Section Plans.
Context `{OrchardBuilder}.

Definition replacement_ironwood_plan (publication : PreparedPublication) (successor_note : Note)
  (designated_fvk : FullViewingKey) (designated_spend : Note) (funding_spends : list FundingSpend)
  (change_outputs : list ChangeOutput) (operation_height : Z) : res string NamesIronwoodPlan :=
  let? (route, designated_action_index) :=
    match pp_route publication, pp_operation publication with
    | NameRouted route, (Reveal _ _ _ action_index _ _ | Refresh _ _ _ action_index _ _) =>
        Ok (route, action_index)
    | _, _ => Err "only name-routed REVEAL/REFRESH has a designated Ironwood plan"%string
    end in
  let? recipient := with_context (address_from_raw (receiver route))
                      "derived name route receiver is invalid" in
  let carrier_outputs :=
    map (λ memo, MkCarrierOutput recipient (carrier_value_zatoshis publication) memo)
      (pp_frames publication) in
  Ok (MkNamesIronwoodPlan designated_fvk designated_spend successor_note None (repeat x00 512)
        carrier_outputs funding_spends change_outputs designated_action_index operation_height).

(** [PreparedReveal::ironwood_plan], [PreparedRefresh::ironwood_plan] *)
Definition reveal_ironwood_plan (self : PreparedReveal) (designated_fvk : FullViewingKey)
  (designated_spend : Note) (funding_spends : list FundingSpend) (change_outputs : list ChangeOutput)
  : res string NamesIronwoodPlan :=
  replacement_ironwood_plan (pr_publication self) (pr_successor_note self) designated_fvk
    designated_spend funding_spends change_outputs (pr_operation_height self).

Definition refresh_ironwood_plan (self : PreparedRefresh) (designated_fvk : FullViewingKey)
  (designated_spend : Note) (funding_spends : list FundingSpend) (change_outputs : list ChangeOutput)
  : res string NamesIronwoodPlan :=
  replacement_ironwood_plan (prf_publication self) (prf_successor_note self) designated_fvk
    designated_spend funding_spends change_outputs (prf_operation_height self).
End Plans.
