(* ===== verification/Preparation.v ===== *)
(** * What the wallet prepares, the reducer accepts

    The composition of the wallet's stages with replay: the statement a REVEAL or a
    REFRESH proves is the one the reducer rebuilds from the transaction that the
    construction extracts. *)

From S2P Require Import Prelude Bytes External Protocol Schedule Codec Statement Records State Reducer.
From S2P Require Import Journal Ledger Invariant Ruleset Deployment Transport Publication Orchard ProofSystem Recovery.
From S2P Require Import Pczt Builder BuilderFacts Replacement.

Section Preparation.
Context `{Blake2b} `{Pallas} `{!Poseidon} `{OrchardKeys} `{CoppicePayload} `{CoppiceCarrier}
  `{!CanonicalJson Manifest} `{OrchardCircuit}.

Lemma prepare_publication_operation op d p : prepare_publication op d = Ok p → pp_operation p = op.
Proof. by intros (? & ? & ? & ? & ? & _ & _ & _ & _ & _ & _ & ? & _)%prepare_publication_Ok. Qed.

(** The schedule of a deployment, by its identifier. *)
Definition deployed (d : DeploymentParameters) (id : list byte) : Prop :=
  dp_validate d = Ok d ∧ dp_deployment_id d = Ok id.

(** The opening both preparations derive. *)
Definition wallet_opening (seed id : list byte) (name : Name) (e : Z) (o : CommitOpening) : Prop :=
  ∃ sk, derive_name_spending_key seed id name = Ok sk ∧ derive_commit_opening sk id name e = Ok o.

Lemma wallet_opening_det seed id name e o o' :
  wallet_opening seed id name e o → wallet_opening seed id name e o' → o = o'.
Proof. intros (sk & Hs & Ho) (sk' & Hs' & Ho'). congruence. Qed.

Lemma prepare_commit_Ok seed d name h c :
  prepare_commit seed d name h = Ok c →
  ∃ id i o, deployed d id ∧ Name_id name = Ok i
    ∧ accepts_operation (E := string) (dp_schedule d id) i h = Ok true
    ∧ epoch (dp_schedule d id) h = Ok (pc_target_epoch c)
    ∧ wallet_opening seed id name (pc_target_epoch c) o
    ∧ pp_operation (pc_publication c) = Commit (co_commitment o).
Proof.
  intros (v & Hv%describe_Ok & Hc)%res_bind_Ok. pose proof Hv as ->%dp_validate_id.
  apply res_bind_Ok in Hc as (id & Hid%describe_Ok & (i & Hi%describe_Ok & (b & Hb & Hc)%res_bind_Ok)%res_bind_Ok).
  apply res_bind_Ok in Hc as (? & ->%ensures_Ok & (e & He%describe_Ok & (sk & Hsk%describe_Ok & Hc)%res_bind_Ok)%res_bind_Ok).
  apply res_bind_Ok in Hc as (o & Ho%describe_Ok & (p & Hp%describe_Ok%prepare_publication_operation & <-%Ok_inj)%res_bind_Ok).
  exists id, i, o. do 4 (split; [done|]). split; [by exists sk|done].
Qed.

(** What a prepared REVEAL has checked. *)
Record reveal_prepared (x : RevealInputs) (p : PreparedReveal) : Prop := {
  rp_deployment : ∃ id, deployed (ri_deployment x) id ∧ rvs_deployment_id (pr_statement p) = id
    ∧ accepts_operation (E := string) (dp_schedule (ri_deployment x) id)
        (rvs_name_id (pr_statement p)) (ri_operation_height x) = Ok true
    ∧ accepts_commit (dp_schedule (ri_deployment x) id) (cr_height (ri_commit_ref x)) (ri_operation_height x) = true
    ∧ epoch (dp_schedule (ri_deployment x) id) (ri_operation_height x) = Ok (rvs_inclusion_epoch (pr_statement p))
    ∧ ∃ o, wallet_opening (ri_wallet_seed x) id (ri_name x) (rvs_inclusion_epoch (pr_statement p)) o
        ∧ rvs_commitment (pr_statement p) = co_commitment o;
  rp_name : Name_id (ri_name x) = Ok (rvs_name_id (pr_statement p));
  rp_inputs : rvs_commit_ref (pr_statement p) = ri_commit_ref x ∧ rvs_ua (pr_statement p) = ri_ua x
    ∧ rvs_action_index (pr_statement p) = ri_designated_action_index x
    ∧ pr_operation_height p = ri_operation_height x;
  rp_nullifier : FieldElement_from_bytes (note_nullifier (ri_registration_note x) (ri_registration_fvk x))
    = Ok (rvs_action_nullifier (pr_statement p));
  rp_rho : rho_from_bytes (field_bytes (rvs_action_nullifier (pr_statement p)))
    = Some (note_rho (pr_successor_note p));
  rp_commitment : FieldElement_from_bytes (note_commitment (pr_successor_note p))
    = Ok (rvs_action_commitment (pr_statement p));
  rp_operation : ∃ proof, pp_operation (pr_publication p)
    = Reveal (ri_name x) (ri_commit_ref x) (ri_ua x) (ri_designated_action_index x)
        (rvs_successor_future_nf (pr_statement p)) proof;
}.

Lemma derived_note_rho `{!OrchardNotesLaws} sk id tag reference e ua index nf note :
  derive_bond_note sk id tag reference e ua index nf = Ok note →
  rho_from_bytes (field_bytes nf) = Some (note_rho note).
Proof.
  intros (rho & u & retry & seed & Hr & _ & _ & _ & Hn)%derive_bond_note_Ok.
  by destruct (note_from_parts_Some _ _ _ _ _ Hn) as [_ ->].
Qed.

Lemma prepare_reveal_Ok `{!OrchardNotesLaws} x prover rng p :
  prepare_reveal x prover rng = Ok p → reveal_prepared x p.
Proof.
  unfold prepare_reveal. cbv zeta.
  intros (v & Hv%describe_Ok & Hr)%res_bind_Ok. pose proof Hv as ->%dp_validate_id.
  apply res_bind_Ok in Hr as (id & Hid%describe_Ok & (i & Hi%describe_Ok & (b & Hb & Hr)%res_bind_Ok)%res_bind_Ok).
  apply res_bind_Ok in Hr as (? & ->%ensures_Ok & (? & Hac%ensures_Ok & (? & _ & Hr)%res_bind_Ok)%res_bind_Ok).
  apply res_bind_Ok in Hr as (e & He%describe_Ok & (sk & Hsk%describe_Ok & (o & Ho%describe_Ok & Hr)%res_bind_Ok)%res_bind_Ok).
  apply res_bind_Ok in Hr as (nf & Hnf%describe_Ok & (note & Hn%describe_Ok & (cm & Hcm%describe_Ok & Hr)%res_bind_Ok)%res_bind_Ok).
  apply res_bind_Ok in Hr as (fnf & _ & (proof & _ & (pub & Hp%describe_Ok%prepare_publication_operation & Hr)%res_bind_Ok)%res_bind_Ok).
  apply res_bind_Ok in Hr as (? & _ & <-%Ok_inj).
  assert (wallet_opening (ri_wallet_seed x) id (ri_name x) e o) as Hw by (by exists sk).
  unfold derive_reveal_bond_note in Hn. apply derived_note_rho in Hn.
  constructor; cbn [pr_statement pr_successor_note pr_publication pr_operation_height rvs_deployment_id
    rvs_name_id rvs_inclusion_epoch rvs_commitment rvs_commit_ref rvs_ua rvs_action_index
    rvs_action_nullifier rvs_action_commitment rvs_successor_future_nf];
    [|exact Hi|done|exact Hnf|exact Hn|exact Hcm|by exists proof].
  exists id. do 5 (split; [done|]). by exists o.
Qed.

(** What a prepared REFRESH has checked. *)
Record refresh_prepared (x : RefreshInputs) (p : PreparedRefresh) : Prop := {
  fp_deployment : ∃ id, deployed (fi_deployment x) id ∧ rfs_deployment_id (prf_statement p) = id
    ∧ lifecycle (fi_predecessor x) (fi_operation_height x) (dp_schedule (fi_deployment x) id) = Active
    ∧ accepts_operation (E := string) (dp_schedule (fi_deployment x) id)
        (rfs_name_id (prf_statement p)) (fi_operation_height x) = Ok true
    ∧ epoch (dp_schedule (fi_deployment x) id) (fi_operation_height x) = Ok (rfs_inclusion_epoch (prf_statement p));
  fp_name : Name_id (fi_name x) = Ok (rfs_name_id (prf_statement p));
  fp_epoch : hd_producer_epoch (fi_predecessor x) < rfs_inclusion_epoch (prf_statement p);
  fp_predecessor : rfs_predecessor_ref (prf_statement p) = hd_producer (fi_predecessor x)
    ∧ rfs_predecessor_commitment (prf_statement p) = hd_commitment (fi_predecessor x)
    ∧ rfs_predecessor_future_nf (prf_statement p) = hd_future_nf (fi_predecessor x)
    ∧ rfs_predecessor_epoch (prf_statement p) = hd_producer_epoch (fi_predecessor x);
  fp_inputs : rfs_ua (prf_statement p) = fi_ua x
    ∧ rfs_action_index (prf_statement p) = fi_designated_action_index x
    ∧ prf_operation_height p = fi_operation_height x
    ∧ rfs_action_nullifier (prf_statement p) = hd_future_nf (fi_predecessor x);
  fp_rho : rho_from_bytes (field_bytes (rfs_action_nullifier (prf_statement p)))
    = Some (note_rho (prf_successor_note p));
  fp_commitment : FieldElement_from_bytes (note_commitment (prf_successor_note p))
    = Ok (rfs_action_commitment (prf_statement p));
  fp_operation : ∃ proof, pp_operation (prf_publication p)
    = Refresh (fi_name x) (hd_producer (fi_predecessor x)) (fi_ua x) (fi_designated_action_index x)
        (rfs_successor_future_nf (prf_statement p)) proof;
}.

Lemma prepare_refresh_Ok `{!OrchardNotesLaws} x prover rng p :
  prepare_refresh x prover rng = Ok p → refresh_prepared x p.
Proof.
  unfold prepare_refresh. cbv zeta.
  intros (v & Hv%describe_Ok & Hr)%res_bind_Ok. pose proof Hv as ->%dp_validate_id.
  apply res_bind_Ok in Hr as (id & Hid%describe_Ok & (i & Hi%describe_Ok & (? & _ & Hr)%res_bind_Ok)%res_bind_Ok).
  apply res_bind_Ok in Hr as (? & Hlc%ensures_Ok%bool_decide_eq_true & (b & Hb & (? & ->%ensures_Ok & Hr)%res_bind_Ok)%res_bind_Ok).
  apply res_bind_Ok in Hr as (e & He%describe_Ok & (? & Hlt%ensures_Ok%Z.ltb_lt & (? & _ & Hr)%res_bind_Ok)%res_bind_Ok).
  apply res_bind_Ok in Hr as (sk & Hsk%describe_Ok & (pc & _ & (pn & _ & Hr)%res_bind_Ok)%res_bind_Ok).
  apply res_bind_Ok in Hr as (? & [Epc%bool_decide_eq_true Epn%bool_decide_eq_true]%ensures_Ok%andb_prop & Hr).
  apply res_bind_Ok in Hr as (note & Hn%describe_Ok & (cm & Hcm%describe_Ok & Hr)%res_bind_Ok).
  apply res_bind_Ok in Hr as (fnf & _ & (proof & _ & (pub & Hp%describe_Ok%prepare_publication_operation & Hr)%res_bind_Ok)%res_bind_Ok).
  apply res_bind_Ok in Hr as (? & _ & <-%Ok_inj).
  unfold derive_refresh_bond_note in Hn. apply derived_note_rho in Hn.
  constructor; cbn [prf_statement prf_successor_note prf_publication prf_operation_height rfs_deployment_id
    rfs_name_id rfs_inclusion_epoch rfs_predecessor_ref rfs_predecessor_commitment rfs_predecessor_future_nf
    rfs_predecessor_epoch rfs_ua rfs_action_index rfs_action_nullifier rfs_action_commitment
    rfs_successor_future_nf];
    [|exact Hi|exact Hlt|done|done|exact Hn|exact Hcm|by exists proof].
  by exists id.
Qed.
End Preparation.

(** ** Preparations that succeed *)

Section Succeeding.
Context `{Blake2b} `{Pallas} `{!Poseidon} `{OrchardKeys} `{CoppicePayload} `{CoppiceCarrier}
  `{!CanonicalJson Manifest} `{OrchardCircuit}.

Lemma prepare_reveal_intro seed d name commit_ref ua h index fvk spend id i e sk o nf note cm fnf proof
  pub prover rng :
  dp_validate d = Ok d → dp_deployment_id d = Ok id → Name_id name = Ok i →
  accepts_operation (E := string) (dp_schedule d id) i h = Ok true →
  accepts_commit (dp_schedule d id) (cr_height commit_ref) h = true →
  note_value spend = BOND_ZATOSHIS → epoch (dp_schedule d id) h = Ok e →
  derive_name_spending_key seed id name = Ok sk → derive_commit_opening sk id name e = Ok o →
  FieldElement_from_bytes (note_nullifier spend fvk) = Ok nf →
  derive_reveal_bond_note sk id commit_ref e ua index nf = Ok note →
  FieldElement_from_bytes (note_commitment note) = Ok cm →
  FieldElement_from_bytes (note_nullifier note (fvk_of sk)) = Ok fnf →
  let statement := MkRevealStatement id i e (co_commitment o) commit_ref ua index nf cm fnf in
  prove_reveal prover statement note sk (co_secret o) rng = Ok proof →
  prepare_publication (Reveal name commit_ref ua index fnf proof) d = Ok pub →
  prepare_reveal (MkRevealInputs seed d name commit_ref ua h index fvk spend) prover rng
    = Ok (MkPreparedReveal statement note pub h).
Proof.
  intros Hv Hid Hi Hac Hcm Hval He Hsk Ho Hnf Hnote Hcmt Hfnf statement Hproof Hpub.
  unfold prepare_reveal, describe. cbv zeta.
  cbn [ri_wallet_seed ri_deployment ri_name ri_commit_ref ri_ua ri_operation_height
    ri_designated_action_index ri_registration_fvk ri_registration_note].
  rewrite Hv. cbn [map_err res_bind]. rewrite Hid. cbn [map_err res_bind].
  rewrite Hi. cbn [map_err res_bind]. rewrite Hac, Hcm, Hval, Z.eqb_refl. cbn [ensures res_bind].
  rewrite He. cbn [map_err res_bind]. rewrite Hsk. cbn [map_err res_bind].
  rewrite Ho. cbn [map_err res_bind]. rewrite Hnf. cbn [map_err res_bind].
  rewrite Hnote. cbn [map_err res_bind]. rewrite Hcmt. cbn [map_err res_bind].
  rewrite Hfnf. cbn [map_err res_bind]. fold statement. rewrite Hproof. cbn [map_err res_bind].
  rewrite Hpub. reflexivity.
Qed.

Lemma prepare_refresh_intro seed d name predecessor spend ua h index id i e sk note cm fnf proof
  pub prover rng :
  dp_validate d = Ok d → dp_deployment_id d = Ok id → Name_id name = Ok i →
  hd_name predecessor = name → lifecycle predecessor h (dp_schedule d id) = Active →
  accepts_operation (E := string) (dp_schedule d id) i h = Ok true →
  epoch (dp_schedule d id) h = Ok e → hd_producer_epoch predecessor < e →
  note_value spend = BOND_ZATOSHIS → derive_name_spending_key seed id name = Ok sk →
  FieldElement_from_bytes (note_commitment spend) = Ok (hd_commitment predecessor) →
  FieldElement_from_bytes (note_nullifier spend (fvk_of sk)) = Ok (hd_future_nf predecessor) →
  derive_refresh_bond_note sk id (hd_producer predecessor) e ua index (hd_future_nf predecessor) = Ok note →
  FieldElement_from_bytes (note_commitment note) = Ok cm →
  FieldElement_from_bytes (note_nullifier note (fvk_of sk)) = Ok fnf →
  let statement := MkRefreshStatement id i (hd_producer predecessor) (hd_commitment predecessor)
    (hd_future_nf predecessor) (hd_producer_epoch predecessor) e ua index (hd_future_nf predecessor) cm fnf in
  prove_refresh prover statement spend note sk rng = Ok proof →
  prepare_publication (Refresh name (hd_producer predecessor) ua index fnf proof) d = Ok pub →
  prepare_refresh (MkRefreshInputs seed d name predecessor spend ua h index) prover rng
    = Ok (MkPreparedRefresh statement note pub h).
Proof.
  intros Hv Hid Hi Hname Hlc Hac He Hlt Hval Hsk Hpc Hpn Hnote Hcmt Hfnf statement Hproof Hpub.
  unfold prepare_refresh, describe. cbv zeta.
  cbn [fi_wallet_seed fi_deployment fi_name fi_predecessor fi_predecessor_note fi_ua fi_operation_height
    fi_designated_action_index].
  rewrite Hv. cbn [map_err res_bind]. rewrite Hid. cbn [map_err res_bind].
  rewrite Hi. cbn [map_err res_bind]. rewrite !bool_decide_true by done. cbn [ensures res_bind].
  rewrite Hac. cbn [ensures res_bind]. rewrite He. cbn [map_err res_bind].
  rewrite (proj2 (Z.ltb_lt _ _) Hlt), Hval, Z.eqb_refl. cbn [ensures res_bind].
  rewrite Hsk. cbn [map_err res_bind]. rewrite Hpc. cbn [map_err res_bind].
  rewrite Hpn. cbn [map_err res_bind]. rewrite !bool_decide_true by done. cbn [andb ensures res_bind].
  rewrite Hnote. cbn [map_err res_bind]. rewrite Hcmt. cbn [map_err res_bind].
  rewrite Hfnf. cbn [map_err res_bind]. fold statement. rewrite Hproof. cbn [map_err res_bind].
  rewrite Hpub. reflexivity.
Qed.
End Succeeding.

(** ** The action the construction delivers *)

Section Delivery.
Context `{Pallas} `{CoppiceCarrier} `{ConsensusTransactions}.

Lemma replacement_plan_Ok p note fvk spend funding changes h plan :
  replacement_ironwood_plan p note fvk spend funding changes h = Ok plan →
  pl_successor_note plan = note ∧ pl_operation_height plan = h
  ∧ match pp_operation p with
    | Reveal _ _ _ index _ _ | Refresh _ _ _ index _ _ => pl_designated_action_index plan = index
    | Commit _ => False
    end.
Proof.
  intros ([route index] & Hm & (a & _ & <-%Ok_inj)%res_bind_Ok)%res_bind_Ok. cbn.
  split; [done|]. split; [done|].
  destruct (pp_route p), (pp_operation p); try done; by injection Hm as <- <-.
Qed.

(** The transaction as the host of replay sees it: its actions in order. *)
Definition delivered (x : NamesExtractedTransaction) (tx : Transaction) : Prop :=
  ∃ bundle, ironwood_bundle (xt_transaction x) = Some bundle
    ∧ res_mapM core_action (enumerate (ib_actions bundle)) = Ok (tx_actions tx).

Lemma FieldElement_of_bytes b f g :
  FieldElement_from_bytes b = Ok f → field_bytes g = b → f = g.
Proof. intros [_ ->]%FieldElement_from_bytes_Ok <-. by destruct g. Qed.

Lemma delivered_action `{!OrchardNotesLaws} plan x tx nf cm :
  carries_plan plan x → delivered x tx → 0 ≤ pl_designated_action_index plan →
  rho_from_bytes (field_bytes nf) = Some (note_rho (pl_successor_note plan)) →
  FieldElement_from_bytes (note_commitment (pl_successor_note plan)) = Ok cm →
  tx_actions tx !! Z.to_nat (pl_designated_action_index plan)
    = Some (MkAction (pl_designated_action_index plan) nf cm).
Proof.
  intros ([_ _ _ Hrho] & _ & _ & _ & _ & ib & Hib & _ & [Hi _] & _) (ib' & Hib' & Hm) Hpos Hnf Hcm.
  rewrite Hib in Hib'. injection Hib' as <-. apply res_mapM_Ok in Hm.
  assert (enumerate (ib_actions ib) !! Z.to_nat (pl_designated_action_index plan)
    = Some (pl_designated_action_index plan,
        (note_nullifier (pl_designated_spend plan) (pl_designated_fvk plan),
         note_commitment (pl_successor_note plan)))) as He
    by (rewrite enumerate_lookup, Hi; simpl; by rewrite Z2Nat.id).
  destruct (Forall2_lookup_l _ _ _ _ _ Hm He) as (a & Ha & Hc). rewrite Ha. f_equal.
  apply rho_to_from_bytes in Hnf. rewrite Hnf in Hrho. unfold core_action in Hc.
  apply res_bind_Ok in Hc as (i & Hix%ok_or_Ok & (f & Hf%map_err_Ok & (g & Hg%map_err_Ok & <-%Ok_inj)%res_bind_Ok)%res_bind_Ok).
  unfold u32_try_from in Hix. destruct (_ <=? _); [|done]. injection Hix as <-.
  rewrite Hcm in Hg. apply Ok_inj in Hg as ->. f_equal. by eapply FieldElement_of_bytes.
Qed.
End Delivery.

(** ** Acceptance *)

Section Acceptance.
Context `{Blake2b} `{Pallas} `{!Poseidon} `{OrchardKeys} `{CoppicePayload} `{CoppiceCarrier}
  `{!CanonicalJson Manifest} `{OrchardCircuit} `{!OrchardNotesLaws}
  `{!OrchardBuilder} `{!PcztRoles} `{!ConsensusTransactions} {V : Type} `{!ProofVerifier V}.

(** A transaction that the stages construct from a plan, with any choices. *)
Definition constructed (plan : NamesIronwoodPlan) (t : NamesExtractedTransaction) : Prop :=
  ∃ rng params branch expiry_height lock_time witnesses key signing,
    names_pipeline plan rng params branch expiry_height lock_time witnesses key signing = Ok t.

Definition operation_proof (op : Operation) : option (list byte) :=
  match op with
  | Commit _ => None
  | Reveal _ _ _ _ _ proof | Refresh _ _ _ _ _ proof => Some proof
  end.

Definition reveal_planned (p : PreparedReveal) (plan : NamesIronwoodPlan) : Prop :=
  ∃ fvk spend funding changes, reveal_ironwood_plan p fvk spend funding changes = Ok plan.
Definition refresh_planned (p : PreparedRefresh) (plan : NamesIronwoodPlan) : Prop :=
  ∃ fvk spend funding changes, refresh_ironwood_plan p fvk spend funding changes = Ok plan.

Lemma constructed_carries plan t : constructed plan t → carries_plan plan t.
Proof. by intros (? & ? & ? & ? & ? & ? & ? & ? & [? _]%names_pipeline_Ok). Qed.

Lemma expiry_in_range p h : h + lease_blocks p ≤ u32_max → expiry p h = Ok (h + lease_blocks p).
Proof.
  intros Hl. unfold expiry. by rewrite (proj2 (u32_checked_add_Some h (lease_blocks p) (h + lease_blocks p))).
Qed.

Lemma reveal_delivered x p plan t tx :
  reveal_prepared x p → is_u32 (ri_designated_action_index x) → reveal_planned p plan →
  constructed plan t → delivered t tx →
  tx_actions tx !! Z.to_nat (ri_designated_action_index x)
    = Some (MkAction (ri_designated_action_index x) (rvs_action_nullifier (pr_statement p))
              (rvs_action_commitment (pr_statement p))).
Proof.
  intros Hp Hi (fvk & sp & fs & chs & (Hn & _ & Hpl)%replacement_plan_Ok) Hc%constructed_carries Hd.
  destruct (rp_operation _ _ Hp) as [proof Hop]. rewrite Hop in Hpl. rewrite <- Hpl in *.
  eapply delivered_action; [exact Hc|exact Hd|apply Hi|rewrite Hn; apply Hp..].
Qed.

Lemma refresh_delivered x p plan t tx :
  refresh_prepared x p → is_u32 (fi_designated_action_index x) → refresh_planned p plan →
  constructed plan t → delivered t tx →
  tx_actions tx !! Z.to_nat (fi_designated_action_index x)
    = Some (MkAction (fi_designated_action_index x) (rfs_action_nullifier (prf_statement p))
              (rfs_action_commitment (prf_statement p))).
Proof.
  intros Hp Hi (fvk & sp & fs & chs & (Hn & _ & Hpl)%replacement_plan_Ok) Hc%constructed_carries Hd.
  destruct (fp_operation _ _ Hp) as [proof Hop]. rewrite Hop in Hpl. rewrite <- Hpl in *.
  eapply delivered_action; [exact Hc|exact Hd|apply Hi|rewrite Hn; apply Hp..].
Qed.

(** The statement the wallet proved is the one the reducer rebuilds. *)
Lemma reveal_statement_same x p id (params : Parameters) k e :
  reveal_prepared x p → deployment_id params = id → rvs_deployment_id (pr_statement p) = id →
  rvs_commitment (pr_statement p) = k → e = rvs_inclusion_epoch (pr_statement p) →
  reveal_statement params (rvs_name_id (pr_statement p)) e k (ri_commit_ref x) (ri_ua x)
    (ri_designated_action_index x)
    (MkAction (ri_designated_action_index x) (rvs_action_nullifier (pr_statement p))
       (rvs_action_commitment (pr_statement p))) (rvs_successor_future_nf (pr_statement p))
  = pr_statement p.
Proof.
  intros [_ _ (E1 & E2 & E3 & _) _ _ _ _] <- Ed <- ->. destruct p as [s n pub h].
  unfold reveal_statement. cbn [pr_statement ac_nullifier ac_commitment] in *. rewrite <- E1, <- E2, <- E3, <- Ed.
  by destruct s.
Qed.

Lemma refresh_statement_same x p id (params : Parameters) e :
  refresh_prepared x p → deployment_id params = id → rfs_deployment_id (prf_statement p) = id →
  e = rfs_inclusion_epoch (prf_statement p) →
  refresh_statement params (rfs_name_id (prf_statement p)) (fi_predecessor x) e
    (hd_producer (fi_predecessor x)) (fi_ua x) (fi_designated_action_index x)
    (MkAction (fi_designated_action_index x) (rfs_action_nullifier (prf_statement p))
       (rfs_action_commitment (prf_statement p))) (rfs_successor_future_nf (prf_statement p))
  = prf_statement p.
Proof.
  intros [_ _ _ (E1 & E2 & E3 & E4) (E5 & E6 & _ & _) _ _ _] <- Ed ->. destruct p as [s n pub h].
  unfold refresh_statement. cbn [prf_statement ac_nullifier ac_commitment] in *.
  rewrite <- E1, <- E2, <- E3, <- E4, <- E5, <- E6, <- Ed. by destruct s.
Qed.
End Acceptance.

(** C6: the REVEAL a wallet prepares and constructs is accepted.  Let the COMMIT be
    prepared from the same seed, deployment and name for the epoch of the REVEAL,
    and be recorded at the reference; let the name be missing, and let the
    verifier accept the wallet's proof of its own statement.  Then any transaction
    the stages construct from any plan of the REVEAL, as replay sees it, is
    accepted at the operation's height: the statement the reducer rebuilds is the
    one proved, and the head it installs has the address asked for, the successor
    note's commitment and its nullifier under the name's own key. *)
Theorem prepared_reveal_accepted `{Blake2b} `{Pallas} `{!Poseidon} `{OrchardKeys} `{CoppicePayload}
  `{CoppiceCarrier} `{!CanonicalJson Manifest} `{OrchardCircuit} `{!OrchardNotesLaws}
  `{!OrchardBuilder} `{!PcztRoles} `{!ConsensusTransactions} {V : Type} `{!ProofVerifier V}
  (x : RevealInputs) commit_height c prover rng p plan t (r : Reducer V) undo tx id k :
  let h := ri_operation_height x in
  let i := rvs_name_id (pr_statement p) in
  prepare_commit (ri_wallet_seed x) (ri_deployment x) (ri_name x) commit_height = Ok c →
  prepare_reveal x prover rng = Ok p → is_u32 (ri_designated_action_index x) →
  pc_target_epoch c = rvs_inclusion_epoch (pr_statement p) →
  reveal_planned p plan → constructed plan t →
  delivered t tx → tx_operation tx = Some (pp_operation (pr_publication p)) →
  dp_deployment_id (ri_deployment x) = Ok id → parameters r = dp_schedule (ri_deployment x) id →
  h + lease_blocks (parameters r) ≤ u32_max →
  pp_operation (pc_publication c) = Commit k → commits r !! ri_commit_ref x = Some k →
  heads r !! i = None →
  (∀ proof, operation_proof (pp_operation (pr_publication p)) = Some proof →
     verify_reveal (verifier r) (pr_statement p) proof = true) →
  ∃ head, apply_operation (E := string) h tx (r, undo)
      = Ok (MkOperationDecision (Some AcceptedReveal) "NAMES.REVEAL.ACCEPT",
            (replace_head r i (Some head), remember_head r undo i))
    ∧ hd_name head = ri_name x ∧ hd_ua head = ri_ua x ∧ hd_terminal_height head = None
    ∧ hd_producer head = MkStateRef h (tx_tx_index tx) (tx_txid tx) (ri_designated_action_index x)
    ∧ hd_commitment head = rvs_action_commitment (pr_statement p)
    ∧ hd_future_nf head = rvs_successor_future_nf (pr_statement p)
    ∧ hd_expiry_height head = h + lease_blocks (parameters r).
Proof.
  intros h i Hc Hr Hi Hep Hplan Hcon Hdel Hop Hid Hpar Hexp Hk Hcom Hmiss Hver.
  pose proof (prepare_reveal_Ok _ _ _ _ Hr) as Hp.
  pose proof (reveal_delivered _ _ _ _ _ Hp Hi Hplan Hcon Hdel) as Hact.
  destruct (rp_operation _ _ Hp) as [proof Hpo]. rewrite Hpo in Hop, Hver.
  destruct (rp_deployment _ _ Hp) as (id' & [_ Hid'] & Ed & Hacc & Hcomm & He & o & Ho & Eo).
  rewrite Hid in Hid'. apply Ok_inj in Hid' as <-. rewrite <- Hpar in Hacc, Hcomm, He.
  apply prepare_commit_Ok in Hc as (id' & j & o' & [_ Hid'] & _ & _ & _ & Ho' & Hk').
  rewrite Hid in Hid'. apply Ok_inj in Hid' as <-. rewrite Hep in Ho'.
  rewrite <- (wallet_opening_det _ _ _ _ _ _ Ho Ho'), Hk, <- Eo in Hk'. injection Hk' as Ek.
  assert (check_reveal r h tx (Reveal (ri_name x) (ri_commit_ref x) (ri_ua x) (ri_designated_action_index x)
    (rvs_successor_future_nf (pr_statement p)) proof)
    = Ok (i, produced_head (ri_name x) (ri_ua x) h tx (ri_designated_action_index x)
        (MkAction (ri_designated_action_index x) (rvs_action_nullifier (pr_statement p))
           (rvs_action_commitment (pr_statement p)))
        (rvs_successor_future_nf (pr_statement p)) (rvs_inclusion_epoch (pr_statement p))
        (h + lease_blocks (parameters r)))) as Hcheck.
  { apply check_reveal_Ok. constructor; [done|exact Hacc|].
    do 10 eexists. split; [reflexivity|]. split; [apply Hp|]. split; [exact Hcomm|]. split; [exact Hcom|].
    split; [exact Hact|]. split; [done|]. split; [exact He|]. split; [by apply expiry_in_range|].
    split; [|reflexivity].
    unfold i. erewrite (reveal_statement_same x p id); [by apply Hver|exact Hp|by rewrite Hpar|exact Ed|by rewrite Ek|done]. }
  eexists. split; [|split; [|split; [|split; [|split; [|split; [|split]]]]]].
  { unfold apply_operation. rewrite Hop. unfold apply_reveal, install. cbn [fst]. by rewrite Hcheck. }
  all: reflexivity.
Qed.

(** C22: the REFRESH a wallet prepares and constructs is accepted.  When the
    predecessor it was given is the current head and the verifier accepts the
    wallet's proof of its own statement, any transaction the stages construct from
    any plan of the REFRESH is accepted at the operation's height, and moves the
    name to the successor note with the address asked for. *)
Theorem prepared_refresh_accepted `{Blake2b} `{Pallas} `{!Poseidon} `{OrchardKeys} `{CoppicePayload}
  `{CoppiceCarrier} `{!CanonicalJson Manifest} `{OrchardCircuit} `{!OrchardNotesLaws}
  `{!OrchardBuilder} `{!PcztRoles} `{!ConsensusTransactions} {V : Type} `{!ProofVerifier V}
  (x : RefreshInputs) prover rng p plan t (r : Reducer V) undo tx id :
  let h := fi_operation_height x in
  let i := rfs_name_id (prf_statement p) in
  prepare_refresh x prover rng = Ok p → is_u32 (fi_designated_action_index x) →
  refresh_planned p plan → constructed plan t →
  delivered t tx → tx_operation tx = Some (pp_operation (prf_publication p)) →
  dp_deployment_id (fi_deployment x) = Ok id → parameters r = dp_schedule (fi_deployment x) id →
  h + lease_blocks (parameters r) ≤ u32_max →
  heads r !! i = Some (fi_predecessor x) →
  (∀ proof, operation_proof (pp_operation (prf_publication p)) = Some proof →
     verify_refresh (verifier r) (prf_statement p) proof = true) →
  ∃ head, apply_operation (E := string) h tx (r, undo)
      = Ok (MkOperationDecision (Some AcceptedRefresh) "NAMES.REFRESH.ACCEPT",
            (replace_head r i (Some head), remember_head r undo i))
    ∧ hd_name head = fi_name x ∧ hd_ua head = fi_ua x ∧ hd_terminal_height head = None
    ∧ hd_producer head = MkStateRef h (tx_tx_index tx) (tx_txid tx) (fi_designated_action_index x)
    ∧ hd_commitment head = rfs_action_commitment (prf_statement p)
    ∧ hd_future_nf head = rfs_successor_future_nf (prf_statement p)
    ∧ hd_expiry_height head = h + lease_blocks (parameters r).
Proof.
  intros h i Hr Hi Hplan Hcon Hdel Hop Hid Hpar Hexp Hcur Hver.
  pose proof (prepare_refresh_Ok _ _ _ _ Hr) as Hp.
  pose proof (refresh_delivered _ _ _ _ _ Hp Hi Hplan Hcon Hdel) as Hact.
  destruct (fp_operation _ _ Hp) as [proof Hpo]. rewrite Hpo in Hop, Hver.
  destruct (fp_deployment _ _ Hp) as (id' & [_ Hid'] & Ed & Hlc & Hacc & He).
  rewrite Hid in Hid'. apply Ok_inj in Hid' as <-. rewrite <- Hpar in Hlc, Hacc, He.
  assert (check_refresh r h tx (Refresh (fi_name x) (hd_producer (fi_predecessor x)) (fi_ua x)
    (fi_designated_action_index x) (rfs_successor_future_nf (prf_statement p)) proof)
    = Ok (i, produced_head (fi_name x) (fi_ua x) h tx (fi_designated_action_index x)
        (MkAction (fi_designated_action_index x) (rfs_action_nullifier (prf_statement p))
           (rfs_action_commitment (prf_statement p)))
        (rfs_successor_future_nf (prf_statement p)) (rfs_inclusion_epoch (prf_statement p))
        (h + lease_blocks (parameters r)))) as Hcheck.
  { apply check_refresh_Ok. exists (fi_predecessor x).
    constructor; [exact Hcur|exact Hlc|exact Hacc|apply Hp|].
    do 8 eexists. split; [reflexivity|]. split; [apply Hp|]. split; [exact Hact|]. split; [done|].
    split; [apply (fp_inputs _ _ Hp)|]. split; [exact He|]. split; [by apply expiry_in_range|].
    split; [|reflexivity].
    unfold i. erewrite (refresh_statement_same x p id); [by apply Hver|exact Hp|by rewrite Hpar|exact Ed|done]. }
  eexists. split; [|split; [|split; [|split; [|split; [|split; [|split]]]]]].
  { unfold apply_operation. rewrite Hop. unfold apply_refresh, install. cbn [fst]. by rewrite Hcheck. }
  all: reflexivity.
Qed.
