(* ===== verification/Store.v ===== *)
(** * The SQLite host store ([crates/coppice-names-sqlite/src/lib.rs])

    The tables as maps keyed by their primary keys, and every operation on them:
    the metadata row, deltas and their journal, rollback and finalization, by the
    replay host and by the wallet extension.  A statement is its effect on the
    tables: an [INSERT] of a present key and a query of an absent row are errors,
    a deletion of a journaled block cascades to its rows. *)

From S2P Require Import Prelude Bytes BTree External Protocol Schedule Codec Records State.

Definition SCHEMA_VERSION : Z := 1.
Definition DEFAULT_MINIMUM_ROLLBACK_BLOCKS : Z := 100.

Inductive Coverage :=
  | Complete
  | Exact (name_id : NameId)
  | Owned.

Record StoreIdentity := MkStoreIdentity {
  si_deployment_id : list byte;
  si_ruleset_fingerprint : list byte;
  si_network : Network;
  si_coverage : Coverage;
  si_minimum_rollback_blocks : Z;
}.

(** [StoreIdentity::new] *)
Definition StoreIdentity_new (deployment_id ruleset_fingerprint : list byte) (network : Network)
  (coverage : Coverage) : StoreIdentity :=
  MkStoreIdentity deployment_id ruleset_fingerprint network coverage
    DEFAULT_MINIMUM_ROLLBACK_BLOCKS.

(** The [rusqlite] errors the statements of this file can give. *)
Inductive SqliteError := QueryReturnedNoRows | ConstraintViolation.

Inductive StoreError :=
  | Sqlite (error : SqliteError)
  | Encoding
  | UnsupportedSchema (actual : Z)
  | IdentityMismatch
  | CoverageMismatch
  | CoverageViolation
  | TipMismatch
  | NonSequentialDelta
  | AuthoritativeRecordMismatch
  | MissingRollbackJournal
  | StoreWrongTipHash
  | FinalizationBeyondTip
  | InsufficientRollbackRetention
  | IntegrityCheckFailed (reason : string)
  | InvalidStoredRecord
  | InjectedFailure.

Record HeadRecord := MkHeadRecord {
  hr_name : list byte;
  hr_ua : list byte;
  hr_producer : StateRef;
  hr_commitment : list byte;
  hr_future_nf : list byte;
  hr_producer_epoch : Z;
  hr_expiry_height : Z;
  hr_terminal_height : option Z;
}.

#[global] Instance Coverage_eq_dec : EqDecision Coverage.
Proof. solve_decision. Defined.
#[global] Instance HeadRecord_eq_dec : EqDecision HeadRecord.
Proof. solve_decision. Defined.
#[global] Instance ReducerTip_eq_dec : EqDecision ReducerTip.
Proof. solve_decision. Defined.

(** [impl From<&Head> for HeadRecord] *)
Definition HeadRecord_from (value : Head) : HeadRecord := {|
  hr_name := name_bytes (hd_name value);
  hr_ua := ua_bytes (hd_ua value);
  hr_producer := hd_producer value;
  hr_commitment := field_bytes (hd_commitment value);
  hr_future_nf := field_bytes (hd_future_nf value);
  hr_producer_epoch := hd_producer_epoch value;
  hr_expiry_height := hd_expiry_height value;
  hr_terminal_height := hd_terminal_height value |}.

Inductive MissingAuthority := Authoritative | InsufficientCoverage | StaleTip.

(** ** Tables *)

(** [ext_coppice_names_metadata], its singleton row. *)
Record Metadata := MkMetadata {
  md_schema_version : Z;
  md_deployment_id : list byte;
  md_ruleset_fingerprint : list byte;
  md_network : Z;
  md_coverage_kind : Z;
  md_coverage_name_id : option (list byte);
  md_minimum_rollback_blocks : Z;
  md_tip_height : option Z;
  md_tip_hash : option (list byte);
  md_finalized_height : option Z;
  md_core_snapshot : option (list byte);
}.

(** A row of [ext_coppice_names_rollback_blocks]. *)
Record BlockRow := MkBlockRow {
  bk_hash : list byte;
  bk_previous_tip_height : option Z;
  bk_previous_tip_hash : option (list byte);
}.

(** The tables by primary key: [name_id], [(height, tx_index, txid)],
    [commitment], [height], and [block_height] with the key of the journaled
    row.  A key blob is held in the newtype it encodes, unvalidated. *)
Record Store := MkStore {
  db_metadata : option Metadata;
  db_heads : gmap NameId HeadRecord;
  db_pending_commits : gmap CommitRef (list byte);
  db_wallet_commits : gmap (list byte) CommitRef;
  db_rollback_blocks : gmap Z BlockRow;
  db_rollback_heads : gmap (Z * NameId) (option (list byte));
  db_rollback_commits : gmap (Z * CommitRef) (option (list byte));
}.

(** Assignments to the tables. *)
Definition set_metadata (m : option Metadata) (s : Store) : Store :=
  MkStore m (db_heads s) (db_pending_commits s) (db_wallet_commits s) (db_rollback_blocks s)
    (db_rollback_heads s) (db_rollback_commits s).
Definition set_records (h : gmap NameId HeadRecord) (c : gmap CommitRef (list byte)) (s : Store) : Store :=
  MkStore (db_metadata s) h c (db_wallet_commits s) (db_rollback_blocks s)
    (db_rollback_heads s) (db_rollback_commits s).
Definition set_wallet_commits (w : gmap (list byte) CommitRef) (s : Store) : Store :=
  MkStore (db_metadata s) (db_heads s) (db_pending_commits s) w (db_rollback_blocks s)
    (db_rollback_heads s) (db_rollback_commits s).
Definition set_journal (b : gmap Z BlockRow) (h : gmap (Z * NameId) (option (list byte)))
  (c : gmap (Z * CommitRef) (option (list byte))) (s : Store) : Store :=
  MkStore (db_metadata s) (db_heads s) (db_pending_commits s) (db_wallet_commits s) b h c.

Definition set_tip_columns (height : option Z) (hash : option (list byte)) (m : Metadata) : Metadata :=
  MkMetadata (md_schema_version m) (md_deployment_id m) (md_ruleset_fingerprint m) (md_network m)
    (md_coverage_kind m) (md_coverage_name_id m) (md_minimum_rollback_blocks m) height hash
    (md_finalized_height m) (md_core_snapshot m).
Definition set_core_snapshot (snapshot : option (list byte)) (m : Metadata) : Metadata :=
  MkMetadata (md_schema_version m) (md_deployment_id m) (md_ruleset_fingerprint m) (md_network m)
    (md_coverage_kind m) (md_coverage_name_id m) (md_minimum_rollback_blocks m) (md_tip_height m)
    (md_tip_hash m) (md_finalized_height m) snapshot.
Definition set_finalized (height : option Z) (m : Metadata) : Metadata :=
  MkMetadata (md_schema_version m) (md_deployment_id m) (md_ruleset_fingerprint m) (md_network m)
    (md_coverage_kind m) (md_coverage_name_id m) (md_minimum_rollback_blocks m) (md_tip_height m)
    (md_tip_hash m) height (md_core_snapshot m).

(** [UPDATE .. WHERE singleton = 1] *)
Definition update_metadata (f : Metadata → Metadata) : M Store StoreError unit :=
  mmodify (λ s, set_metadata (f <$> db_metadata s) s).

(** [query_row(.. WHERE singleton = 1)] *)
Definition query_metadata : M Store StoreError Metadata :=
  let! s := mget in mlift (ok_or (db_metadata s) (Sqlite QueryReturnedNoRows)).

(** The rows [WHERE block_height = ?1] of a journal table, by the rest of the key. *)
Definition block_rows {K A : Type} `{Countable K} (height : Z) (t : gmap (Z * K) A) : gmap K A :=
  default ∅ (map_curry (M1 := gmap Z) (M2 := gmap K) t !! height).

(** Rows that outlive the deletion of the blocks of [P], by [ON DELETE CASCADE]. *)
Definition cascade {K A : Type} `{Countable K} (P : Z → bool) (t : gmap (Z * K) A) : gmap (Z * K) A :=
  filter (λ '(key, _), P key.1 = false) t.

(** [DELETE FROM ext_coppice_names_rollback_blocks WHERE P(height)] *)
Definition delete_rollback_blocks (P : Z → bool) : M Store StoreError unit :=
  mmodify (λ s, set_journal (filter (λ '(height, _), P height = false) (db_rollback_blocks s))
                  (cascade P (db_rollback_heads s)) (cascade P (db_rollback_commits s)) s).

(** [INSERT INTO ext_coppice_names_rollback_blocks] *)
Definition insert_rollback_block (height : Z) (row : BlockRow) : M Store StoreError unit :=
  let! s := mget in
  let! _ := mlift (ensure (bool_decide (db_rollback_blocks s !! height = None))
                     (Sqlite ConstraintViolation)) in
  mmodify (λ s, set_journal (<[height := row]> (db_rollback_blocks s)) (db_rollback_heads s)
                  (db_rollback_commits s) s).

(** [INSERT INTO ext_coppice_names_rollback_heads], [.._rollback_commits]: the key
    is new and the block is journaled. *)
Definition insert_rollback_head (height : Z) (name_id : NameId) (previous : option (list byte))
  : M Store StoreError unit :=
  let! s := mget in
  let! _ := mlift (ensure (bool_decide (db_rollback_heads s !! (height, name_id) = None)
                           && bool_decide (is_Some (db_rollback_blocks s !! height)))
                     (Sqlite ConstraintViolation)) in
  mmodify (λ s, set_journal (db_rollback_blocks s)
                  (<[(height, name_id) := previous]> (db_rollback_heads s)) (db_rollback_commits s) s).

Definition insert_rollback_commit (height : Z) (reference : CommitRef) (previous : option (list byte))
  : M Store StoreError unit :=
  let! s := mget in
  let! _ := mlift (ensure (bool_decide (db_rollback_commits s !! (height, reference) = None)
                           && bool_decide (is_Some (db_rollback_blocks s !! height)))
                     (Sqlite ConstraintViolation)) in
  mmodify (λ s, set_journal (db_rollback_blocks s) (db_rollback_heads s)
                  (<[(height, reference) := previous]> (db_rollback_commits s)) s).

(** ** Columns *)

Definition decode_32 (bytes : list byte) : res StoreError (list byte) :=
  if bool_decide (length bytes = 32%nat) then Ok bytes else Err InvalidStoredRecord.

Definition decode_optional_tip (value : option Z * option (list byte))
  : res StoreError (option ReducerTip) :=
  match value with
  | (None, None) => Ok None
  | (Some height, Some hash) => let? hash := decode_32 hash in Ok (Some (MkReducerTip height hash))
  | _ => Err InvalidStoredRecord
  end.

Definition encode_coverage (coverage : Coverage) : Z * option (list byte) :=
  match coverage with
  | Complete => (0, None)
  | Exact name_id => (1, Some (name_id_bytes name_id))
  | Owned => (2, None)
  end.

Definition encode_network (network : Network) : Z :=
  match network with Main => 0 | Test => 1 | Regtest => 2 end.

Section Columns.
Context `{Blake2b} `{Pallas} `{UnifiedAddress}.

Definition decode_name_id (bytes : list byte) : res StoreError NameId :=
  let? bytes := decode_32 bytes in
  map_err (λ _, InvalidStoredRecord) (NameId_from_bytes bytes).

Definition validate_head (name_id : NameId) (record : HeadRecord) (network : Network)
  (tip_height : option Z) : res StoreError unit :=
  let? name := map_err (λ _, InvalidStoredRecord) (Name_parse (hr_name record)) in
  let? id := map_err (λ _, InvalidStoredRecord) (Name_id name) in
  let? _ := ensure (bool_decide (id = name_id)) InvalidStoredRecord in
  let? _ := map_err (λ _, InvalidStoredRecord) (CanonicalUa_parse network (hr_ua record)) in
  let? _ := map_err (λ _, InvalidStoredRecord) (FieldElement_from_bytes (hr_commitment record)) in
  let? _ := map_err (λ _, InvalidStoredRecord) (FieldElement_from_bytes (hr_future_nf record)) in
  let producer := sr_height (hr_producer record) in
  ensure (negb ((hr_expiry_height record <? producer)
                || match hr_terminal_height record with
                   | Some height => height <? producer
                   | None => false
                   end
                || match tip_height with
                   | Some tip =>
                       (tip <? producer)
                       || match hr_terminal_height record with
                          | Some height => tip <? height
                          | None => false
                          end
                   | None => false
                   end)) InvalidStoredRecord.
End Columns.

(** ** Reads and writes *)

Definition read_tip : M Store StoreError (option ReducerTip) :=
  let! m := query_metadata in
  mlift (decode_optional_tip (md_tip_height m, md_tip_hash m)).

Definition write_tip (tip : option ReducerTip) : M Store StoreError unit :=
  update_metadata (set_tip_columns (tip_height_ <$> tip) (tip_hash <$> tip)).

Definition decode_head_row (row : HeadRecord) : res StoreError HeadRecord :=
  let? txid := decode_32 (sr_txid (hr_producer row)) in
  let? commitment := decode_32 (hr_commitment row) in
  let? future_nf := decode_32 (hr_future_nf row) in
  Ok (MkHeadRecord (hr_name row) (hr_ua row)
        (MkStateRef (sr_height (hr_producer row)) (sr_tx_index (hr_producer row)) txid
           (sr_action_index (hr_producer row)))
        commitment future_nf (hr_producer_epoch row) (hr_expiry_height row) (hr_terminal_height row)).

Definition read_head (name_id : NameId) : M Store StoreError (option HeadRecord) :=
  let! s := mget in mlift (transpose decode_head_row (db_heads s !! name_id)).

(** A [DELETE], and an [INSERT] of the record. *)
Definition write_head (name_id : NameId) (record : option HeadRecord) : M Store StoreError unit :=
  let! _ := mmodify (λ s, set_records (delete name_id (db_heads s)) (db_pending_commits s) s) in
  match record with
  | Some record =>
      mmodify (λ s, set_records (<[name_id := record]> (db_heads s)) (db_pending_commits s) s)
  | None => mret tt
  end.

Definition read_commit (reference : CommitRef) : M Store StoreError (option (list byte)) :=
  let! s := mget in mlift (transpose decode_32 (db_pending_commits s !! reference)).

Definition write_commit (reference : CommitRef) (commitment : option (list byte))
  : M Store StoreError unit :=
  let! _ := mmodify (λ s, set_records (db_heads s) (delete reference (db_pending_commits s)) s) in
  match commitment with
  | Some commitment =>
      mmodify (λ s, set_records (db_heads s) (<[reference := commitment]> (db_pending_commits s)) s)
  | None => mret tt
  end.

(** [put_core_snapshot], [reset_for_replay] *)
Definition put_core_snapshot (snapshot : list byte) : M Store StoreError unit :=
  update_metadata (set_core_snapshot (Some snapshot)).

Definition reset_for_replay : M Store StoreError unit :=
  let! _ := mmodify (λ s, set_journal (db_rollback_blocks s) ∅ (db_rollback_commits s) s) in
  let! _ := mmodify (λ s, set_journal (db_rollback_blocks s) (db_rollback_heads s) ∅ s) in
  let! _ := delete_rollback_blocks (λ _, true) in
  let! _ := mmodify (λ s, set_records (db_heads s) ∅ s) in
  let! _ := mmodify (λ s, set_records ∅ (db_pending_commits s) s) in
  update_metadata (λ m, set_core_snapshot None (set_finalized None (set_tip_columns None None m))).

(** ** Deltas *)

Section Deltas.
Context `{Blake2b} `{Pallas} `{UnifiedAddress} `{!SerdeJson HeadRecord}.
Context (identity : StoreIdentity).

(** [delta.from_tip.is_some_and(..)]: the tips do not follow each other. *)
Definition non_sequential (from_tip : option ReducerTip) (to_tip : ReducerTip) : bool :=
  match from_tip with
  | Some from =>
      bool_decide (u32_checked_add (tip_height_ from) 1 ≠ Some (tip_height_ to_tip))
      || bool_decide (tip_hash from = tip_hash to_tip)
  | None => false
  end.

Definition covered (delta : StateDelta) : bool :=
  match si_coverage identity with
  | Exact expected => negb (existsb (λ c, bool_decide (hc_name_id c ≠ expected)) (sd_heads delta))
  | _ => true
  end.

(** [serde_json::to_vec(&record)?] *)
Definition encode_record (record : HeadRecord) : res StoreError (list byte) :=
  ok_or (to_vec record) Encoding.
Definition decode_record (bytes : list byte) : res StoreError HeadRecord :=
  ok_or (from_slice bytes) Encoding.

(** The validation of an optional head of a change. *)
Definition validate_change (name_id : NameId) (head : option Head) (tip : option Z)
  : res StoreError unit :=
  match head with
  | Some head => validate_head name_id (HeadRecord_from head) (si_network identity) tip
  | None => Ok tt
  end.

(** The loop bodies of [apply_delta]. *)
Definition apply_head_change (from to : option Z) (height : Z) (change : HeadChange)
  : M Store StoreError unit :=
  let! _ := mlift (validate_change (hc_name_id change) (hc_previous change) from) in
  let! _ := mlift (validate_change (hc_name_id change) (hc_current change) to) in
  let! actual := read_head (hc_name_id change) in
  let! _ := mlift (ensure (bool_decide (actual = HeadRecord_from <$> hc_previous change))
                     AuthoritativeRecordMismatch) in
  let! previous := mlift (transpose encode_record (HeadRecord_from <$> hc_previous change)) in
  let! _ := insert_rollback_head height (hc_name_id change) previous in
  write_head (hc_name_id change) (HeadRecord_from <$> hc_current change).

Definition apply_commit_change (height : Z) (change : CommitChange) : M Store StoreError unit :=
  let! actual := read_commit (cc_reference change) in
  let! _ := mlift (ensure (bool_decide (actual = commitment_bytes <$> cc_previous change))
                     AuthoritativeRecordMismatch) in
  let! _ := insert_rollback_commit height (cc_reference change)
              (commitment_bytes <$> cc_previous change) in
  write_commit (cc_reference change) (commitment_bytes <$> cc_current change).

Definition apply_delta (delta : StateDelta) : M Store StoreError unit :=
  let! tip := read_tip in
  let! _ := mlift (ensure (bool_decide (tip = from_tip delta)) TipMismatch) in
  let! to_tip := mlift (ok_or (to_tip delta) NonSequentialDelta) in
  let! _ := mlift (ensure (negb (non_sequential (from_tip delta) to_tip)) NonSequentialDelta) in
  let! _ := mlift (ensure (covered delta) CoverageViolation) in
  let height := tip_height_ to_tip in
  let! _ := insert_rollback_block height
              (MkBlockRow (tip_hash to_tip) (tip_height_ <$> from_tip delta)
                 (tip_hash <$> from_tip delta)) in
  let! _ := mfold (λ _, apply_head_change (tip_height_ <$> from_tip delta) (Some height) height) tt
              (sd_heads delta) in
  let! _ := mfold (λ _, apply_commit_change height) tt (sd_commits delta) in
  write_tip (Some to_tip).

(** ** Rollback *)

(** The row of the tip, which must be journaled. *)
Definition previous_tip_row (tip : ReducerTip) : M Store StoreError (option ReducerTip) :=
  let! s := mget in
  let! row := mlift (ok_or (match db_rollback_blocks s !! tip_height_ tip with
                            | Some row => if bool_decide (bk_hash row = tip_hash tip) then Some row else None
                            | None => None
                            end) MissingRollbackJournal) in
  mlift (decode_optional_tip (bk_previous_tip_height row, bk_previous_tip_hash row)).

(** One journaled head: its key decoded, its record parsed and validated. *)
Definition decode_head_change (previous_tip : option ReducerTip) (row : NameId * option (list byte))
  : res StoreError (NameId * option HeadRecord) :=
  let '(name_id, previous) := row in
  let? name_id := decode_name_id (name_id_bytes name_id) in
  let? previous := transpose decode_record previous in
  let? _ := match previous with
            | Some record =>
                validate_head name_id record (si_network identity) (tip_height_ <$> previous_tip)
            | None => Ok tt
            end in
  Ok (name_id, previous).

Definition restore_head_row (previous_tip : option ReducerTip) (row : NameId * option (list byte))
  : M Store StoreError NameId :=
  let! (name_id, previous) := mlift (decode_head_change previous_tip row) in
  let! _ := write_head name_id previous in
  mret name_id.

Definition decode_commit_change (row : CommitRef * option (list byte))
  : res StoreError (CommitRef * option (list byte)) :=
  let '(key, previous) := row in
  let? txid := decode_32 (cr_txid key) in
  let? previous := transpose decode_32 previous in
  Ok (MkCommitRef (cr_height key) (cr_tx_index key) txid, previous).

Definition restore_commit_row (row : CommitRef * option (list byte)) : M Store StoreError CommitRef :=
  let! (reference, previous) := mlift (decode_commit_change row) in
  let! _ := write_commit reference previous in
  mret reference.

(** The replay host's [rollback_tip]: the rows are collected, then replayed. *)
Definition rollback_store_tip (expected_hash : list byte) : M Store StoreError (option ReducerTip) :=
  let! tip := read_tip in
  let! tip := mlift (ok_or tip MissingRollbackJournal) in
  let! _ := mlift (ensure (bool_decide (tip_hash tip = expected_hash)) StoreWrongTipHash) in
  let! previous_tip := previous_tip_row tip in
  let! s := mget in
  let! _ := mfold (λ _ row, let! _ := restore_head_row previous_tip row in mret tt) tt
              (btree_iter (block_rows (tip_height_ tip) (db_rollback_heads s))) in
  let! s := mget in
  let! _ := mfold (λ _ row, let! _ := restore_commit_row row in mret tt) tt
              (btree_iter (block_rows (tip_height_ tip) (db_rollback_commits s))) in
  let! _ := delete_rollback_blocks (λ height, height =? tip_height_ tip) in
  let! _ := write_tip previous_tip in
  mret previous_tip.

(** [finalize_through] *)
Definition finalize_store (height : Z) : M Store StoreError unit :=
  let! tip := read_tip in
  let! tip := mlift (ok_or tip FinalizationBeyondTip) in
  let! _ := mlift (ensure (height <=? tip_height_ tip) FinalizationBeyondTip) in
  let! latest_safe := mlift (ok_or (u32_checked_sub (tip_height_ tip) (si_minimum_rollback_blocks identity))
                               InsufficientRollbackRetention) in
  let! _ := mlift (ensure (height <=? latest_safe) InsufficientRollbackRetention) in
  let! _ := delete_rollback_blocks (λ h, h <=? height) in
  update_metadata (λ m, set_finalized
    (Some (match md_finalized_height m with
           | None => height
           | Some finalized => if finalized <? height then height else finalized
           end)) m).

(** ** The wallet extension

    Its statements are those of the replay host, over the wallet's connection;
    only its rollback is written otherwise. *)

Definition wallet_tip : M Store StoreError (option ReducerTip) := read_tip.
Definition wallet_put_core_snapshot (snapshot : list byte) : M Store StoreError unit :=
  put_core_snapshot snapshot.
Definition wallet_read_head (name_id : NameId) : M Store StoreError (option HeadRecord) := read_head name_id.
Definition wallet_write_head (name_id : NameId) (record : option HeadRecord) : M Store StoreError unit :=
  write_head name_id record.
Definition wallet_read_commit (reference : CommitRef) : M Store StoreError (option (list byte)) :=
  read_commit reference.
Definition wallet_write_commit (reference : CommitRef) (commitment : option (list byte))
  : M Store StoreError unit := write_commit reference commitment.
Definition wallet_apply_delta (delta : StateDelta) : M Store StoreError unit := apply_delta delta.

(** The loops of the wallet's [rollback_tip]: select the first row, replay it,
    delete it.  Running out of [fuel] would be a loop that does not end. *)
Fixpoint restore_heads_loop (fuel : nat) (height : Z) (previous_tip : option ReducerTip)
  : M Store StoreError unit :=
  match fuel with
  | O => λ s, (Panic, s)
  | S fuel =>
      let! s := mget in
      match btree_iter (block_rows height (db_rollback_heads s)) with
      | [] => mret tt
      | row :: _ =>
          let! name_id := restore_head_row previous_tip row in
          let! _ := mmodify (λ s, set_journal (db_rollback_blocks s)
                      (delete (height, name_id) (db_rollback_heads s)) (db_rollback_commits s) s) in
          restore_heads_loop fuel height previous_tip
      end
  end.

Fixpoint restore_commits_loop (fuel : nat) (height : Z) : M Store StoreError unit :=
  match fuel with
  | O => λ s, (Panic, s)
  | S fuel =>
      let! s := mget in
      match btree_iter (block_rows height (db_rollback_commits s)) with
      | [] => mret tt
      | row :: _ =>
          let! reference := restore_commit_row row in
          let! _ := mmodify (λ s, set_journal (db_rollback_blocks s) (db_rollback_heads s)
                      (delete (height, reference) (db_rollback_commits s)) s) in
          restore_commits_loop fuel height
      end
  end.

Definition wallet_rollback_tip : M Store StoreError (option ReducerTip) :=
  let! tip := read_tip in
  let! tip := mlift (ok_or tip MissingRollbackJournal) in
  let! previous_tip := previous_tip_row tip in
  let! s := mget in
  let! _ := restore_heads_loop (S (size (db_rollback_heads s))) (tip_height_ tip) previous_tip in
  let! s := mget in
  let! _ := restore_commits_loop (S (size (db_rollback_commits s))) (tip_height_ tip) in
  let! _ := delete_rollback_blocks (λ height, height =? tip_height_ tip) in
  let! _ := write_tip previous_tip in
  mret previous_tip.

(** The [while] loop of [rollback_to_height]. *)
Fixpoint rollback_loop (fuel : nat) (height : Z) : M Store StoreError unit :=
  match fuel with
  | O => λ s, (Panic, s)
  | S fuel =>
      let! tip := read_tip in
      if match tip with Some tip => height <? tip_height_ tip | None => false end
      then let! _ := wallet_rollback_tip in rollback_loop fuel height
      else mret tt
  end.

Definition rollback_to_height (height : Z) : M Store StoreError (option ReducerTip) :=
  let! original_tip := read_tip in
  let! s := mget in
  let! _ := rollback_loop (S (size (db_rollback_blocks s))) height in
  let! tip := read_tip in
  let! _ := if bool_decide (tip ≠ original_tip) then update_metadata (set_core_snapshot None)
            else mret tt in
  read_tip.

(** A [match] on the error of a call, whose writes are kept. *)
Definition rollback_to_height_or_reset (height : Z) : M Store StoreError (option ReducerTip) :=
  let! result := λ s,
    match rollback_to_height height s with
    | (Err MissingRollbackJournal, s) =>
        (let! _ := reset_for_replay in mret None) s
    | outcome => outcome
    end in
  let! _ := mmodify (λ s, set_wallet_commits
              (filter (λ '(_, reference), negb (height <? cr_height reference) = true)
                 (db_wallet_commits s)) s) in
  mret result.

(** [record_wallet_commit], [wallet_commit_observation] *)
Definition decode_wallet_commit (row : CommitRef) : res StoreError CommitRef :=
  let? txid := decode_32 (cr_txid row) in
  Ok (MkCommitRef (cr_height row) (cr_tx_index row) txid).

Definition wallet_commit_observation (commitment : list byte) : M Store StoreError (option CommitRef) :=
  let! s := mget in mlift (transpose decode_wallet_commit (db_wallet_commits s !! commitment)).

Definition record_wallet_commit (commitment : list byte) (reference : CommitRef)
  : M Store StoreError unit :=
  let! existing := wallet_commit_observation commitment in
  match existing with
  | Some value => if bool_decide (value ≠ reference) then mfail AuthoritativeRecordMismatch else mret tt
  | None => mmodify (λ s, set_wallet_commits (<[commitment := reference]> (db_wallet_commits s)) s)
  end.

(** ** Opening *)

Definition identity_columns (m : Metadata) : res StoreError unit :=
  let? _ := ensure (md_schema_version m =? SCHEMA_VERSION) (UnsupportedSchema (md_schema_version m)) in
  let? deployment := decode_32 (md_deployment_id m) in
  let? _ := ensure (bool_decide (deployment = si_deployment_id identity)) IdentityMismatch in
  let? ruleset := decode_32 (md_ruleset_fingerprint m) in
  let? _ := ensure (bool_decide (ruleset = si_ruleset_fingerprint identity)) IdentityMismatch in
  let? _ := ensure (md_network m =? encode_network (si_network identity)) IdentityMismatch in
  ensure (bool_decide ((md_coverage_kind m, md_coverage_name_id m) = encode_coverage (si_coverage identity)))
    CoverageMismatch.

(** [initialize_or_validate_metadata] *)
Definition initialize_or_validate_metadata : M Store StoreError unit :=
  let! s := mget in
  match db_metadata s with
  | Some m =>
      let! _ := mlift (identity_columns m) in
      mlift (ensure (md_minimum_rollback_blocks m =? si_minimum_rollback_blocks identity)
               IdentityMismatch)
  | None =>
      let '(kind, name_id) := encode_coverage (si_coverage identity) in
      mmodify (set_metadata (Some (MkMetadata SCHEMA_VERSION (si_deployment_id identity)
        (si_ruleset_fingerprint identity) (encode_network (si_network identity)) kind name_id
        (si_minimum_rollback_blocks identity) None None None None)))
  end.

(** The tables exist; the metadata row is written or checked. *)
Definition initialize_wallet_connection : M Store StoreError unit := initialize_or_validate_metadata.

(** [WalletNamesTransaction::new] *)
Definition wallet_open : M Store StoreError unit :=
  let! m := query_metadata in
  let! _ := mlift (identity_columns m) in
  mlift (ensure (negb (md_minimum_rollback_blocks m <? si_minimum_rollback_blocks identity))
           InsufficientRollbackRetention).

(** ** Queries *)

Definition core_snapshot : M Store StoreError (option (list byte)) :=
  let! m := query_metadata in mret (md_core_snapshot m).

Definition missing_authority (name_id : NameId) (requested_tip : ReducerTip)
  : M Store StoreError MissingAuthority :=
  let! tip := read_tip in
  if bool_decide (tip ≠ Some requested_tip) then mret StaleTip
  else mret (match si_coverage identity with
             | Complete => Authoritative
             | Exact expected => if bool_decide (expected = name_id) then Authoritative
                                 else InsufficientCoverage
             | Owned => InsufficientCoverage
             end).

(** ** Transactions *)

(** [with_transaction]: an error, or a panic that unwinds, undoes the writes. *)
Definition with_transaction {R : Type} (operation : M Store StoreError R) : M Store StoreError R := λ s,
  match operation s with
  | (Ok output, s') => (Ok output, s')
  | (Err error, _) => (Err error, s)
  | (Panic, _) => (Panic, s)
  end.

(** [with_block_savepoint]: an error undoes the writes of the block; a panic is
    left to the outer transaction. *)
Definition with_block_savepoint {R : Type} (operation : M Store StoreError R) : M Store StoreError R := λ s,
  match operation s with
  | (Ok output, s') => (Ok output, s')
  | (Err error, _) => (Err error, s)
  | (Panic, s') => (Panic, s')
  end.
End Deltas.
