(* ===== verification/StoreFacts.v ===== *)
(** * Rollback in the store: the two implementations, and termination

    What the loops of a rollback do to the tables; the wallet's row-by-row
    rollback has the outcome of the host's; a rewind ends on every database. *)

From S2P Require Import Prelude Bytes BTree External Protocol Concrete Schedule Codec Records State Store.

(** ** Journal tables *)

Lemma lookup_block_rows {K A : Type} `{Countable K} (height : Z) (t : gmap (Z * K) A) (k : K) :
  block_rows height t !! k = t !! (height, k).
Proof.
  unfold block_rows. rewrite <- (lookup_map_curry (M1 := gmap Z) (M2 := gmap K)).
  destruct (map_curry t !! height) as [m|] eqn:E; simpl; [done|]. apply lookup_empty.
Qed.

Lemma block_rows_delete {K A : Type} `{Countable K} (height : Z) (k : K) (t : gmap (Z * K) A) :
  block_rows height (delete (height, k) t) = delete k (block_rows height t).
Proof.
  apply map_eq. intros i. rewrite lookup_block_rows. destruct (decide (i = k)) as [->|Hne].
  - by rewrite !lookup_delete_eq.
  - rewrite !lookup_delete_ne by congruence. by rewrite lookup_block_rows.
Qed.

Lemma lookup_cascade {K A : Type} `{Countable K} (P : Z → bool) (t : gmap (Z * K) A) height k :
  cascade P t !! (height, k) = if P height then None else t !! (height, k).
Proof.
  unfold cascade. rewrite map_lookup_filter. destruct (t !! (height, k)); simpl.
  - destruct (P height) eqn:E; [by rewrite option_guard_False by congruence|by rewrite option_guard_True].
  - by destruct (P height).
Qed.

Lemma cascade_delete {K A : Type} `{Countable K} (P : Z → bool) (t : gmap (Z * K) A) height k :
  P height = true → cascade P (delete (height, k) t) = cascade P t.
Proof.
  intros HP. apply map_eq. intros [h i]. rewrite !lookup_cascade.
  destruct (P h) eqn:E; [done|]. rewrite lookup_delete_ne; [done|]. intros [= -> _]. congruence.
Qed.

Lemma cascade_twice {K A : Type} `{Countable K} (P : Z → bool) (t : gmap (Z * K) A) :
  cascade P (cascade P t) = cascade P t.
Proof. apply map_eq. intros [h k]. rewrite !lookup_cascade. by destruct (P h). Qed.

Lemma cascade_no_rows {K A : Type} `{Countable K} (height : Z) (t : gmap (Z * K) A) :
  (∀ k, block_rows height t !! k = None) → cascade (λ h, h =? height) t = t.
Proof.
  intros Hn. apply map_eq. intros [h k]. rewrite lookup_cascade.
  destruct (Z.eqb_spec h height) as [->|]; [|done]. by rewrite <- lookup_block_rows, Hn.
Qed.

Lemma btree_iter_nil {K V : Type} `{Countable K} `{!OrdKey K} (m : gmap K V) k :
  btree_iter m = [] → m !! k = None.
Proof.
  intros E. apply eq_None_not_Some. intros [v Hv%elem_of_btree_iter]. rewrite E in Hv.
  by apply not_elem_of_nil in Hv.
Qed.

(** ** One write *)

Lemma write_head_eq name_id record s :
  write_head name_id record s
  = (Ok tt, set_records (partial_alter (λ _, record) name_id (db_heads s)) (db_pending_commits s) s).
Proof.
  unfold write_head, sbind, mmodify, mret. destruct record as [record|]; cbn.
  - by rewrite insert_delete_eq.
  - done.
Qed.

Lemma write_commit_eq reference commitment s :
  write_commit reference commitment s
  = (Ok tt, set_records (db_heads s) (partial_alter (λ _, commitment) reference (db_pending_commits s)) s).
Proof.
  unfold write_commit, sbind, mmodify, mret. destruct commitment as [commitment|]; cbn.
  - by rewrite insert_delete_eq.
  - done.
Qed.

(** The outcome without its value. *)
Definition outcome {E A : Type} (m : res E A) : res E unit :=
  match m with Ok _ => Ok tt | Err e => Err e | Panic => Panic end.

(** Replaying rows, in both implementations, for one table: [decode] reads a row,
    [write] puts it back and [drop] deletes it from the journal. *)
Section Replay.
Context {K W : Type} `{Countable K} `{!OrdKey K}.
Context (rows : Store → gmap (Z * K) (option (list byte))) (table : Store → gmap K W).
Context (decode : K * option (list byte) → res StoreError (K * option W)).
Context (restore : K * option (list byte) → M Store StoreError K).
Context (put : gmap K W → Store → Store) (journal : gmap (Z * K) (option (list byte)) → Store → Store).
Context (restore_eq : ∀ row s, restore row s =
  match decode row with
  | Ok (k, v) => (Ok k, put (partial_alter (λ _, v) k (table s)) s)
  | Err e => (Err e, s)
  | Panic => (Panic, s)
  end).
Context (decode_key : ∀ k x k' v, decode (k, x) = Ok (k', v) → k' = k).
Context (table_put : ∀ t s, table (put t s) = t) (table_journal : ∀ j s, table (journal j s) = table s).
Context (rows_put : ∀ t s, rows (put t s) = rows s) (rows_journal : ∀ j s, rows (journal j s) = j).
Context (put_put : ∀ t t' s, put t (put t' s) = put t s).
Context (put_journal : ∀ t j s, put t (journal j s) = journal j (put t s)).
Context (journal_journal : ∀ j j' s, journal j (journal j' s) = journal j s).
Context (put_table : ∀ s, put (table s) s = s) (journal_rows : ∀ s, journal (rows s) s = s).

(** The host's loop over the collected rows. *)
Lemma replay_rows l s :
  ∃ s', mfold (λ _ row, let! _ := restore row in mret tt) tt l s = (outcome (res_mapM decode l), s')
    ∧ ∀ ws, res_mapM decode l = Ok ws → s' = put (assign ws (table s)) s.
Proof.
  revert s. induction l as [|[k x] l IH]; intros s.
  { exists s. split; [done|]. intros ws [= <-]. unfold assign. simpl. by rewrite put_table. }
  simpl. unfold sbind at 1 2. rewrite restore_eq. unfold mret at 1.
  destruct (decode (k, x)) as [[k' v]|e|]; cbn [res_bind outcome]; [|by exists s..].
  destruct (IH (put (partial_alter (λ _, v) k' (table s)) s)) as (s' & Hrun & Hs').
  exists s'. rewrite Hrun. destruct (res_mapM decode l) as [ws|e|]; cbn [res_bind outcome]; [|done..].
  split; [done|]. intros ws' [= <-]. rewrite (Hs' ws eq_refl), put_put, table_put. done.
Qed.

(** The wallet's loop. *)
Fixpoint replay_loop (fuel : nat) (height : Z) : M Store StoreError unit :=
  match fuel with
  | O => λ s, (Panic, s)
  | S fuel =>
      let! s := mget in
      match btree_iter (block_rows height (rows s)) with
      | [] => mret tt
      | row :: _ =>
          let! k := restore row in
          let! _ := mmodify (λ s, journal (delete (height, k) (rows s)) s) in
          replay_loop fuel height
      end
  end.

Lemma replay_loop_rows fuel height s :
  (size (rows s) < fuel)%nat →
  let l := btree_iter (block_rows height (rows s)) in
  ∃ s', replay_loop fuel height s = (outcome (res_mapM decode l), s')
    ∧ ∀ ws, res_mapM decode l = Ok ws →
      s' = journal (cascade (λ h, h =? height) (rows s)) (put (assign ws (table s)) s).
Proof.
  revert s. induction fuel as [|fuel IH]; intros s Hf; [lia|].
  cbn [replay_loop]. unfold sbind at 1, mget. cbv beta iota zeta.
  destruct (btree_iter (block_rows height (rows s))) as [|[k x] l] eqn:El.
  { exists s. split; [done|]. intros ws [= <-]. unfold assign. simpl. rewrite put_table.
    rewrite cascade_no_rows by (intros k; by apply btree_iter_nil). by rewrite journal_rows. }
  apply btree_iter_cons in El as [Hk El].
  unfold sbind at 1. rewrite restore_eq. cbn [res_mapM].
  destruct (decode (k, x)) as [[k' v]|e|] eqn:Ed; cbn [res_bind outcome]; [|by exists s..].
  apply decode_key in Ed as ->. unfold sbind at 1, mmodify. cbv beta iota zeta.
  rewrite rows_put. set (s1 := journal _ _).
  assert (rows s1 = delete (height, k) (rows s)) as Er by apply rows_journal.
  rewrite lookup_block_rows in Hk.
  destruct (IH s1) as (s' & Hrun & Hs').
  { rewrite Er, map_size_delete_Some by (by eexists).
    pose proof (map_size_ne_0_lookup_2 (rows s) (height, k) ltac:(by eexists)). lia. }
  rewrite Er, block_rows_delete, El in Hrun, Hs'. exists s'. rewrite Hrun.
  destruct (res_mapM decode l) as [ws|e|]; cbn [res_bind outcome]; [|done..].
  split; [done|]. intros ws' [= <-]. rewrite (Hs' ws eq_refl), cascade_delete by apply Z.eqb_refl.
  unfold s1. rewrite put_journal, journal_journal, table_journal, table_put, put_put. done.
Qed.
End Replay.

(** ** One rollback *)

Section Rollbacks.
Context `{Blake2b} `{Pallas} `{UnifiedAddress} `{!SerdeJson HeadRecord}.
Context (identity : StoreIdentity).
Implicit Types (s : Store) (t : ReducerTip) (p : option ReducerTip).

Lemma restore_head_row_eq p row s :
  restore_head_row identity p row s =
  match decode_head_change identity p row with
  | Ok (k, v) =>
      (Ok k, set_records (partial_alter (λ _, v) k (db_heads s)) (db_pending_commits s) s)
  | Err e => (Err e, s)
  | Panic => (Panic, s)
  end.
Proof.
  unfold restore_head_row, sbind at 1, mlift.
  destruct (decode_head_change identity p row) as [[k v]|e|]; [|done..].
  unfold sbind. by rewrite write_head_eq.
Qed.

Lemma restore_commit_row_eq row s :
  restore_commit_row row s =
  match decode_commit_change row with
  | Ok (k, v) =>
      (Ok k, set_records (db_heads s) (partial_alter (λ _, v) k (db_pending_commits s)) s)
  | Err e => (Err e, s)
  | Panic => (Panic, s)
  end.
Proof.
  unfold restore_commit_row, sbind at 1, mlift.
  destruct (decode_commit_change row) as [[k v]|e|]; [|done..].
  unfold sbind. by rewrite write_commit_eq.
Qed.

Lemma decode_32_Ok b c : decode_32 b = Ok c → c = b ∧ length b = 32%nat.
Proof. unfold decode_32. case_bool_decide; [by intros [= <-]|done]. Qed.

Lemma decode_32_no_panic b : decode_32 b ≠ Panic.
Proof. unfold decode_32. by case_bool_decide. Qed.

Lemma decode_name_id_Ok b i : decode_name_id b = Ok i → i = MkNameId b.
Proof.
  intros (c & [-> _]%decode_32_Ok & (x & _ & _ & ->)%map_err_Ok%NameId_from_bytes_Ok)%res_bind_Ok. done.
Qed.

Lemma head_change_key p k x k' v : decode_head_change identity p (k, x) = Ok (k', v) → k' = k.
Proof.
  intros (i & ->%decode_name_id_Ok & (o & _ & (u & _ & [= <- _]%Ok_inj)%res_bind_Ok)%res_bind_Ok)%res_bind_Ok.
  by destruct k.
Qed.

Lemma commit_change_key k x k' v : decode_commit_change (k, x) = Ok (k', v) → k' = k.
Proof.
  intros (i & [-> _]%decode_32_Ok & (o & _ & [= <- _]%Ok_inj)%res_bind_Ok)%res_bind_Ok. by destruct k.
Qed.

Lemma validate_head_no_panic i record network tip : validate_head i record network tip ≠ Panic.
Proof.
  unfold validate_head. apply bind_no_panic; [apply map_err_no_panic, Name_parse_no_panic|].
  intros n Hn%map_err_Ok%Name_parse_ok.
  apply bind_no_panic; [by apply map_err_no_panic, Name_id_no_panic|intros j _].
  apply bind_no_panic; [apply ensure_no_panic|intros _ _].
  apply bind_no_panic; [apply map_err_no_panic|intros _ _].
  { unfold CanonicalUa_parse. destruct (_ || _); [done|]. destruct (negb _); [done|].
    apply bind_no_panic; [apply ok_or_no_panic|]. intros [net a] _. by destruct (bool_decide _). }
  assert (∀ b, FieldElement_from_bytes b ≠ Panic) as Hf.
  { intros b. unfold FieldElement_from_bytes, canonical_field. by destruct (from_repr b). }
  apply bind_no_panic; [by apply map_err_no_panic|intros _ _].
  apply bind_no_panic; [by apply map_err_no_panic|intros _ _]. apply ensure_no_panic.
Qed.

Lemma transpose_no_panic {A B E} (f : A → res E B) o : (∀ a, f a ≠ Panic) → transpose f o ≠ Panic.
Proof. intros Hf. destruct o; [|done]. apply bind_no_panic; [apply Hf|done]. Qed.

Lemma head_change_no_panic p row : decode_head_change identity p row ≠ Panic.
Proof.
  destruct row as [k x]. unfold decode_head_change, decode_name_id.
  apply bind_no_panic; [apply bind_no_panic; [apply decode_32_no_panic|intros b _]|intros i _].
  { apply map_err_no_panic. unfold NameId_from_bytes, canonical_field.
    destruct (from_repr b); cbn; [by case_bool_decide|done]. }
  apply bind_no_panic; [apply transpose_no_panic; intros; apply ok_or_no_panic|intros o _].
  apply bind_no_panic; [|done]. destruct o; [apply validate_head_no_panic|done].
Qed.

Lemma commit_change_no_panic row : decode_commit_change row ≠ Panic.
Proof.
  destruct row as [k x]. unfold decode_commit_change.
  apply bind_no_panic; [apply decode_32_no_panic|intros b _].
  apply bind_no_panic; [apply transpose_no_panic, decode_32_no_panic|done].
Qed.

Lemma res_mapM_no_panic {E A B} (f : A → res E B) l : (∀ a, f a ≠ Panic) → res_mapM f l ≠ Panic.
Proof.
  intros Hf. induction l; [done|]. apply bind_no_panic; [apply Hf|intros y _].
  by apply bind_no_panic.
Qed.

Definition head_rows s (height : Z) := btree_iter (block_rows height (db_rollback_heads s)).
Definition commit_rows s (height : Z) := btree_iter (block_rows height (db_rollback_commits s)).

(** What the journal of [height] restores. *)
Definition plan p s (height : Z)
  : res StoreError (list (NameId * option HeadRecord) * list (CommitRef * option (list byte))) :=
  let? heads := res_mapM (decode_head_change identity p) (head_rows s height) in
  let? commits := res_mapM decode_commit_change (commit_rows s height) in
  Ok (heads, commits).

Lemma plan_no_panic p s height : plan p s height ≠ Panic.
Proof.
  apply bind_no_panic; [apply res_mapM_no_panic, head_change_no_panic|intros hs _].
  apply bind_no_panic; [apply res_mapM_no_panic, commit_change_no_panic|done].
Qed.

(** The tables after the rollback of [height]. *)
Definition rolled_back p (height : Z) (heads : list (NameId * option HeadRecord))
  (commits : list (CommitRef * option (list byte))) s : Store :=
  MkStore (set_tip_columns (tip_height_ <$> p) (tip_hash <$> p) <$> db_metadata s)
    (assign heads (db_heads s)) (assign commits (db_pending_commits s)) (db_wallet_commits s)
    (filter (λ '(h, _), (h =? height) = false) (db_rollback_blocks s))
    (cascade (λ h, h =? height) (db_rollback_heads s))
    (cascade (λ h, h =? height) (db_rollback_commits s)).

Lemma host_heads_replay p l s :
  ∃ s', mfold (λ _ row, let! _ := restore_head_row identity p row in mret tt) tt l s
      = (outcome (res_mapM (decode_head_change identity p) l), s')
    ∧ ∀ ws, res_mapM (decode_head_change identity p) l = Ok ws →
        s' = set_records (assign ws (db_heads s)) (db_pending_commits s) s.
Proof.
  apply (replay_rows db_heads (decode_head_change identity p) (restore_head_row identity p)
    (λ m s, set_records m (db_pending_commits s) s)); try done; [apply restore_head_row_eq|by intros []].
Qed.

Lemma host_commits_replay l s :
  ∃ s', mfold (λ _ row, let! _ := restore_commit_row row in mret tt) tt l s
      = (outcome (res_mapM decode_commit_change l), s')
    ∧ ∀ ws, res_mapM decode_commit_change l = Ok ws →
        s' = set_records (db_heads s) (assign ws (db_pending_commits s)) s.
Proof.
  apply (replay_rows db_pending_commits decode_commit_change restore_commit_row
    (λ m s, set_records (db_heads s) m s)); try done; [apply restore_commit_row_eq|by intros []].
Qed.

Lemma restore_heads_loop_eq p fuel height s :
  restore_heads_loop identity fuel height p s
  = replay_loop db_rollback_heads (restore_head_row identity p)
      (λ j s, set_journal (db_rollback_blocks s) j (db_rollback_commits s) s) fuel height s.
Proof.
  revert s. induction fuel as [|fuel IH]; intros s; [done|].
  cbn [restore_heads_loop replay_loop]. unfold sbind, mget, mmodify. cbv beta iota.
  destruct (btree_iter _); [done|]. destruct (restore_head_row _ _ _ _) as [[k|e|] s1]; [|done..].
  apply IH.
Qed.

Lemma wallet_heads_replay p fuel height s :
  (size (db_rollback_heads s) < fuel)%nat →
  ∃ s', restore_heads_loop identity fuel height p s
      = (outcome (res_mapM (decode_head_change identity p) (head_rows s height)), s')
    ∧ ∀ ws, res_mapM (decode_head_change identity p) (head_rows s height) = Ok ws →
        s' = set_journal (db_rollback_blocks s) (cascade (λ h, h =? height) (db_rollback_heads s))
               (db_rollback_commits s)
               (set_records (assign ws (db_heads s)) (db_pending_commits s) s).
Proof.
  rewrite restore_heads_loop_eq.
  refine (replay_loop_rows db_rollback_heads db_heads (decode_head_change identity p)
    (restore_head_row identity p) (λ m s, set_records m (db_pending_commits s) s)
    (λ j s, set_journal (db_rollback_blocks s) j (db_rollback_commits s) s)
    _ _ _ _ _ _ _ _ _ _ _ fuel height s); try done;
    [apply restore_head_row_eq|apply head_change_key|by intros []..].
Qed.

Lemma wallet_commits_replay fuel height s :
  (size (db_rollback_commits s) < fuel)%nat →
  ∃ s', restore_commits_loop fuel height s
      = (outcome (res_mapM decode_commit_change (commit_rows s height)), s')
    ∧ ∀ ws, res_mapM decode_commit_change (commit_rows s height) = Ok ws →
        s' = set_journal (db_rollback_blocks s) (db_rollback_heads s)
               (cascade (λ h, h =? height) (db_rollback_commits s))
               (set_records (db_heads s) (assign ws (db_pending_commits s)) s).
Proof.
  refine (replay_loop_rows db_rollback_commits db_pending_commits decode_commit_change
    restore_commit_row (λ m s, set_records (db_heads s) m s)
    (λ j s, set_journal (db_rollback_blocks s) (db_rollback_heads s) j s)
    _ _ _ _ _ _ _ _ _ _ _ fuel height s); try done;
    [apply restore_commit_row_eq|apply commit_change_key|by intros []..].
Qed.

Lemma read_tip_state s : read_tip s = ((read_tip s).1, s).
Proof. unfold read_tip, query_metadata, sbind, mget, mlift. by destruct (ok_or (db_metadata s) _). Qed.

Lemma previous_tip_row_state t s : previous_tip_row t s = ((previous_tip_row t s).1, s).
Proof. unfold previous_tip_row, sbind, mget, mlift. by destruct (ok_or _ _). Qed.

(** The tip [t] of a store is journaled, with [p] before it. *)
Definition journaled s t p : Prop :=
  read_tip s = (Ok (Some t), s) ∧ previous_tip_row t s = (Ok p, s).

(** Both rollbacks, on a journaled tip. *)
Lemma host_rollback t p s :
  journaled s t p →
  ∃ s', rollback_store_tip identity (tip_hash t) s
      = ((let? _ := plan p s (tip_height_ t) in Ok p), s')
    ∧ ∀ hs cs, plan p s (tip_height_ t) = Ok (hs, cs) → s' = rolled_back p (tip_height_ t) hs cs s.
Proof.
  intros [Ht Hp]. unfold rollback_store_tip. unfold sbind at 1. rewrite Ht.
  unfold sbind at 1. cbn [mlift ok_or]. unfold sbind at 1, mlift at 1. rewrite bool_decide_true by done.
  cbn [ensure]. unfold sbind at 1. rewrite Hp. unfold sbind at 1, mget at 1. unfold plan.
  destruct (host_heads_replay p (head_rows s (tip_height_ t)) s) as (s1 & Hr1 & Hs1).
  unfold sbind at 1. fold (head_rows s (tip_height_ t)). rewrite Hr1.
  destruct (res_mapM (decode_head_change identity p) (head_rows s (tip_height_ t))) as [hs|e|];
    cbn [outcome res_bind]; [|by exists s1..].
  specialize (Hs1 hs eq_refl). unfold sbind at 1, mget at 1.
  replace (btree_iter (block_rows (tip_height_ t) (db_rollback_commits s1)))
    with (commit_rows s (tip_height_ t)) by by rewrite Hs1.
  destruct (host_commits_replay (commit_rows s (tip_height_ t)) s1) as (s2 & Hr2 & Hs2).
  unfold sbind at 1. rewrite Hr2.
  destruct (res_mapM decode_commit_change (commit_rows s (tip_height_ t))) as [cs|e|];
    cbn [outcome res_bind]; [|by exists s2..].
  specialize (Hs2 cs eq_refl). subst s1 s2. unfold sbind, mmodify, mret. eexists. split; [done|].
  intros hs' cs' [= <- <-]. done.
Qed.

Lemma wallet_rollback t p s :
  journaled s t p →
  ∃ s', wallet_rollback_tip identity s = ((let? _ := plan p s (tip_height_ t) in Ok p), s')
    ∧ ∀ hs cs, plan p s (tip_height_ t) = Ok (hs, cs) → s' = rolled_back p (tip_height_ t) hs cs s.
Proof.
  intros [Ht Hp]. unfold wallet_rollback_tip. unfold sbind at 1. rewrite Ht.
  unfold sbind at 1. cbn [mlift ok_or]. unfold sbind at 1. rewrite Hp.
  unfold sbind at 1, mget at 1. unfold plan.
  destruct (wallet_heads_replay p (S (size (db_rollback_heads s))) (tip_height_ t) s)
    as (s1 & Hr1 & Hs1); [lia|]. unfold sbind at 1. rewrite Hr1.
  destruct (res_mapM (decode_head_change identity p) (head_rows s (tip_height_ t))) as [hs|e|];
    cbn [outcome res_bind]; [|by exists s1..].
  specialize (Hs1 hs eq_refl). unfold sbind at 1, mget at 1.
  destruct (wallet_commits_replay (S (size (db_rollback_commits s1))) (tip_height_ t) s1)
    as (s2 & Hr2 & Hs2); [lia|]. unfold sbind at 1. rewrite Hr2.
  assert (commit_rows s1 (tip_height_ t) = commit_rows s (tip_height_ t)) as Ec by by rewrite Hs1.
  rewrite Ec in Hs2 |- *.
  destruct (res_mapM decode_commit_change (commit_rows s (tip_height_ t))) as [cs|e|];
    cbn [outcome res_bind]; [|by exists s2..].
  specialize (Hs2 cs eq_refl). subst s1 s2. unfold sbind, mmodify, mret. eexists. split; [done|].
  intros hs' cs' [= <- <-]. unfold rolled_back. cbn. by rewrite !cascade_twice.
Qed.

(** A rollback by the wallet that succeeds removes the journal of its tip. *)
Lemma wallet_rollback_inv s p s' :
  wallet_rollback_tip identity s = (Ok p, s') →
  ∃ t hs cs, journaled s t p ∧ plan p s (tip_height_ t) = Ok (hs, cs)
    ∧ s' = rolled_back p (tip_height_ t) hs cs s ∧ is_Some (db_rollback_blocks s !! tip_height_ t).
Proof.
  intros Hr. pose proof Hr as Hr0. unfold wallet_rollback_tip in Hr0.
  apply sbind_Ok in Hr0 as ([t|] & s1 & Ht & Hr0); [|done].
  pose proof (read_tip_state s) as Es. rewrite Ht in Es. injection Es as ->.
  apply sbind_Ok in Hr0 as (t' & s1 & [= <- <-] & Hr0).
  apply sbind_Ok in Hr0 as (p' & s1 & Hp & _).
  pose proof (previous_tip_row_state t s) as Es. rewrite Hp in Es. injection Es as ->.
  assert (journaled s t p') as Hj by done.
  destruct (wallet_rollback t p' s Hj) as (s2 & Hr2 & Hs2). rewrite Hr in Hr2.
  destruct (plan p' s (tip_height_ t)) as [[hs cs]|e|] eqn:Epl; [|done..].
  injection Hr2 as -> ->. exists t, hs, cs. split; [done|]. split; [done|]. split; [by apply Hs2|].
  unfold previous_tip_row in Hp. apply sbind_Ok in Hp as (s3 & s4 & [= <- <-] & Hp).
  apply sbind_Ok in Hp as (row & s4 & [Hrow _]%mlift_Ok & _). apply ok_or_Ok in Hrow.
  destruct (db_rollback_blocks s !! tip_height_ t); [by eexists|done].
Qed.

Lemma read_tip_no_panic s : (read_tip s).1 ≠ Panic.
Proof.
  unfold read_tip, query_metadata, sbind, mget, mlift.
  destruct (db_metadata s) as [m|]; [|done]. cbn [ok_or fst]. unfold decode_optional_tip.
  destruct (md_tip_height m), (md_tip_hash m) as [b|]; try done.
  apply bind_no_panic; [apply decode_32_no_panic|done].
Qed.

Lemma previous_tip_row_no_panic t s : (previous_tip_row t s).1 ≠ Panic.
Proof.
  unfold previous_tip_row, sbind, mget, mlift.
  destruct (ok_or _ _) as [row|e|] eqn:E; [|done|by apply ok_or_no_panic in E].
  cbn [fst]. unfold decode_optional_tip.
  destruct (bk_previous_tip_height row), (bk_previous_tip_hash row) as [b|]; try done.
  apply bind_no_panic; [apply decode_32_no_panic|done].
Qed.

Lemma wallet_rollback_no_panic s : (wallet_rollback_tip identity s).1 ≠ Panic.
Proof.
  pose proof (read_tip_no_panic s) as Hn. pose proof (read_tip_state s) as Es.
  destruct (read_tip s) as [[[t|]|e|] s1] eqn:Et; cbn [fst] in *; injection Es as ->;
    [|unfold wallet_rollback_tip, sbind at 1; by rewrite Et..].
  pose proof (previous_tip_row_no_panic t s) as Hn2. pose proof (previous_tip_row_state t s) as Es.
  destruct (previous_tip_row t s) as [[p|e|] s1] eqn:Ep; cbn [fst] in *; injection Es as ->; [| |done].
  - destruct (wallet_rollback t p s) as (s' & -> & _); [done|]. cbn [fst].
    apply bind_no_panic; [apply plan_no_panic|done].
  - unfold wallet_rollback_tip, sbind at 1. rewrite Et. unfold sbind at 1. cbn [mlift ok_or].
    unfold sbind at 1. by rewrite Ep.
Qed.

(** The loop of a rewind ends before its fuel. *)
Lemma rollback_loop_ends fuel height s :
  (size (db_rollback_blocks s) < fuel)%nat →
  (rollback_loop identity fuel height s).1 ≠ Panic
  ∧ ∀ s', rollback_loop identity fuel height s = (Ok tt, s') →
      ∃ o, read_tip s' = (Ok o, s') ∧ ∀ t, o = Some t → tip_height_ t ≤ height.
Proof.
  revert s. induction fuel as [|fuel IH]; intros s Hf; [lia|].
  cbn [rollback_loop]. unfold sbind at 1 3.
  pose proof (read_tip_no_panic s) as Hn. pose proof (read_tip_state s) as Es.
  destruct (read_tip s) as [[o|e|] s1] eqn:Et; cbn [fst] in *; injection Es as ->; [|by split|done].
  destruct o as [t|]; [|split; [done|]; intros s' [= <-]; by exists None].
  destruct (Z.ltb_spec height (tip_height_ t)).
  - unfold sbind at 1 2. pose proof (wallet_rollback_no_panic s) as Hw.
    destruct (wallet_rollback_tip identity s) as [[p|e|] s1] eqn:Ew; [|by split|done].
    apply wallet_rollback_inv in Ew as (t' & hs & cs & _ & _ & -> & Hb). apply IH.
    unfold rolled_back. cbn [db_rollback_blocks].
    assert (filter (λ '(h, _), (h =? tip_height_ t') = false) (db_rollback_blocks s)
      ⊆ delete (tip_height_ t') (db_rollback_blocks s)) as Hsub%map_subseteq_size.
    { apply map_subseteq_spec. intros h row [Hrow Hne]%map_lookup_filter_Some.
      rewrite lookup_delete_ne; [done|]. intros <-. by rewrite Z.eqb_refl in Hne. }
    rewrite map_size_delete_Some in Hsub by done.
    pose proof (map_size_ne_0_lookup_2 (db_rollback_blocks s) _ Hb). lia.
  - split; [done|]. intros s' [= <-]. exists (Some t). split; [done|]. by intros ? [= <-].
Qed.
Lemma rewind_ends height s :
  (rollback_to_height identity height s).1 ≠ Panic
  ∧ ∀ o s', rollback_to_height identity height s = (Ok o, s') → ∀ t, o = Some t → tip_height_ t ≤ height.
Proof.
  unfold rollback_to_height. unfold sbind at 1 6.
  pose proof (read_tip_no_panic s) as Hn. pose proof (read_tip_state s) as Es.
  destruct (read_tip s) as [[o|e|] s1] eqn:Et; cbn [fst] in *; injection Es as ->; [|by split|done].
  unfold sbind at 1 5, mget.
  destruct (rollback_loop_ends (S (size (db_rollback_blocks s))) height s) as [Hl Hok]; [lia|].
  unfold sbind at 1 4.
  destruct (rollback_loop identity (S (size (db_rollback_blocks s))) height s) as [[u|e|] s1] eqn:El;
    [|by split|done].
  destruct u. destruct (Hok s1 eq_refl) as (o1 & Hr1 & Ho1). unfold sbind at 1 3. rewrite Hr1.
  unfold sbind.
  assert (∃ s2, (if bool_decide (o1 ≠ o) then update_metadata (set_core_snapshot None) else mret tt) s1
      = (Ok tt, s2) ∧ read_tip s2 = (Ok o1, s2)) as (s2 & -> & Hr2).
  { destruct (bool_decide (o1 ≠ o)); [|by exists s1]. unfold update_metadata, mmodify.
    eexists. split; [done|]. revert Hr1. unfold read_tip, query_metadata, sbind, mget, mlift. cbn.
    destruct (db_metadata s1) as [m|]; cbn; [|done]. by intros [= ->]. }
  rewrite Hr2. split; [done|]. by intros o2 s' [= <- _].
Qed.
End Rollbacks.

(** ** Theorems *)

(** C14: the wallet's rollback is the host's.  On every database, whatever its
    rows hold, the row-by-row rollback of the wallet extension ends, and in a
    transaction it has the outcome and leaves the tables of the replay host's
    rollback of the same tip. *)
Theorem wallet_rollback_equivalent `{Blake2b} `{Pallas} `{UnifiedAddress} `{!SerdeJson HeadRecord}
  (identity : StoreIdentity) (s : Store) (expected_hash : list byte) :
  (∀ t s', read_tip s = (Ok (Some t), s') → tip_hash t = expected_hash) →
  (wallet_rollback_tip identity s).1 ≠ Panic
  ∧ with_transaction (wallet_rollback_tip identity) s
    = with_transaction (rollback_store_tip identity expected_hash) s.
Proof.
  intros Hh. split; [apply wallet_rollback_no_panic|]. pose proof (read_tip_state s) as Es.
  unfold with_transaction.
  destruct (read_tip s) as [o s1] eqn:Et; cbn [fst] in *; injection Es as ->.
  destruct o as [[t|]|e|];
    [|unfold wallet_rollback_tip, rollback_store_tip, sbind; rewrite Et; done..].
  pose proof (Hh t s eq_refl) as <-. pose proof (previous_tip_row_state t s) as Es.
  destruct (previous_tip_row t s) as [o s1] eqn:Ep; cbn [fst] in *; injection Es as ->.
  destruct o as [p|e|].
  - assert (journaled s t p) as Hj by done.
    destruct (wallet_rollback identity t p s Hj) as (s1 & -> & Hw).
    destruct (host_rollback identity t p s Hj) as (s2 & -> & Hh2).
    destruct (plan identity p s (tip_height_ t)) as [[hs cs]|e|]; cbn [res_bind]; [|done..].
    by rewrite (Hw hs cs eq_refl), (Hh2 hs cs eq_refl).
  - unfold wallet_rollback_tip, rollback_store_tip, sbind, mlift. rewrite Et. cbn [ok_or].
    rewrite bool_decide_true by done. cbn [ensure]. by rewrite Ep.
  - unfold wallet_rollback_tip, rollback_store_tip, sbind, mlift. rewrite Et. cbn [ok_or].
    rewrite bool_decide_true by done. cbn [ensure]. by rewrite Ep.
Qed.

(** C15: a rewind ends.  On every database, whatever its rows hold, the wallet's
    rewind to a height does at most one rollback per journaled block, never
    panics, and when it succeeds leaves a tip at or below the height. *)
Theorem rewind_terminates `{Blake2b} `{Pallas} `{UnifiedAddress} `{!SerdeJson HeadRecord}
  (identity : StoreIdentity) (height : Z) (s : Store) :
  (rollback_to_height identity height s).1 ≠ Panic
  ∧ (rollback_to_height_or_reset identity height s).1 ≠ Panic
  ∧ ∀ o s', rollback_to_height identity height s = (Ok o, s') →
      ∀ t, o = Some t → tip_height_ t ≤ height.
Proof.
  destruct (rewind_ends identity height s) as [Hn Ht].
  split; [exact Hn|]. split; [|exact Ht]. unfold rollback_to_height_or_reset. unfold sbind at 1.
  destruct (rollback_to_height identity height s) as [[o|[]|] s1]; try done.
Qed.
