(* ===== verification/Mirror.v ===== *)
(** * The store follows the reducer

    The invariant of stored records ([stored]), the correspondence between the
    tables and a reducer ([mirrors]), and the simulation: a block applied to the
    reducer is a delta applied to the store, a rollback is a rollback. *)

From S2P Require Import Prelude Bytes BTree External Protocol Concrete Schedule Codec Statement.
From S2P Require Import Records State Reducer Journal Ledger Invariant Keys Safety Ruleset Resolver.
From S2P Require Import Snapshot Store StoreFacts.

(** ** Records with 32-byte identifiers *)

Section Stored.
Context `{Blake2b} `{Pallas} `{UnifiedAddress} {V : Type} `{!ProofVerifier V}.
Context (network : Network).
Implicit Types (r : Reducer V).

Definition sized (b : list byte) : Prop := length b = 32%nat.

(** A block of typed values with 32-byte identifiers, whose hash is new. *)
Definition stored_host : Host := λ block refs,
  typed_host network block refs
  ∧ sized (bl_hash block) ∧ bl_hash block ≠ bl_prev_hash block
  ∧ (∀ tx, tx ∈ bl_transactions block → sized (tx_txid tx))
  ∧ ∀ ev, ev ∈ refs → sized (cr_txid (rc_reference ev)).

Definition ledger_sized (l : Ledger) : Prop :=
  (∀ c k, lg_commits l !! c = Some k → sized (cr_txid c))
  ∧ ∀ i hd, lg_heads l !! i = Some hd → sized (sr_txid (hd_producer hd)).

Lemma start_ledger_sized p h m l :
  (∀ c k, m !! c = Some k → sized (cr_txid c)) → ledger_sized l → ledger_sized (start_ledger p h m l).
Proof.
  intros Hm [Hc Hh]. split; simpl.
  - intros c k [Hk|[_ Hk]]%lookup_union_Some_raw; [by eapply Hm|].
    apply map_lookup_filter_Some in Hk as [Hk _]. by eapply Hc.
  - intros i hd [(hd0 & <- & Hhd)%lookup_fmap_Some _]%map_lookup_filter_Some.
    apply Hh in Hhd. unfold expire. by destruct (_ && _).
Qed.

Lemma ledger_operation_sized {E} p v h tx l d l' :
  sized (tx_txid tx) → ledger_sized l → ledger_operation (E := E) p v h tx l = Ok (d, l') →
  ledger_sized l'.
Proof.
  intros Ht [Hc Hh] [[-> _]|[(k & _ & _ & ->)|(op & i & hd & _ & -> & Hacc)]]%ledger_operation_Ok.
  - done.
  - split; simpl; [|done]. intros c x. destruct (decide (c = MkCommitRef h (tx_tx_index tx) (tx_txid tx))) as [->|Hne].
    + done.
    + rewrite lookup_insert_ne by done. apply Hc.
  - split; simpl; [done|]. intros j hd'. destruct (decide (j = i)) as [->|Hne];
      [|rewrite lookup_insert_ne by done; apply Hh].
    rewrite lookup_insert_eq. intros [= <-].
    destruct Hacc as [[[_ _ (name & commit & ua & ai & nf & pf & cm & a & e & x & Hev)] _]
      |[(prev & [_ _ _ _ (name & ua & ai & nf & pf & a & e & x & Hev)]) _]].
    + by destruct Hev as (_ & _ & _ & _ & _ & _ & _ & _ & _ & ->).
    + by destruct Hev as (_ & _ & _ & _ & _ & _ & _ & _ & ->).
Qed.

Lemma ledger_transactions_sized {E} p v h txs l y :
  (∀ tx, tx ∈ txs → sized (tx_txid tx)) →
  ledger_sized l → ledger_transactions (E := E) p v h txs l = Ok y → ledger_sized y.2.
Proof.
  revert l y. induction txs as [|tx txs IH]; intros l y Htx Hl Ht; cbn [ledger_transactions] in Ht.
  { by apply Ok_inj in Ht as <-. }
  apply res_bind_Ok in Ht as ([[d ts] l1] & Ht1 & ([[ds ts'] l2] & Ht2 & <-%Ok_inj)%res_bind_Ok).
  apply (IH l1 (ds, ts', l2)); [intros; apply Htx; by right| |exact Ht2].
  apply res_bind_Ok in Ht1 as ([d0 l0] & Hop & [= _ _ <-]%Ok_inj).
  pose proof (ledger_operation_sized p v h tx l d0 l0 (Htx tx (list_elem_of_here _ _)) Hl Hop) as [Hc Hh].
  split; simpl; [done|]. intros i hd. unfold end_spent. rewrite map_lookup_imap.
  destruct (lg_heads l0 !! i) as [hd0|] eqn:E0; [|done]. intros [= <-]. apply Hh in E0.
  by destruct (terminates _ _ _ _).
Qed.

Record undo_sized (u : Undo) : Prop := {
  us_hash : sized (un_hash u);
  us_previous : sized (un_previous_hash u);
  us_commits c o : un_commits u !! c = Some o → sized (cr_txid c);
  us_heads i hd : un_heads u !! i = Some (Some hd) → sized (sr_txid (hd_producer hd));
}.

(** A state whose records the store can hold. *)
Record stored (r : Reducer V) : Prop := {
  so_saveable : saveable network r;
  so_hash : sized (previous_hash r);
  so_ledger : ledger_sized (ledger_of r);
  so_undos u : u ∈ history r → undo_sized u;
}.

Lemma evidence_sized r block refs m :
  check_block r block refs = Ok m → (∀ ev, ev ∈ refs → sized (cr_txid (rc_reference ev))) →
  ∀ c k, m !! c = Some k → sized (cr_txid c).
Proof.
  intros Ec Hrefs c k Hk. unfold check_block in Ec.
  apply res_bind_Ok in Ec as (? & _ & (? & _ & (? & _ & Hf)%res_bind_Ok)%res_bind_Ok).
  destruct (admitted_evidence r block refs m ∅ Hf) as (Hm & _).
  destruct (Hm c k Hk) as [Hk0|Hin]; [by rewrite lookup_empty in Hk0|]. apply (Hrefs _ Hin).
Qed.

Lemma applied_ledger_sized r block refs out r' :
  saveable network r → stored_host block refs → ledger_sized (ledger_of r) →
  apply_block_detailed block refs r = (Ok out, r') → ledger_sized (ledger_of r').
Proof.
  intros [Hr _ _ _ _] ([Hb _] & _ & _ & Htx & Hrefs) Hl Ha.
  pose proof (apply_block_step block refs r Hr (block_typed_named network block Hb)) as Hs.
  destruct (check_block r block refs) as [m|e|] eqn:Ec; [|congruence|done].
  destruct Hs as (y & out1 & r1 & Hy & Ha1 & Hrf & _). rewrite Ha in Ha1. injection Ha1 as <- <-.
  rewrite (br_ledger _ _ _ _ _ _ _ Hrf). eapply ledger_transactions_sized; [exact Htx| |exact Hy].
  apply start_ledger_sized; [|done]. by eapply evidence_sized.
Qed.

Lemma stored_apply r block refs out r' :
  stored r → stored_host block refs → apply_block_detailed block refs r = (Ok out, r') → stored r'.
Proof.
  intros [Hs Hh Hl Hu] Hb Ha. pose proof Hb as (Ht & Hbh & Hne & Htx & Hrefs).
  pose proof (saveable_apply network r block refs out r' Hs Ht Ha) as Hs'.
  pose proof (applied_ledger_sized r block refs out r' Hs Hb Hl Ha) as Hl'.
  destruct (apply_block_journal block refs r out r' (rk_indexed _ (sv_ok _ _ Hs)) Ha)
    as (u & Hhist & Eu & Hc & Hhd).
  constructor; [done| |done|].
  - by rewrite (applied_hash _ _ _ _ _ Ha).
  - rewrite Hhist. intros v [Hv|Hv%list_elem_of_singleton]%elem_of_app; [by apply Hu|subst v].
    constructor; [by rewrite Eu..| |].
    + intros c o Ho. destruct (Hc c o Ho) as [_ [[k Hk]|[k Hk]]]; [by eapply Hl|by eapply Hl'].
    + intros i hd Ho. destruct (Hhd i _ Ho) as [Hi _]. by eapply Hl.
Qed.

#[export] Instance stored_maintained : Maintained stored_host stored.
Proof.
  split.
  - intros r [[[]]]. done.
  - apply stored_apply.
  - intros r k [Hs Hh Hl Hu]. constructor; [|done|done|].
    + by apply (maintained_drop (host := typed_host network)).
    + intros u Hin. apply Hu. rewrite <- (take_drop k (history r)), elem_of_app. by right.
Qed.
End Stored.

(** ** Rows *)

Section Rows.
Context `{Blake2b} `{Pallas} `{UnifiedAddress}.
Context (network : Network).

(** A head of a valid state passes the store's validation. *)
Lemma validate_head_ok p t i hd :
  head_ok p t i hd → head_typed network hd → Parameters_ok p →
  validate_head i (HeadRecord_from hd) network (Some t) = Ok tt.
Proof.
  intros [Hn _ _ [Ex _]%expiry_Ok Hpr Hter] (Hname & Hua & Hc & Hnf) Hp.
  unfold validate_head, HeadRecord_from. cbn [hr_name hr_ua hr_producer hr_commitment hr_future_nf
    hr_expiry_height hr_terminal_height].
  rewrite (Name_parse_name _ Hname). cbn [map_err res_bind]. rewrite Hn, Hua, Hc, Hnf.
  cbn [map_err res_bind]. rewrite bool_decide_true by done. cbn [ensure res_bind].
  pose proof (ok_lease p Hp). pose proof (ok_epoch p Hp). pose proof (ok_ttl p Hp).
  pose proof (ok_maturity p Hp). pose proof (ok_window p Hp).
  destruct (Z.ltb_spec (hd_expiry_height hd) (sr_height (hd_producer hd))); [lia|].
  destruct (Z.ltb_spec t (sr_height (hd_producer hd))); [lia|].
  destruct (hd_terminal_height hd) as [x|]; [|done].
  destruct (Z.ltb_spec x (sr_height (hd_producer hd))); [lia|].
  by destruct (Z.ltb_spec t x); [lia|].
Qed.

Lemma decode_head_row_ok hd :
  head_typed network hd → sized (sr_txid (hd_producer hd)) →
  decode_head_row (HeadRecord_from hd) = Ok (HeadRecord_from hd).
Proof.
  intros (_ & _ & Hc & Hnf) Ht. unfold decode_head_row, HeadRecord_from, decode_32.
  cbn [hr_name hr_ua hr_producer hr_commitment hr_future_nf hr_producer_epoch hr_expiry_height
    hr_terminal_height].
  rewrite (bool_decide_true (length (sr_txid _) = _)) by done. cbn [res_bind].
  rewrite !bool_decide_true by by apply FieldElement_ok_length. cbn [res_bind].
  destruct hd as [? ? [? ? ? ?] ? ? ? ? ?]. done.
Qed.
End Rows.

(** ** The tables of a state *)

(** The journal entry of a height. *)
Fixpoint find_undo (height : Z) (us : list Undo) : option Undo :=
  match us with
  | [] => None
  | u :: us => if un_height u =? height then Some u else find_undo height us
  end.

Lemma find_undo_Some height us u : find_undo height us = Some u → u ∈ us ∧ un_height u = height.
Proof.
  induction us as [|v us IH]; simpl; [done|]. destruct (Z.eqb_spec (un_height v) height).
  - intros [= <-]. split; [by left|done].
  - intros [Hv Hh]%IH. split; [by right|done].
Qed.

Lemma find_undo_snoc height us u :
  find_undo height (us ++ [u])
  = match find_undo height us with
    | Some v => Some v
    | None => if un_height u =? height then Some u else None
    end.
Proof.
  induction us as [|v us IH]; cbn [app find_undo]; [done|].
  destruct (un_height v =? height); [done|exact IH].
Qed.

Lemma find_undo_new h u : linked (h ++ [u]) = true → find_undo (un_height u) h = None.
Proof.
  intros Hl. apply eq_None_not_Some. intros [v Hf]. apply find_undo_Some in Hf as [Hv Hh].
  pose proof (linked_below h u v Hl Hv). lia.
Qed.

Section Mirror.
Context `{Blake2b} `{Pallas} `{UnifiedAddress} `{!SerdeJson HeadRecord} {V : Type}.
Implicit Types (r : Reducer V) (s : Store).

Definition head_column (o : option Head) : option (list byte) := o ≫= λ hd, to_vec (HeadRecord_from hd).
Definition commit_column (o : option Commitment) : option (list byte) := commitment_bytes <$> o.

Definition block_row (u : Undo) : BlockRow := {|
  bk_hash := un_hash u;
  bk_previous_tip_height := un_previous_tip_height u;
  bk_previous_tip_hash := (λ _, un_previous_hash u) <$> un_previous_tip_height u |}.

(** The journal tables hold the entries [us]. *)
Record journals (us : list Undo) s : Prop := {
  jn_blocks h : db_rollback_blocks s !! h = block_row <$> find_undo h us;
  jn_heads h i : db_rollback_heads s !! (h, i)
    = u ← find_undo h us; head_column <$> un_heads u !! i;
  jn_commits h c : db_rollback_commits s !! (h, c)
    = u ← find_undo h us; commit_column <$> un_commits u !! c;
}.

(** The tables hold the records of [r] and the journal entries [us]. *)
Record mirrors (us : list Undo) s r : Prop := {
  mi_metadata : ∃ m, db_metadata s = Some m ∧ md_tip_height m = tip_height_ <$> tip r
    ∧ md_tip_hash m = tip_hash <$> tip r;
  mi_heads : db_heads s = HeadRecord_from <$> heads r;
  mi_commits : db_pending_commits s = commitment_bytes <$> commits r;
  mi_journal : journals us s;
}.
End Mirror.

(** ** One journaled write after another *)

Section Loop.
Context {K W : Type} `{Countable K}.
Context (table : Store → gmap K W) (rows : Store → gmap (Z * K) (option (list byte))).
Context (put : gmap K W → gmap (Z * K) (option (list byte)) → Store → Store).
Context (table_put : ∀ t j s, table (put t j s) = t) (rows_put : ∀ t j s, rows (put t j s) = j).
Context (put_put : ∀ t j t' j' s, put t j (put t' j' s) = put t j s).
Context (put_same : ∀ s, put (table s) (rows s) s = s).
Context (ready : Store → Prop) (ready_put : ∀ t j s, ready s → ready (put t j s)).
Context {X : Type} (change : X → M Store StoreError unit) (key : X → K) (height : Z).
Context (old new : K → option W) (column : K → option (list byte)).

(** The loop writes the new value of every key and journals its column. *)
Lemma journaled_loop l s :
  (∀ x s, x ∈ l → ready s → table s !! key x = old (key x) → rows s !! (height, key x) = None →
     change x s = (Ok tt, put (partial_alter (λ _, new (key x)) (key x) (table s))
                            (<[(height, key x) := column (key x)]> (rows s)) s)) →
  NoDup (key <$> l) → ready s →
  (∀ x, x ∈ l → table s !! key x = old (key x) ∧ rows s !! (height, key x) = None) →
  ∃ t j, mfold (λ _, change) tt l s = (Ok tt, put t j s)
    ∧ (∀ k, t !! k = if bool_decide (k ∈ key <$> l) then new k else table s !! k)
    ∧ (∀ h k, j !! (h, k) = if bool_decide (h = height ∧ k ∈ key <$> l) then Some (column k)
                            else rows s !! (h, k)).
Proof.
  revert s. induction l as [|x l IH]; intros s Hstep Hnd Hr Hl.
  { exists (table s), (rows s). rewrite put_same. split; [done|].
    assert (∀ k : K, k ∉ key <$> []) as Hn by (intros k; apply not_elem_of_nil).
    split; intros; rewrite bool_decide_false; [done|apply Hn|done|]. by intros [_ ?%Hn]. }
  apply NoDup_cons in Hnd as [Hx Hnd]. destruct (Hl x (list_elem_of_here _ _)) as [Hold Hnone].
  cbn [mfold]. unfold sbind. rewrite Hstep by (done || by left).
  set (s1 := put _ _ s).
  assert (table s1 = partial_alter (λ _, new (key x)) (key x) (table s)) as Et by apply table_put.
  assert (rows s1 = <[(height, key x) := column (key x)]> (rows s)) as Ej by apply rows_put.
  destruct (IH s1) as (t & j & Hrun & Ht & Hj).
  - intros y s' Hy. apply Hstep. by right.
  - done.
  - by apply ready_put.
  - intros y Hy. assert (key y ≠ key x) as Hne.
    { intros E. apply Hx. rewrite <- E. apply list_elem_of_fmap. by exists y. }
    rewrite Et, Ej, lookup_partial_alter_ne, lookup_insert_ne by congruence. apply Hl. by right.
  - exists t, j. rewrite Hrun. unfold s1. rewrite put_put. split; [done|].
    rewrite fmap_cons. split.
    + intros k. rewrite Ht, Et. destruct (decide (k = key x)) as [->|Hne].
      * rewrite (bool_decide_true (_ ∈ _ :: _)) by by left. rewrite bool_decide_false by done.
        apply lookup_partial_alter_eq.
      * rewrite lookup_partial_alter_ne by done.
        rewrite (bool_decide_ext (k ∈ key x :: _) (k ∈ key <$> l)); [done|].
        rewrite elem_of_cons. naive_solver.
    + intros h k. rewrite Hj, Ej. destruct (decide ((h, k) = (height, key x))) as [[= -> ->]|Hne].
      * rewrite (bool_decide_true (_ ∧ _ ∈ _ :: _)) by (split; [done|by left]).
        rewrite bool_decide_false by tauto. apply lookup_insert_eq.
      * rewrite lookup_insert_ne by done.
        rewrite (bool_decide_ext (_ ∧ k ∈ key x :: _) (h = height ∧ k ∈ key <$> l)); [done|].
        rewrite elem_of_cons. naive_solver.
Qed.
End Loop.

(** ** One change *)

Section Changes.
Context `{Blake2b} `{Pallas} `{UnifiedAddress} `{!SerdeJson HeadRecord} `{!SerdeJsonLaws HeadRecord}.
Context (identity : StoreIdentity).
#[local] Notation network := (si_network identity).
Implicit Types (s : Store).

(** A head, where there is one, is that of [i] and valid at a tip. *)
Definition row_ok (p : Parameters) (tip : option Z) (i : NameId) (o : option Head) : Prop :=
  ∀ hd, o = Some hd → head_typed network hd ∧ sized (sr_txid (hd_producer hd))
    ∧ ∃ t, tip = Some t ∧ head_ok p t i hd.

Lemma validate_change_ok p tip i o :
  Parameters_ok p → row_ok p tip i o → validate_change identity i o tip = Ok tt.
Proof.
  intros Hp Ho. destruct o as [hd|]; [|done]. destruct (Ho hd eq_refl) as (Hty & _ & t & -> & Hok).
  by apply (validate_head_ok network p).
Qed.

Lemma head_column_encoded (o : option Head) :
  transpose encode_record (HeadRecord_from <$> o) = Ok (head_column o).
Proof.
  destruct o as [hd|]; [|done]. cbn [fmap option_fmap option_map transpose head_column mbind option_bind].
  unfold encode_record. destruct (from_slice_to_vec (HeadRecord_from hd)) as (b & -> & _). done.
Qed.

Lemma head_column_decoded p (tip : option ReducerTip) i o :
  NameId_ok i → Parameters_ok p → row_ok p (tip_height_ <$> tip) i o →
  decode_head_change identity tip (i, head_column o) = Ok (i, HeadRecord_from <$> o).
Proof.
  intros Hi Hp Ho. unfold decode_head_change, decode_name_id, decode_32.
  rewrite bool_decide_true by by apply NameId_ok_length. cbn [res_bind]. rewrite Hi.
  cbn [map_err res_bind]. destruct o as [hd|]; [|done].
  destruct (Ho hd eq_refl) as (Hty & _ & t & Et & Hok).
  unfold decode_record. cbn [head_column mbind option_bind].
  destruct (from_slice_to_vec (HeadRecord_from hd)) as (b & -> & Hf). cbn [transpose]. rewrite Hf.
  cbn [ok_or res_bind]. rewrite Et, (validate_head_ok network p t i hd Hok Hty Hp). done.
Qed.

(** The tables a change of a head, and of a commitment, writes. *)
Definition put_heads (t : gmap NameId HeadRecord) (j : gmap (Z * NameId) (option (list byte))) s : Store :=
  set_journal (db_rollback_blocks s) j (db_rollback_commits s) (set_records t (db_pending_commits s) s).
Definition put_commits (t : gmap CommitRef (list byte)) (j : gmap (Z * CommitRef) (option (list byte))) s
  : Store :=
  set_journal (db_rollback_blocks s) (db_rollback_heads s) j (set_records (db_heads s) t s).

Lemma apply_head_change_run p from height i prev cur s :
  Parameters_ok p → row_ok p from i prev → row_ok p (Some height) i cur →
  is_Some (db_rollback_blocks s !! height) →
  db_heads s !! i = HeadRecord_from <$> prev → db_rollback_heads s !! (height, i) = None →
  apply_head_change identity from (Some height) height (MkHeadChange i prev cur) s
  = (Ok tt, put_heads (partial_alter (λ _, HeadRecord_from <$> cur) i (db_heads s))
              (<[(height, i) := head_column prev]> (db_rollback_heads s)) s).
Proof.
  intros Hp Hprev Hcur Hb Hi Hj. unfold apply_head_change. cbn [hc_name_id hc_previous hc_current].
  rewrite (validate_change_ok p from i prev Hp Hprev), (validate_change_ok p _ i cur Hp Hcur).
  unfold sbind at 1 2 3, mlift at 1 2. unfold read_head at 1, sbind at 1, mget at 1, mlift at 1.
  rewrite Hi.
  assert (transpose decode_head_row (HeadRecord_from <$> prev) = Ok (HeadRecord_from <$> prev)) as ->.
  { destruct prev as [hd|]; [|done]. destruct (Hprev hd eq_refl) as (Hty & Ht & _).
    cbn [fmap option_fmap option_map transpose]. by rewrite (decode_head_row_ok network). }
  unfold sbind at 1, mlift at 1. rewrite bool_decide_true by done. cbn [ensure].
  rewrite head_column_encoded. unfold sbind at 1, mlift at 1.
  unfold sbind at 1, insert_rollback_head at 1, sbind at 1 2, mget at 1, mlift at 1.
  rewrite Hj, !bool_decide_true by done. cbn [andb ensure]. unfold mmodify. rewrite write_head_eq. done.
Qed.

Lemma apply_commit_change_run height c prev cur s :
  (∀ k, prev = Some k → Commitment_ok k) → is_Some (db_rollback_blocks s !! height) →
  db_pending_commits s !! c = commitment_bytes <$> prev → db_rollback_commits s !! (height, c) = None →
  apply_commit_change height (MkCommitChange c prev cur) s
  = (Ok tt, put_commits (partial_alter (λ _, commitment_bytes <$> cur) c (db_pending_commits s))
              (<[(height, c) := commit_column prev]> (db_rollback_commits s)) s).
Proof.
  intros Hprev Hb Hi Hj. unfold apply_commit_change. cbn [cc_reference cc_previous cc_current].
  unfold sbind at 1, read_commit at 1, sbind at 1, mget at 1, mlift at 1. rewrite Hi.
  assert (transpose decode_32 (commitment_bytes <$> prev)
    = Ok (E := StoreError) (commitment_bytes <$> prev)) as ->.
  { destruct prev as [k|]; [|done]. cbn [fmap option_fmap option_map transpose]. unfold decode_32.
    by rewrite bool_decide_true by by apply Commitment_ok_length, Hprev. }
  unfold sbind at 1, mlift at 1. rewrite bool_decide_true by done. cbn [ensure].
  unfold sbind at 1, insert_rollback_commit at 1, sbind at 1 2, mget at 1, mlift at 1.
  rewrite Hj, !bool_decide_true by done. cbn [andb ensure]. unfold mmodify. rewrite write_commit_eq. done.
Qed.

Lemma commit_column_decoded c (o : option Commitment) :
  sized (cr_txid c) → (∀ k, o = Some k → Commitment_ok k) →
  decode_commit_change (c, commit_column o) = Ok (c, commitment_bytes <$> o).
Proof.
  intros Hc Ho. unfold decode_commit_change, decode_32. rewrite bool_decide_true by done. cbn [res_bind].
  destruct o as [k|]; cbn [commit_column fmap option_fmap option_map transpose].
  - rewrite bool_decide_true by by apply Commitment_ok_length, Ho. by destruct c.
  - by destruct c.
Qed.
End Changes.

(** ** A block *)

Section Follow.
Context `{Blake2b} `{Pallas} `{UnifiedAddress} `{!SerdeJson HeadRecord} `{!SerdeJsonLaws HeadRecord}.
Context {V : Type} `{!ProofVerifier V}.
Context (identity : StoreIdentity).
#[local] Notation network := (si_network identity).
Implicit Types (r : Reducer V) (s : Store).

Lemma tip_height_of_tip r : tip_height_ <$> tip r = tip_height r.
Proof. unfold tip. by destruct (tip_height r). Qed.

Lemma stored_row r i : stored network r → row_ok identity (parameters r) (tip_height r) i (heads r !! i).
Proof.
  intros [[Hok Hty _ _ _] _ [_ Hl] _] hd Hhd. split; [by eapply Hty|]. split; [by eapply Hl|].
  by apply head_at_tip.
Qed.

Lemma read_tip_mirrors us s r : stored network r → mirrors us s r → read_tip s = (Ok (tip r), s).
Proof.
  intros [_ Hh _ _] [(m & Hm & Eh & Ex) _ _ _].
  unfold read_tip, query_metadata, sbind, mget, mlift. rewrite Hm. cbn [ok_or]. rewrite Eh, Ex.
  unfold tip. destruct (tip_height r) as [t|]; [|done]. cbn. unfold decode_32.
  by rewrite bool_decide_true.
Qed.

(** What a block applied to a stored state gives the store. *)
Record applied r block (delta : StateDelta) r' u : Prop := {
  ap_history : history r' = history r ++ [u];
  ap_linked : linked (history r ++ [u]) = true;
  ap_from : from_tip delta = tip r;
  ap_to : to_tip delta = Some (MkReducerTip (bl_height block) (bl_hash block)) ∧ to_tip delta = tip r';
  ap_sequential : non_sequential (tip r) (MkReducerTip (bl_height block) (bl_hash block)) = false;
  ap_row : block_row u = MkBlockRow (bl_hash block) (tip_height_ <$> tip r) (tip_hash <$> tip r);
  ap_height : un_height u = bl_height block;
  ap_head_changes : sd_heads delta
    = map (λ '(i, prev), MkHeadChange i prev (heads r' !! i)) (btree_iter (un_heads u));
  ap_commit_changes : sd_commits delta
    = map (λ '(c, prev), MkCommitChange c prev (commits r' !! c)) (btree_iter (un_commits u));
  ap_undo_heads i o : un_heads u !! i = Some o → heads r !! i = o;
  ap_undo_commits c o : un_commits u !! c = Some o → commits r !! c = o;
  ap_other_heads i : un_heads u !! i = None → heads r' !! i = heads r !! i;
  ap_other_commits c : un_commits u !! c = None → commits r' !! c = commits r !! c;
  ap_parameters : parameters r' = parameters r;
}.

Lemma apply_applied r block refs out r' :
  stored network r → stored_host network block refs →
  apply_block_detailed block refs r = (Ok out, r') → ∃ u, applied r block (bo_state_delta out) r' u.
Proof.
  intros Hs Hb Ha. pose proof Hs as [Hsv Hh _ _]. pose proof Hb as ([Hbt _] & _ & Hne & _).
  pose proof (stored_apply network r block refs out r' Hs Hb Ha) as [Hsv' _ _ _].
  pose proof (apply_block_step block refs r (sv_ok _ _ Hsv) (block_typed_named network block Hbt)) as Hstep.
  destruct (check_block r block refs) as [m|e|] eqn:Ec; [|congruence|done].
  destruct Hstep as (y & out1 & r1 & _ & Ha1 & Hrf & _). rewrite Ha in Ha1. injection Ha1 as <- <-.
  apply check_block_Ok in Ec as (Hn & Hprev & _).
  destruct (apply_block_inv block refs r out r' (rk_indexed _ (sv_ok _ _ Hsv)) Ha)
    as (s & u & T & Er & Ed).
  pose proof (br_tip _ _ _ _ _ _ _ Hrf) as Htip. pose proof (br_parameters _ _ _ _ _ _ _ Hrf) as Hp.
  assert (history r' = history r ++ [u]) as Hhist by by rewrite Er.
  assert (commits r' = commits s ∧ heads r' = heads s) as [Ecm Ehd] by by rewrite Er.
  destruct T as [_ Tc Th _ _ _ _ _ _ Tu]. cbn [fst snd] in *. exists u. rewrite Ed. constructor.
  - done.
  - rewrite <- Hhist. apply Hsv'.
  - done.
  - by rewrite <- Htip.
  - unfold non_sequential. destruct (sv_ok _ _ Hsv) as [_ _ Ht]. unfold tip.
    destruct (tip_height r) as [t|]; [|done]. destruct Ht as (_ & Hnext & _).
    cbn [fmap option_fmap option_map tip_height_ tip_hash].
    rewrite !bool_decide_false; [done|by rewrite <- Hprev|]. rewrite <- Hnext, Hn. tauto.
  - rewrite Tu. unfold block_row, tip. cbn. by destruct (tip_height r).
  - by rewrite Tu.
  - done.
  - done.
  - intros i o Ho. specialize (Th i). by rewrite Ho in Th.
  - intros c o Ho. specialize (Tc c). by rewrite Ho in Tc.
  - intros i Ho. specialize (Th i). rewrite Ho in Th. by rewrite Ehd.
  - intros c Ho. specialize (Tc c). rewrite Ho in Tc. by rewrite Ecm.
  - done.
Qed.

(** The loop over the head changes of an applied block. *)
Lemma head_changes_run r block delta r' u s :
  applied r block delta r' u → stored network r → stored network r' →
  db_heads s = HeadRecord_from <$> heads r →
  (∀ i, db_rollback_heads s !! (bl_height block, i) = None) →
  is_Some (db_rollback_blocks s !! bl_height block) →
  ∃ j, mfold (λ _, apply_head_change identity (tip_height r) (Some (bl_height block)) (bl_height block))
         tt (sd_heads delta) s = (Ok tt, put_heads (HeadRecord_from <$> heads r') j s)
    ∧ ∀ h i, j !! (h, i) = if bool_decide (h = bl_height block ∧ is_Some (un_heads u !! i))
                           then Some (head_column (heads r !! i)) else db_rollback_heads s !! (h, i).
Proof.
  intros Hap Hs Hs' Hh Hj Hb. pose proof (rk_parameters _ (sv_ok _ _ (so_saveable _ _ Hs))) as Hp.
  rewrite (ap_head_changes _ _ _ _ _ Hap).
  assert (hc_name_id <$> map (λ '(i, prev), MkHeadChange i prev (heads r' !! i)) (btree_iter (un_heads u))
    = btree_keys (un_heads u)) as Hkeys.
  { rewrite <- btree_iter_keys, <- (list_fmap_compose _ hc_name_id). apply list_fmap_ext. by intros ? [i o] _. }
  destruct (journaled_loop db_heads db_rollback_heads put_heads) with
    (ready := λ s, is_Some (db_rollback_blocks s !! bl_height block))
    (change := apply_head_change identity (tip_height r) (Some (bl_height block)) (bl_height block))
    (key := hc_name_id) (height := bl_height block)
    (old := λ i, HeadRecord_from <$> heads r !! i) (new := λ i, HeadRecord_from <$> heads r' !! i)
    (column := λ i, head_column (heads r !! i)) (s := s)
    (l := map (λ '(i, prev), MkHeadChange i prev (heads r' !! i)) (btree_iter (un_heads u)))
    as (t & j & Hrun & Ht & Hjn); try done; try by intros [].
  - intros x s1 Hx Hb1 Hold Hnone.
    apply list_elem_of_fmap in Hx as ([i o] & -> & Hx%elem_of_btree_iter). cbn [hc_name_id] in *.
    rewrite <- (ap_undo_heads _ _ _ _ _ Hap i o Hx).
    apply (apply_head_change_run identity (parameters r)); try done; [by apply stored_row|].
    pose proof (stored_row r' i Hs') as Hrow. rewrite (ap_parameters _ _ _ _ _ Hap) in Hrow.
    destruct (ap_to _ _ _ _ _ Hap) as [Ht1 Ht2]. rewrite <- tip_height_of_tip, <- Ht2, Ht1 in Hrow.
    exact Hrow.
  - rewrite Hkeys. apply NoDup_btree_keys.
  - intros x _. split; [|apply Hj]. by rewrite Hh, lookup_fmap.
  - exists j. rewrite Hrun. rewrite Hkeys in Ht, Hjn. split.
    + f_equal. f_equal. apply map_eq. intros i. rewrite Ht, Hh, !lookup_fmap.
      case_bool_decide as Hk; [done|]. rewrite elem_of_btree_keys in Hk.
      rewrite (ap_other_heads _ _ _ _ _ Hap); [done|by apply eq_None_not_Some].
    + intros h i. rewrite Hjn. by rewrite (bool_decide_ext _ _ (and_iff_compat_l _ (elem_of_btree_keys _ _))).
Qed.

Lemma commit_changes_run r block delta r' u s :
  applied r block delta r' u → stored network r →
  db_pending_commits s = commitment_bytes <$> commits r →
  (∀ c, db_rollback_commits s !! (bl_height block, c) = None) →
  is_Some (db_rollback_blocks s !! bl_height block) →
  ∃ j, mfold (λ _, apply_commit_change (bl_height block)) tt (sd_commits delta) s
         = (Ok tt, put_commits (commitment_bytes <$> commits r') j s)
    ∧ ∀ h c, j !! (h, c) = if bool_decide (h = bl_height block ∧ is_Some (un_commits u !! c))
                           then Some (commit_column (commits r !! c)) else db_rollback_commits s !! (h, c).
Proof.
  intros Hap Hs Hh Hj Hb. pose proof (sv_typed _ _ (so_saveable _ _ Hs)) as [Hc _].
  rewrite (ap_commit_changes _ _ _ _ _ Hap).
  assert (cc_reference <$> map (λ '(c, prev), MkCommitChange c prev (commits r' !! c)) (btree_iter (un_commits u))
    = btree_keys (un_commits u)) as Hkeys.
  { rewrite <- btree_iter_keys, <- (list_fmap_compose _ cc_reference). apply list_fmap_ext. by intros ? [i o] _. }
  destruct (journaled_loop db_pending_commits db_rollback_commits put_commits) with
    (ready := λ s, is_Some (db_rollback_blocks s !! bl_height block))
    (change := apply_commit_change (bl_height block))
    (key := cc_reference) (height := bl_height block)
    (old := λ c, commitment_bytes <$> commits r !! c) (new := λ c, commitment_bytes <$> commits r' !! c)
    (column := λ c, commit_column (commits r !! c)) (s := s)
    (l := map (λ '(c, prev), MkCommitChange c prev (commits r' !! c)) (btree_iter (un_commits u)))
    as (t & j & Hrun & Ht & Hjn); try done; try by intros [].
  - intros x s1 Hx Hb1 Hold Hnone.
    apply list_elem_of_fmap in Hx as ([c o] & -> & Hx%elem_of_btree_iter). cbn [cc_reference] in *.
    rewrite <- (ap_undo_commits _ _ _ _ _ Hap c o Hx).
    apply apply_commit_change_run; try done. intros k. apply Hc.
  - rewrite Hkeys. apply NoDup_btree_keys.
  - intros x _. split; [|apply Hj]. by rewrite Hh, lookup_fmap.
  - exists j. rewrite Hrun. rewrite Hkeys in Ht, Hjn. split.
    + f_equal. f_equal. apply map_eq. intros c. rewrite Ht, Hh, !lookup_fmap.
      case_bool_decide as Hk; [done|]. rewrite elem_of_btree_keys in Hk.
      rewrite (ap_other_commits _ _ _ _ _ Hap); [done|by apply eq_None_not_Some].
    + intros h c. rewrite Hjn. by rewrite (bool_decide_ext _ _ (and_iff_compat_l _ (elem_of_btree_keys _ _))).
Qed.

(** The journal tables after a block. *)
Lemma journals_snoc us r block delta r' u s s' :
  applied r block delta r' u → us `suffix_of` history r → journals us s →
  db_rollback_blocks s' = <[bl_height block := block_row u]> (db_rollback_blocks s) →
  (∀ h i, db_rollback_heads s' !! (h, i)
     = if bool_decide (h = bl_height block ∧ is_Some (un_heads u !! i))
       then Some (head_column (heads r !! i)) else db_rollback_heads s !! (h, i)) →
  (∀ h c, db_rollback_commits s' !! (h, c)
     = if bool_decide (h = bl_height block ∧ is_Some (un_commits u !! c))
       then Some (commit_column (commits r !! c)) else db_rollback_commits s !! (h, c)) →
  journals (us ++ [u]) s'.
Proof.
  intros Hap [k Hk] [Jb Jh Jc] Eb Eh Ec. pose proof (ap_height _ _ _ _ _ Hap) as Hu.
  assert (find_undo (bl_height block) us = None) as Hnew.
  { rewrite <- Hu. apply find_undo_new. pose proof (ap_linked _ _ _ _ _ Hap) as Hl. rewrite Hk in Hl.
    apply (linked_drop (length k)) in Hl. by rewrite <- app_assoc, drop_app_length in Hl. }
  assert (∀ h, find_undo h (us ++ [u]) = if bool_decide (h = bl_height block) then Some u else find_undo h us)
    as Hfind.
  { intros h. rewrite find_undo_snoc. destruct (decide (h = bl_height block)) as [->|Hne].
    - rewrite Hnew, Hu, Z.eqb_refl. by rewrite bool_decide_true.
    - rewrite bool_decide_false by done. destruct (find_undo h us); [done|].
      destruct (Z.eqb_spec (un_height u) h); [congruence|done]. }
  constructor.
  - intros h. rewrite Eb, Hfind. destruct (decide (h = bl_height block)) as [->|Hne].
    + rewrite lookup_insert_eq. by rewrite bool_decide_true.
    + rewrite lookup_insert_ne by done. by rewrite bool_decide_false.
  - intros h i. rewrite Eh, Hfind, Jh. destruct (decide (h = bl_height block)) as [->|Hne].
    + rewrite Hnew, (bool_decide_true (_ = _)) by done. cbn [mbind option_bind].
      destruct (un_heads u !! i) as [o|] eqn:Ho.
      * rewrite bool_decide_true by (split; [done|by eexists]). by rewrite (ap_undo_heads _ _ _ _ _ Hap i o Ho).
      * rewrite bool_decide_false; [done|]. by intros [_ [? ?]].
    + rewrite !bool_decide_false; [done|done|]. by intros [? _].
  - intros h c. rewrite Ec, Hfind, Jc. destruct (decide (h = bl_height block)) as [->|Hne].
    + rewrite Hnew, (bool_decide_true (_ = _)) by done. cbn [mbind option_bind].
      destruct (un_commits u !! c) as [o|] eqn:Ho.
      * rewrite bool_decide_true by (split; [done|by eexists]). by rewrite (ap_undo_commits _ _ _ _ _ Hap c o Ho).
      * rewrite bool_decide_false; [done|]. by intros [_ [? ?]].
    + rewrite !bool_decide_false; [done|done|]. by intros [? _].
Qed.

Lemma journals_new us r block delta r' u s :
  applied r block delta r' u → us `suffix_of` history r → journals us s →
  db_rollback_blocks s !! bl_height block = None
  ∧ (∀ i, db_rollback_heads s !! (bl_height block, i) = None)
  ∧ ∀ c, db_rollback_commits s !! (bl_height block, c) = None.
Proof.
  intros Hap [k Hk] [Jb Jh Jc].
  assert (find_undo (bl_height block) us = None) as Hnew.
  { rewrite <- (ap_height _ _ _ _ _ Hap). apply find_undo_new.
    pose proof (ap_linked _ _ _ _ _ Hap) as Hl. rewrite Hk in Hl.
    apply (linked_drop (length k)) in Hl. by rewrite <- app_assoc, drop_app_length in Hl. }
  split; [by rewrite Jb, Hnew|]. split; intros; [by rewrite Jh, Hnew|by rewrite Jc, Hnew].
Qed.

Lemma apply_delta_mirrors us r block delta r' u s :
  applied r block delta r' u → stored network r → stored network r' → covered identity delta = true →
  us `suffix_of` history r → mirrors us s r →
  ∃ s', apply_delta identity delta s = (Ok tt, s') ∧ mirrors (us ++ [u]) s' r'
    ∧ db_wallet_commits s' = db_wallet_commits s.
Proof.
  intros Hap Hs Hs' Hcov Hus Hm. pose proof Hm as [(m & Hmd & _) Mh Mc Mj].
  pose proof (ap_to _ _ _ _ _ Hap) as [Hto Htip].
  destruct (journals_new us r block delta r' u s Hap Hus Mj) as (Nb & Nh & Nc).
  set (s1 := set_journal (<[bl_height block := block_row u]> (db_rollback_blocks s)) (db_rollback_heads s)
               (db_rollback_commits s) s).
  assert (is_Some (db_rollback_blocks s1 !! bl_height block)) as Hb1
    by (cbn [s1 set_journal db_rollback_blocks]; by rewrite lookup_insert_eq).
  destruct (head_changes_run r block delta r' u s1 Hap Hs Hs') as (jh & Hrunh & Hjh);
    [exact Mh|exact Nh|exact Hb1|].
  set (s2 := put_heads _ _ s1) in *.
  destruct (commit_changes_run r block delta r' u s2 Hap Hs) as (jc & Hrunc & Hjc);
    [exact Mc|exact Nc|exact Hb1|].
  set (s3 := put_commits _ _ s2) in *.
  exists (set_metadata (set_tip_columns (Some (bl_height block)) (Some (bl_hash block)) <$> db_metadata s3) s3).
  split; [|split; [|done]].
  - unfold apply_delta. unfold sbind at 1. rewrite (read_tip_mirrors us s r Hs Hm).
    unfold sbind at 1, mlift at 1. rewrite (ap_from _ _ _ _ _ Hap), bool_decide_true by done. cbn [ensure].
    rewrite Hto. unfold sbind at 1, mlift at 1. cbn [ok_or]. unfold sbind at 1, mlift at 1.
    pose proof (ap_sequential _ _ _ _ _ Hap) as Hseq. rewrite Hseq. cbn [negb ensure]. unfold sbind at 1, mlift at 1.
    rewrite Hcov. cbn [ensure]. cbn [tip_height_ tip_hash]. rewrite <- (ap_row _ _ _ _ _ Hap).
    unfold sbind at 1, insert_rollback_block at 1, sbind at 1 2, mget at 1, mlift at 1.
    rewrite bool_decide_true by done. cbn [ensure]. unfold mmodify at 1. fold s1.
    rewrite tip_height_of_tip. unfold sbind at 1. rewrite Hrunh. unfold sbind at 1. rewrite Hrunc. done.
  - constructor; cbn [db_metadata db_heads db_pending_commits set_metadata].
    + rewrite <- Htip, Hto. change (db_metadata s3) with (db_metadata s). rewrite Hmd. by eexists.
    + done.
    + done.
    + by eapply journals_snoc.
Qed.
End Follow.

(** ** A rollback *)

Section Undoing.
Context `{Blake2b} `{Pallas} `{UnifiedAddress} `{!SerdeJson HeadRecord} `{!SerdeJsonLaws HeadRecord}.
Context {V : Type} `{!ProofVerifier V}.
Context (identity : StoreIdentity).
#[local] Notation network := (si_network identity).
Implicit Types (r : Reducer V) (s : Store).

(** A state, the last entry [u] of its journal, and the state before it. *)
Record undoes r (h : list Undo) u r' : Prop := {
  un_history : history r = h ++ [u];
  un_result : r' = undone u h r;
  un_last : tip r = Some (MkReducerTip (un_height u) (un_hash u));
  un_entry : undo_ok network (parameters r) u;
  un_sized : undo_sized u;
}.

Lemma rollback_undoes hash r d r' :
  stored network r → rollback_tip_detailed hash r = (Ok d, r') →
  ∃ h u, undoes r h u r' ∧ un_hash u = hash.
Proof.
  intros [[_ _ Hu _ Hlast] _ _ Hsz] (h & u & Hh & -> & Eu & Ep)%rollback_undone.
  destruct (Hlast u) as [Ht Hph]; [by rewrite Hh, last_snoc|].
  assert (u ∈ history r) as Hin by (rewrite Hh; apply elem_of_app; right; by apply list_elem_of_singleton).
  exists h, u. split; [|done]. constructor; [done|done| |by apply Hu|by apply Hsz].
  unfold tip. by rewrite <- Ht, <- Hph.
Qed.

Lemma undone_tip r h u r' :
  undoes r h u r' → tip r' = (λ t, MkReducerTip t (un_previous_hash u)) <$> un_previous_tip_height u.
Proof. by intros [_ -> _ _ _]. Qed.

Lemma undone_records r h u r' :
  indexed r → undoes r h u r' →
  (∀ i, heads r' !! i = default (heads r !! i) (un_heads u !! i))
  ∧ (∀ c, commits r' !! c = default (commits r !! c) (un_commits u !! c))
  ∧ history r' = h.
Proof.
  intros Hi [_ -> _ _ _]. set (s0 := set_history r h).
  assert (indexed s0) as Hs0 by by destruct Hi; constructor.
  destruct (restore_commits_eq (btree_iter (un_commits u)) s0 (NoDup_btree_iter _) Hs0)
    as (Hi2 & Hc2 & Hh2 & _ & _ & Hhi2). set (s2 := restore_commits _ _) in *.
  destruct (restore_heads_eq (btree_iter (un_heads u)) s2 (NoDup_btree_iter _) Hi2)
    as (_ & Hh3 & Hc3 & _ & _ & Hhi3).
  split; [|split].
  - intros i. unfold undone. cbn [set_tip heads]. fold s0 s2. by rewrite Hh3, btree_collect_iter, Hh2.
  - intros c. unfold undone. cbn [set_tip commits]. fold s0 s2. by rewrite Hc3, Hc2, btree_collect_iter.
  - unfold undone. cbn [set_tip history]. fold s0 s2. by rewrite Hhi3, Hhi2.
Qed.

(** The journal rows of the last entry. *)
Lemma last_rows us u s :
  linked (us ++ [u]) = true → journals (us ++ [u]) s →
  db_rollback_blocks s !! un_height u = Some (block_row u)
  ∧ head_rows s (un_height u) = map (λ '(i, o), (i, head_column o)) (btree_iter (un_heads u))
  ∧ commit_rows s (un_height u) = map (λ '(c, o), (c, commit_column o)) (btree_iter (un_commits u)).
Proof.
  intros Hl [Jb Jh Jc].
  assert (find_undo (un_height u) (us ++ [u]) = Some u) as Hf.
  { rewrite find_undo_snoc, (find_undo_new us u Hl). by rewrite Z.eqb_refl. }
  split; [by rewrite Jb, Hf|]. unfold head_rows, commit_rows. rewrite <- !btree_iter_fmap.
  split; f_equal; apply map_eq; intros k; rewrite lookup_block_rows, lookup_fmap.
  - by rewrite Jh, Hf.
  - by rewrite Jc, Hf.
Qed.

(** The rows are those of the entry, decoded. *)
Lemma plan_last us r h u r' s :
  linked (us ++ [u]) = true → Parameters_ok (parameters r) → undoes r h u r' → journals (us ++ [u]) s →
  plan identity (tip r') s (un_height u)
  = Ok (map (λ '(i, o), (i, HeadRecord_from <$> o)) (btree_iter (un_heads u)),
        map (λ '(c, o), (c, commitment_bytes <$> o)) (btree_iter (un_commits u))).
Proof.
  intros Hl Hp Hu Hj. destruct (last_rows us u s Hl Hj) as (_ & Eh & Ec).
  pose proof Hu as [_ _ _ [_ _ _ Uc Uh] [_ _ Sc Sh]]. unfold plan. rewrite Eh, Ec, !res_mapM_map.
  rewrite (res_mapM_total _ (λ '(i, o), (i, HeadRecord_from <$> o))).
  2: { intros [i o] Hin%elem_of_btree_iter. destruct (Uh i o Hin) as [Hi Hprev].
       apply (head_column_decoded identity (parameters r)); [done..|].
       intros hd ->. destruct (Hprev hd eq_refl) as (Hty & t & Ht & Hok).
       split; [done|]. split; [by eapply Sh|]. exists t. split; [|done].
       rewrite (undone_tip _ _ _ _ Hu), Ht. done. }
  cbn [res_bind]. rewrite (res_mapM_total _ (λ '(c, o), (c, commitment_bytes <$> o))); [done|].
  intros [c o] Hin%elem_of_btree_iter. destruct (Uc c o Hin) as [_ Hprev].
  apply commit_column_decoded; [by eapply Sc|]. intros k ->. by apply Hprev.
Qed.

Lemma journals_drop us u p s hs cs :
  linked (us ++ [u]) = true → journals (us ++ [u]) s → journals us (rolled_back p (un_height u) hs cs s).
Proof.
  intros Hl [Jb Jh Jc].
  assert (∀ h, find_undo h us = if h =? un_height u then None else find_undo h (us ++ [u])) as Hf.
  { intros h. rewrite find_undo_snoc. destruct (Z.eqb_spec h (un_height u)) as [->|Hne].
    - by apply find_undo_new.
    - destruct (find_undo h us); [done|]. destruct (Z.eqb_spec (un_height u) h); [congruence|done]. }
  constructor; unfold rolled_back; cbn [db_rollback_blocks db_rollback_heads db_rollback_commits].
  - intros h. rewrite Hf, map_lookup_filter, Jb.
    destruct (find_undo h (us ++ [u])) as [v|]; simpl; [|by destruct (_ =? _)].
    destruct (h =? un_height u) eqn:E; [by rewrite option_guard_False by congruence|].
    by rewrite option_guard_True.
  - intros h i. rewrite lookup_cascade, Hf, Jh. by destruct (_ =? _).
  - intros h c. rewrite lookup_cascade, Hf, Jc. by destruct (_ =? _).
Qed.

Lemma rollback_mirrors us r h u r' s :
  stored network r → undoes r h u r' → us ++ [u] `suffix_of` history r → mirrors (us ++ [u]) s r →
  ∃ s', rollback_store_tip identity (un_hash u) s = (Ok (tip r'), s')
    ∧ wallet_rollback_tip identity s = (Ok (tip r'), s') ∧ mirrors us s' r' ∧ us `suffix_of` history r'.
Proof.
  intros Hs Hu Hsuf Hm. pose proof Hs as [Hsv _ _ _]. pose proof Hm as [(m & Hmd & _) Mh Mc Mj].
  assert (linked (us ++ [u]) = true) as Hl.
  { destruct Hsuf as [k Hk]. pose proof (sv_linked _ _ Hsv) as Hl. rewrite Hk in Hl.
    apply (linked_drop (length k)) in Hl. by rewrite drop_app_length in Hl. }
  destruct (undone_records r h u r' (rk_indexed _ (sv_ok _ _ Hsv)) Hu) as (Uh & Uc & Uhist).
  assert (journaled s (MkReducerTip (un_height u) (un_hash u)) (tip r')) as Hj.
  { split; [rewrite <- (un_last _ _ _ _ Hu); by apply (read_tip_mirrors identity (us ++ [u]))|].
    unfold previous_tip_row, sbind, mget, mlift. cbn [tip_height_ tip_hash].
    rewrite (proj1 (last_rows us u s Hl Mj)). cbn [bk_hash block_row].
    rewrite bool_decide_true by done. cbn [ok_or]. rewrite (undone_tip _ _ _ _ Hu).
    unfold block_row. cbn [bk_previous_tip_height bk_previous_tip_hash].
    destruct (un_previous_tip_height u); [|done]. cbn. unfold decode_32.
    rewrite bool_decide_true; [done|]. apply (un_sized _ _ _ _ Hu). }
  destruct (host_rollback identity _ _ s Hj) as (s' & Hrun & Hs').
  destruct (wallet_rollback identity _ _ s Hj) as (s2 & Hrun2 & Hs2).
  cbn [tip_height_ tip_hash] in *.
  rewrite (plan_last us r h u r' s Hl (rk_parameters _ (sv_ok _ _ Hsv)) Hu Mj) in Hrun, Hs', Hrun2, Hs2.
  rewrite (Hs2 _ _ eq_refl) in Hrun2. rewrite (Hs' _ _ eq_refl) in Hrun. clear Hs' Hs2 s' s2.
  eexists. split; [exact Hrun|]. split; [exact Hrun2|]. split.
  - constructor; unfold rolled_back; cbn [db_metadata db_heads db_pending_commits].
    + rewrite Hmd. by eexists.
    + rewrite Mh. apply map_eq. intros i. rewrite lookup_assign, !lookup_fmap, Uh.
      rewrite (lookup_collect_map (λ _ o, HeadRecord_from <$> o)). by destruct (un_heads u !! i).
    + rewrite Mc. apply map_eq. intros c. rewrite lookup_assign, !lookup_fmap, Uc.
      rewrite (lookup_collect_map (λ _ o, commitment_bytes <$> o)). by destruct (un_commits u !! c).
    + by apply journals_drop.
  - rewrite Uhist. rewrite (un_history _ _ _ _ Hu) in Hsuf. destruct Hsuf as [k Hk]. exists k.
    rewrite app_assoc in Hk. by apply app_inj_tail in Hk as [-> _].
Qed.

Lemma rollback_unjournaled r h u r' s :
  stored network r → undoes r h u r' → mirrors [] s r →
  rollback_store_tip identity (un_hash u) s = (Err MissingRollbackJournal, s).
Proof.
  intros Hs Hu Hm. unfold rollback_store_tip, sbind, mlift.
  rewrite (read_tip_mirrors identity [] s r Hs Hm), (un_last _ _ _ _ Hu). cbn [ok_or tip_hash].
  rewrite bool_decide_true by done. cbn [ensure]. unfold previous_tip_row, sbind, mget, mlift.
  by rewrite (jn_blocks _ _ (mi_journal _ _ _ Hm)).
Qed.
(** The state and the tables that hold it. *)
Definition mirrored s r : Prop :=
  recoverable (stored network) r ∧ ∃ us, us `suffix_of` history r ∧ mirrors us s r.

(** The reducer rolls back. *)
Definition rolls_back r r' : Prop := ∃ hash d, rollback_tip_detailed hash r = (Ok d, r').

Lemma wallet_rollback_mirrored s r p s' :
  mirrored s r → wallet_rollback_tip identity s = (Ok p, s') →
  ∃ r', rolls_back r r' ∧ mirrored s' r' ∧ p = tip r'.
Proof.
  intros [Hr (us & Hsuf & Hm)] Hw. pose proof (recoverable_ok _ _ Hr) as Hs.
  pose proof (wallet_rollback_inv identity s p s' Hw) as (t & _ & _ & _ & _ & _ & Hb).
  rewrite (jn_blocks _ _ (mi_journal _ _ _ Hm)), fmap_is_Some in Hb. destruct Hb as [v Hv].
  destruct us as [|u us _] using rev_ind; [done|]. clear t v Hv.
  pose proof Hsuf as [k Hk]. rewrite app_assoc in Hk.
  destruct (sv_last _ _ (so_saveable _ _ Hs) u) as [_ Hh]; [by rewrite Hk, last_snoc|].
  destruct (undone_rollback (un_hash u) r (k ++ us) u Hk) as [d Hd]; [done..|].
  destruct (rollback_undoes _ r d _ Hs Hd) as (h & v & Hu & _).
  pose proof (un_history _ _ _ _ Hu) as Hhv. rewrite Hk in Hhv. apply app_inj_tail in Hhv as [<- <-].
  destruct (rollback_mirrors us r _ u _ s Hs Hu Hsuf Hm) as (s1 & _ & Hw1 & Hm1 & Hsuf1).
  rewrite Hw in Hw1. injection Hw1 as -> ->. eexists. split; [by exists (un_hash u), d|]. split; [|done].
  split; [|by exists us]. destruct Hr as [r Hr Hroll]. by eapply Hroll.
Qed.

Lemma rollback_loop_mirrored fuel height s r s' :
  mirrored s r → rollback_loop identity fuel height s = (Ok tt, s') →
  ∃ r', rtc rolls_back r r' ∧ mirrored s' r'.
Proof.
  revert s r. induction fuel as [|fuel IH]; intros s r Hm Hl; [done|].
  cbn [rollback_loop] in Hl. apply sbind_Ok in Hl as (o & s1 & Ht & Hl).
  pose proof (read_tip_state s) as Es. rewrite Ht in Es. injection Es as ->.
  destruct o as [t|]; [destruct (height <? tip_height_ t)|];
    [|by injection Hl as <-; exists r..].
  apply sbind_Ok in Hl as (p & s1 & Hw & Hl).
  destruct (wallet_rollback_mirrored s r p s1 Hm Hw) as (r1 & Hr1 & Hm1 & _).
  destruct (IH s1 r1 Hm1 Hl) as (r2 & Hr2 & Hm2). exists r2. split; [by eapply rtc_l|done].
Qed.

Lemma mirrored_metadata (f : Metadata → Metadata) s r :
  (∀ m, md_tip_height (f m) = md_tip_height m) → (∀ m, md_tip_hash (f m) = md_tip_hash m) →
  mirrored s r → mirrored (set_metadata (f <$> db_metadata s) s) r.
Proof.
  intros Hh Hx [Hr (us & Hsuf & [(m & Hm & E1 & E2) Mh Mc [Jb Jh Jc]])]. split; [done|].
  exists us. split; [done|]. constructor; [|done|done|by constructor].
  exists (f m). cbn [set_metadata db_metadata]. rewrite Hm, Hh, Hx. done.
Qed.

(** Finalizing drops a prefix of a journal with ascending heights. *)
Lemma find_undo_finalized height us h :
  linked us = true → find_undo h (drop_finalized height us)
  = if h <=? height then None else find_undo h us.
Proof.
  induction us as [|u us IH]; intros Hl; [by destruct (_ <=? _)|].
  cbn [drop_finalized]. destruct (Z.leb_spec (un_height u) height) as [Hle|Hlt].
  - rewrite IH by by apply (linked_drop 1 (u :: us)). cbn [find_undo].
    destruct (Z.leb_spec h height); [done|]. by destruct (Z.eqb_spec (un_height u) h); [lia|].
  - destruct (Z.leb_spec h height) as [Hh|Hh]; [|done]. apply eq_None_not_Some. intros [v Hf].
    apply find_undo_Some in Hf as [Hv Ev]. enough (un_height u ≤ un_height v) by lia.
    apply elem_of_cons in Hv as [->|Hv]; [done|]. clear -Hl Hv.
    revert u Hl Hv. induction us as [|w us IH]; intros u Hl Hv; [by apply not_elem_of_nil in Hv|].
    cbn [linked] in Hl. apply andb_true_iff in Hl as [Hw Hl]. apply andb_true_iff in Hw as [Hw _].
    apply bool_decide_eq_true, u32_checked_add_Some in Hw as [Hw _].
    apply elem_of_cons in Hv as [->|Hv]; [lia|]. specialize (IH w Hl Hv). lia.
Qed.

Lemma finalized_journals height us s :
  linked us = true → journals us s →
  journals (drop_finalized height us)
    (set_journal (filter (λ '(h, _), (h <=? height) = false) (db_rollback_blocks s))
       (cascade (λ h, h <=? height) (db_rollback_heads s))
       (cascade (λ h, h <=? height) (db_rollback_commits s)) s).
Proof.
  intros Hl [Jb Jh Jc]. constructor; cbn [set_journal db_rollback_blocks db_rollback_heads db_rollback_commits].
  - intros h. rewrite find_undo_finalized, map_lookup_filter, Jb by done.
    destruct (find_undo h us); simpl; [|by destruct (_ <=? _)].
    destruct (h <=? height) eqn:E; [by rewrite option_guard_False by congruence|].
    by rewrite option_guard_True.
  - intros h i. rewrite lookup_cascade, find_undo_finalized, Jh by done. by destruct (_ <=? _).
  - intros h c. rewrite lookup_cascade, find_undo_finalized, Jc by done. by destruct (_ <=? _).
Qed.

(** The tables after a finalization. *)
Definition finalized_store (height : Z) s : Store :=
  let s := set_journal (filter (λ '(h, _), (h <=? height) = false) (db_rollback_blocks s))
             (cascade (λ h, h <=? height) (db_rollback_heads s))
             (cascade (λ h, h <=? height) (db_rollback_commits s)) s in
  set_metadata ((λ m, set_finalized
    (Some (match md_finalized_height m with
           | None => height
           | Some finalized => if finalized <? height then height else finalized
           end)) m) <$> db_metadata s) s.

(** The store forgets as much as the reducer, or more. *)
Lemma mirrored_finalized height us s r :
  recoverable (stored network) r → us `suffix_of` history r → mirrors us s r →
  mirrored (finalized_store height s) r
  ∧ ∀ r', finalize_through height r = (Ok tt, r') → mirrored (finalized_store height s) r'.
Proof.
  intros Hr Hsuf [(m & Hm & E1 & E2) Mh Mc Mj]. pose proof (recoverable_ok _ _ Hr) as Hs.
  pose proof (sv_linked _ _ (so_saveable _ _ Hs)) as Hlr.
  assert (linked us = true) as Hl.
  { destruct Hsuf as [k Hk]. rewrite Hk in Hlr. apply (linked_drop (length k)) in Hlr.
    by rewrite drop_app_length in Hlr. }
  assert (∀ r', tip r' = tip r → heads r' = heads r → commits r' = commits r →
    mirrors (drop_finalized height us) (finalized_store height s) r') as Hmir.
  { intros r' Et Eh Ec. constructor; unfold finalized_store;
      cbn [set_metadata set_journal db_metadata db_heads db_pending_commits].
    - rewrite Hm, Et. eexists. split; [done|]. by split.
    - by rewrite Eh.
    - by rewrite Ec.
    - by destruct (finalized_journals height us s Hl Mj). }
  destruct (drop_finalized_drop height us) as [k Ek]. split.
  - split; [done|]. exists (drop_finalized height us). split; [|by apply Hmir].
    rewrite Ek. etrans; [|exact Hsuf]. exists (take k us). by rewrite take_drop.
  - intros r' Hf. unfold finalize_through in Hf. destruct (tip_height r) as [t|] eqn:Et; [|done].
    destruct (t <? height); [done|]. injection Hf as <-. split.
    + destruct (drop_finalized_drop height (history r)) as [j ->].
      by apply (recoverable_drop (host := stored_host network)).
    + exists (drop_finalized height us). split; [|by apply Hmir].
      cbn [set_history history]. destruct Hsuf as [g Hg]. rewrite Hg in Hlr |- *.
      clear -Hlr. induction g as [|v g IH]; cbn [app drop_finalized]; [done|].
      destruct (Z.leb_spec (un_height v) height) as [Hle|Hlt].
      * apply IH. by apply (linked_drop 1) in Hlr.
      * destruct (drop_finalized_drop height us) as [j ->]. exists (v :: g ++ take j us).
        by rewrite <- app_comm_cons, <- app_assoc, take_drop.
Qed.
End Undoing.

(** ** Theorems *)

Definition empty_store : Store := MkStore None ∅ ∅ ∅ ∅ ∅ ∅.

Section Theorems.
Context `{Blake2b} `{Pallas} `{UnifiedAddress} `{!SerdeJson HeadRecord} `{!SerdeJsonLaws HeadRecord}.
Context {V : Type} `{!ProofVerifier V}.
Context (identity : StoreIdentity).
Implicit Types (r : Reducer V) (s : Store).

Lemma mirrored_open p hash v r :
  Parameters_typed p → sized hash → new p hash v = Ok r →
  ∃ s, initialize_wallet_connection identity empty_store = (Ok tt, s)
    ∧ recoverable (stored (si_network identity)) r ∧ mirrors [] s r ∧ history r = [].
Proof.
  intros Hty Hh Hn. destruct (new_saveable (si_network identity) p hash v r Hty Hn) as [[Hs _] Hhist].
  assert (heads r = ∅ ∧ commits r = ∅ ∧ tip_height r = None ∧ previous_hash r = hash)
    as (Eh & Ec & Et & Eph) by (clear -Hn; unfold new in Hn; by inv_res).
  assert (stored (si_network identity) r) as Hst.
  { constructor; [exact Hs|by rewrite Eph| |rewrite Hhist; by intros u ?%not_elem_of_nil].
    split; simpl; intros ? ?; [rewrite Ec|rewrite Eh]; by rewrite lookup_empty. }
  unfold initialize_wallet_connection, initialize_or_validate_metadata, sbind, mget, mmodify.
  cbn [empty_store db_metadata]. destruct (encode_coverage (si_coverage identity)) as [kind nid].
  eexists. split; [done|]. split; [by apply recoverable_new|]. split; [|done].
  unfold set_metadata. constructor; cbn [empty_store db_metadata db_heads db_pending_commits].
  - unfold tip. rewrite Et. by eexists.
  - by rewrite Eh, fmap_empty.
  - by rewrite Ec, fmap_empty.
  - by constructor.
Qed.

Lemma mirrored_apply us s r block refs out r' :
  recoverable (stored (si_network identity)) r → us `suffix_of` history r → mirrors us s r →
  stored_host (si_network identity) block refs → apply_block_detailed block refs r = (Ok out, r') →
  covered identity (bo_state_delta out) = true →
  ∃ s' u, apply_delta identity (bo_state_delta out) s = (Ok tt, s')
    ∧ db_wallet_commits s' = db_wallet_commits s
    ∧ recoverable (stored (si_network identity)) r' ∧ mirrors (us ++ [u]) s' r'
    ∧ history r' = history r ++ [u].
Proof.
  intros Hr Hsuf Hm Hb Ha Hc. pose proof (recoverable_ok _ _ Hr) as Hs.
  destruct (apply_applied identity r block refs out r' Hs Hb Ha) as [u Hap].
  destruct (apply_delta_mirrors identity us r block _ r' u s Hap Hs) as (s' & Hrun & Hm' & Hw); try done.
  { by eapply stored_apply. }
  exists s', u. split; [done|]. split; [done|]. split; [by eapply recoverable_apply|].
  split; [done|]. apply Hap.
Qed.

(** C10: the store refines the reducer on blocks.  A store opened on an empty
    database mirrors the reducer at activation; and whenever a store mirrors a
    reducer, the delta of a block the reducer accepts is accepted by the store, if
    its coverage allows, and the store then mirrors the new state: every head and
    pending commitment is a row, every row is one, and the rollback journal holds
    the block.  The wallet's own rows are not touched. *)
Theorem store_follows_blocks :
  (∀ p hash v r, Parameters_typed p → sized hash → new p hash v = Ok r →
     ∃ s, initialize_wallet_connection identity empty_store = (Ok tt, s) ∧ mirrored identity s r)
  ∧ ∀ s r block refs out r',
      mirrored identity s r → stored_host (si_network identity) block refs →
      apply_block_detailed block refs r = (Ok out, r') →
      covered identity (bo_state_delta out) = true →
      ∃ s', with_transaction (apply_delta identity (bo_state_delta out)) s = (Ok tt, s')
        ∧ mirrored identity s' r' ∧ db_wallet_commits s' = db_wallet_commits s.
Proof.
  split.
  - intros p hash v r Hty Hh Hn. destruct (mirrored_open p hash v r Hty Hh Hn) as (s & Hs & Hr & Hm & _).
    exists s. split; [done|]. split; [done|]. exists []. split; [apply suffix_nil|done].
  - intros s r block refs out r' [Hr (us & Hsuf & Hm)] Hb Ha Hc.
    destruct (mirrored_apply us s r block refs out r') as (s' & u & Hrun & Hw & Hr' & Hm' & Hh); try done.
    exists s'. split; [unfold with_transaction; by rewrite Hrun|]. split; [|done].
    split; [done|]. exists (us ++ [u]). split; [|done]. rewrite Hh.
    destruct Hsuf as [k ->]. exists k. by rewrite app_assoc.
Qed.

(** C11: the store refines the reducer on rollbacks.  When the reducer rolls back
    its tip, a store that mirrors it rolls back to the same tip and mirrors the
    earlier state, unless the store has finalized the block, in which case it says
    so and keeps its tables; and a wallet rewind of a mirrored store, to any height
    and however far, ends in a store that mirrors a state of the reducer's own
    rollbacks. *)
Theorem store_follows_rollbacks (s : Store) (r : Reducer V) :
  mirrored identity s r →
  (∀ hash d r', rollback_tip_detailed hash r = (Ok d, r') →
     (∃ s', rollback_store_tip identity hash s = (Ok (tip r'), s') ∧ mirrored identity s' r')
     ∨ (rollback_store_tip identity hash s = (Err MissingRollbackJournal, s)
        ∧ db_rollback_blocks s = ∅))
  ∧ ∀ height o s', rollback_to_height identity height s = (Ok o, s') →
      ∃ r', rtc rolls_back r r' ∧ mirrored identity s' r' ∧ o = tip r'
        ∧ (∀ t, o = Some t → tip_height_ t ≤ height)
        ∧ (o ≠ tip r → ∀ m, db_metadata s' = Some m → md_core_snapshot m = None).
Proof.
  intros Hmir. pose proof Hmir as [Hr (us & Hsuf & Hm)]. pose proof (recoverable_ok _ _ Hr) as Hs. split.
  - intros hash d r' Hroll. destruct (rollback_undoes identity hash r d r' Hs Hroll) as (h & u & Hu & <-).
    destruct us as [|v us _] using rev_ind.
    + right. split; [by eapply rollback_unjournaled|]. apply map_empty. intros k.
      by rewrite (jn_blocks _ _ (mi_journal _ _ _ Hm)).
    + left. pose proof Hsuf as [k Hk]. rewrite (un_history _ _ _ _ _ Hu), app_assoc in Hk.
      apply app_inj_tail in Hk as [_ <-].
      destruct (rollback_mirrors identity us r h u r' s Hs Hu Hsuf Hm) as (s' & Hrun & _ & Hm' & Hsuf').
      exists s'. split; [done|]. split; [|by exists us]. destruct Hr as [r Hr Hrec]. by eapply Hrec.
  - intros height o s' Hrun. pose proof (rewind_ends identity height s) as (_ & Hle).
    specialize (Hle o s' Hrun). unfold rollback_to_height in Hrun.
    rewrite sbind_Ok in Hrun. destruct Hrun as (o0 & s0 & Ho0 & Hrun).
    rewrite (read_tip_mirrors identity us s r Hs Hm) in Ho0. injection Ho0 as <- <-.
    apply sbind_Ok in Hrun as (? & ? & [= <- <-] & Hrun).
    apply sbind_Ok in Hrun as ([] & s1 & Hl & Hrun).
    destruct (rollback_loop_mirrored identity _ height s r s1 Hmir Hl) as (r' & Hrr & Hm1).
    pose proof Hm1 as [Hr1 (us1 & _ & Hmm)].
    apply sbind_Ok in Hrun as (o1 & s2 & Ho1 & Hrun).
    rewrite (read_tip_mirrors identity us1 s1 r' (recoverable_ok _ _ Hr1) Hmm) in Ho1. injection Ho1 as <- <-.
    apply sbind_Ok in Hrun as ([] & s2 & Hup & Hrun).
    assert (mirrored identity s2 r' ∧ (tip r' ≠ tip r → ∀ m, db_metadata s2 = Some m → md_core_snapshot m = None))
      as [Hm2 Hcore].
    { case_bool_decide; injection Hup as <-; [|done].
      split; [by apply (mirrored_metadata identity (set_core_snapshot None))|].
      intros _ m. cbn. by intros (m0 & _ & ->)%fmap_Some. }
    pose proof Hm2 as [Hr2 (us2 & _ & Hmm2)].
    rewrite (read_tip_mirrors identity us2 s2 r' (recoverable_ok _ _ Hr2) Hmm2) in Hrun. injection Hrun as <- <-.
    exists r'. done.
Qed.

(** C34: finalization keeps the promised rewind.  A store that mirrors a reducer
    finalizes a height exactly when it is at least the configured number of blocks
    below the tip; it then still mirrors the reducer, forgets the journal of
    exactly the heights through the finalized one, and mirrors the reducer that
    finalizes the same height. *)
Theorem finalize_store_retains (s : Store) (r : Reducer V) (height : Z) :
  mirrored identity s r → is_u32 height →
  match tip_height r with
  | None => finalize_store identity height s = (Err FinalizationBeyondTip, s)
  | Some t =>
      if t <? height then finalize_store identity height s = (Err FinalizationBeyondTip, s)
      else if t <? height + si_minimum_rollback_blocks identity
      then finalize_store identity height s = (Err InsufficientRollbackRetention, s)
      else ∃ s', finalize_store identity height s = (Ok tt, s')
        ∧ mirrored identity s' r
        ∧ (∀ h, db_rollback_blocks s' !! h = if h <=? height then None else db_rollback_blocks s !! h)
        ∧ ∀ r', finalize_through height r = (Ok tt, r') → mirrored identity s' r'
  end.
Proof.
  intros Hmir Hu. pose proof Hmir as [Hr (us & Hsuf & Hm)]. pose proof (recoverable_ok _ _ Hr) as Hs.
  pose proof (read_tip_mirrors identity us s r Hs Hm) as Ht. unfold tip in Ht.
  destruct (tip_height r) as [t|] eqn:Et; cbn [fmap option_fmap option_map] in Ht.
  2: { unfold finalize_store, sbind. by rewrite Ht. }
  assert (finalize_store identity height s
    = if t <? height then (Err FinalizationBeyondTip, s)
      else if t <? height + si_minimum_rollback_blocks identity
      then (Err InsufficientRollbackRetention, s)
      else (Ok tt, finalized_store height s)) as ->.
  { unfold finalize_store. unfold sbind at 1. rewrite Ht. unfold sbind at 1, mlift at 1. cbn [ok_or tip_height_].
    unfold sbind at 1, mlift at 1. rewrite Z.leb_antisym. destruct (Z.ltb_spec t height); [done|].
    cbn [negb ensure]. unfold sbind at 1, mlift at 1.
    destruct (u32_checked_sub t (si_minimum_rollback_blocks identity)) as [safe|] eqn:Esub; cbn [ok_or].
    - apply u32_checked_sub_Some in Esub as [-> Hle]. unfold sbind at 1, mlift at 1.
      destruct (Z.leb_spec height (t - si_minimum_rollback_blocks identity)),
        (Z.ltb_spec t (height + si_minimum_rollback_blocks identity)); try lia; done.
    - apply u32_checked_sub_None in Esub. unfold is_u32 in Hu.
      by destruct (Z.ltb_spec t (height + si_minimum_rollback_blocks identity)); [|lia]. }
  destruct (t <? height); [done|]. destruct (t <? _); [done|].
  exists (finalized_store height s). split; [done|].
  pose proof (mirrored_finalized identity height us s r Hr Hsuf Hm) as Hfin.
  split; [exact (proj1 Hfin)|]. split; [|exact (proj2 Hfin)].
  intros h. unfold finalized_store. cbn [set_metadata set_journal db_rollback_blocks].
  rewrite map_lookup_filter. destruct (db_rollback_blocks s !! h); simpl; [|by destruct (_ <=? _)].
  destruct (h <=? height) eqn:E; [by rewrite option_guard_False by congruence|by rewrite option_guard_True].
Qed.
End Theorems.
