(* ===== verification/Scenario.v ===== *)
(** * A concrete chain

    One name through its whole life under the reference instances of
    [Concrete]: COMMIT at height 16, REVEAL at 19, REFRESH at 27, a spend at 28
    and the compaction at 36.  The properties of the reducer are applied to the
    states of this chain. *)

From S2P Require Import Prelude Bytes BTree External Protocol Concrete Schedule Codec Statement.
From S2P Require Import Records State Reducer Journal Ledger Invariant Safety Lifecycle Resolver Lockstep.

Module Scenario.

(** A verifier that accepts one proof. *)
#[global] Instance unit_verifier : ProofVerifier unit := {|
  verify_reveal _ _ proof := bool_decide (proof = [x01; x02]);
  verify_refresh _ _ proof := bool_decide (proof = [x01; x02; x03]) |}.

Definition params : Parameters := MkParameters (repeat x0f 32) 10 8 2 2 7 12 8.
Definition hash (h : Z) : list byte := be_bytes 32 h.
Definition field (z : Z) : FieldElement := MkFieldElement (to_repr (base_from_u64 z)).
Definition alice : Name := MkName (lit "alice").
Definition ua : CanonicalUa := MkCanonicalUa (lit "uregtest1q").
Definition commitment : Commitment := MkCommitment (field_bytes (field 4)).

Definition commit_tx : Transaction := MkTransaction 1 (hash 100) [] (Some (Commit commitment)).
Definition reveal_tx : Transaction :=
  MkTransaction 0 (hash 101) [MkAction 0 (field 6) (field 7)]
    (Some (Reveal alice (MkCommitRef 16 1 (hash 100)) ua 0 (field 8) [x01; x02])).
Definition refresh_tx : Transaction :=
  MkTransaction 2 (hash 102) [MkAction 0 (field 8) (field 9)]
    (Some (Refresh alice (MkStateRef 19 0 (hash 101) 0) ua 0 (field 10) [x01; x02; x03])).
Definition spend_tx : Transaction :=
  MkTransaction 0 (hash 103) [MkAction 0 (field 10) (field 11)] None.

Definition txs (h : Z) : list Transaction :=
  if h =? 16 then [commit_tx] else if h =? 19 then [reveal_tx]
  else if h =? 27 then [refresh_tx] else if h =? 28 then [spend_tx] else [].
Definition block (h : Z) : Block := MkBlock h (hash h) (hash (h - 1)) (txs h).
Definition chain (n : Z) : list (Block * list ReferencedCommit) :=
  map (λ h, (block h, [])) (seqZ 10 n).

Definition genesis : Reducer unit :=
  MkReducer params tt (Some 10) None (hash 9) ∅ ∅ ∅ ∅ ∅ ∅ [].

(** The state after [n] blocks, at height [9 + n]. *)
Definition after (n : Z) : Reducer unit := default genesis (apply_chain (chain n) genesis).

Definition alice_id : NameId := match Name_id alice with Ok i => i | _ => MkNameId [] end.

Lemma params_typed : Parameters_typed params.
Proof. repeat split; by vm_compute. Qed.

Lemma genesis_new : new params (hash 9) tt = Ok genesis.
Proof. by vm_compute. Qed.

Lemma alice_ok : Name_ok alice.
Proof. by apply Name_parse_guard. Qed.

Lemma block_ok h : block_named (block h).
Proof.
  intros tx op Hin Hop. unfold block, txs in Hin. cbn [bl_transactions] in Hin.
  repeat case_match; try (by apply not_elem_of_nil in Hin);
    apply list_elem_of_singleton in Hin as ->;
    cbv [commit_tx reveal_tx refresh_tx spend_tx tx_operation] in Hop; simplify_eq;
    try done; apply alice_ok.
Qed.

Lemma chain_reachable (host : Host) l (r r' : Reducer unit) :
  Forall (λ b, host b.1 b.2) l → apply_chain l r = Some r' → rtc (step host) r r'.
Proof.
  revert r. induction l as [|[b refs] l IH]; intros r Hf Hr; simpl in Hr; [by simplify_eq|].
  apply Forall_cons in Hf as [Hb Hf]. simpl in Hb.
  destruct (apply_block_detailed b refs r) as [[out|e|] r1] eqn:Ea; [|done..].
  eapply rtc_l; [by eapply step_apply|]. by apply IH.
Qed.

Lemma reachable_after n : rtc (step named_host) genesis (after n).
Proof.
  unfold after. destruct (apply_chain (chain n) genesis) as [r'|] eqn:Er; [|apply rtc_refl].
  eapply chain_reachable; [|exact Er]. apply Forall_forall. intros b (h & -> & _)%list_elem_of_fmap.
  apply block_ok.
Qed.

Lemma after_ok n : reducer_ok (after n).
Proof.
  destruct (new_ok _ _ _ _ params_typed genesis_new) as [Hr Hh].
  eapply recoverable_ok, maintained_steps; [done..|apply reachable_after].
Qed.

(** The same chain as a host sends it that drops the transactions before the
    REVEAL. *)
Definition thin_chain (n : Z) : list (Block * list ReferencedCommit) :=
  map (λ h, (MkBlock h (hash h) (hash (h - 1)) [], [])) (seqZ 10 n).
Definition thin (n : Z) : Reducer unit := default genesis (apply_chain (thin_chain n) genesis).
Definition alice_thin (n : Z) : ExactResolver unit := MkExactResolver alice alice_id (thin n).

Lemma thin_ok n : reducer_ok (thin n).
Proof.
  destruct (new_ok _ _ _ _ params_typed genesis_new) as [Hr Hh].
  eapply recoverable_ok, maintained_steps; [done..|].
  unfold thin. destruct (apply_chain (thin_chain n) genesis) as [r'|] eqn:Er; [|apply rtc_refl].
  eapply chain_reachable; [|exact Er]. apply Forall_forall. intros b (h & -> & _)%list_elem_of_fmap.
  by intros tx op ?%not_elem_of_nil.
Qed.

Lemma genesis_exact :
  exact_new params (hash 9) alice tt = Ok (MkExactResolver alice alice_id genesis).
Proof. by vm_compute. Qed.

Definition blank : BlockOutcome := MkBlockOutcome [] [] [] [] (MkStateDelta None None [] []).

(** What applying block [h] reports. *)
Definition outcome (h : Z) : BlockOutcome :=
  match apply_block_detailed (block h) [] (after (h - 10)) with (Ok out, _) => out | _ => blank end.

(** Every block of a chain that applies is an application to the state before it. *)
Lemma apply_after n :
  0 ≤ n → bool_decide (is_Some (apply_chain (chain (n + 1)) genesis)) = true →
  apply_block_detailed (block (10 + n)) [] (after n) = (Ok (outcome (10 + n)), after (n + 1)).
Proof.
  intros Hn Hs%bool_decide_eq_true. unfold outcome.
  replace (10 + n - 10) with n by lia. unfold after.
  assert (chain (n + 1) = chain n ++ [(block (10 + n), [])]) as Ec.
  { unfold chain. rewrite seqZ_app, map_app by lia. rewrite (seqZ_cons (10 + n) 1) by lia.
    by rewrite (seqZ_nil _ (Z.pred 1)) by lia. }
  rewrite Ec, apply_chain_app in Hs |- *.
  destruct (apply_chain (chain n) genesis) as [r|]; simpl in *; [|by destruct Hs].
  destruct (apply_block_detailed (block (10 + n)) [] r) as [[out|e|] r']; simpl in *;
    [done|by destruct Hs as [? [=]]..].
Qed.

Lemma apply_27 : apply_block_detailed (block 27) [] (after 17) = (Ok (outcome 27), after 18).
Proof. apply (apply_after 17); [done|by vm_compute]. Qed.
Lemma apply_36 : apply_block_detailed (block 36) [] (after 26) = (Ok (outcome 36), after 27).
Proof. apply (apply_after 26); [done|by vm_compute]. Qed.

Lemma check_27 : check_block (after 17) (block 27) [] = Ok ∅.
Proof.
  assert (is_ok (check_block (after 17) (block 27) []) = true) as Hok by by vm_compute.
  revert Hok. unfold check_block. generalize (after 17) as r. intros r.
  destruct (ensure _ WrongHeight); [|done..]. destruct (ensure _ WrongPreviousHash); [|done..].
  by destruct (check_transactions _ _).
Qed.

(** The state in which the block of the REFRESH is processed. *)
Definition before_refresh : Reducer unit * Undo := (after 17, new_undo (after 17) 27 (hash 27)).

Lemma before_refresh_indexed : indexed before_refresh.1.
Proof. apply after_ok. Qed.

Lemma before_refresh_ordered : ordered 27 (tx_tx_index refresh_tx) (ledger_of before_refresh.1).
Proof.
  intros i hd Hi. left. destruct (after_ok 17) as [_ _ Ht].
  assert (tip_height (after 17) = Some 26) as E by (vm_compute; reflexivity). rewrite E in Ht.
  destruct Ht as (_ & _ & _ & Hl). destruct (Hl i hd Hi). lia.
Qed.

Lemma refresh_decision :
  match apply_transaction_detailed (E := unit) 27 refresh_tx before_refresh [] with
  | Ok (d, _) => od_accepted d
  | _ => None
  end = Some AcceptedRefresh.
Proof. by vm_compute. Qed.

Lemma chain_19 : apply_chain (chain 19) genesis = Some (after 19).
Proof.
  unfold after. assert (bool_decide (is_Some (apply_chain (chain 19) genesis)) = true)
    as [r ->]%bool_decide_eq_true by by vm_compute. done.
Qed.

(** The COMMIT of the REVEAL, as evidence. *)
Definition evidence_19 : list ReferencedCommit :=
  [MkReferencedCommit (MkCommitRef 16 1 (hash 100)) commitment].

Lemma apply_19 : apply_block_detailed (block 19) [] (after 9) = (Ok (outcome 19), after 10).
Proof. apply (apply_after 9); [done|by vm_compute]. Qed.

Lemma reveals_19 c : reveals alice_id (block 19) c ↔ c = MkCommitRef 16 1 (hash 100).
Proof.
  split.
  - intros (tx & name & u & ai & nf & proof & Hin & Hop & _).
    apply list_elem_of_singleton in Hin as ->. unfold reveal_tx in Hop. cbn [tx_operation] in Hop.
    by injection Hop as _ <-.
  - intros ->. exists reveal_tx. do 5 eexists. split; [by apply list_elem_of_singleton|].
    split; [reflexivity|]. by vm_compute.
Qed.

Lemma committed_18 : commits (after 9) !! MkCommitRef 16 1 (hash 100) = Some commitment.
Proof. by vm_compute. Qed.

Lemma admissible_19 : admissible alice_id (after 9) (block 19) evidence_19.
Proof.
  intros ev Hev. apply list_elem_of_singleton in Hev as ->. split; [apply committed_18|].
  split; [by apply reveals_19|]. unfold unexpired. cbn [rc_reference cr_height].
  assert (parameters (after 9) = params) as -> by (vm_compute; reflexivity). by vm_compute.
Qed.

Lemma complete_19 : complete alice_id (after 9) (alice_thin 9) (block 19) evidence_19.
Proof.
  intros c k ->%reveals_19 Hk _. right. rewrite committed_18 in Hk. injection Hk as <-.
  by apply list_elem_of_singleton.
Qed.

(** Before the REVEAL, the exact resolver has no COMMIT and agrees. *)
Lemma follows_18 : follows (after 9) (alice_thin 9).
Proof.
  constructor; [apply after_ok|apply thin_ok|apply alice_ok|vm_compute; reflexivity..|].
  assert (heads (after 9) = ∅) as Hh by (apply map_size_empty_iff; by vm_compute).
  assert (heads (thin 9) = ∅) as Hh' by (apply map_size_empty_iff; by vm_compute).
  assert (commits (thin 9) = ∅) as Hc by (apply map_size_empty_iff; by vm_compute).
  unfold alice_thin, ledger_of. cbn [er_reducer]. rewrite Hh, Hh', Hc.
  constructor; cbn [lg_heads lg_commits]; [done|intros; apply lookup_empty|].
  intros c k. by rewrite lookup_empty.
Qed.

Lemma whole_chain n r :
  apply_chain (chain n) genesis = Some r →
  apply_chain (map (λ b, (b, [])) (map block (seqZ 10 n))) genesis = Some r.
Proof. unfold chain. by rewrite map_map. Qed.

Lemma blocks_named n b : b ∈ map block (seqZ 10 n) → block_named b.
Proof. intros (h & -> & _)%list_elem_of_fmap. apply block_ok. Qed.

(** Calls of a host: the chain up to the REVEAL, whose COMMIT comes as evidence too;
    calls that are refused; a rollback and a second application. *)
Definition forged : list ReferencedCommit :=
  [MkReferencedCommit (MkCommitRef 16 1 (hash 100)) (MkCommitment (field_bytes (field 5)))].
Definition script : list Call :=
  map (λ h, CallApply (block h) []) (seqZ 10 9)
  ++ [CallApply (block 19) forged; CallApply (block 19) evidence_19; CallApply (block 19) [];
      CallRollback (hash 18); CallRollback (hash 19); CallApply (block 19) evidence_19;
      CallFinalize 25; CallFinalize 18; CallRollback (hash 19); CallRollback (hash 18)].

Lemma shared_19 refs :
  Forall (λ ev, rc_reference ev = MkCommitRef 16 1 (hash 100)) refs →
  shared_evidence alice_id (block 19) refs.
Proof. intros Hr ev Hev _. rewrite Forall_forall in Hr. apply reveals_19, (Hr ev Hev). Qed.

Lemma script_ok : Forall (call_ok alice_id) script.
Proof.
  apply Forall_app. split.
  - apply Forall_forall. intros c (h & -> & _)%list_elem_of_fmap.
    split; [apply block_ok|by intros ev ?%not_elem_of_nil].
  - repeat constructor; try apply block_ok; apply shared_19; by repeat constructor.
Qed.

(** The block of the REVEAL with its evidence, seen by the resolver of another name. *)
Definition bob : Name := MkName (lit "bob").
Definition bob_id : NameId := match Name_id bob with Ok i => i | _ => MkNameId [] end.
Definition bob_exact : ExactResolver unit := MkExactResolver bob bob_id genesis.
Definition before_19 : list Call := map (λ h, CallApply (block h) []) (seqZ 10 9).
Definition full_18 : Reducer unit := (calls full_call before_19 genesis).2.

Lemma bob_ok : Name_ok bob.
Proof. by apply Name_parse_guard. Qed.

Lemma bob_genesis : exact_new params (hash 9) bob tt = Ok bob_exact.
Proof. by vm_compute. Qed.

Lemma before_19_ok i : Forall (call_ok i) before_19.
Proof.
  apply Forall_forall. intros c (h & -> & _)%list_elem_of_fmap.
  split; [apply block_ok|by intros ev ?%not_elem_of_nil].
Qed.

Lemma bob_not_shared : ¬ shared_evidence bob_id (block 19) evidence_19.
Proof.
  intros Hsh. assert (Name_id alice = Ok bob_id) as Hno.
  { destruct (Hsh (MkReferencedCommit (MkCommitRef 16 1 (hash 100)) commitment))
      as (tx & name & u & ai & nf & proof & Hin & Hop & Hn).
    - by apply list_elem_of_singleton.
    - by apply (bool_decide_unpack _); vm_compute.
    - apply list_elem_of_singleton in Hin as ->. by injection Hop as <- _ _ _ _. }
  by vm_compute in Hno.
Qed.

Lemma full_19 : ∃ out r', apply_block_detailed (block 19) evidence_19 full_18 = (Ok out, r').
Proof.
  assert (is_ok (apply_block_detailed (block 19) evidence_19 full_18).1 = true) as Hok by by vm_compute.
  destruct (apply_block_detailed (block 19) evidence_19 full_18) as [[out|e|] r']; [|done..].
  by exists out, r'.
Qed.
End Scenario.

(** The life of the name, as the reducer reports it. *)
Example alice_life :
  map (λ n, match heads (Scenario.after n) !! Scenario.alice_id with
            | Some hd => Some (sr_height (hd_producer hd), hd_expiry_height hd, hd_terminal_height hd)
            | None => None
            end) [9; 10; 18; 19; 26; 27]
  = [None; Some (19, 31, None); Some (27, 39, None); Some (27, 39, Some 28);
     Some (27, 39, Some 28); None].
Proof. by vm_compute. Qed.

(** ** Instances of the properties *)

#[local] Opaque Scenario.after Scenario.outcome Scenario.thin.

Lemma reachable_safe_witness :
  reducer_ok (Scenario.after 18)
  ∧ ((∃ e, apply_block_detailed (Scenario.block 28) [] (Scenario.after 18) = (Err e, Scenario.after 18))
     ∨ ∃ out r', apply_block_detailed (Scenario.block 28) [] (Scenario.after 18) = (Ok out, r')
         ∧ reducer_ok r').
Proof.
  destruct (reachable_safe Scenario.params (Scenario.hash 9) tt Scenario.genesis (Scenario.after 18)
    Scenario.params_typed Scenario.genesis_new (Scenario.reachable_after 18)) as (Hr & Ha & _).
  split; [exact Hr|]. apply Ha, Scenario.block_ok.
Defined.

Lemma apply_block_refines_witness :
  ∃ out r', apply_block_detailed (Scenario.block 27) [] (Scenario.after 17) = (Ok out, r')
    ∧ implements_ledger (Scenario.after 17) (Scenario.block 27) ∅ out r'.
Proof.
  apply (apply_block_refines (Scenario.after 17) (Scenario.block 27) [] ∅);
    [apply Scenario.after_ok|apply Scenario.block_ok|apply Scenario.check_27].
Defined.

Lemma rollback_restores_witness :
  rollback_tip_detailed (bl_hash (Scenario.block 27)) (Scenario.after 18)
  = (Ok (inverse_delta (bo_state_delta (Scenario.outcome 27))), Scenario.after 17).
Proof.
  destruct (rollback_restores (Scenario.block 27) [] (Scenario.after 17) (Scenario.after 18)
    (Scenario.outcome 27)) as [Hr _]; [apply Scenario.after_ok|apply Scenario.apply_27|exact Hr].
Defined.

Lemma reorganization_exact_witness :
  rollback_chain (reverse (map (λ b, bl_hash b.1) (Scenario.chain 19))) (Scenario.after 19)
  = Some Scenario.genesis.
Proof.
  apply (reorganization_exact (Scenario.chain 19) Scenario.genesis (Scenario.after 19));
    [apply (Scenario.after_ok 0)|apply Scenario.chain_19].
Defined.

Lemma compactions_ordered_witness :
  StronglySorted key_le (map cp_name_id (bo_compacted (Scenario.outcome 36)))
  ∧ bo_compacted (Scenario.outcome 36)
    = [MkCompaction Scenario.alice_id (MkStateRef 27 2 (Scenario.hash 102) 0) 36].
Proof.
  split; [|by vm_compute].
  destruct (compactions_ordered (Scenario.after 26) (Scenario.after 27) (Scenario.block 36) []
    (Scenario.outcome 36)) as (_ & Hs & _);
    [apply Scenario.after_ok|apply Scenario.block_ok|apply Scenario.apply_36|exact Hs].
Defined.

Lemma name_evolution_witness :
  rtc (name_step (parameters (Scenario.after 17)) (verifier (Scenario.after 17)) (bl_height (Scenario.block 27))
         (bl_transactions (Scenario.block 27)) Scenario.alice_id)
    (name_start (parameters (Scenario.after 17)) (bl_height (Scenario.block 27))
       (heads (Scenario.after 17) !! Scenario.alice_id))
    (heads (Scenario.after 18) !! Scenario.alice_id)
  ∧ is_Some (heads (Scenario.after 18) !! Scenario.alice_id).
Proof.
  destruct (name_evolution (Scenario.after 17) (Scenario.after 18) (Scenario.block 27) []
    (Scenario.outcome 27) Scenario.alice_id) as [Hs Hk];
    [apply Scenario.after_ok|apply Scenario.block_ok|apply Scenario.apply_27|].
  split; [exact Hs|]. apply Hk. eexists. by vm_compute.
Defined.

Lemma resolve_authenticated_exact_witness :
  (∃ found, resolve_authenticated (Scenario.after 10) Scenario.alice 19 = Ok found)
  ∧ resolve_authenticated (Scenario.after 10) Scenario.alice 20
    = Err (IncompleteHistory 20 (Some 19)).
Proof.
  assert (tip_height (Scenario.after 10) = Some 19) as Htip by by vm_compute.
  pose proof (λ h, resolve_authenticated_exact (Scenario.after 10) Scenario.alice 19 h
    (Scenario.after_ok 10) Scenario.alice_ok Htip) as Hr.
  split.
  - specialize (Hr 19). match type of Hr with _ = (if _ then Ok ?x else _) => exists x end. exact Hr.
  - exact (Hr 20).
Defined.

Lemma accepted_update_stays_active_witness :
  ∃ i hd d st' t', heads st'.1 !! i = Some hd ∧ hd_terminal_height hd = None
    ∧ apply_transaction_detailed (E := unit) 27 Scenario.refresh_tx Scenario.before_refresh []
      = Ok (d, (st', t')) ∧ i ∉ map tm_name_id t'.
Proof.
  destruct (apply_transaction_detailed (E := unit) 27 Scenario.refresh_tx Scenario.before_refresh [])
    as [[d [st' t']]|e|] eqn:E.
  - destruct (accepted_update_stays_active (E := unit) 27 Scenario.refresh_tx
      Scenario.before_refresh st' [] t' d Scenario.before_refresh_indexed
      Scenario.before_refresh_ordered E) as (i & hd & ts & Hh & Ht & _ & _ & -> & Hn).
    + right. pose proof Scenario.refresh_decision as Hd. by rewrite E in Hd.
    + exists i, hd, d, st', ts. split; [exact Hh|]. split; [exact Ht|]. split; [reflexivity|exact Hn].
  - pose proof Scenario.refresh_decision as Hd. by rewrite E in Hd.
  - pose proof Scenario.refresh_decision as Hd. by rewrite E in Hd.
Defined.

Lemma exact_replay_resolves_witness :
  ∃ x, exact_chain (map Scenario.block (seqZ 10 19))
         (MkExactResolver Scenario.alice Scenario.alice_id Scenario.genesis) = Some x
    ∧ exact_resolve x 28 = resolve_authenticated (Scenario.after 19) Scenario.alice 28.
Proof.
  destruct (exact_replay_resolves Scenario.params (Scenario.hash 9) Scenario.alice tt
    (map Scenario.block (seqZ 10 19)) Scenario.genesis (Scenario.after 19)
    (MkExactResolver Scenario.alice Scenario.alice_id Scenario.genesis)
    Scenario.params_typed Scenario.alice_ok (Scenario.blocks_named 19) Scenario.genesis_new
    Scenario.genesis_exact (Scenario.whole_chain 19 _ Scenario.chain_19)) as (x & Hx & _ & Hr).
  exists x. split; [exact Hx|exact (Hr 28)].
Defined.

Lemma evidence_suffices_witness :
  ∃ out' x', exact_apply_block_detailed (Scenario.block 19) Scenario.evidence_19
               (Scenario.alice_thin 9) = (Ok out', x')
    ∧ exact_resolve x' 19 = resolve_authenticated (Scenario.after 10) Scenario.alice 19.
Proof.
  destruct (evidence_suffices (Scenario.after 9) (Scenario.after 10) (Scenario.alice_thin 9)
    (Scenario.block 19) (Scenario.block 19) Scenario.evidence_19 (Scenario.outcome 19)
    Scenario.follows_18 (Scenario.block_ok 19) Scenario.apply_19
    (thinned_self Scenario.alice_id (Scenario.block 19)) Scenario.admissible_19 Scenario.complete_19)
    as (out' & x' & Hx & _ & Hr).
  exists out', x'. split; [exact Hx|exact (Hr 19)].
Defined.

(** The refused calls, and the calls around them. *)
Example script_answers :
  drop 9 (calls full_call Scenario.script Scenario.genesis).1 =
    [Applied (Some ConflictingReferencedCommit); Applied None; Applied (Some WrongHeight);
     RolledBack (Some WrongTipHash); RolledBack None; Applied None;
     Finalized (Some BeyondTip); Finalized None; RolledBack None; RolledBack (Some BeyondRetention)].
Proof. vm_compute. reflexivity. Qed.

Lemma evidence_decides_witness :
  ∃ x, exact_apply_block_detailed (Scenario.block 19) Scenario.evidence_19 x
       = (Err InvalidReferencedCommit, x)
    ∧ calls exact_call Scenario.before_19 Scenario.bob_exact
      = ((calls full_call Scenario.before_19 Scenario.genesis).1, x).
Proof.
  destruct Scenario.full_19 as (out & r' & Ha).
  destruct (evidence_decides Scenario.params (Scenario.hash 9) Scenario.bob tt Scenario.genesis
    Scenario.full_18 r' Scenario.bob_exact Scenario.before_19
    (calls full_call Scenario.before_19 Scenario.genesis).1 (Scenario.block 19) Scenario.evidence_19 out
    Scenario.params_typed Scenario.bob_ok Scenario.genesis_new Scenario.bob_genesis
    (Scenario.before_19_ok _) (surjective_pairing _) (Scenario.block_ok 19) Ha) as (x & Hx & _ & Hno).
  exists x. split; [exact (Hno Scenario.bob_not_shared)|exact Hx].
Defined.

Lemma replays_in_lockstep_witness :
  ∃ x, calls exact_call Scenario.script (MkExactResolver Scenario.alice Scenario.alice_id Scenario.genesis)
         = ((calls full_call Scenario.script Scenario.genesis).1, x)
    ∧ ∀ height, exact_resolve x height
        = resolve_authenticated (calls full_call Scenario.script Scenario.genesis).2 Scenario.alice height.
Proof.
  destruct (replays_in_lockstep Scenario.params (Scenario.hash 9) Scenario.alice tt Scenario.genesis
    (calls full_call Scenario.script Scenario.genesis).2
    (MkExactResolver Scenario.alice Scenario.alice_id Scenario.genesis) Scenario.script
    (calls full_call Scenario.script Scenario.genesis).1
    Scenario.params_typed Scenario.alice_ok Scenario.genesis_new Scenario.genesis_exact
    Scenario.script_ok (surjective_pairing _)) as (x & Hx & _ & _ & _ & Hr).
  exists x. split; [exact Hx|exact Hr].
Defined.
