(* ===== verification/TraceScenario.v ===== *)
(** * A corpus, concretely

    The chain of [Scenario] as a corpus: COMMIT, a REVEAL with a bad proof, a
    rollback, the REVEAL with evidence, a spend; and the two corpora that the
    comparison of the binary is not meant for. *)

From S2P Require Import Prelude Bytes BTree External Protocol Concrete Schedule Codec Statement.
From S2P Require Import Records State Reducer Journal Ledger Invariant Safety Resolver Lockstep.
From S2P Require Import Ruleset Snapshot SemanticTrace TraceFacts Scenario.

(** ** Hexadecimal text *)

Module HexRef.
Definition digit (n : Z) : byte := byte_of (if n <? 10 then 48 + n else 87 + n).
Definition encode (b : list byte) : list byte :=
  flat_map (λ x, [digit (byte_val x / 16); digit (byte_val x mod 16)]) b.
Definition value (b : byte) : option Z :=
  let n := byte_val b in
  if (48 <=? n) && (n <=? 57) then Some (n - 48)
  else if (97 <=? n) && (n <=? 102) then Some (n - 87)
  else if (65 <=? n) && (n <=? 70) then Some (n - 55)
  else None.
Fixpoint decode (b : list byte) : option (list byte) :=
  match b with
  | [] => Some []
  | [_] => None
  | x :: y :: b =>
      match value x, value y, decode b with
      | Some m, Some n, Some l => Some (byte_of (16 * m + n) :: l)
      | _, _, _ => None
      end
  end.
#[global] Instance hex : Hex := {|
  hex_decode b := match decode b with Some l => inr l | None => inl (lit "malformed hex") end;
  hex_encode := encode |}.
End HexRef.

Module TraceScenario.

(** A short encoding of the manifest, in the place of [serde_json]'s. *)
#[global] Instance domain_json : CanonicalJson Manifest := {|
  to_value_vec m := Some (lit (mf_domain m)) |}.

Definition txid (n : Z) : list byte := HexRef.encode (be_bytes 32 n).
Definition parameters : CorpusParameters :=
  MkCorpusParameters (HexRef.encode (repeat x0f 32)) 10 8 2 2 7 12 8.

Definition commit_ref : CorpusCommitRef := MkCorpusCommitRef 16 1 (txid 100).
Definition commit_tx : CorpusTransaction :=
  MkCorpusTransaction 1 (txid 100) [] (Some (CorpusCommit (Small 4))).
Definition reveal_tx (index : Z) (valid : bool) : CorpusTransaction :=
  MkCorpusTransaction index (txid 101) [MkCorpusAction 0 (Small 6) (Small 7)]
    (Some (CorpusReveal (lit "alice.zec") commit_ref (lit "uregtest1q") 0 (Small 8) valid)).
Definition spend_tx : CorpusTransaction :=
  MkCorpusTransaction 3 (txid 103) [MkCorpusAction 0 (Small 8) (Small 11)] None.
Definition evidence : list CorpusReferencedCommit := [MkCorpusReferencedCommit commit_ref (Small 4)].

Definition until_reveal : list Step :=
  [StepAdvanceEmpty (lit "activation") 15 x01;
   StepApply (lit "commit") (MkCorpusBlock 16 x01 None [commit_tx]) [];
   StepAdvanceEmpty (lit "maturity") 18 x01].

Definition steps : list Step :=
  until_reveal
  ++ [StepApply (lit "bad proof") (MkCorpusBlock 19 x01 None [reveal_tx 0 false]) [];
      StepRollback (lit "wrong hash") 19 x02 None;
      StepRollback (lit "rollback") 19 x01 None;
      StepApply (lit "wrong height") (MkCorpusBlock 20 x02 None [reveal_tx 0 true]) [];
      StepApply (lit "reveal") (MkCorpusBlock 19 x02 None [reveal_tx 0 true]) evidence;
      StepApply (lit "spend") (MkCorpusBlock 20 x02 None [spend_tx]) [];
      StepAdvanceEmpty (lit "cooled") 28 x02].

Definition with_steps (steps : list Step) : Case :=
  MkCase (lit "life") (txid 9) parameters [lit "alice"; lit "alice.zec"] [commit_ref] steps.
Definition case : Case := with_steps steps.

(** The block of the evidence, decoded. *)
Definition revealed : Block :=
  match corpus_block (MkCorpusBlock 19 x02 None [reveal_tx 0 true]) [] Regtest with
  | Ok b => b
  | _ => MkBlock 0 [] [] []
  end.

Lemma corpus_block_transactions value previous previous' network b b' :
  corpus_block value previous network = Ok b → corpus_block value previous' network = Ok b' →
  bl_transactions b = bl_transactions b'.
Proof.
  unfold corpus_block. destruct (transpose bytes32 _); [|done..]. cbn [res_bind].
  destruct (res_mapM _ _); [|done..]. by intros <-%Ok_inj <-%Ok_inj.
Qed.

Lemma revealed_ok :
  corpus_block (MkCorpusBlock 19 x02 None [reveal_tx 0 true]) [] Regtest = Ok revealed.
Proof. vm_compute. reflexivity. Qed.

Lemma evidence_ok :
  referenced evidence = Ok [MkReferencedCommit (MkCommitRef 16 1 (Scenario.hash 100)) Scenario.commitment].
Proof. vm_compute. reflexivity. Qed.

Lemma alice_revealed :
  reveals Scenario.alice_id revealed (MkCommitRef 16 1 (Scenario.hash 100)).
Proof.
  exists (MkTransaction 0 (Scenario.hash 101)
    [MkAction 0 (Scenario.field 6) (Scenario.field 7)]
    (Some (Reveal Scenario.alice (MkCommitRef 16 1 (Scenario.hash 100)) Scenario.ua 0 (Scenario.field 8) [x01]))).
  exists Scenario.alice, Scenario.ua, 0, (Scenario.field 8), [x01].
  split; [|split; [reflexivity|vm_compute; reflexivity]].
  apply list_elem_of_lookup_2 with (i := 0%nat). vm_compute. reflexivity.
Qed.

Definition names : list (list byte * Name) :=
  [(lit "alice", Scenario.alice); (lit "alice", Scenario.alice)].

Lemma names_tracked : res_mapM tracked_name (cs_tracked_names case) = Ok names.
Proof. vm_compute. reflexivity. Qed.

Lemma alice_identified : Name_id Scenario.alice = Ok Scenario.alice_id.
Proof. vm_compute. reflexivity. Qed.

Lemma evidence_about_alice previous block refs :
  corpus_block (MkCorpusBlock 19 x02 None [reveal_tx 0 true]) previous Regtest = Ok block →
  referenced evidence = Ok refs → evidence_shared names block refs.
Proof.
  intros Hb Hr label name i Hin Hi ev Hev _. rewrite evidence_ok in Hr. apply Ok_inj in Hr as <-.
  apply list_elem_of_singleton in Hev as ->. cbn [rc_reference].
  assert (i = Scenario.alice_id) as ->.
  { assert (name = Scenario.alice) as ->.
    { apply elem_of_cons in Hin as [[= _ ->]|[= _ ->]%list_elem_of_singleton]; reflexivity. }
    rewrite alice_identified in Hi. by apply Ok_inj in Hi. }
  unfold reveals. rewrite (corpus_block_transactions _ _ _ _ _ _ Hb revealed_ok).
  exact alice_revealed.
Qed.

Lemma steps_ok : Forall (step_ok Regtest names) steps.
Proof.
  repeat (apply Forall_cons; split); [..|apply Forall_nil; exact I].
  all: try (cbn [step_ok]; unfold u32_max; lia).
  all: try exact I.
  all: intros previous block refs Hb Hr; try (by apply (evidence_about_alice previous block refs)).
  all: apply Ok_inj in Hr as <-; by intros label name i _ _ ev ?%not_elem_of_nil.
Qed.

Lemma ok_case : case_ok Regtest case.
Proof.
  split; [repeat split; by vm_compute|]. intros n Hn. rewrite names_tracked in Hn.
  apply Ok_inj in Hn as <-. exact steps_ok.
Qed.

(** What the trace says of the name after each step. *)
Definition lifecycles (v : Value) : list Value :=
  match json_index v (lit "trace") with
  | JArray trace => map (λ entry,
      json_index (resolution_of (json_index entry (lit "full_state")) (lit "alice")) (lit "lifecycle")) trace
  | _ => []
  end.

(** A REVEAL of another name, and evidence for it. *)
Definition carol_tx : CorpusTransaction :=
  MkCorpusTransaction 0 (txid 105) []
    (Some (CorpusReveal (lit "carol") (MkCorpusCommitRef 16 2 (txid 104)) (lit "uregtest1q") 0 (Small 9) true)).
Definition carol_evidence : list CorpusReferencedCommit :=
  [MkCorpusReferencedCommit (MkCorpusCommitRef 16 2 (txid 104)) (Small 5)].
Definition carol_case : Case :=
  with_steps (until_reveal
    ++ [StepApply (lit "both") (MkCorpusBlock 19 x01 None [carol_tx; reveal_tx 1 true]) carol_evidence]).
End TraceScenario.

(** The case runs, and its resolutions are those of the life of the name. *)
Example trace_life :
  match run_case TraceScenario.case Regtest with
  | Ok v => TraceScenario.lifecycles v
  | _ => []
  end = map json_text ["Missing"; "Missing"; "Missing"; "Missing"; "Missing"; "Missing"; "Missing";
                       "Active"; "Cooldown"; "Missing"]%string.
Proof. vm_compute. reflexivity. Qed.

(** Evidence that is about no tracked name is refused by the exact resolver and
    admitted by the full reducer: the binary reports a divergence. *)
Example other_evidence_diverges :
  match run_case TraceScenario.carol_case Regtest with
  | Err e => Some (trace_message e)
  | _ => None
  end = Some (lit "life:both: full/exact resolution divergence for alice").
Proof. vm_compute. reflexivity. Qed.

Lemma trace_never_diverges_witness :
  case_ok Regtest TraceScenario.case
  ∧ match run_case TraceScenario.case Regtest with
    | Ok v => ∃ names trace,
        res_mapM tracked_name (cs_tracked_names TraceScenario.case) = Ok names
        ∧ json_index v (lit "trace") = JArray trace
        ∧ length trace = length (cs_steps TraceScenario.case)
        ∧ Forall (entry_parity names) trace
    | Err e => malformed e
    | Panic => False
    end.
Proof.
  split; [exact TraceScenario.ok_case|].
  exact (trace_never_diverges TraceScenario.case Regtest (mk_is_Some _ _ eq_refl) TraceScenario.ok_case).
Defined.
