(* ===== verification/Corpus.v ===== *)
(** * The semantic corpus ([test-vectors/semantic_histories.json])

    The four checked-in histories, run by the model of the trace binary, and the
    assertions [tests/semantic_history_agreement.rs] makes of this output.  The test
    also runs the independent checker and compares the two outputs, which is left to
    [ReferenceFacts]. *)

From S2P Require Import Prelude Bytes BTree External Protocol Concrete Schedule Codec Statement.
From S2P Require Import Records State Reducer Resolver Ruleset Snapshot SemanticTrace TraceScenario.

Module Corpus.

(** A 32-byte value that repeats one byte. *)
Definition same (b : byte) : list byte := HexRef.encode (repeat b 32).
Definition UA : list byte := lit (
  "uregtest1rxnn8qurdex552draeuvvvucggeknmmsxazg52mkatf0hrclhppe5jeqj6w7svqtxvxq320tw6ejsk4" +:+
  "nm8zk8f35274vlwqerfx74904pydaxe27wnpq8llqxclaa0n04zg764ppzfruu4gsagmqw0mlvx").
Definition old_nullifier : list byte :=
  lit "b646f07d05366fb8127c706843da84c62e42eec3ba2e66af0188c20d0093710a".

Definition lifecycle_case : Case :=
  MkCase (lit "lifecycle_competition_spend_refresh_and_fork") (same x00)
   (MkCorpusParameters (same x3c) 0 8 2 2 4 20 8)
   [lit "alice"]
   [MkCorpusCommitRef 6 0 (same x0a); MkCorpusCommitRef 15 0 (same x0f)]
   [StepAdvanceEmpty (lit "activation-through-five") 5 x01;
    StepApply (lit "commit-one") (MkCorpusBlock 6 x01 None [
       MkCorpusTransaction 0 (same x0a) []
         (Some (CorpusCommit (Small 100)))])
     [];
    StepApply (lit "maturity-minus-one") (MkCorpusBlock 7 x01 None [])
     [];
    StepApply (lit "invalid-proof-first-valid-wins-competition") (MkCorpusBlock 8 x01 None [
       MkCorpusTransaction 0 (same x14) [MkCorpusAction 0 (LittleEndianHex old_nullifier) (Small 101)]
         (Some (CorpusReveal (lit "alice") (MkCorpusCommitRef 6 0 (same x0a)) UA 0 (Small 11) false));
       MkCorpusTransaction 1 (same x15) [MkCorpusAction 0 (Small 2) (Small 102)]
         (Some (CorpusReveal (lit "alice.zec") (MkCorpusCommitRef 6 0 (same x0a)) UA 0 (Small 11) true));
       MkCorpusTransaction 2 (same x16) [MkCorpusAction 0 (Small 3) (Small 103)]
         (Some (CorpusReveal (lit "alice") (MkCorpusCommitRef 6 0 (same x0a)) UA 0 (Small 12) true))])
     [];
    StepApply (lit "malformed-bulletin-ordinary-bond-spend") (MkCorpusBlock 9 x01 None [
       MkCorpusTransaction 0 (same x17) [MkCorpusAction 0 (Small 11) (Small 104)]
         None])
     [];
    StepAdvanceEmpty (lit "cooldown-before-replacement-commit") 14 x01;
    StepApply (lit "replacement-commit") (MkCorpusBlock 15 x01 None [
       MkCorpusTransaction 0 (same x0f) []
         (Some (CorpusCommit (Small 200)))])
     [];
    StepApply (lit "last-cooldown-block") (MkCorpusBlock 16 x01 None [])
     [];
    StepApply (lit "first-missing-replacement") (MkCorpusBlock 17 x01 None [
       MkCorpusTransaction 0 (same x18) [MkCorpusAction 0 (Small 20) (Small 201)]
         (Some (CorpusReveal (lit "alice") (MkCorpusCommitRef 15 0 (same x0f)) UA 0 (Small 21) true))])
     [];
    StepRollback (lit "rollback-replacement") 17 x01 None;
    StepApply (lit "fork-replacement") (MkCorpusBlock 17 x02 None [
       MkCorpusTransaction 0 (same x19) [MkCorpusAction 0 (Small 30) (Small 202)]
         (Some (CorpusReveal (lit "alice") (MkCorpusCommitRef 15 0 (same x0f)) UA 0 (Small 22) true))])
     [];
    StepAdvanceEmpty (lit "advance-to-refresh") 23 x02;
    StepApply (lit "stale-refresh-then-valid-refresh") (MkCorpusBlock 24 x02 None [
       MkCorpusTransaction 0 (same x20) [MkCorpusAction 0 (Small 999) (Small 301)]
         (Some (CorpusRefresh (lit "alice") (MkCorpusStateRef 8 1 (same x15) 0) UA 0 (Small 32) true));
       MkCorpusTransaction 1 (same x21) [MkCorpusAction 0 (Small 22) (Small 302)]
         (Some (CorpusRefresh (lit "alice") (MkCorpusStateRef 17 0 (same x19) 0) UA 0 (Small 33) true))])
     [];
    StepAdvanceEmpty (lit "last-active-block") 43 x02;
    StepAdvanceEmpty (lit "expiry-boundary") 44 x02;
    StepAdvanceEmpty (lit "last-expiry-cooldown-block") 51 x02;
    StepAdvanceEmpty (lit "expiry-missing-boundary") 52 x02].

Definition referenced_case : Case :=
  MkCase (lit "referenced_commit_atomicity_and_reapply") (same x00)
   (MkCorpusParameters (same x3c) 0 8 2 2 4 20 8)
   [lit "alice"]
   [MkCorpusCommitRef 6 4 (same x3c)]
   [StepAdvanceEmpty (lit "forward-scan-without-generic-commit") 7 x03;
    StepApply (lit "referenced-commit-reveal") (MkCorpusBlock 8 x03 None [
       MkCorpusTransaction 0 (same x3d) [MkCorpusAction 0 (Small 50) (Small 501)]
         (Some (CorpusReveal (lit "alice") (MkCorpusCommitRef 6 4 (same x3c)) UA 0 (Small 51) true))])
     [MkCorpusReferencedCommit (MkCorpusCommitRef 6 4 (same x3c)) (Small 500)];
    StepRollback (lit "wrong-hash-rollback-is-atomic") 8 x04 None;
    StepRollback (lit "referenced-evidence-rolls-back") 8 x03 None;
    StepApply (lit "conflicting-evidence-rejected-atomically") (MkCorpusBlock 8 x03 None [
       MkCorpusTransaction 0 (same x3d) [MkCorpusAction 0 (Small 50) (Small 501)]
         (Some (CorpusReveal (lit "alice") (MkCorpusCommitRef 6 4 (same x3c)) UA 0 (Small 51) true))])
     [MkCorpusReferencedCommit (MkCorpusCommitRef 6 4 (same x3c)) (Small 500);
      MkCorpusReferencedCommit (MkCorpusCommitRef 6 4 (same x3c)) (Small 999)];
    StepApply (lit "valid-evidence-reapply") (MkCorpusBlock 8 x03 None [
       MkCorpusTransaction 0 (same x3d) [MkCorpusAction 0 (Small 50) (Small 501)]
         (Some (CorpusReveal (lit "alice") (MkCorpusCommitRef 6 4 (same x3c)) UA 0 (Small 51) true))])
     [MkCorpusReferencedCommit (MkCorpusCommitRef 6 4 (same x3c)) (Small 500)];
    StepRollback (lit "reapply-rolls-back-identically") 8 x03 None;
    StepApply (lit "fork-reapply") (MkCorpusBlock 8 x04 None [
       MkCorpusTransaction 0 (same x3e) [MkCorpusAction 0 (Small 52) (Small 502)]
         (Some (CorpusReveal (lit "alice") (MkCorpusCommitRef 6 4 (same x3c)) UA 0 (Small 53) true))])
     [MkCorpusReferencedCommit (MkCorpusCommitRef 6 4 (same x3c)) (Small 500)]].

Definition structural_case : Case :=
  MkCase (lit "structural_rejection_and_rollback_errors") (same x00)
   (MkCorpusParameters (same x3c) 0 8 2 2 4 20 8)
   [lit "alice"]
   []
   [StepApply (lit "wrong-parent") (MkCorpusBlock 0 x05 (Some (same xff)) [])
     [];
    StepApply (lit "valid-activation") (MkCorpusBlock 0 x05 None [])
     [];
    StepApply (lit "duplicate-transaction-index") (MkCorpusBlock 1 x05 None [
       MkCorpusTransaction 0 (same x46) []
         None;
       MkCorpusTransaction 0 (same x47) []
         None])
     [];
    StepApply (lit "noncanonical-action-position") (MkCorpusBlock 1 x05 None [
       MkCorpusTransaction 0 (same x48) [MkCorpusAction 1 (Small 1) (Small 1)]
         None])
     [];
    StepApply (lit "height-gap") (MkCorpusBlock 2 x05 None [])
     [];
    StepApply (lit "valid-height-one") (MkCorpusBlock 1 x05 None [])
     [];
    StepRollback (lit "wrong-tip-hash") 1 x06 None;
    StepRollback (lit "rollback-height-one") 1 x05 None;
    StepRollback (lit "rollback-activation") 0 x05 None;
    StepRollback (lit "rollback-empty-history") 0 x05 None].

Definition timing_case : Case :=
  MkCase (lit "timing_endpoints_and_exact_filtering") (same x00)
   (MkCorpusParameters (same x22) 0 8 2 2 4 20 8)
   [lit "alice"; lit "bob"]
   [MkCorpusCommitRef 8 0 (same x50); MkCorpusCommitRef 10 0 (same x51); MkCorpusCommitRef 10 1 (same x52)]
   [StepAdvanceEmpty (lit "advance-to-old-commit") 7 x07;
    StepApply (lit "old-commit") (MkCorpusBlock 8 x07 None [
       MkCorpusTransaction 0 (same x50) []
         (Some (CorpusCommit (Small 600)))])
     [];
    StepApply (lit "advance-before-fresh-commits") (MkCorpusBlock 9 x07 None [])
     [];
    StepApply (lit "fresh-commits") (MkCorpusBlock 10 x07 None [
       MkCorpusTransaction 0 (same x51) []
         (Some (CorpusCommit (Small 601)));
       MkCorpusTransaction 1 (same x52) []
         (Some (CorpusCommit (Small 602)))])
     [];
    StepApply (lit "just-before-maturity") (MkCorpusBlock 11 x07 None [
       MkCorpusTransaction 0 (same x53) [MkCorpusAction 0 (Small 60) (Small 603)]
         (Some (CorpusReveal (lit "bob") (MkCorpusCommitRef 10 1 (same x52)) UA 0 (Small 61) true))])
     [];
    StepApply (lit "ttl-maturity-and-window-end-boundaries") (MkCorpusBlock 12 x07 None [
       MkCorpusTransaction 0 (same x54) [MkCorpusAction 0 (Small 62) (Small 604)]
         (Some (CorpusReveal (lit "alice") (MkCorpusCommitRef 8 0 (same x50)) UA 0 (Small 63) true));
       MkCorpusTransaction 1 (same x55) [MkCorpusAction 0 (Small 64) (Small 605)]
         (Some (CorpusReveal (lit "alice") (MkCorpusCommitRef 10 0 (same x51)) UA 0 (Small 65) true));
       MkCorpusTransaction 2 (same x56) [MkCorpusAction 0 (Small 66) (Small 606)]
         (Some (CorpusReveal (lit "bob") (MkCorpusCommitRef 10 1 (same x52)) UA 0 (Small 67) true))])
     []].

Definition corpus : Corpus :=
  MkCorpus (lit "coppice-names-semantic-history") (lit "regtest")
    [lifecycle_case; referenced_case; structural_case; timing_case].

(** ** The test *)

(** [value["k"].as_array().unwrap().iter().find(|v| v[key] == id).unwrap()] *)
Definition find_in (value : Value) (array key id : list byte) : Value :=
  match json_index value array with
  | JArray l => default JNull (snd <$> list_find (λ v, json_index v key = JString id) l)
  | _ => JNull
  end.
Definition case (trace : Value) (id : string) : Value :=
  find_in trace (lit "cases") (lit "id") (lit id).
Definition step (case : Value) (label : string) : Value :=
  find_in case (lit "trace") (lit "label") (lit label).

Fixpoint collect_clause_ids (value : Value) : list (list byte) :=
  match value with
  | JObject fields =>
      match find (λ f, bool_decide (f.1 = lit "clause_id")) fields with
      | Some (_, JString identifier) => [identifier]
      | _ => []
      end ++ (fix go l := match l with [] => [] | (_, v) :: l => collect_clause_ids v ++ go l end) fields
  | JArray values =>
      (fix go l := match l with [] => [] | v :: l => collect_clause_ids v ++ go l end) values
  | _ => []
  end.

(** Indexing by a path of keys, and by a position. *)
Definition at_path (v : Value) (path : list string) : Value :=
  foldl (λ v k, json_index v (lit k)) v path.
Definition nth_of (n : nat) (v : Value) : Value :=
  match v with JArray l => nth n l JNull | _ => JNull end.

Definition operation (tx_index : Z) (kind : string) (accepted : bool) (clause_id : string) : Value :=
  json_object [("tx_index", JNumber tx_index); ("kind", json_text kind);
               ("accepted", JBool accepted); ("clause_id", json_text clause_id)]%string.

(** Each [assert_eq!] on the trace, as the pair of its operands. *)
Definition assertions (trace : Value) : list (Value * Value) :=
  let lifecycle := case trace "lifecycle_competition_spend_refresh_and_fork" in
  let referenced := case trace "referenced_commit_atomicity_and_reapply" in
  let structural := case trace "structural_rejection_and_rollback_errors" in
  let timing := case trace "timing_endpoints_and_exact_filtering" in
  let at_step case label path := at_path (step case label) path in
  let first case label path key := at_path (nth_of 0 (at_path (step case label) path)) [key] in
  [(at_step lifecycle "invalid-proof-first-valid-wins-competition" ["full_result"; "operations"],
    JArray [operation 0 "reveal" false "NAMES.REVEAL.PROOF";
            operation 1 "reveal" true "NAMES.REVEAL.ACCEPT";
            operation 2 "reveal" false "NAMES.REVEAL.MISSING"]);
   (at_step lifecycle "malformed-bulletin-ordinary-bond-spend"
      ["full_state"; "resolutions"; "alice"; "lifecycle"], json_text "Cooldown");
   (first lifecycle "malformed-bulletin-ordinary-bond-spend" ["full_result"; "transitions"] "clause_id",
    json_text "NAMES.SPEND.CURRENT");
   (at_step lifecycle "last-cooldown-block" ["full_state"; "resolutions"; "alice"; "lifecycle"],
    json_text "Cooldown");
   (first lifecycle "first-missing-replacement" ["full_result"; "transitions"] "clause_id",
    json_text "NAMES.LIFECYCLE.COMPACT");
   (at_step lifecycle "first-missing-replacement" ["full_result"; "ok"], JArray [json_text "Reveal"]);
   (at_step lifecycle "rollback-replacement" ["full_state"; "resolutions"; "alice"; "lifecycle"],
    json_text "Cooldown");
   (first lifecycle "fork-replacement" ["full_result"; "transitions"] "transition",
    json_text "Compacted");
   (at_step lifecycle "stale-refresh-then-valid-refresh" ["full_result"; "operations"],
    JArray [operation 0 "refresh" false "NAMES.REFRESH.CURRENT";
            operation 1 "refresh" true "NAMES.REFRESH.ACCEPT"]);
   (at_step lifecycle "expiry-missing-boundary" ["full_state"; "resolutions"; "alice"; "lifecycle"],
    json_text "Missing");
   (at_step lifecycle "expiry-missing-boundary" ["full_state"; "resolutions"; "alice"; "head"], JNull);
   (at_path (nth_of 0 (at_path (nth_of 0 (at_step lifecycle "expiry-missing-boundary"
      ["full_result"; "advance"])) ["transitions"])) ["clause_id"], json_text "NAMES.LIFECYCLE.COMPACT");
   (at_step referenced "conflicting-evidence-rejected-atomically" ["full_result"; "error"],
    json_text "ConflictingReferencedCommit");
   (at_step referenced "valid-evidence-reapply" ["full_result"; "ok"], JArray [json_text "Reveal"]);
   (at_step structural "wrong-parent" ["full_result"; "error"], json_text "WrongPreviousHash");
   (at_step structural "noncanonical-action-position" ["full_result"; "error"],
    json_text "NonCanonicalActionIndex");
   (at_step structural "rollback-empty-history" ["full_result"; "error"], json_text "NoAppliedBlock");
   (at_step timing "ttl-maturity-and-window-end-boundaries" ["full_result"; "operations"],
    JArray [operation 0 "reveal" false "NAMES.REVEAL.COMMIT";
            operation 1 "reveal" true "NAMES.REVEAL.ACCEPT";
            operation 2 "reveal" false "NAMES.REVEAL.SCHEDULE"])]%string.

(** What the test asserts of the Rust trace alone.  That the independent checker
    succeeds, and that its trace and its output are equal to these, is not part of
    it. *)
Definition trace_assertions (trace : Value) : bool :=
  let traced := collect_clause_ids trace in
  negb (bool_decide (traced = []))
  && forallb (λ i, existsb (λ k, bool_decide (lit k = i)) documented) traced
  && match json_index trace (lit "cases") with JArray l => Nat.eqb (length l) 4 | _ => false end
  && forallb (λ '(x, y), bool_decide (x = y)) (assertions trace).
End Corpus.

(** The model of the trace binary runs the four checked-in histories, and its trace
    satisfies what the repository's agreement test asserts of it: only documented
    clauses, and the outcomes of competition, spending, cooldown, replacement,
    reorganization, refresh, expiry, evidence and timing. *)
Example semantic_histories_conform :
  ∃ trace, corpus_trace Corpus.corpus = Ok trace ∧ Corpus.trace_assertions trace = true.
Proof.
  assert (match corpus_trace Corpus.corpus with
          | Ok trace => Corpus.trace_assertions trace
          | _ => false
          end = true) as H by (vm_compute; reflexivity).
  destruct (corpus_trace Corpus.corpus) as [trace|e|]; [by exists trace|done..].
Qed.
