(* ===== verification/ReferenceScenario.v ===== *)
(** * The two implementations on concrete runs

    A name through its life, with a reorganization, and a transaction that spends
    the bonds of two names. *)

From S2P Require Import Prelude Bytes BTree External Protocol Concrete Schedule Codec Statement.
From S2P Require Import Records State Reducer Invariant Safety Snapshot SemanticTrace Reference ReferenceFacts.
From S2P Require Import Scenario.

Module ReferenceScenario.

(** ** A life and a reorganization *)

Definition reveal_tx (index : Z) (proof : list byte) : Transaction :=
  MkTransaction index (Scenario.hash 101) [MkAction 0 (Scenario.field 6) (Scenario.field 7)]
    (Some (Reveal Scenario.alice (MkCommitRef 16 1 (Scenario.hash 100)) Scenario.ua 0 (Scenario.field 8) proof)).
Definition refresh_tx : Transaction :=
  MkTransaction 2 (Scenario.hash 102) [MkAction 0 (Scenario.field 8) (Scenario.field 9)]
    (Some (Refresh Scenario.alice (MkStateRef 19 1 (Scenario.hash 101) 0) Scenario.ua 0 (Scenario.field 10) [x01])).

Definition txs (h : Z) : list Transaction :=
  if h =? 16 then [Scenario.commit_tx] else if h =? 19 then [reveal_tx 0 [x00]; reveal_tx 1 [x01]]
  else if h =? 27 then [refresh_tx] else if h =? 28 then [Scenario.spend_tx] else [].
Definition block (h : Z) : Block := MkBlock h (Scenario.hash h) (Scenario.hash (h - 1)) (txs h).

Definition calls : list RefCall :=
  map (λ h, RefApply (block h) []) (seqZ 10 19)
  ++ [RefRollback (Scenario.hash 27); RefRollback (Scenario.hash 28); RefRollback (Scenario.hash 27)]
  ++ map (λ h, RefApply (block h) []) (seqZ 27 10).

Lemma field_ok z : FieldElement_ok (Scenario.field z).
Proof. apply FieldElement_from_bytes_Ok. split; [|done]. eexists. apply from_repr_to_repr. Qed.

Lemma hash_length h : length (Scenario.hash h) = 32%nat.
Proof. apply length_be_bytes. Qed.

Lemma alice_named_id : ∃ i, Name_id Scenario.alice = Ok i.
Proof. exists Scenario.alice_id. vm_compute. reflexivity. Qed.

(** What is asked of a transaction of a comparable block. *)
Definition transaction_typed (tx : Transaction) : Prop :=
  Z.of_nat (length (tx_actions tx)) ≤ u32_max
  ∧ length (tx_txid tx) = 32%nat
  ∧ (∀ a, a ∈ tx_actions tx → FieldElement_ok (ac_nullifier a) ∧ FieldElement_ok (ac_commitment a))
  ∧ ∀ op, tx_operation tx = Some op → Operation_ok Regtest op ∧ has_identifier op.

Lemma transaction_comparable h tx : tx ∈ txs h → transaction_typed tx.
Proof.
  intros Hin. unfold txs in Hin.
  repeat case_match; repeat (apply elem_of_cons in Hin as [->|Hin]); try (by apply not_elem_of_nil in Hin);
    (split; [vm_compute; discriminate|]); (split; [apply hash_length|]);
    cbv [Scenario.commit_tx Scenario.spend_tx reveal_tx refresh_tx tx_operation tx_actions];
    (split; [intros a Ha; first [by apply not_elem_of_nil in Ha
      |apply list_elem_of_singleton in Ha as ->; split; apply field_ok]|]); intros op [= <-];
    (split; [|first [exact I|exact alice_named_id]]).
  1: by vm_compute.
  all: split; [exact Scenario.alice_ok|]; repeat split; by vm_compute.
Qed.

Lemma block_comparable h : h ≤ 100 → comparable Scenario.params (block h) [].
Proof.
  intros Hh. split; [split|..].
  - split; [|by intros ev ?%not_elem_of_nil]. intros tx Hin.
    destruct (transaction_comparable h tx Hin) as (_ & _ & Ha & Hop). split; [intros a Hin'; by apply Ha|].
    intros op E. by apply Hop.
  - apply hash_length.
  - apply hash_length.
  - intros tx Hin. apply (transaction_comparable h tx Hin).
  - intros tx a Hin Ha. by apply (transaction_comparable h tx Hin).
  - by intros ev ?%not_elem_of_nil.
  - intros tx Hin. apply (transaction_comparable h tx Hin).
  - intros tx op Hin Hop. by apply (transaction_comparable h tx Hin).
  - cbn. unfold u32_max. lia.
Qed.

Lemma calls_comparable : Forall (call_comparable Scenario.params) calls.
Proof.
  unfold calls. rewrite !Forall_app. split_and!; [|by repeat constructor|];
    apply Forall_forall; intros c (h & -> & Hh%elem_of_seqZ)%list_elem_of_fmap;
    apply block_comparable; lia.
Qed.

(** ** Two names in one block

    From activation at [base]: two COMMITs, the REVEALs, and a transaction that
    spends both bonds.  The windows are wide, so that the names meet. *)

Definition params (base : Z) : Parameters := MkParameters (repeat x0f 32) base 20 16 16 18 40 20.
Definition bob : Name := MkName (lit "bob").

Definition commitment (n : Z) : Commitment := MkCommitment (field_bytes (Scenario.field n)).
Definition commit_of (index : Z) : Transaction :=
  MkTransaction index (Scenario.hash (200 + index)) [] (Some (Commit (commitment (40 + index)))).
Definition reveal_of (base index : Z) (name : Name) : Transaction :=
  MkTransaction index (Scenario.hash (210 + index))
    [MkAction 0 (Scenario.field (50 + index)) (Scenario.field (60 + index))]
    (Some (Reveal name (MkCommitRef (base + 10) index (Scenario.hash (200 + index))) Scenario.ua 0
             (Scenario.field (70 + index)) [x01])).
Definition both_spent : Transaction :=
  MkTransaction 0 (Scenario.hash 220)
    [MkAction 0 (Scenario.field 70) (Scenario.field 80); MkAction 1 (Scenario.field 71) (Scenario.field 81)] None.

Definition pair_block (base : Z) (first second : Name) (n : Z) : Block :=
  MkBlock (base + n) (Scenario.hash (base + n)) (Scenario.hash (base + n - 1))
    (if n =? 10 then [commit_of 0; commit_of 1]
     else if n =? 27 then [reveal_of base 0 first; reveal_of base 1 second]
     else if n =? 28 then [both_spent] else []).

(** The outcomes of the block [at_block] blocks after activation. *)
Definition outcomes (base : Z) (first second : Name) (at_block : Z) : option (RefOutcome * BlockOutcome) :=
  let fix go (fuel : nat) (n : Z) (s : Reference) (r : Reducer ExplicitProofVerdicts) :=
    match fuel with
    | O => None
    | S fuel =>
        let block := pair_block base first second n in
        match py_apply block [] s, apply_block_detailed block [] r with
        | Ok (inr o, s), (Ok out, r) =>
            if n =? at_block then Some (o, out) else go fuel (n + 1) s r
        | _, _ => None
        end
    end in
  match py_new (params base) (Scenario.hash (base - 1)),
        new (params base) (Scenario.hash (base - 1)) MkExplicitProofVerdicts with
  | Ok s, Ok r => go 29%nat 0 s r
  | _, _ => None
  end.
End ReferenceScenario.

(** A transaction that spends two bonds: the checker reports the terminations in the
    order in which its dictionary got the names, the reducer in the order of their
    identifiers. *)
Example terminations_in_another_order :
  ∃ bob_id, Name_id ReferenceScenario.bob = Ok bob_id
    ∧ ((λ x, (map tm_name_id (ro_terminated x.1), map tm_name_id (bo_terminated x.2)))
         <$> ReferenceScenario.outcomes 0 ReferenceScenario.bob Scenario.alice 28)
      = Some ([bob_id; Scenario.alice_id], [Scenario.alice_id; bob_id]).
Proof. eexists. split; vm_compute; reflexivity. Qed.

(** A lease that ends above the 32-bit heights: the checker accepts the REVEALs, the
    reducer refuses them. *)
Example accepted_beyond_horizon :
  ((λ x, (ro_accepted x.1, map od_clause_id (bo_decisions x.2)))
     <$> ReferenceScenario.outcomes (u32_max - 45) ReferenceScenario.bob Scenario.alice 27)
  = Some ([AcceptedReveal; AcceptedReveal], ["NAMES.REVEAL.SCHEDULE"; "NAMES.REVEAL.SCHEDULE"]%string).
Proof. vm_compute. reflexivity. Qed.

(** The block of a REVEAL with another address. *)
Definition block_with_address (ua : CanonicalUa) : Block :=
  MkBlock 10 (Scenario.hash 10) (Scenario.hash 9)
    [MkTransaction 0 (Scenario.hash 101) [MkAction 0 (Scenario.field 6) (Scenario.field 7)]
      (Some (Reveal Scenario.alice (MkCommitRef 16 1 (Scenario.hash 100)) ua 0 (Scenario.field 8) [x01]))].

(** The checker takes every address for one of regtest: an address of another network
    that the crate parses for its own network ends the script, and the reducer applies
    the block. *)
Example foreign_address_raises :
  let main := MkCanonicalUa (lit "u1q") in
  CanonicalUa_parse Main (lit "u1q") = Ok main
  ∧ match py_new Scenario.params (Scenario.hash 9),
          new Scenario.params (Scenario.hash 9) MkExplicitProofVerdicts with
    | Ok s, Ok r =>
        py_apply (block_with_address main) [] s = Err WrongUaNetwork
        ∧ is_ok (apply_block_detailed (block_with_address main) [] r).1 = true
        ∧ match py_apply (block_with_address Scenario.ua) [] s with
          | Ok (inr _, _) => True
          | _ => False
          end
    | _, _ => False
    end.
Proof. cbv zeta. split; [reflexivity|]. split; [reflexivity|]. split; [reflexivity|exact I]. Qed.

Lemma reference_agrees_witness :
  ∃ s r, py_new Scenario.params (Scenario.hash 9) = Ok s
    ∧ new Scenario.params (Scenario.hash 9) MkExplicitProofVerdicts = Ok r
    ∧ answers_agree ReferenceScenario.calls s r.
Proof.
  eexists _, _. split; [reflexivity|]. split; [reflexivity|].
  exact (reference_agrees Scenario.params (Scenario.hash 9) ReferenceScenario.calls
    Scenario.params_typed ReferenceScenario.calls_comparable).
Defined.

(** The life and the reorganization, as the checker tells them: what every block
    accepts, and the name at the end. *)
Example checker_life :
  let fix go (calls : list RefCall) (s : Reference) : list (list Accepted) * Reference :=
    match calls with
    | [] => ([], s)
    | RefApply block refs :: calls =>
        match py_apply block refs s with
        | Ok (inr o, s) => let '(l, s) := go calls s in (ro_accepted o :: l, s)
        | _ => ([], s)
        end
    | RefRollback hash :: calls => go calls (py_rollback hash s).2
    end in
  match py_new Scenario.params (Scenario.hash 9) with
  | Ok s =>
      let '(l, s) := go ReferenceScenario.calls s in
      (filter (λ x, x ≠ []) l, py_snapshot_resolution s Scenario.alice)
  | _ => ([], Err PyInvalidParameters)
  end = ([[AcceptedCommit]; [AcceptedReveal]; [AcceptedRefresh]; [AcceptedRefresh]],
         Ok (inr missing)).
Proof. vm_compute. reflexivity. Qed.
