(* ===== verification/SnapshotScenario.v ===== *)
(** * Snapshots of the concrete chain

    The snapshot properties at the states of [Scenario], with a serializer in the
    place of [serde_json]; and the identity of the checked-in ruleset. *)

From S2P Require Import Prelude Bytes BTree External Protocol Concrete Schedule Codec Statement.
From S2P Require Import Records State Reducer Journal Ledger Invariant Keys Safety Lifecycle.
From S2P Require Import Ruleset Resolver Snapshot ExactSnapshot Scenario.

Module SnapshotScenario.

(** ** Serializers *)

#[global] Instance StateRef_countable : Countable StateRef.
Proof.
  refine (inj_countable' (λ r, (sr_height r, sr_tx_index r, sr_txid r, sr_action_index r))
    (λ '(a, b, c, d), MkStateRef a b c d) _). by intros [].
Defined.

#[global] Instance StoredHead_eq_dec : EqDecision StoredHead.
Proof. solve_decision. Defined.
#[global] Instance StoredHead_countable : Countable StoredHead.
Proof.
  refine (inj_countable' (λ h, (sh_name h, sh_ua h, sh_producer h, sh_commitment h, sh_future_nf h,
      sh_producer_epoch h, sh_expiry_height h, sh_terminal_height h))
    (λ '(a, b, c, d, e, f, g, i), MkStoredHead a b c d e f g i) _). by intros [].
Defined.

#[global] Instance StoredUndo_eq_dec : EqDecision StoredUndo.
Proof. solve_decision. Defined.
#[global] Instance StoredUndo_countable : Countable StoredUndo.
Proof.
  refine (inj_countable' (λ u, (su_height u, su_hash u, su_previous_hash u,
      su_previous_next_height u, su_previous_tip_height u, su_commits u, su_heads u))
    (λ '(a, b, c, d, e, f, g), MkStoredUndo a b c d e f g) _). by intros [].
Defined.

#[global] Instance StoredParameters_countable : Countable StoredParameters.
Proof.
  refine (inj_countable' (λ s, (sp_deployment_id s, sp_activation_height s, sp_epoch_blocks s,
      sp_window_blocks s, sp_commit_maturity_blocks s, sp_commit_ttl_blocks s, sp_lease_blocks s,
      sp_cooldown_blocks s))
    (λ '(a, b, c, d, e, f, g, h), MkStoredParameters a b c d e f g h) _). by intros [].
Defined.

#[global] Instance RollbackRange_countable : Countable RollbackRange.
Proof.
  refine (inj_countable' (λ r, (first_height r, last_height r))
    (λ '(a, b), MkRollbackRange a b) _). by intros [].
Defined.

#[global] Instance StoredReducer_eq_dec : EqDecision StoredReducer.
Proof. solve_decision. Defined.
#[global] Instance StoredReducer_countable : Countable StoredReducer.
Proof.
  refine (inj_countable' (λ s, (sr_format_version s, sr_deployment_id s, sr_ruleset_fingerprint s,
      sr_rollback_range s, sr_parameters s, sr_next_height s, sr_tip_height s, sr_previous_hash s,
      sr_commits s, sr_heads s, sr_history s))
    (λ '(a, b, c, d, e, f, g, h, i, j, k), MkStoredReducer a b c d e f g h i j k) _). by intros [].
Defined.

#[global] Instance StoredExactResolver_eq_dec : EqDecision StoredExactResolver.
Proof. solve_decision. Defined.
#[global] Instance StoredExactResolver_countable : Countable StoredExactResolver.
Proof.
  refine (inj_countable' (λ s, (sx_format_version s, sx_deployment_id s, sx_ruleset_fingerprint s,
      sx_rollback_range s, sx_name s, sx_reducer s))
    (λ '(a, b, c, d, e, f), MkStoredExactResolver a b c d e f) _). by intros [].
Defined.

#[global] Instance reducer_json : SerdeJson StoredReducer := countable_json.
#[global] Instance reducer_json_laws : SerdeJsonLaws StoredReducer := countable_json_laws.
#[global] Instance exact_json : SerdeJson StoredExactResolver := countable_json.
#[global] Instance exact_json_laws : SerdeJsonLaws StoredExactResolver := countable_json_laws.

(** The compact JSON of a manifest; its strings need no escapes. *)
Definition quote (s : string) : list byte := byte_of 34 :: lit s ++ [byte_of 34].
Definition commas (l : list (list byte)) : list byte :=
  match l with [] => [] | x :: l => x ++ flat_map (λ y, lit "," ++ y) l end.
Definition array (l : list (list byte)) : list byte := lit "[" ++ commas l ++ lit "]".
Definition object (l : list (string * list byte)) : list byte :=
  lit "{" ++ commas (map (λ '(k, v), quote k ++ lit ":" ++ v) l) ++ lit "}".
Definition strings (l : list string) : list byte := array (map quote l).
Definition clause_json (c : Clause) : list byte :=
  object [("effect", strings (cl_effect c)); ("id", quote (cl_id c));
          ("inputs", strings (cl_inputs c)); ("rule_type", quote (cl_rule_type c));
          ("when", strings (cl_when c))]%string.
#[global] Instance manifest_json : CanonicalJson Manifest := {|
  to_value_vec m := Some (object [("clauses", array (map clause_json (mf_clauses m)));
                                  ("domain", quote (mf_domain m))]%string) |}.

Lemma manifest_json_total : is_Some (to_value_vec EMBEDDED_MANIFEST).
Proof. by eexists. Defined.

(** ** The chain of typed blocks *)

Lemma block_typed_host h : typed_host Regtest (Scenario.block h) [].
Proof.
  split; [|by intros ev ?%not_elem_of_nil].
  intros tx Hin. unfold Scenario.block, Scenario.txs in Hin. cbn [bl_transactions] in Hin.
  repeat case_match; try (by apply not_elem_of_nil in Hin);
    apply list_elem_of_singleton in Hin as ->;
    cbv [Scenario.commit_tx Scenario.reveal_tx Scenario.refresh_tx Scenario.spend_tx tx_actions
      tx_operation]; (split; [intros a Ha; first [by apply not_elem_of_nil in Ha
        |apply list_elem_of_singleton in Ha as ->; by vm_compute]|intros op [= <-]]).
  - by vm_compute.
  - split; [apply Scenario.alice_ok|]. repeat split; by vm_compute.
  - split; [apply Scenario.alice_ok|]. repeat split; by vm_compute.
Qed.

Lemma reachable_typed n : rtc (step (typed_host Regtest)) Scenario.genesis (Scenario.after n).
Proof.
  unfold Scenario.after. destruct (apply_chain (Scenario.chain n) Scenario.genesis) as [r'|] eqn:Er;
    [|apply rtc_refl].
  eapply Scenario.chain_reachable; [|exact Er]. apply Forall_forall.
  intros b (h & -> & _)%list_elem_of_fmap. apply block_typed_host.
Qed.

(** The exact resolver of the name after the COMMIT, the REVEAL and the REFRESH. *)
Definition exact_genesis : ExactResolver unit :=
  MkExactResolver Scenario.alice Scenario.alice_id Scenario.genesis.

Lemma exact_reachable chain x :
  (∀ b, b ∈ chain → typed_host Regtest b []) → exact_chain chain exact_genesis = Some x →
  rtc (exact_step Regtest) exact_genesis x.
Proof.
  generalize exact_genesis as x0. induction chain as [|b chain IH]; intros x0 Hb Hc; simpl in Hc.
  { injection Hc as ->. apply rtc_refl. }
  destruct (exact_apply_block_detailed b [] x0) as [[out|e|] x1] eqn:E; [|done..].
  eapply rtc_l; [eapply exact_step_apply; [apply Hb; left|exact E]|].
  apply IH; [intros; apply Hb; by right|exact Hc].
Qed.
End SnapshotScenario.

(** The identity of the checked-in manifest. *)
Example fingerprint_of_names_json :
  ruleset_fingerprint (E := unit) = Ok (hex "03ba5032d5ea3ac2f4784d29a04abdaef1bd5560a98dd263f22450ee86544ab2").
Proof. by vm_compute. Qed.

(** ** Instances of the properties *)

#[local] Opaque Scenario.after Scenario.outcome.

Lemma snapshot_roundtrip_witness :
  ∃ bytes, save_snapshot (Scenario.after 18) = Ok bytes
    ∧ load_snapshot Scenario.params Regtest tt bytes = Ok (Scenario.after 18).
Proof.
  destruct (snapshot_roundtrip Regtest Scenario.params (Scenario.hash 9) tt Scenario.genesis
    (Scenario.after 18) SnapshotScenario.manifest_json_total Scenario.params_typed
    Scenario.genesis_new (SnapshotScenario.reachable_typed 18)) as (bytes & Hs & Hl & _).
  exists bytes. split; [exact Hs|exact Hl].
Defined.

Lemma load_snapshot_sound_witness :
  ∃ bytes, load_snapshot Scenario.params Regtest tt bytes = Ok Scenario.genesis
    ∧ restored_ok Regtest Scenario.params tt Scenario.genesis.
Proof.
  assert (∃ bytes, load_snapshot Scenario.params Regtest tt bytes = Ok Scenario.genesis)
    as [bytes Hl].
  { destruct (save_total Scenario.genesis SnapshotScenario.manifest_json_total) as [bytes Hs].
    exists bytes. apply (load_saved Regtest bytes Scenario.genesis); [|exact Hs].
    by destruct (new_saveable Regtest _ _ _ _ Scenario.params_typed Scenario.genesis_new) as [[? _] _]. }
  exists bytes. split; [exact Hl|].
  destruct (load_snapshot_sound Regtest Scenario.params tt bytes Scenario.genesis
    Scenario.params_typed Hl) as [Hr _]. exact Hr.
Defined.

Lemma exact_snapshot_roundtrip_witness :
  ∃ x bytes, exact_chain (map Scenario.block (seqZ 10 19)) SnapshotScenario.exact_genesis = Some x
    ∧ exact_save_snapshot x = Ok bytes
    ∧ exact_load_snapshot Scenario.params Regtest Scenario.alice tt bytes = Ok x.
Proof.
  destruct (exact_chain (map Scenario.block (seqZ 10 19)) SnapshotScenario.exact_genesis)
    as [x|] eqn:E.
  - destruct (exact_snapshot_roundtrip Regtest Scenario.params (Scenario.hash 9) Scenario.alice tt
      SnapshotScenario.exact_genesis x SnapshotScenario.manifest_json_total Scenario.params_typed
      Scenario.genesis_exact) as (bytes & Hs & Hl & _).
    + apply (SnapshotScenario.exact_reachable (map Scenario.block (seqZ 10 19))); [|exact E].
      intros b (h & -> & _)%list_elem_of_fmap. apply SnapshotScenario.block_typed_host.
    + exists x, bytes. split; [reflexivity|]. split; [exact Hs|exact Hl].
  - exfalso. assert (bool_decide (is_Some (exact_chain (map Scenario.block (seqZ 10 19))
      SnapshotScenario.exact_genesis)) = true) as Hs by by vm_compute.
    rewrite E in Hs. done.
Defined.

Lemma decisions_documented_witness :
  Forall2 decision_ok (bl_transactions (Scenario.block 27)) (bo_decisions (Scenario.outcome 27))
  ∧ map od_clause_id (bo_decisions (Scenario.outcome 27)) = ["NAMES.REFRESH.ACCEPT"%string].
Proof.
  split; [|by vm_compute].
  destruct (decisions_documented (Scenario.after 17) (Scenario.after 18) (Scenario.block 27) []
    (Scenario.outcome 27)) as (Hd & _);
    [apply Scenario.after_ok|apply Scenario.block_ok|apply Scenario.apply_27|exact Hd].
Defined.
