(* ===== verification/PoseidonRef.v ===== *)
(** * The Poseidon permutation over the Pallas base field

    The instance [P128Pow5T3] of the Poseidon specification (width 3, rate 2,
    S-box [x^5], 8 full and 56 partial rounds), with the round constants and
    the matrix its Grain LFSR generates, and the hash of two field elements of
    [ConstantLength<2>].  The frozen vectors are computed with it. *)

From Stdlib Require Import Uint63.
From S2P Require Import Prelude Bytes External Concrete.

Module PoseidonRef.
Definition p : Z := PallasRef.modulus.

(** ** The Grain LFSR *)

(** [n] bits of [v], the highest first. *)
Fixpoint bits (n : nat) (v : Z) : list bool :=
  match n with
  | O => []
  | S n => Z.testbit v (Z.of_nat n) :: bits n v
  end.

(** Prime field, S-box [x^5], 255 bits, width 3, 8 and 56 rounds. *)
Definition seed : list bool :=
  bits 2 1 ++ bits 4 0 ++ bits 12 255 ++ bits 12 3 ++ bits 10 8 ++ bits 10 56 ++ repeat true 30.

Definition clock (s : list bool) : bool * list bool :=
  let b i := nth i s false in
  let x := foldr xorb false (map b [62; 51; 38; 23; 13; 0]%nat) in
  (x, tail s ++ [x]).

Definition start : list bool := Nat.iter 160%nat (λ s, (clock s).2) seed.

(** A bit is output when the bit before it in its pair is set. *)
Fixpoint next_bit (fuel : nat) (s : list bool) : bool * list bool :=
  match fuel with
  | O => (false, s)
  | S fuel =>
      let '(a, s) := clock s in
      let '(b, s) := clock s in
      if a then (b, s) else next_bit fuel s
  end.

Fixpoint read_bits (n : nat) (v : Z) (s : list bool) : Z * list bool :=
  match n with
  | O => (v, s)
  | S n => let '(b, s) := next_bit 100 s in read_bits n (2 * v + Z.b2z b) s
  end.

(** A field element by rejection, and one by reduction. *)
Fixpoint next_field (fuel : nat) (s : list bool) : Z * list bool :=
  match fuel with
  | O => (0, s)
  | S fuel => let '(v, s) := read_bits 255 0 s in if v <? p then (v, s) else next_field fuel s
  end.
Definition next_field_reduced (s : list bool) : Z * list bool :=
  let '(v, s) := read_bits 255 0 s in (v mod p, s).

Fixpoint generate {A} (n : nat) (f : list bool → A * list bool) (s : list bool) : list A * list bool :=
  match n with
  | O => ([], s)
  | S n => let '(x, s) := f s in let '(l, s) := generate n f s in (x :: l, s)
  end.

Definition constants_of (s : list bool) : (list (list Z)) * list Z :=
  let '(rounds, s) := generate 64 (generate 3 (next_field 100)) s in
  (rounds, (generate 6 next_field_reduced s).1).

Definition constants : list (list Z) * list Z := Eval vm_compute in constants_of start.
(** ** Montgomery arithmetic

    Ten limbs of 26 bits, with [R = 2 ^ 260].  A product of operands below [4p]
    is below [2p], so no reduction is needed until the last conversion. *)

Fixpoint limbs (n : nat) (z : Z) : list int :=
  match n with
  | O => []
  | S n => of_Z (Z.land z (2 ^ 26 - 1)) :: limbs n (Z.shiftr z 26)
  end.

Definition value (l : list int) : Z := foldr (λ x v, to_Z x + 2 ^ 26 * v) 0 l.

Definition p_limbs : list int := Eval vm_compute in limbs 10 p.
(** [- p ^ -1] modulo [2 ^ 26]: [p] is 1 modulo [2 ^ 26]. *)
Definition p_factor : int := Eval vm_compute in of_Z (2 ^ 26 - 1).

Definition scaled_add (x : int) (l acc : list int) : list int :=
  zip_with (λ y a, PrimInt63.add (PrimInt63.mul x y) a) l acc.

Fixpoint carry (c : int) (l : list int) : list int :=
  match l with
  | [] => []
  | x :: l =>
      let x := PrimInt63.add x c in
      PrimInt63.land x 0x3ffffff :: carry (PrimInt63.lsr x 26) l
  end.

(** One limb of [b]: add its multiple of [a], clear the lowest limb with a multiple
    of [p], and shift. *)
Definition mul_step (a acc : list int) (x : int) : list int :=
  let acc := scaled_add x a acc in
  let q := PrimInt63.land (PrimInt63.mul (hd 0%uint63 acc) p_factor) 0x3ffffff in
  match scaled_add q p_limbs acc with
  | x :: y :: l => PrimInt63.add y (PrimInt63.lsr x 26) :: l ++ [0%uint63]
  | l => l
  end.

Definition mul (a b : list int) : list int := carry 0 (foldl (mul_step a) (repeat 0%uint63 10) b).
Definition add (a b : list int) : list int := zip_with PrimInt63.add a b.

Definition to_mont (z : Z) : list int := limbs 10 (z * 2 ^ 260 mod p).
Definition of_mont (l : list int) : Z := value (mul l (limbs 10 1)) mod p.

(** [a ^ e], for the inverses of the Cauchy matrix. *)
Fixpoint pow (a : list int) (e : positive) : list int :=
  match e with
  | xH => a
  | xO e => pow (mul a a) e
  | xI e => mul a (pow (mul a a) e)
  end.

Definition rounds : list (list (list int)) := Eval vm_compute in map (map to_mont) constants.1.
Definition mds : list (list (list int)) := Eval vm_compute in
  map (λ x, map (λ y, pow (to_mont (x + y)) (Z.to_pos (p - 2))) (drop 3 constants.2))
    (take 3 constants.2).

(** ** The permutation and the hash *)

Definition sbox (a : list int) : list int := let b := mul a a in mul (mul b b) a.

Definition mix (state : list (list int)) : list (list int) :=
  map (λ row, carry 0 (foldr add (repeat 0%uint63 10) (zip_with mul row state))) mds.

Definition full_round (state constants : list (list int)) : list (list int) :=
  mix (map sbox (zip_with add state constants)).

Definition partial_round (state constants : list (list int)) : list (list int) :=
  mix (match zip_with add state constants with x :: l => sbox x :: l | [] => [] end).

Definition permute (state : list (list int)) : list (list int) :=
  let s := foldl full_round state (take 4 rounds) in
  let s := foldl partial_round s (take 56 (drop 4 rounds)) in
  foldl full_round s (drop 60 rounds).

(** The capacity of two inputs of a fixed length is [2 * 2 ^ 64]. *)
Definition hash (x y : Z) : Z :=
  of_mont (hd [] (permute [to_mont x; to_mont y; to_mont (Z.shiftl 2 64)])).
End PoseidonRef.

Definition poseidon_p128 : Poseidon := {|
  poseidon_hash x y := PallasRef.reduce (PoseidonRef.hash (proj1_sig x) (proj1_sig y)) |}.
