(* ===== verification/Vectors.v ===== *)
(** * The frozen positive vectors ([test-vectors/protocol.json])

    The values [tests/protocol_vectors.rs] regenerates, computed by the model with
    the real BLAKE2b, Pallas and Poseidon functions.  What the vectors take from
    curve arithmetic, circuit keys and proofs, and from the [coppice] crate's
    identifiers, is recorded from the file. *)

From S2P Require Import Prelude Bytes External Protocol Concrete Schedule Codec Statement.
From S2P Require Import Records State Reducer Invariant Safety Ruleset Deployment Scenario SnapshotScenario PoseidonRef.

Module Vectors.
#[local] Existing Instance poseidon_p128.

(** ** Recorded values *)

Definition NAME : list byte := lit "alice.zec".
Definition UA : list byte := lit (
  "uregtest1rxnn8qurdex552draeuvvvucggeknmmsxazg52mkatf0hrclhppe5jeqj6w7svqtxvxq320tw6ejsk4" +:+
  "nm8zk8f35274vlwqerfx74904pydaxe27wnpq8llqxclaa0n04zg764ppzfruu4gsagmqw0mlvx").
Definition CORE_RUNTIME_ID : list byte := hex "fa787a8cd3121b698e549c9a3e551e77c9888fb707830303cba0319ba2481cf7".
Definition family_id : list byte := hex "a671595126abe387426a2d24e09e422e8194b6c261ac707abdceccfad8bfe347".
Definition application_id : list byte := hex "09159f1cedd1b1a16175b7c344ea59dba9bcfdb4426168312b13b4018cf768af".
Definition name_id : list byte := hex "9ebb8d8f6798e1f075a515f9913eab2d3d49b93adbb0ed693e2327a0c4ea5f38".
Definition route_ivk : list byte := hex (
  "30c6a25d11d629f4589512dcc28f1bc254af21a38d61614e0b6764ad95d02bc7884216b696f7bf0def66e1bcd4dc" +:+
  "7efc282b323b14660c08c30e1885ea58b737").
Definition route_receiver : list byte := hex (
  "2870c4e4f861d04e3db9f09d2c6ceb9e43964fe3e23911770e0322359258c6a545654f652f2350fae07db1").
Definition fingerprint : list byte := hex "03ba5032d5ea3ac2f4784d29a04abdaef1bd5560a98dd263f22450ee86544ab2".
Definition suite_id : list byte := hex "dcffff115c9d9354058669c999f0dfabde454d728e27fd2e06253f609ca7422c".
Definition reveal_key_fingerprint : list byte := hex "436767cc547f6827adea5e561e1ddb7139cabc51bb99cda50dc9a3f4c4260205".
Definition refresh_key_fingerprint : list byte := hex "4af55b4fd8171e7f8a0c05259b69a23aa83ef58b1fde88b9f39c6a544f0ab721".
Definition reveal_verifier_id : list byte := hex "c8bcd78bca0bf0bacebefc3f8b5935b90d7a2bcf5bbb6d0f5d62b8b915d92ca9".
Definition refresh_verifier_id : list byte := hex "7c905705b4997842f8e28f668df908aadbe08dfe7e9135fe9aadf256ab8c22ea".
Definition preimage : list byte := hex (
  "434e4450fa787a8cd3121b698e549c9a3e551e77c9888fb707830303cba0319ba2481cf7a671595126abe387426a" +:+
  "2d24e09e422e8194b6c261ac707abdceccfad8bfe34703ba5032d5ea3ac2f4784d29a04abdaef1bd5560a98dd263" +:+
  "f22450ee86544ab2000186a0000004800000001800000018000000c00003d090000004800000000005f5e1003f04" +:+
  "00c8bcd78bca0bf0bacebefc3f8b5935b90d7a2bcf5bbb6d0f5d62b8b915d92ca97c905705b4997842f8e28f668d" +:+
  "f908aadbe08dfe7e9135fe9aadf256ab8c22ea").
Definition identifier : list byte := hex "6afc44d6773169fd5a4e787e9da8f33137defd245128db26357e352f2473f0ad".
Definition deployment_field_repr : list byte := hex "0a762a4e911efe814762bf002c91ea3538e1b20596acab3ad6c6538e2602cc0d".
Definition commit_ref_repr : list byte := hex "2d8dc4ae42c4e4580977bfa099ac9819c5c9cca38cf9ce677e9618643e84702f".
Definition state_ref_repr : list byte := hex "dafae2ae454fc8f289bb23d2d584b5ad7f3c56f2b7587605f02f5ca93c5b6d2d".
Definition ua_repr : list byte := hex "a59f43985b6013dfd1f6ba67b3c640ec259c311a6930286a6ba5f59f04f03f24".
Definition commitment_repr : list byte := hex "bed43d82cd1a5800cbd5023e439c900a15eef5c5314d676210dcbb57ae033f1c".
Definition owner_commit : list byte := hex "fe5f0425777af5a0296488037e170a74f6a524a5be27c359183876d69848e336".
Definition secret : list byte := hex "4d00000000000000000000000000000000000000000000000000000000000000".
Definition reveal_nullifier : list byte := hex "0909090909090909090909090909090909090909090909090909090909090909".
Definition reveal_cm : list byte := hex "2a1e17617c5856ecb5a96aa745d02013c7a7728f9097cd32b6739ab482e11909".
Definition reveal_future_nf : list byte := hex "21b677b67e64c5c3e3ce606c25a9af38c34e436282b28395e62263c1c252a014".
Definition refresh_cm : list byte := hex "fa52c012894e58aad37289b288a83a5f2f221791a4daecc1eb3b7e30ef65bb13".
Definition refresh_future_nf : list byte := hex "1a9c10fca4690556dd943c93d781e07ece983764d76875b153320127125ac215".
Definition reveal_digest : list byte := hex "8987251a52f9b5804844f190ee5e4c54dfa685b9cdacb6dc0bc84a3a351f903c".
Definition refresh_digest : list byte := hex "6edf917491e1c787525f4818fa21d45e85e6d2f0ffb95471fefeb2788c428328".
Definition commit_bytes : list byte := hex "00bed43d82cd1a5800cbd5023e439c900a15eef5c5314d676210dcbb57ae033f1c".
Definition reveal_prefix : list byte := hex (
  "0105616c6963650001d3e9000000000a0a0a0a0a0a0a0a0a0a0a0a0a0a0a0a0a0a0a0a0a0a0a0a0a0a0a0a0a0a0a" +:+
  "0a00a375726567746573743172786e6e38717572646578353532647261657576767675636767656b6e6d6d737861" +:+
  "7a6735326d6b617466306872636c68707065356a65716a3677377376717478767871333230747736656a736b346e" +:+
  "6d387a6b38663335323734766c77716572667837343930347079646178653237776e7071386c6c7178636c616130" +:+
  "6e30347a6737363470707a6672757534677361676d7177306d6c76780000000021b677b67e64c5c3e3ce606c25a9" +:+
  "af38c34e436282b28395e62263c1c252a014").
Definition refresh_prefix : list byte := hex (
  "0205616c6963650001d4010000000014141414141414141414141414141414141414141414141414141414141414" +:+
  "140000000000a375726567746573743172786e6e38717572646578353532647261657576767675636767656b6e6d" +:+
  "6d7378617a6735326d6b617466306872636c68707065356a65716a3677377376717478767871333230747736656a" +:+
  "736b346e6d387a6b38663335323734766c77716572667837343930347079646178653237776e7071386c6c717863" +:+
  "6c6161306e30347a6737363470707a6672757534677361676d7177306d6c7678000000001a9c10fca4690556dd94" +:+
  "3c93d781e07ece983764d76875b153320127125ac215").
Definition reveal_proof : list byte := hex (
  "e5676442f57eb36e07116fb0e36bd96da931c912434d176465bd3c2d1943c3972ed97674087ce051946a9962ce87" +:+
  "94f81726a78666376a69890c2e499adcd1bfaf5e87062c73d2089cb9a1220276e0cd09aa75cb929c0b14dff78687" +:+
  "a3b767b054d146ed5555f2150885ce90ca7a65754202cf3d2e50c250f013e4eac9bc44091e373370d1102dd6b783" +:+
  "5e7c1d6b45d2a402f8b3c2e8e39204055ed3120d6c839e8b1347155dd15b0b4103cf6594920d7bae4e5f47df2e58" +:+
  "7e95d554c51711a2dea11e395a89f09dc91a804781f2c319ae5d297ac7f74f367c52aa3bc67b3f9364f39b355d1b" +:+
  "3ec73e330794ff83be7c009e04108e1dca82d72680d4391efe9a00e4533943c9615547b892fbde674ff2fba47a97" +:+
  "57fb1e67ea7ef4cfc17f06174c04916b0c699667b88b08ddaa7580accb5269f521bd7a9ca76a4966585b9b9a1708" +:+
  "414c182c4765cdfc75245ca2e48b0c80c3df43e0575b8f6e0e01bb9adf0b1ae189d1c5636c80e6a5d11658eaaf4e" +:+
  "85e89100cc09f09310b55d6b658c92bd5f8178de6fa13db3f6e2b95728856d006e3c678804a54a1acd8772b26374" +:+
  "b131d4f6d438b6af92472f508b2a775f9bc9c280ad6f10d2a4c803420774a47a26bfabcae9179ebdc2c0f157b751" +:+
  "1023065bcacca95d9c5bfadf631bcb089f46fa89ef7aa86b9380c9bc06da262a32b502fed3e41f3fb613e9431be6" +:+
  "d117fa0f9031d17e3fae5461fd87652716c8a1773428c891f0fd0ab50ad322dc7ab01e8cea9e9f0e9e07d5ba061a" +:+
  "05571d8a006ba38c4aa3e3392a35662a5a62a13b28b59e37298232fa43278e2dd7427bb45682794988db9cb5d9d6" +:+
  "8da47a0db00310df6f35d839cc903e10983f45b594d9bc804ee83d1f3b56041210aa45f9769360ea84270fbdf33c" +:+
  "72bc3982ded3cdf0e358896bb629f63333767679481b2b5d1b516c32e09ad22279c754cbbe84a83e41122ca6d5f8" +:+
  "2f5fa4dd0ba08b6509810ebf850c4e12bac7f152ae38abd1f521fd2c0fa6c324372a57e74071d76ef90aa5454aaf" +:+
  "85f5eb232dfce8f337668a5813c71621753538c964c444d8d52a06f2896bf08c280265f7dbebb70f32992dfed3b6" +:+
  "10bb7c21b7601d61d6370fca42be58ff73a8aaf2216c5e3d2c6e3a150fd21e83030002043f765a3a991ee9a0cbd1" +:+
  "562e5a381f3898c414cfcb6ec897c85b57e9661028d6a7acfc5bad33997dc11a12c480b31a859aa787e737fd4e00" +:+
  "483985eec04ea6a7a5f1b11aef4c2484fc52897ec49ab53e9e3515fdcd80e646cb55ac59b6e137af953d701292f9" +:+
  "6098b1106535f51fae0a5db4bd5aba70e86440030aff17088faeb0d72367568b98ce1b4376247d25754039eab420" +:+
  "14dfd4b2eac6117ae5d1fbd3e7c91d44192e719a5d84fb12000463ee48c906dda9a3945df4431a57e49568d4e0a1" +:+
  "220584371db9dfacce0c3013accc202b5b8a820299f78ef18be13e4db22dd126ae5745ca7a8b435af8de793511aa" +:+
  "734ac55f96df08079dbf1169c9d53e784583d62e1c6f6a86e07489d9ba3e57eef59d58f1a143c0ae8c914f6ad039" +:+
  "6a3d64d3823dd67bfd38cb584164a429e291f70c1b3787e28525c03545e72a2034986ab0f19ce1f11b2219a713b6" +:+
  "b61df0b9c55ebe3074b6b0e995820a6f6bdf2186995fababb4a0d50e7c05cfab01281a4f36d222c8410c6b0116c8" +:+
  "a6d7a7c09e0c3e9096b868c28a74dec70e42f931e94e40df144120db2ea00269ff570a823376e4eaf4d95ec9d87c" +:+
  "2e113c7adf34c6f2f8da503107be3fc0a1e8727337a09fa29f69278f2bc5df25c6bc04e64023ff3d058a85857302" +:+
  "0fc6ad7996ff688d22396f1d1b48a1afa2d0c5313fde6903197f332688b80c7c32319b0562fde69ced1114b6471b" +:+
  "1444297ff084d0087c244b358d96731964b48ffd0d5eec1f18148daf4b58bee0171a34cddec72bd3a618699552e6" +:+
  "5a2212eb4310b570e138b14c2eccb3401d566a5276d84a669d26e629124d1fc43d17588159442770056c7d35e7f6" +:+
  "3d885d247a6d6ea01953a7f4f61b2b25e94dd8e4a50829df9c612c98af7c772498ad3ed1838b75654d6e9541ce10" +:+
  "620800325fad58bd5b638ea53eff40436ee23cd52cfc406dd9c47ed85946bc124f4a978789e05649d55d8749cdeb" +:+
  "432905c38cbff54a43ba55cc279cda7321058593b4eab637730a4ef9f1877eea89415c5c998520756e65299548d0" +:+
  "015e84284408ed437ef21d37ad770d02d6299af3d1a5bfba92696a3c7cf206228bbc3e19a5554ee1889e7684e357" +:+
  "dd7f1a25b511b336e4c505c898e028e44ca670765007065260cc5e9d631ef5a57b3fb0bdce2da023f77b863bd306" +:+
  "5d8c2313f335e0272d8d30982699532b1330c3a745db58d51ededa4793b9d5d13d2a6e4110b2430f8a713a1d18b9" +:+
  "c062e92f8b641dfde0df41d30ba1e8f2ee927bb7e590f038af2753997786d09a158dd41ded0546d523181a94f5c1" +:+
  "e98175c500f45d471c97ee35bc5e37e000cea1139dce4c874e818d8a5260bd59165c3d69507f2409635a161253b5" +:+
  "726b72343cbf4d5d7f0fe8d06e31cb8638958f5ebc566c9091e7aedc540ef0984803b7240a02f48d42a10bc31b27" +:+
  "a6aceb8cad4e598ed025971bf2386c194eded1aec08639b75d498f1060dc8edae92a251ee6bdb36c86646cfc04c4" +:+
  "ba18710e138cfc190046541ff498d267a52a75ea64503403a73d4d62471bc20d8710176243278412362bc1bd60bb" +:+
  "f5a61fead7ad5bdccddaffaa8a1adcc3fafb9027d1097e2566c5ddc96c644eb9d3c27cf7b86aff4edeee3ee5b313" +:+
  "12781d11240dd901b79c8fda033f22fbf8c8c68438a901e9bfaa2baa45eed8eef48c9d934308814d77b5409ce66a" +:+
  "170a044f6a996de989cd85b025e20fdf602ef0ff45e0311161d3f973a52501445fe028e1c81feae0b0a4e2b6d783" +:+
  "1665273ecce07c92e52ad20efb8420f5597c5d6780ea79f1a2cb6e21d5a1d0727a2f95c78fbf4e479f34f9003786" +:+
  "d4f4b4380a2707336bf723e2b6ca9831ace983e3be50f6dce774523d443104b608e1a434017637bcf7d3bf72803f" +:+
  "155fc3c971927d2645536934102966a78659033f8e2627a8844c5552a88135d14a2271df3cb50a594a2320850213" +:+
  "eb06bdda3d848ea2848a33fbae41fe02ffc5d922b93b716c5a1cba637386603b527bb7d5d5e5c8e392148062ce68" +:+
  "dbb866a2170dabe0c23a539592dd1d845f20b4029cb974e36e480215384062ff6a50734b080323e8efb57653e9ad" +:+
  "b88a3539e6ab764e2cda829a486fb499738e0a2259f9bd8651cbbb80754d036d06943d2355dcc6338b0fb28574aa" +:+
  "15ea25c9616bf968017a8c3ab642c01897120efe5c09731715766248d3b1f110d2ff29443e970ccdf77015a2542b" +:+
  "eadf4598a9ce7e296c55cb640875d47de64ebe421ab9404e682702dd7715726ec7547eebf83be53032be196a3246" +:+
  "21aa6252a8cf89f5e521a6448f12f7ee76ec1a2b79f8fb3ec23ddd452223f42dc8b62518571ae57f6fc930f52771" +:+
  "c2cd6ea0320a5bb6a2746837a659f5ef38737efe3af65813fb056d817b9573fe138dd3a02a6ef646746b5e089ec4" +:+
  "e39536e83d9696b6cecba230e57f7ba966d80551db53526f3039fa4f742ee2b2ec5d677719f17e355f7133385a52" +:+
  "daec7fb8c275abc1e29e5480d0b93d1f620a6fcb5a2c0b3820fc1c12a0455f4d472b6de4c16ee328f9ae5470dd07" +:+
  "c1226c6c3f7db8b52746ffce070d378b0f499202f0d2d7c3060822b6359b8487cc0488fd125c5b59d02151994b5d" +:+
  "467077cbe21b3b064e6f9c708484f19b3d784b0678ee5f6d61349c72cedc7313d79af62d18da552754de665de36b" +:+
  "a730c66e6c08acbbdfadb905bad5b59950a634433737d9fd16a32b48e6c0381deb222327801a9941a6a8cb99c274" +:+
  "b1774061c9c89b038ff8c8bd6e1cad984b73647f8053a31f538cd30608771b50457d5109b847bfa6b20ba0130b91" +:+
  "cd42cf28bf2509a6740a96bafc53c66657b8468c0f81617f06e389d0623bf5dfd952f3568c3df91026311bfa7944" +:+
  "0b4c90617bbadb83097f3a89304c0bbdbeb3a8e47bed825abe43123d86af6dba03bb4a39062827a72ab2ba3c7c1e" +:+
  "e6496ed92128f191786eb7c4512fe8a4a6d308531d83d736e0aa06e67b75ddbfd7072b19ed9c145ca3ee85a81f3c" +:+
  "e388f3b785e847e50910a053ca3a5ff1289bc60306d0f515ec5e6fd0b8241426a7fee37cf414b4c4b9ebde5429e7" +:+
  "975dc6ff42a08af59b3f3d1100c0af304f0a9e563a0d313e3fbe842951d404ed4a4eb8a2482d18429a61e279e062" +:+
  "a632f5175c397294351b0a1ac34639e6bfb8112bce8821f2961de550b9b0394fcf6ed5143f5229da9e257b2abe83" +:+
  "b9c08041ac350f14d00d2b235905697d134c05b40b0922c6b937d3cc36f9c0b863404ac80205b997f86afe7e8ca2" +:+
  "59fd5d1f9d2ce63463161ab846dab6e21e04088daf3d8e71d16a99bb760f40d295362bfd0e8e0d374578d060c53e" +:+
  "1a763dc93676fc03a7c2ce87e6f0f13f05254a80888e3d4b1a0de1bbb2b639697b94ba991d4e96e8f070d77d68ae" +:+
  "38a5bfe555eade9ca6438d02571d4c38d978ce3babc79d054a1d94ef5ff07bffca61361b37aca0cbb3885a1b9080" +:+
  "941d82fbd189a0602938f69c22b4a986e2eca22e4e0265231f9d7c7424207647ef43eba2165c2f1714c484cb1f65" +:+
  "5223ee166818fb74dd13f7f92ccbf73def29564c7e9a711b08352a22f0f59d01fc7706e4738c24a19a7fa1592662" +:+
  "b01500c12ad6314376c288319f366c86f3f92d312570da395a29cc9391f7c1e14e33aa199e21fae674c8ba82897d" +:+
  "67718b68196dba96d217ab28f387daae0d1e7d3faff41744cfd2c4413c2a7fc2b9cf4432f1692d436fb0c155e22e" +:+
  "824253382b176e3a6be0356e0a13945ee0e384cb7ac0e0b95c6419402c051c270198c5830439edc2f4d3a138f19a" +:+
  "6ab2d0355972e459d54ea97d916bc2b067d3f889974a6e11156d907f0f6efa8030dfac699f7965fc8e5b1c7d4cad" +:+
  "943541fe23dc677ad71928519b7b32f56463368cf0c8a0e11696190af686cdf9e5fdef9d810ec4f3fd2952c37227" +:+
  "9fec2dc5c58d2deb4ee9f1b0c8cdd3a676da128cea1a4788c8d1c02e1bf3a0ea6318a446a917221c52dd28775270" +:+
  "7bd8c5d4c595ed8d62d8379699004244a9ad96624448170a8b8ca125e2a98e66ec2a1a76311c89d2544ca9402405" +:+
  "06ac6d90344b8de6dc19cef586b5b1b61d272e7757140ac1aa770cc59f197eaf639e20bc6aa1d90e85abdbeec7ea" +:+
  "3539c0b7f4d8618b47e78c3d0dabc5a10e18a1ed4df00f4a3ec7f3128d7cf0123ced1410dd491c3f0b95e43938a0" +:+
  "98b36a04641c66beab6c824c3f93b6878b33f8fdd4d4fd87d83540ad9158c70ed6fa223f451bbab7deef87d08a29" +:+
  "5646d55e4540a301234b99fe90698508efa25607b4298e93dc5983c6635c795d79192333fd82e53d9b053694a8c0" +:+
  "e3ecb70c9bd0d4295e1fb2a26e5c35370ea7a23706bbbd2ca2f27be5ce7634d8ab5d709a08c07e3ea891e1ebfacd" +:+
  "913dc1adc63cd334867fd77defd72ff41ed0b32e825cd535a1b04957d6c12099522ed7319f0a8e37e65e94adfb3e" +:+
  "25d47bbb88f070e50a7a14b1d04ad9e92c190e53eb965c81c54750ef7ba264e0ed165b2c5623ae479e0f478d44e2" +:+
  "bdcd12f2f2c7927a6ba1915a5540cccc64028c9c048366c240f9f2eec22d6852c5c522d31a9998571bb16f1273b9" +:+
  "f3ba3ee5f89ab6e1029aae635f562c8122ed88e0230eb86a7e5849fc68ad55de427d28f0b3ec3b226245c80b6af1" +:+
  "9283f1dbc470531d7822e51a49e1b48024599435ae3b1d68ed53e75493ddc9c8fab7d66e14f318b6334c2f7d9569" +:+
  "912198fa3f25f64aede9963af61e87b38a8c193ecaa2975672d5adb5afd4d0caf0b80c89817298189a4c74e31da4" +:+
  "2879a87b0124ebb98237ace706d68457d8b3609cc05343dfa12324afcd7c0c360b94250ef1b917ea1b1a5efe50c6" +:+
  "6a81bf30fd582065225afccbe027fbf77286c8774fd355a5de57198dc7bd4479c52f3cfb2f8335fcc8aeb8a06cbb" +:+
  "fc8bed69065a352b97a18fafc469cdf926a29e18e61ec7fe09f87fc9aff736d3ef4f8c81ff54cbab44bff03e45ad" +:+
  "f0d56710c5acf6c1ad56dc48f4a2aecbc02e2d100ba5dc5c53f737108a8af504e4528e2dde8e060eecb18f74ae00" +:+
  "b7c63f92eb5218d7db2f7bef599a3c04dc019265322f68fdfcdaf97d45cd897aa1bbf7750eb586bb80acb7958714" +:+
  "4c21c30cc90b8dbf2a81fd15e2bde7bfe75a0cbdc533da636b0d2ebfac595830bcb313b29a43933180d60e5445b3" +:+
  "280e9a26cfda4c9f141347fccef1efcfb0b3bed3a26c06ab830003afd36cab412badc5bb7ae6e9b758408862bca6" +:+
  "5f7b9d111e8ab2ebef39a20400ee9008972e61c00dd9267309ffa81d117e413a1d3d1ca9a1e13782e73d6e9fbdad" +:+
  "44b608ae71b15971821e8ea36452bb9b0fccd896f31e864df548cde41de86dbd2fabfd746a1ba25ad23a6be06e0a" +:+
  "d208c9c6cb64792d453e0e1bb96e6f7f7c18d97a624994656161c660385bbe249175e03fe0fbec3716da8b475c89" +:+
  "5fad6dea7b4b1930985c025f43fd8e36bfc3231cd67318ee063a2c8d9b3f41b8e784fb447f3d0593a9d07b89aba1" +:+
  "2c328fdd3f276e9c647ca934").
Definition refresh_proof : list byte := hex (
  "f30cd7cabbb0459cba08c4513f8be00f680792813bd679a7b885e7b43ccbf8b944af878ed34aaa8ac88a188a9536" +:+
  "5ac6ee4eaebf57dd98787613118aff70be2dae135e37bed3e4853555bfcd622a993e1009dd114e3491f8f979ccb4" +:+
  "e1f30e0d5dedffd53559c8034d8fc9e79b31e672785e657fba6ab343b3da4e1f6f215b1442eabde405620473b2dc" +:+
  "4304e1f8ac4c2c004d98bba95e257fb4c651ff9b95aa3254308faa992e8adc04b5d9036beb58fe3306ed9c424f6a" +:+
  "ce1d40bf007e4d3c8e9380e22a44999a9a3efe43cde3b9567da81d14912de322e29027e2800ebe347fbe582e0106" +:+
  "deb993860e9127bfd20bb3c0948280d247c8b4199ba04c5713b98e6672f73788e95a3e2ccb54db0fb884b6f4e48c" +:+
  "b776bcb2a388c2abc080ce20a7fdfb7b895b214f10e5e92a8385d494c66795c795c846878d4b603308bac00e0c32" +:+
  "c8eb79f49e4ead43d2f666e985344b22350a721fb43f5a9de01c3890e022cdb9ee2f4c75da8771ef4a5c38bbe5ff" +:+
  "f7bc55e43ee534207b995c068b20360ea82ca51557def9d2be2546ac6aa41918ffaf0b96554fb0c67f10d6f47c51" +:+
  "e49e203e0478e445bac62f94cf37a5d81080c64bbbebf46df400535cb10304418abdba63e338e33f3bd6d9bdbcb2" +:+
  "9ed3d59f570d62f2437f18d6aa7354d4bf6b141b61e2cf4b0d30213e9475f302ff50ccab9022410ef4c0abe87fe2" +:+
  "f9987a7f442a1c5318018dc439cf723af37d5bf533ad070d146e729fb2e9fae187078325733f722627df6c9c3203" +:+
  "e7caea42ff660c8e678be0c957aabb57db7f69d263d62b1b5066f4c1a2ce81b9339f1e28ebde95b2bb817ca0538b" +:+
  "3c4d355019f57937f0b9316b131274401961a90a980f5ac13b64363824837cfe7ba02d5d48d6716ae2a792de0af3" +:+
  "b6922c66d487a2a082e9212a0b4b03b3d5f75b5c22f6be7e071fc385c423a148ace7902565282485d14b89ea8f79" +:+
  "91149391d9b8d80c8052338f86b32eaca50bdfd7500265756e64943a981df255080f0a9a052a783b75219f80a32f" +:+
  "3cfd203fb5f830f71459c77b9fbb7449a0919439309c5f21a82e3b7b84da9125e869424a2592dc79debb8df68d03" +:+
  "54083ad1fc3f01b7146cd824e2f03d971208200e4baaaf56a4cee715177c726d26257ffa829554b50decb73aa00b" +:+
  "2db0608689ee0e691933fa455f0197943095a7868d13a95bee592805180b09c0c59d1220d0fe02765f29a9d1fd80" +:+
  "42a4bbf0c12db9f9170345dc3762c505618f023a8aa8208f1790052b7610a49b667d0b81893c8be2c7b3939eb8d2" +:+
  "0c9f42231a4a7e23e4fe5f1affbc169b60226ffe72ce3eff5a2f3230873bb8c3ccbd2f76dc7b173d704eb8e738bf" +:+
  "9717847448b850078e65349cbde34da277f8c551cfec75cdf50ec21b447da356d4406a9dfb21efba71c3dba0df25" +:+
  "edeea3626a45129e0eea40269241a5ad8fca401c73482d16e42d9af2b46682b6516ff504c0c756389d1a7d38a7c6" +:+
  "d20e0ae3c0736b3571d7a7d41fcfa6d3912827a909bb24d29e42cb83ec3c8430e52b77ac55dd4a8bd95fe69dcc51" +:+
  "94acf900ca62e9b89c9bb4557b69e725bfa54c8a061e245599702016f1893546fce6c31c371fad21a7d7b054edac" +:+
  "200d21197879b4cbbb0f869e7797ad49cea5ebfb1a61de6033247cfcc7e154e9ce1a7dcc2462cc9ebf084ac1d08b" +:+
  "4970924f16845948cb7e3b35c388b7e4640b6817d97cfd2d28ff56d0f370391c570ac77d51aaaa5afaf44cc5cc68" +:+
  "bf24afb6d01579f156eeaa4be07e11303f6c02e6b5cc3d0ecf2194ca99fe65b7d689a7ae602a5196beb94ed46f4a" +:+
  "e1e7e33d49bcd84b4f2b98d410e46c1ce1cd6c8e59fd7c3e9801c3af3d8807e96e52abc2b891f9692585c5a36910" +:+
  "e85b964f8fd587e4de2f842df12676491cd56881b0213ead65d005f9bc19d91c25164e2f394d589a573ba665285c" +:+
  "9d61a587eb110c1e99a3dc1dd83443a3f0d258c7cac3900cb134ce3d46170d5bd82bb44ddf73db59106244c144c4" +:+
  "b71d194697c967933a03118b1b3fd4fffe88b2808e8943a15581cdba2cf778d09406e67f98a2a28353c0115dcb0b" +:+
  "3df0e090860c97baa681b88e00aa19bb8b2ee9f006f6b6692b50a9f7b6291834d66d079c912d80234fb3698bfd98" +:+
  "80a4ed56895dd012fd572950589a19bb4219638e4574bba2818a9141b76a5267435276486ef0c114a14ea24cb4be" +:+
  "3a5fb21d43fccea37972f9d7eb87947130d41bc7bf906612e03da8099a010fa71edc651ec5424a468e069f5c56d7" +:+
  "64375e42e76b1e5fd9e190799cc545639428e0a8831010b9072b0d793b2ad94909949e9605abea1a70a5966ff24c" +:+
  "95295bcc8364702d2d59b9e2a8c81fa351dcfffe96fe6736f08b57d713ed64a28b479f931c62df3c6d6b22b8ebda" +:+
  "67204d5c921618f1de1547c8e8aa882371d282252ae6c1833b062819835fd496b8a503cb2db5c3eec4a3edfcbfd3" +:+
  "361a2433612e1b7cb743e41bc004f97819643903621f977efec8ad6208c875f3601cb33981cd2851bf9cae3ade44" +:+
  "322e5094fa02d5e6ec64de9e8c5da01299a6a17a27b1e855d713055b0d23797200d455fe74a0ab24330e17f4589f" +:+
  "14a13bc5ec02728c18b5564ff4508a2e2026d4456061f08c26b1817eeb3338ac9c1fca92f6c32835a5cc0c7eff8c" +:+
  "a72253288e0094082d9150eb69f76b94eae726a64aa06d2c56a2cbcce81d5632ab14f1ca88c6e6e4b05a4dadb4b8" +:+
  "c18b90bcb2336f165e790859ee71a93c7d35eb3628eb2555dedb0beff65cd0ba5ee650f58364a4ac4e4f5914ebd0" +:+
  "d1eea6d6bf3eb3b88114cb05d82c1400c55914c92afa7e0cae5eff460176624fdea16551c333e20671cccf5cf883" +:+
  "b6ab861f896083dd166a0dc3be4c73c78e59f4b943c1b101b012b2563fc586e48754efac10cc2030aacae96a7665" +:+
  "e2ca0853cbf6c4cc2612e5804a263a053859b5d1eb108b921864d425a82fbc5f5be476a047df91b6b427503d0e0f" +:+
  "07537603db94b273cc13533641daf1cdec868bee0497c8bdccadf0083e64c5e6e18cc70c71a0537ebb8bf62062a3" +:+
  "72a68df3089f15a847fad6321b0911d84baff1b8f90b933e0b3309c1866f91f990f55fe4831b7c133ecdae271b2c" +:+
  "ed3d19075f06ff9d95da59bb7e9e0288354bf8daea8a7c5b630bd58e8d3d8c2cdf223d3ff869ac83aa814eebaf26" +:+
  "8b812f6d750d7b927ad902d9bee717398f3947512dacad8744a1d1e7cc024683ab666b4822df4639296937fbf7db" +:+
  "9509cc05b02497df4319de29610b12ab463c2c1141b88ae108bfa7bb37f5737ed759551c113fb506570c9538c10f" +:+
  "aa5ac82340d7353509210a409cc62cf032e7fc5ec523454e5fb7561f527eace02df5980cae4b21c42eb65f38140c" +:+
  "38f6f7893878242b1d9ae8fa6635d08326bbf3e824d8f0b324e5ce5e5d1bc15b13d358e6a61d7b262aab30cbb2b2" +:+
  "59714f0f89fbd28b7b6aceb4a0c0685a63422c62de58ab33da3c4625af246513a3d4ddfb0f9cad1f12317bbab0aa" +:+
  "5dd8e9466af32b2a0e3628190cb39068ed1f24db3f8c77696ce45ec52493dfc37266828597a50964485f6c08ff64" +:+
  "0c36f3317f0582be1496ecdea575668f2ea1c4a97b93ae3cb7d057b0530fc3a9397d58b80fe6681b38f7c11fe707" +:+
  "b875f4ecfe33f1a4c755d0ee0abc1814d822e5e82d687635424abd120b60ab129dcb4afb84715fc1785b6a15cb19" +:+
  "cf03847cfe9d888a8c949963c22fcc91acff95fec0ef487e7e3011dccb430e008a11aaa431503c4ca4a7c8d5ab5f" +:+
  "bcd7060ba91ce6808461b295a95fda7bf17cc51abb9af0a932accd7a271a5202916d598bff7c23eb9dd76e527875" +:+
  "7e6287f15f143a26faff7067d92c4715cc862b5289b7e3522967637f294c50a2451890b2ec348f69e9ebd41ec97f" +:+
  "e82c6ced07fd261ddaab2631b29b25aa5b023d25f1e9f3180e3dd7607ff0c8ac0f19ebb42315fe24a45ae5580d2b" +:+
  "07b37abcc598223796386d62282e2dde6323a1871cd3d9fa5a2102f0f112d935b15061dc189e7a879c2ed3c4fd20" +:+
  "520480ec8036e5d837e0454ad009c462d40f574619a0071a9df52e0ebf5f4fced25697f9e44134e599d55843d2d7" +:+
  "1c5e262a1a9b3bd33281242a6f0360ff792cdeaba2273659d11ce3719ffff39c4ef3f46aefbd1ebe674f793fd503" +:+
  "a8ca5be886dc96e3af4c916d426fa797df2f45922970516c4e32ef998d00200a7ed9e54e0a5c0744eca3b407c985" +:+
  "efe2c9949582da7e7ecf0f668d4bb443403bb3627a3ed547a73ba80137802eec9a971e82a5eac46e88f18d2a5137" +:+
  "de8664109416913edfe29b91c200462635f0f04fcfee9a7a5adcb329bb1090856e1df7177107d2a277e4ad47f2af" +:+
  "05ca8691d02bd569339879b201dcb072d9f9450c702ce19b425bd7c0b478f24d57ef93f330bf1bfb52784437f072" +:+
  "8ac732ef88b0893e018db350186e79278954e26c772890baa9b71262811f12d91ce8d3492ad82038fe9b8f799983" +:+
  "7356163c276cefd1af0447bd01ca697dfbd3ec959c7bcafd2f17bedffd2368079dec03fed3e4d7929966aa72bb09" +:+
  "55961f9b4f9f7b016b0eee1648a25a329af49bf939f06e49db71eb80f9d6f2369c344bacedb32380ca35e1373793" +:+
  "c9527a30e4946ed7f1618670a1af223c6b416831ec9f4e849adc074e142a9d74de0c165a0c90a359eba1fdffe283" +:+
  "cffa53e6c83486b6a1ecd3ad182317106920e2f3c40bf344e4b4926ee2fe868857182dd1c9d04c7b09297741c6e9" +:+
  "173c23e277d183820697c198920861422bad4f5e408a2492a3cc6ffa8a96d177780819b1aec24bcacc233e52e82e" +:+
  "44a7493d1435bc307d6969fa1d55edbd227a53041010a013870f1e1c32bbda2270227b5aecd86bc841ec85d4d547" +:+
  "3be8f36fec0b38e49c49ce57268c6a575901d25f66668e23fd5a45800a90fab8307e1fc8940cea1b2434b5d48e6f" +:+
  "f20fa7baee4c940a6bdc08f611931f43676d196a40bcf719847f9cfc4e14660bb9115c9458d1b9f48b24146f0096" +:+
  "abaf698277538c2eaa1e537398c175b1cd1c19fe187a28963677809373db24871215bd9b4cc2dccd8110a3a48d53" +:+
  "9b491915c63eb82a8b2705c59efd68676063e7cd7e48dbde68f2d73f537efb5eff2a15de8d38f86b3f45bda634c3" +:+
  "e5dbdfe3988a521ec6a85b43800fec999963d3d78267c02449b7a3932d24d2700530de387cd684ec2296a6c9001f" +:+
  "f9664eb5d2bf470feb7fe3e8874c189b8fc61510c2778d4510fd83769171b300414dd80ae507d78c8deb813d4d30" +:+
  "591e266c24269f20a197ca401a5da3936209006a09cbf8774e9c9ba38e7406b779bf752f9e93e7c8261840f95fbf" +:+
  "9c6305363a59f498faa55f73057c520faf79067fa60ec80c17c9b758e036554a3dce801875b7d742bfd2821268e9" +:+
  "cf8c82db44418fe0a40fabca9dc0ce5c3682fe91d32b6c02a1e6b6fbc07e0e52469b2ffd5c6dadf0b4945a90947e" +:+
  "7f20a9b4b0c3d93ae81ba2d96c06d9b544e31940fe0e47b5232165043f4c52c00c69174a5dfb563b1b0b80d5e89d" +:+
  "f08924a1e27693dfe176a3219905e8afed6b23dd7ad96caa8ea75267fb097857c6ae06cb8f9333a4ff931b90e8ad" +:+
  "ce071531c6840ec3946dc200f59189375edbba26b489295d5e94ead1b82e1430754f5d72e5abc6dc313b8f8ec4dd" +:+
  "72be3ffc87012369c381d3fb3a5b2a9858f11d6b5cd897a418d564233509698ba0af63bc8ffd5f8f5ca021fc391d" +:+
  "ec243d237e69b6048d94d8a064e1a8160a60fc413e8f5c0218ae1b86aa6b84ac429301ed892028447832b87fa2a9" +:+
  "5009ad208dad81e0da4a19828bb6e10e8ed5e7be949c2af56f50c08a0f23cc700da5c66304fd1d8109f6200afb56" +:+
  "f46ddcc318461aa8f9a2433c4e08839c62ce559dd520e861594c0cbadb882eb832555c82f788d7cfb31543870069" +:+
  "e3fb6ef5b9a8a30f0d2652ccfc619d2389dda616b09903cfa24f1c71abcac16d69e39ee5d1164775d8f093c464dc" +:+
  "e48561fffab5282693631d462facd9304be6d5d2138b5489532d8f3a39d919e1dab1ea2c60d1dda8694c861f4e58" +:+
  "07823185a0f1f65687229434a3c8d04791546c035032f26e1ecc35dbce15fc094abcf9d615b0cc665e8ca3d5ed6b" +:+
  "ec60c2342244dc06c6cac5d1af9425cc00cfabad08ca481b9faf9614c806565bc47264fd4972f93e23cde988d6d2" +:+
  "2357b5f95136c6999a9beb7a152466ba212b0b656778964b9d882f6d9c9b2db9ab57bb2a5cea87a25f7cb7f113b5" +:+
  "edd625d07b522f4687fbd13d346824ed60a447adf3df381bf6bc129c9864cb33a764a8b58b47938c2cf991eab13b" +:+
  "88630929fd022b6267393bb30063e6985088a11fe4e492b975a41024d830dd098d6653ae2866ec08aafee3f968fc" +:+
  "2c39c28917361b59431415077ff1e4f2920eac944d699c7a3e8ff206bf59cd80e94be395970509110106659b45a1" +:+
  "24aa4d018b28765d8d0782804be47a12d875767ac080f6a0ccb60b3109378407b4e37506752260419f5b6527f2fc" +:+
  "942cd6001b3fcfb39c79581c9a66ca44dbada44f0c144b4285188e6225210298c438c804e4b91d24a71579fd38c0" +:+
  "e7031655f62c2c2f889e934aed5dea8c65f707d7b1f9572e771b1fcafa6c354c006bdccb3794c5e0bdf354b7d1c5" +:+
  "6d310ebf73387f803ce72001").
Definition reveal_bytes : list byte := reveal_prefix ++ reveal_proof.
Definition refresh_bytes : list byte := refresh_prefix ++ refresh_proof.

(** The receiver of the one viewing key, and the identifiers of the two
    canonical identities. *)
#[local] Instance recorded_keys : OrchardKeys := {|
  ivk_address key := if bool_decide (key = route_ivk) then Some route_receiver else None |}.

Definition identifier_of (identity : list byte) : list byte :=
  if bool_decide (identity = NAMES_CANONICAL_APPLICATION_IDENTITY) then family_id
  else if bool_decide (identity = NAMES_CANONICAL_APPLICATION_IDENTITY ++ [x00] ++ identifier)
  then application_id else repeat x00 32.

Lemma identifier_of_length identity : length (identifier_of identity) = 32%nat.
Proof. unfold identifier_of. repeat case_match; by vm_compute. Qed.

#[local] Instance recorded_identity : CoppiceIdentity := {|
  CoreRuntimeId := CarrierRef.bytes32;
  runtime_id_bytes := proj1_sig;
  runtime_id_length i := bool_decide_unpack _ (proj2_sig i);
  runtime_id_inj := CarrierRef.bytes32_inj;
  ApplicationId := CarrierRef.bytes32;
  application_id_bytes := proj1_sig;
  application_id_length i := bool_decide_unpack _ (proj2_sig i);
  derive_application_id identity :=
    Some (dexist (identifier_of identity) (identifier_of_length identity) : CarrierRef.bytes32);
  derive_application_id_nonempty b _ := ex_intro _ _ eq_refl |}.

(** ** The fixture of [build_document] *)

Definition proof_identity : ProofIdentity :=
  ProofIdentity_derive 11 4704 4704 reveal_key_fingerprint refresh_key_fingerprint.

(** [deployment] *)
Definition deployment : DeploymentParameters :=
  let timing := candidate (repeat x00 32) 100000 in
  MkDeploymentParameters recorded_identity (dexist CORE_RUNTIME_ID eq_refl : CarrierRef.bytes32)
    (activation_height timing) (epoch_blocks timing) (window_blocks timing)
    (commit_maturity_blocks timing) (commit_ttl_blocks timing) (lease_blocks timing)
    (cooldown_blocks timing) fingerprint proof_identity.

Definition parameters : Parameters := dp_schedule deployment identifier.
Definition codec : CodecParameters := MkCodecParameters 4704 4704.

Definition alice : Name := MkName (lit "alice").
Definition ua : CanonicalUa := MkCanonicalUa UA.
Definition commit_ref : CommitRef := MkCommitRef 119785 0 (repeat x0a 32).
Definition predecessor_ref : StateRef := MkStateRef 119809 0 (repeat x14 32) 0.

Definition reveal_action : Action :=
  MkAction 0 (MkFieldElement reveal_nullifier) (MkFieldElement reveal_cm).
Definition refresh_action : Action :=
  MkAction 0 (MkFieldElement reveal_future_nf) (MkFieldElement refresh_cm).

Definition vector_reveal_statement : RevealStatement :=
  MkRevealStatement identifier (MkNameId name_id) 17 (MkCommitment commitment_repr) commit_ref ua 0
    (ac_nullifier reveal_action) (ac_commitment reveal_action) (MkFieldElement reveal_future_nf).
Definition vector_refresh_statement : RefreshStatement :=
  MkRefreshStatement identifier (MkNameId name_id) predecessor_ref (ac_commitment reveal_action)
    (MkFieldElement reveal_future_nf) 17 18 ua 0 (ac_nullifier refresh_action)
    (ac_commitment refresh_action) (MkFieldElement refresh_future_nf).

Definition commit_operation : Operation := Commit (MkCommitment commitment_repr).
Definition reveal_operation : Operation :=
  Reveal alice commit_ref ua 0 (MkFieldElement reveal_future_nf) reveal_proof.
Definition refresh_operation : Operation :=
  Refresh alice predecessor_ref ua 0 (MkFieldElement refresh_future_nf) refresh_proof.
End Vectors.


(** ** The replay of [build_document] *)

Section Replay.
Import Vectors.
#[local] Existing Instances poseidon_p128 recorded_keys recorded_identity.

(** A verifier that accepts the two proofs, each for its statement's digest. *)
#[local] Instance recorded_verifier : ProofVerifier unit := {|
  verify_reveal _ statement proof :=
    bool_decide (RevealStatement_digest (E := unit) statement = Ok reveal_digest)
    && bool_decide (proof = reveal_proof);
  verify_refresh _ statement proof :=
    bool_decide (RefreshStatement_digest (E := unit) statement = Ok refresh_digest)
    && bool_decide (proof = refresh_proof) |}.

(** [block_hash] and the loop of [build_document]. *)
Definition block_hash (height : Z) : list byte := u32_be height ++ repeat xa5 28.

Definition transactions_at (height : Z) : list Transaction :=
  if height =? 119785 then [MkTransaction 0 (cr_txid commit_ref) [] (Some commit_operation)]
  else if height =? 119809
  then [MkTransaction 0 (sr_txid predecessor_ref) [reveal_action] (Some reveal_operation)]
  else if height =? 120961
  then [MkTransaction 0 (repeat x1e 32) [refresh_action] (Some refresh_operation)]
  else [].

Definition previous_hash_at (height : Z) : list byte :=
  if height =? 100000 then repeat x00 32 else block_hash (height - 1).

Definition block_at (height : Z) : Block :=
  MkBlock height (block_hash height) (previous_hash_at height) (transactions_at height).

Definition chain_from (height n : Z) : list (Block * list ReferencedCommit) :=
  map (λ h, (block_at h, [])) (seqZ height n).

(** A reducer that has recorded nothing. *)
Definition blank (height : Z) (tip : option Z) (history : list Undo) : Reducer unit :=
  MkReducer parameters tt (Some height) tip (previous_hash_at height) ∅ ∅ ∅ ∅ ∅ ∅ history.

Lemma blank_next h tip history :
  100000 ≤ h →
  blank (h + 1) tip history
  = MkReducer parameters tt (Some (h + 1)) tip (block_hash h) ∅ ∅ ∅ ∅ ∅ ∅ history.
Proof.
  intros Hh. unfold blank, previous_hash_at. rewrite (proj2 (Z.eqb_neq _ _)) by lia.
  by rewrite Z.add_simpl_r.
Qed.

Lemma idle_step h tip history :
  100000 ≤ h < 119785 →
  ∃ out history', apply_block_detailed (block_at h) [] (blank h tip history)
    = (Ok out, blank (h + 1) (Some h) history').
Proof.
  intros Hh. assert (transactions_at h = []) as Ht.
  { unfold transactions_at. by rewrite !(proj2 (Z.eqb_neq _ _)) by lia. }
  assert (u32_checked_add h 1 = Some (h + 1)) as Ha
    by (apply u32_checked_add_Some; unfold u32_max; lia).
  assert (∀ l, range_through (A := NameId) ∅ l = []) as Hn by done.
  assert (∀ l, range_through (A := CommitRef) ∅ l = []) as Hc by done.
  rewrite apply_block_unfold.
  assert (check_block (blank h tip history) (block_at h) [] = Ok ∅) as ->.
  { unfold check_block, block_at. cbn [blank bl_height bl_prev_hash bl_transactions next_height previous_hash].
    rewrite Ht, !bool_decide_true by done. reflexivity. }
  set (undo := new_undo (blank h tip history) h (block_hash h)).
  assert (begin_block (E := ApplyError) (blank h tip history) (block_at h) ∅
    = Ok ([], (blank h tip history, undo))) as Hb.
  { unfold begin_block, compact_claimable, prune_commits, mark_expired.
    change (bl_height (block_at h)) with h. change (bl_hash (block_at h)) with (block_hash h).
    change (active_heads_by_expiry _) with (∅ : gmap Z (gset NameId)). rewrite Hn. cbn [fold_left fst snd].
    change (terminal_heads_by_height _) with (∅ : gmap Z (gset NameId)).
    change (State.parameters (blank h tip history)) with parameters.
    destruct (u32_checked_sub h (cooldown_blocks parameters)); rewrite ?Hn;
      cbn [res_mapM res_bind fold_left map fst snd];
      change (State.parameters (blank h tip history)) with parameters;
      change (commits_by_height (blank h tip history)) with (∅ : gmap Z (gset CommitRef));
      (destruct (u32_checked_sub h (commit_ttl_blocks parameters)); [rewrite Hc|]); reflexivity. }
  unfold transition. rewrite Hb. cbn [res_bind]. change (bl_transactions (block_at h)) with (transactions_at h).
  rewrite Ht. cbn [res_fold res_bind pg_st]. change (bl_height (block_at h)) with h. rewrite Ha.
  eexists _, _. rewrite blank_next by lia. reflexivity.
Qed.

Lemma idle_chain n : 0 ≤ n → ∀ h tip history,
  100000 ≤ h → h + n ≤ 119785 →
  ∃ tip' history',
    apply_chain (chain_from h n) (blank h tip history) = Some (blank (h + n) tip' history').
Proof.
  revert n. apply (natlike_ind (λ n, ∀ h tip history, _ → _ → ∃ tip' history', _)); [|intros n H0 IH]; intros h tip history Hh Hn.
  { exists tip, history. by rewrite Z.add_0_r. }
  destruct (idle_step h tip history) as (out & history1 & Ha); [lia|].
  destruct (IH (h + 1) (Some h) history1) as (tip' & history' & Hc); [lia..|].
  exists tip', history'. unfold chain_from. rewrite seqZ_cons by lia. cbn [map apply_chain].
  rewrite Ha, Z.pred_succ. replace (Z.succ h) with (h + 1) by lia.
  replace (h + Z.succ n) with (h + 1 + n) by lia. exact Hc.
Qed.

(** The head the vectors record. *)
Definition recorded_head : Head :=
  MkHead alice ua (MkStateRef 120961 0 (repeat x1e 32) 0) (MkFieldElement refresh_cm)
    (MkFieldElement refresh_future_nf) 18 370961 None.

Definition resolved (r : Reducer unit) : option Resolution :=
  match resolve (E := unit) r alice 120961 with Ok resolution => Some resolution | _ => None end.

Lemma busy_chain tip history :
  (apply_chain (chain_from 119785 1177) (blank 119785 tip history) ≫= resolved)
  = Some (MkResolution Active (Some ua) (Some recorded_head)).
Proof. vm_compute. reflexivity. Qed.

Lemma replay :
  ∃ r, apply_chain (chain_from 100000 20962) (blank 100000 None []) = Some r
    ∧ resolved r = Some (MkResolution Active (Some ua) (Some recorded_head)).
Proof.
  destruct (idle_chain 19785 (ltac:(lia)) 100000 None []) as (tip & history & Hidle); [lia..|].
  destruct (proj1 (bind_Some _ _ _) (busy_chain tip history)) as (r & Hr & Hres).
  exists r. split; [|exact Hres].
  unfold chain_from in *. change 20962 with (19785 + 1177).
  rewrite seqZ_app, map_app, apply_chain_app by lia. rewrite Hidle. exact Hr.
Qed.

(** The representation of a field. *)
Definition repr_of (m : res unit base) : res unit (list byte) := let? x := m in Ok (to_repr x).

(** The model reproduces every frozen positive vector: the name, its route and
    its address; the verifier and deployment identities; the schedule; the public
    fields, the commitment and the two statement digests; the bytes of the three
    operations, both ways; and the head and the resolution at the end of the
    replay from activation. *)
Example positive_vectors_reproduced :
  (Name_parse NAME = Ok alice ∧ Name_id alice = Ok (MkNameId name_id)
   ∧ NameRoute_derive identifier (MkNameId name_id) = Ok (MkNameRoute route_ivk route_receiver)
   ∧ CanonicalUa_parse Regtest UA = Ok ua)
  ∧ (verifier_suite_id = suite_id
   ∧ verifier_id_bytes (pf_reveal proof_identity) = reveal_verifier_id
   ∧ verifier_id_bytes (pf_refresh proof_identity) = refresh_verifier_id
   ∧ canonical_preimage deployment = Ok preimage
   ∧ dp_deployment_id deployment = Ok identifier)
  ∧ (window parameters (MkNameId name_id) 17 = Ok (MkWindow 119809 119833)
   ∧ window parameters (MkNameId name_id) 18 = Ok (MkWindow 120961 120985))
  ∧ (repr_of (deployment_field identifier) = Ok deployment_field_repr
   ∧ repr_of (commit_ref_field commit_ref) = Ok commit_ref_repr
   ∧ repr_of (state_ref_field predecessor_ref) = Ok state_ref_repr
   ∧ repr_of (ua_field ua) = Ok ua_repr)
  ∧ (registration_commitment (E := unit) identifier (MkNameId name_id) 17
       (MkFieldElement owner_commit) (MkFieldElement secret) = Ok commitment_repr
   ∧ RevealStatement_digest (E := unit) vector_reveal_statement = Ok reveal_digest
   ∧ RefreshStatement_digest (E := unit) vector_refresh_statement = Ok refresh_digest)
  ∧ (encode commit_operation codec = Ok commit_bytes
   ∧ decode commit_bytes Regtest codec = Ok commit_operation
   ∧ encode reveal_operation codec = Ok reveal_bytes
   ∧ decode reveal_bytes Regtest codec = Ok reveal_operation
   ∧ encode refresh_operation codec = Ok refresh_bytes
   ∧ decode refresh_bytes Regtest codec = Ok refresh_operation)
  ∧ (new parameters (repeat x00 32) tt = Ok (blank 100000 None [])
   ∧ ∃ r, apply_chain (chain_from 100000 20962) (blank 100000 None []) = Some r
      ∧ resolved r = Some (MkResolution Active (Some ua) (Some recorded_head))).
Proof. split_and!; [vm_compute; reflexivity..|exact replay]. Qed.
End Replay.
