(* ===== verification/TransportScenario.v ===== *)
(** * A deployment and its messages, concretely

    The deployment, transport and publication properties at one REVEAL that is
    published, carried and read back. *)

From S2P Require Import Prelude Bytes BTree External Protocol Concrete Schedule Codec Statement.
From S2P Require Import Records Reducer Safety Ruleset Deployment Snapshot Transport Publication.
From S2P Require Import Scenario SnapshotScenario.

Module TransportScenario.

Definition runtime_id : CarrierRef.bytes32 := dexist (repeat x33 32) eq_refl.
Definition runtime : RuntimeParameters := runtime_id.
Definition proof_identity : ProofIdentity :=
  ProofIdentity_derive 13 2 3 (repeat x07 32) (repeat x08 32).
Definition fingerprint : list byte :=
  hex "03ba5032d5ea3ac2f4784d29a04abdaef1bd5560a98dd263f22450ee86544ab2".

(** [DeploymentParameters::regtest] *)
Definition deployment : DeploymentParameters :=
  MkDeploymentParameters _ runtime_id 100 32 4 4 24 128 32 fingerprint proof_identity.

Lemma deployment_is_typed : deployment_typed deployment.
Proof.
  split; [repeat split; by vm_compute|by vm_compute|].
  exists 13, 2, 3, (repeat x07 32), (repeat x08 32). split; [|done]. repeat split; by vm_compute.
Qed.

Lemma fingerprint_ok : ruleset_fingerprint (E := DeploymentError) = Ok fingerprint.
Proof. exact (ruleset_fingerprint_poly _ fingerprint_of_names_json). Qed.

Lemma deployment_valid : dp_validate deployment = Ok deployment.
Proof.
  unfold dp_validate. change (_ || _) with false. cbv iota. rewrite fingerprint_ok. cbn [res_bind].
  by rewrite bool_decide_true.
Qed.

Definition identifier : list byte :=
  hash32 DEPLOYMENT_PERSONALIZATION
    (preimage_bytes deployment (CarrierRef.application NAMES_CANONICAL_APPLICATION_IDENTITY)).

Lemma deployment_identifier : dp_deployment_id deployment = Ok identifier.
Proof.
  exact (proj2 (dp_deployment_id_valid deployment _ deployment_is_typed deployment_valid eq_refl)).
Qed.

(** The REVEAL of the codec's samples, published. *)
Definition name_route : res ValueError NameRoute :=
  let? i := Name_id Samples.alice in NameRoute_derive identifier i.
Definition route : NameRoute := ok_default (MkNameRoute [] []) name_route.

Lemma name_route_ok : name_route = Ok route.
Proof. apply is_ok_default. vm_compute. reflexivity. Qed.

#[local] Opaque identifier.

Definition application : CarrierRef.bytes32 :=
  CarrierRef.application (NAMES_CANONICAL_APPLICATION_IDENTITY ++ [x00] ++ identifier).
Definition envelope : CarrierRef.bytes32 * list byte := (application, Samples.reveal_bytes).
Definition publication : PreparedPublication :=
  MkPreparedPublication Samples.reveal (NameRouted route) Samples.reveal_bytes
    (envelope_encode (CoppiceCarrier := carrier_ref) envelope)
    [runtime_id_bytes runtime_id ++ envelope_encode (CoppiceCarrier := carrier_ref) envelope].

Lemma published : prepare_publication Samples.reveal deployment = Ok publication.
Proof.
  refine (prepare_publication_intro Samples.reveal deployment identifier (NameRouted route)
    Samples.reveal_bytes (application : ApplicationId) (envelope : ApplicationEnvelope) _ deployment_valid deployment_identifier _ _ eq_refl eq_refl eq_refl).
  - pose proof name_route_ok as (i & Hi & Hr)%res_bind_Ok.
    unfold publication_route, Samples.reveal. rewrite Hi. cbn [map_err res_bind]. rewrite Hr. reflexivity.
  - vm_compute. reflexivity.
Qed.

(** A transaction that carries it: two zero-valued frames at its rendezvous. *)
Definition rendezvous_at (route : PublicationRoute) : list byte :=
  match route with
  | Generic => runtime_id_bytes runtime_id
  | NameRouted route => incoming_viewing_key route ++ receiver route
  end.
Definition rendezvous : list byte := rendezvous_at (pp_route publication).
Definition full : list (list byte * (list Z * ApplicationMessageStatus)) :=
  [(rendezvous, ([0; 0], @Message identity_ref carrier_ref envelope))].

Definition carrier : CoreTransaction :=
  CarrierRef.MkTx [to_repr (base_from_u64 5)] [to_repr (base_from_u64 6)] 3 (repeat x11 32) (Some full).
Definition plain : CoreTransaction :=
  CarrierRef.MkTx (map (λ i, to_repr (base_from_u64 i)) [1; 2]) (map (λ i, to_repr (base_from_u64 i)) [3; 4])
    1 (repeat x12 32) None.
Definition block : CoreBlock :=
  CarrierRef.MkBlk 120 (repeat x21 32) (repeat x20 32) [plain; carrier] 1003.
Definition positioned : CorePositionedBlock :=
  CarrierRef.MkBlk 120 (repeat x21 32) (repeat x20 32) [plain; carrier] 1000.

Lemma rendezvous_of p : publication_rendezvous runtime p = inr (rendezvous_at (pp_route p)).
Proof.
  destruct p as [op route enc env frames]. unfold publication_rendezvous, rendezvous_at.
  cbn [pp_route]. destruct route; reflexivity.
Qed.

Lemma carried_publication : carries full runtime deployment publication.
Proof.
  exists rendezvous, [0; 0], envelope. split.
  { apply rendezvous_of. }
  split.
  { unfold full. cbn [inspect_transaction_at_rendezvous replay_ref list_find fst snd].
    by rewrite decide_True. }
  split.
  { change (carrier_value_zatoshis publication) with 0. intros v. rewrite !elem_of_cons, elem_of_nil. tauto. }
  reflexivity.
Qed.

(** Nothing is addressed to the public rendezvous. *)
Lemma silent_on_public_route :
  inspect_on_route RouteCommit full runtime deployment Regtest = Ok NoOperation.
Proof.
  unfold inspect_on_route, inspect_validated_commit_transaction.
  rewrite validate_runtime_same by (exact deployment_valid || reflexivity). cbn [res_bind].
  assert (bool_decide (rendezvous = proj1_sig runtime_id) = false) as Hne by (vm_compute; reflexivity).
  apply bool_decide_eq_false in Hne. unfold inspect_validated, full.
  cbn [inspect_transaction_at_rendezvous replay_ref list_find fst snd rendezvous_from_validated].
  by rewrite decide_False.
Qed.

(** The reducer's input for the block and the name. *)
Definition converted : res (BlockTransportError) Block :=
  inspect_exact_name_block block runtime deployment Regtest Samples.alice.
End TransportScenario.

(** The documented suite identifier, and the deployment [regtest] builds. *)
Example verifier_suite_vector :
  verifier_suite_id = hex "dcffff115c9d9354058669c999f0dfabde454d728e27fd2e06253f609ca7422c".
Proof. by vm_compute. Qed.

Lemma regtest_deployment :
  dp_regtest (E := unit) TransportScenario.runtime_id 100 TransportScenario.proof_identity
    = Ok TransportScenario.deployment.
Proof. by unfold dp_regtest, with_timing; rewrite fingerprint_of_names_json. Qed.

(** ** Instances of the properties *)

Lemma deployment_id_binds_witness :
  deployment_typed TransportScenario.deployment
  ∧ ∃ b, canonical_preimage TransportScenario.deployment = Ok b ∧ length b = 203%nat.
Proof.
  split; [apply TransportScenario.deployment_is_typed|].
  destruct (deployment_id_binds TransportScenario.deployment TransportScenario.deployment []
    TransportScenario.deployment_is_typed TransportScenario.deployment_is_typed) as [Hv _].
  destruct (Hv TransportScenario.deployment TransportScenario.deployment_valid) as (b & Hb & Hl & _).
  exists b. split; [exact Hb|exact Hl].
Defined.

Lemma action_positions_rank_witness :
  positioned_action_position TransportScenario.positioned 3 0 = Ok 1002
  ∧ authenticated_action_position TransportScenario.block 3 0 = Ok 1002.
Proof.
  destruct (action_positions_rank TransportScenario.block TransportScenario.positioned 3 0)
    as (Hp & _ & Ha).
  - intros t Ht. apply elem_of_cons in Ht as [-> |Ht]; [reflexivity|].
    apply elem_of_cons in Ht as [-> |?%not_elem_of_nil]; [reflexivity|done].
  - by apply (bool_decide_unpack _).
  - by vm_compute.
  - by vm_compute.
  - by vm_compute.
  - assert (positioned_action_position TransportScenario.positioned 3 0 = Ok 1002) as E
      by (apply Hp; exists 2%nat; split; by vm_compute).
    split; [exact E|]. rewrite Ha; [exact E|reflexivity|by vm_compute].
Defined.

Lemma transport_is_host_witness :
  TransportScenario.converted ≠ Panic
  ∧ ∀ b, TransportScenario.converted = Ok b → typed_host Regtest b [].
Proof.
  destruct (transport_is_host 120 (repeat x21 32) (repeat x20 32)
    [TransportScenario.plain; TransportScenario.carrier] TransportScenario.runtime
    TransportScenario.deployment Regtest Samples.alice SnapshotScenario.manifest_json_total
    TransportScenario.deployment_is_typed Samples.sample_alice_ok) as [Hn Hb].
  split; [exact Hn|]. intros b Eb. destruct (Hb b Eb) as (_ & _ & _ & _ & Ht & _). exact Ht.
Defined.

Lemma publication_read_back_witness :
  inspect_on_route (RouteName Samples.alice) TransportScenario.full TransportScenario.runtime
    TransportScenario.deployment Regtest = Ok (StatusOperation Samples.reveal)
  ∧ core_operation TransportScenario.carrier TransportScenario.runtime TransportScenario.deployment
      Regtest Samples.alice = Ok (Some Samples.reveal).
Proof.
  destruct (publication_read_back Regtest Samples.reveal TransportScenario.deployment
    TransportScenario.publication TransportScenario.runtime TransportScenario.full
    TransportScenario.deployment_is_typed Samples.reveal_ok eq_refl
    TransportScenario.published TransportScenario.carried_publication) as (Hi & _ & Hc).
  split; [exact Hi|]. apply Hc; [reflexivity|right; reflexivity|].
  exact TransportScenario.silent_on_public_route.
Defined.
