(* ===== verification/RouteScenario.v ===== *)
(** * Two hosts on one chain

    A COMMIT on the generic route at height 115 and a REVEAL on the name's route at
    120, with another name's REVEAL beside it: the conversion of the name's host, its
    exact resolver and the full reducer.  And a transaction with messages on two
    routes, which the two hosts read differently. *)

From S2P Require Import Prelude Bytes BTree External Protocol Concrete Schedule Codec Statement.
From S2P Require Import Records State Reducer Ledger Safety Ruleset Deployment Resolver Lockstep.
From S2P Require Import Snapshot Transport Publication Routes Scenario SnapshotScenario TransportScenario.

Module RouteScenario.
Import TransportScenario.

Definition bob : Name := MkName (lit "bob").
Definition names : list Name := [Samples.alice; bob].
Definition parameters : Parameters := dp_schedule deployment identifier.

(** ** Messages *)

Definition message (at_route : list byte) (op : Operation)
  : list byte * (list Z * ApplicationMessageStatus) :=
  (at_route, ([0], @Message identity_ref carrier_ref
                     (application, ok_default [] (encode op (codec_parameters deployment))))).
Definition generic_route : list byte := proj1_sig runtime_id.
Definition derived_route (name : Name) : res ValueError NameRoute :=
  let? i := Name_id name in NameRoute_derive identifier i.
Definition route_of (name : Name) : list byte :=
  let route := ok_default (MkNameRoute [] []) (derived_route name) in
  incoming_viewing_key route ++ receiver route.

Definition commit : Operation := Commit Scenario.commitment.
Definition reveal (name : Name) : Operation :=
  Reveal name (MkCommitRef 115 1 (Scenario.hash 7)) Samples.ua 0 (Samples.field 9) [x01; x02].

Definition effect : list byte := to_repr (base_from_u64 5).
Definition tx (index : Z) (messages : list (list byte * (list Z * ApplicationMessageStatus)))
  : CoreTransaction :=
  CarrierRef.MkTx [effect] [effect] index (Scenario.hash (6 + index)) (Some messages).

(** ** The chain *)

Definition transactions (height : Z) : list CoreTransaction :=
  if height =? 115 then [tx 1 [message generic_route commit]]
  else if height =? 120
  then [tx 0 [message (route_of bob) (reveal bob)];
        tx 3 [message (route_of Samples.alice) (reveal Samples.alice)]]
  else [].

Definition core (height : Z) : CoreBlock :=
  CarrierRef.MkBlk height (Scenario.hash height) (Scenario.hash (height - 1))
    (transactions height) 0.

(** The blocks to the REVEAL, a reorganization of the last one, a finalization. *)
Definition host : list HostCall :=
  map (λ h, HostBlock (core h) []) (seqZ 100 21)
  ++ [HostRollback (Scenario.hash 120); HostBlock (core 120) []; HostFinalize 110;
      HostBlock (core 119) []].

(** What the complete host reads. *)
Definition read (index : Z) (op : Operation) : Transaction :=
  MkTransaction index (Scenario.hash (6 + index))
    [MkAction 0 (MkFieldElement effect) (MkFieldElement effect)] (Some op).
Definition block (height : Z) : Block :=
  MkBlock height (Scenario.hash height) (Scenario.hash (height - 1))
    (if height =? 115 then [read 1 commit]
     else if height =? 120 then [read 0 (reveal bob); read 3 (reveal Samples.alice)] else []).
Definition complete : list Call :=
  map (λ h, CallApply (block h) []) (seqZ 100 21)
  ++ [CallRollback (Scenario.hash 120); CallApply (block 120) []; CallFinalize 110;
      CallApply (block 119) []].

(** ** What the routes show *)

(** [classify_inspection], without the validation of the deployment. *)
Definition status (full : FullTransaction) (rendezvous : CoreRendezvous) (expected : ExpectedRoute)
  : NamesTransportStatus :=
  match inspect_transaction_at_rendezvous full rendezvous runtime_id with
  | ([0], Message envelope) =>
      if bool_decide (envelope.1 ≠ application) then Rejected WrongApplication
      else match decode envelope.2 Regtest (codec_parameters deployment) with
           | Ok op => if on_expected_route op expected then StatusOperation op else Rejected WrongRoute
           | Err e => Rejected (InvalidOperation e)
           | Panic => NoOperation
           end
  | _ => NoOperation
  end.

Definition readable (m : list byte * (list Z * ApplicationMessageStatus)) : Prop :=
  ∃ op, m = message m.1 op
    ∧ is_ok (decode (ok_default [] (encode op (codec_parameters deployment))) Regtest
               (codec_parameters deployment)) = true.

Lemma inspected {E} messages rendezvous expected :
  Forall readable messages →
  inspect_validated (E := E) messages rendezvous deployment Regtest expected
  = Ok (status messages rendezvous expected).
Proof.
  intros Hm. unfold inspect_validated, status. change (dp_core_runtime_id deployment) with runtime_id.
  assert (inspect_transaction_at_rendezvous messages rendezvous runtime_id = ([], NotCandidate)
    ∨ ∃ m, m ∈ messages ∧ inspect_transaction_at_rendezvous messages rendezvous runtime_id = m.2)
    as [-> |([at_route m] & Hin & ->)]; [|done|].
  { cbn [inspect_transaction_at_rendezvous replay_ref].
    lazymatch goal with |- context [@list_find ?A ?P ?d ?l] =>
      destruct (@list_find A P d l) as [[k [at_route m]]|] eqn:Ef end; [right|by left].
    apply list_find_Some in Ef as (Hk%list_elem_of_lookup_2 & _). by exists (at_route, m). }
  rewrite Forall_forall in Hm. destruct (Hm _ Hin) as (op & [= ->] & Ho). cbn [snd].
  unfold classify_inspection, classify_envelope. cbn [existsb Z.eqb negb orb].
  rewrite deployment_identifier. unfold names_application_id. cbn [res_bind].
  change (derive_application_id (NAMES_CANONICAL_APPLICATION_IDENTITY ++ [x00] ++ identifier))
    with (Some application). cbn [expect res_bind envelope_key envelope_payload carrier_ref fst snd application_key].
  rewrite !bool_decide_false by (intros Hn; by apply Hn). 
  destruct (decode _ _ _) as [o|e|]; [|done..]. by destruct (on_expected_route _ _).
Qed.

Lemma accepted_runtime : validate_runtime deployment runtime = Ok deployment.
Proof. apply validate_runtime_same; [exact deployment_valid|reflexivity]. Qed.

Lemma at_rendezvous index messages rendezvous expected :
  Forall readable messages →
  inspect_authenticated (tx index messages) rendezvous deployment Regtest expected
  = Ok (status messages rendezvous expected).
Proof.
  intros Hm. unfold inspect_authenticated. rewrite deployment_valid. cbn [map_err res_bind tx ct_full replay_ref].
  by apply inspected.
Qed.

Lemma commit_status index messages :
  Forall readable messages →
  inspect_commit_transaction (tx index messages) runtime deployment Regtest
  = Ok (status messages generic_route RouteCommit).
Proof.
  intros Hm. unfold inspect_commit_transaction. rewrite accepted_runtime. cbn [res_bind].
  by apply at_rendezvous.
Qed.

Lemma derived name : name ∈ names → ∃ i route, Name_id name = Ok i
  ∧ NameRoute_derive identifier i = Ok route ∧ route_of name = incoming_viewing_key route ++ receiver route.
Proof.
  intros Hin. assert (is_ok (derived_route name) = true) as Hd.
  { apply elem_of_cons in Hin as [-> | ->%list_elem_of_singleton]; by vm_compute. }
  pose proof (is_ok_default (MkNameRoute [] []) _ Hd) as (i & Hi & Hr)%res_bind_Ok.
  exists i, (ok_default (MkNameRoute [] []) (derived_route name)).
  split; [exact Hi|]. split; [exact Hr|reflexivity].
Qed.

Lemma rendezvous_for (d : DeploymentParameters) name id i route :
  dp_deployment_id d = Ok id → Name_id name = Ok i → NameRoute_derive id i = Ok route →
  name_rendezvous d name = Ok (incoming_viewing_key route ++ receiver route).
Proof.
  intros Hd Hi Hr. unfold name_rendezvous. rewrite Hd. cbn [map_err res_bind]. rewrite Hi.
  cbn [map_err res_bind]. rewrite Hr. reflexivity.
Qed.

Lemma name_status index messages name :
  Forall readable messages → name ∈ names →
  inspect_name_transaction (tx index messages) runtime deployment Regtest name
  = Ok (status messages (route_of name) (RouteName name)).
Proof.
  intros Hm (i & route & Hi & Hr & ->)%derived. unfold inspect_name_transaction.
  rewrite accepted_runtime. cbn [res_bind].
  rewrite (rendezvous_for deployment name _ i route deployment_identifier Hi Hr). cbn [res_bind].
  by apply at_rendezvous.
Qed.

(** The statuses of a transaction at the routes of some of the names. *)
Definition statuses (ns : list Name) (messages : list (list byte * (list Z * ApplicationMessageStatus)))
  : list NamesTransportStatus :=
  status messages generic_route RouteCommit
  :: map (λ name, status messages (route_of name) (RouteName name)) ns.

Lemma shown ns index messages :
  ns ⊆ names → Forall readable messages →
  route_statuses runtime deployment Regtest ns (tx index messages) = Ok (statuses ns messages).
Proof.
  intros Hns Hm. unfold route_statuses. rewrite commit_status by done. cbn [res_bind].
  rewrite (res_mapM_total _ (λ name, status messages (route_of name) (RouteName name))); [done|].
  intros name Hin. by apply name_status; [|apply Hns].
Qed.

Lemma operation_shown ns index messages :
  ns ⊆ names → Forall readable messages →
  complete_operation runtime deployment Regtest ns (tx index messages)
  = Ok (surviving (statuses ns messages)).
Proof.
  intros Hns Hm. unfold complete_operation. cbn [ct_full replay_ref tx CarrierRef.tx_full].
  by rewrite shown.
Qed.

Lemma converted_transaction index messages op :
  Forall readable messages → surviving (statuses names messages) = Some op →
  complete_transaction runtime deployment Regtest names (tx index messages) = Ok (read index op).
Proof.
  intros Hm Hop. unfold complete_transaction. rewrite operation_shown, Hop by done. reflexivity.
Qed.

Definition decodes (op : Operation) : bool :=
  is_ok (decode (ok_default [] (encode op (codec_parameters deployment))) Regtest
           (codec_parameters deployment)).

Lemma readable_message at_route op : decodes op = true → readable (message at_route op).
Proof. intros Hd. exists op. split; [reflexivity|exact Hd]. Qed.

Lemma each_decodes op : op ∈ [commit; reveal bob; reveal Samples.alice] → decodes op = true.
Proof.
  intros Hop. repeat (apply elem_of_cons in Hop as [-> |Hop]; [by vm_compute|]). by apply not_elem_of_nil in Hop.
Qed.

Lemma sent at_route op : op ∈ [commit; reveal bob; reveal Samples.alice] → readable (message at_route op).
Proof. intros Hop. by apply readable_message, each_decodes. Qed.

(** One message on one route. *)
Definition sendings : list (Operation * list byte) :=
  [(commit, generic_route); (reveal bob, route_of bob); (reveal Samples.alice, route_of Samples.alice)].
Lemma in_sendings :
  (commit, generic_route) ∈ sendings ∧ (reveal bob, route_of bob) ∈ sendings
  ∧ (reveal Samples.alice, route_of Samples.alice) ∈ sendings.
Proof.
  unfold sendings. split; [exact (list_elem_of_here _ _)|].
  split; [exact (list_elem_of_further _ _ _ (list_elem_of_here _ _))|].
  exact (list_elem_of_further _ _ _ (list_elem_of_further _ _ _ (list_elem_of_here _ _))).
Qed.
Definition alone (m : Operation * list byte) : bool :=
  let shown := statuses names [message m.2 m.1] in
  bool_decide (surviving shown = Some m.1) && Nat.leb (length (busy shown)) 1.

Lemma each_alone : forallb alone sendings = true.
Proof. vm_compute. reflexivity. Qed.

Lemma one_message op route :
  (op, route) ∈ sendings →
  Forall readable [message route op] ∧ surviving (statuses names [message route op]) = Some op
  ∧ (length (busy (statuses names [message route op])) ≤ 1)%nat.
Proof.
  intros Hop. split.
  - constructor; [|done]. apply sent. exact (list_elem_of_fmap_2 fst _ _ Hop).
  - pose proof (proj1 (forallb_forall _ _) each_alone _ (proj1 (list_elem_of_In _ _) Hop)) as Ha.
    apply andb_true_iff in Ha as [Hs%bool_decide_eq_true Hl%Nat.leb_le]. split; [exact Hs|exact Hl].
Qed.

Lemma one_transaction index op route :
  (op, route) ∈ sendings →
  complete_transaction runtime deployment Regtest names (tx index [message route op]) = Ok (read index op)
  ∧ unambiguous runtime deployment Regtest names (tx index [message route op]).
Proof.
  intros (Hr & Hs & Hl)%one_message. split; [by apply converted_transaction|].
  intros l Hst. rewrite shown in Hst by done. apply Ok_inj in Hst as <-. exact Hl.
Qed.

Lemma transactions_sent height t :
  t ∈ transactions height → ∃ index op route, t = tx index [message route op] ∧ (op, route) ∈ sendings.
Proof.
  destruct in_sendings as (Hc & Hb & Ha). unfold transactions. intros Ht.
  destruct (height =? 115); [|destruct (height =? 120)].
  - apply list_elem_of_singleton in Ht as ->. exists 1, commit, generic_route. split; [done|exact Hc].
  - apply elem_of_cons in Ht as [-> | ->%list_elem_of_singleton].
    + exists 0, (reveal bob), (route_of bob). split; [done|exact Hb].
    + exists 3, (reveal Samples.alice), (route_of Samples.alice). split; [done|exact Ha].
  - by apply not_elem_of_nil in Ht.
Qed.

Lemma core_unambiguous height t :
  t ∈ transactions height → unambiguous runtime deployment Regtest names t.
Proof. intros (index & op & route & -> & Hs)%transactions_sent. by apply one_transaction. Qed.

Lemma core_read height :
  complete_block runtime deployment Regtest names (core height) = Ok (block height).
Proof.
  unfold complete_block. rewrite accepted_runtime. cbn [map_err res_bind].
  assert (res_mapM (complete_transaction runtime deployment Regtest names) (transactions height)
    = Ok (bl_transactions (block height))) as Ht; [|by unfold core; cbn [cb_transactions replay_ref CarrierRef.blk_txs]; rewrite Ht].
  destruct in_sendings as (Hc & Hb & Ha). unfold transactions, block. cbn [bl_transactions].
  apply res_mapM_Ok.
  destruct (height =? 115); [|destruct (height =? 120); [|constructor]].
  - apply List.Forall2_cons; [exact (proj1 (one_transaction 1 commit generic_route Hc))|constructor].
  - apply List.Forall2_cons; [exact (proj1 (one_transaction 0 (reveal bob) (route_of bob) Hb))|].
    apply List.Forall2_cons; [|constructor].
    exact (proj1 (one_transaction 3 (reveal Samples.alice) (route_of Samples.alice) Ha)).
Qed.

Lemma host_block height :
  host_call (complete_block runtime deployment Regtest names) (HostBlock (core height) [])
  = Ok (CallApply (block height) []).
Proof. cbn [host_call]. by rewrite core_read. Qed.

Lemma host_read : complete_host runtime deployment Regtest names host = Ok complete.
Proof.
  apply res_mapM_Ok. unfold host, complete. apply Forall2_app.
  - apply Forall2_fmap_2, Forall_Forall2_diag, Forall_forall. intros h _.
    apply host_block.
  - apply List.Forall2_cons; [reflexivity|]. apply List.Forall2_cons; [exact (host_block 120)|].
    apply List.Forall2_cons; [reflexivity|]. apply List.Forall2_cons; [exact (host_block 119)|constructor].
Qed.

Lemma host_unread : Forall (host_unambiguous runtime deployment Regtest names) host.
Proof.
  unfold host. apply Forall_app. split.
  - apply Forall_fmap, Forall_forall. intros h _ t. apply core_unambiguous.
  - apply Forall_cons. split; [exact I|].
    apply Forall_cons. split; [intros t; apply core_unambiguous|].
    apply Forall_cons. split; [exact I|].
    apply Forall_cons. split; [intros t; apply core_unambiguous|by apply Forall_nil].
Qed.

Lemma host_evidence i : Forall (call_evidence i) complete.
Proof.
  unfold complete. apply Forall_app. split.
  - apply Forall_fmap, Forall_forall. intros h _ ev Hev. by apply not_elem_of_nil in Hev.
  - apply Forall_forall. intros c Hc. unfold call_evidence.
    repeat (apply elem_of_cons in Hc as [-> |Hc]; [try exact I; intros ev Hev; by apply not_elem_of_nil in Hev|]).
    by apply not_elem_of_nil in Hc.
Qed.

Lemma names_separate : separate names.
Proof.
  assert (bool_decide (Name_id Samples.alice = Name_id bob) = false) as Hne by (vm_compute; reflexivity).
  apply bool_decide_eq_false in Hne. split.
  - intros name [-> | ->%list_elem_of_singleton]%elem_of_cons; by apply Name_parse_guard; vm_compute.
  - intros m n i [-> | ->%list_elem_of_singleton]%elem_of_cons
      [-> | ->%list_elem_of_singleton]%elem_of_cons Em En; [done| | |done]; destruct Hne; congruence.
Qed.
End RouteScenario.

Module RouteReplay.
Import TransportScenario RouteScenario.

Definition genesis : Reducer unit :=
  MkReducer parameters tt (Some 100) None (Scenario.hash 99) ∅ ∅ ∅ ∅ ∅ ∅ [].
Definition alice_id : NameId := ok_default (MkNameId []) (Name_id Samples.alice).
Definition resolver : ExactResolver unit := MkExactResolver Samples.alice alice_id genesis.

Definition final : list Answer * Reducer unit := calls full_call complete genesis.

Lemma parameters_typed : Parameters_typed parameters.
Proof. repeat split; by vm_compute. Qed.

Lemma initial_reducer_new : new parameters (Scenario.hash 99) tt = Ok genesis.
Proof. by vm_compute. Qed.

Lemma initial_resolver_new : exact_new parameters (Scenario.hash 99) Samples.alice tt = Ok resolver.
Proof. by vm_compute. Qed.
End RouteReplay.

(** Both REVEALs are accepted. *)
Example replayed_by_routes :
  RouteReplay.final.1
  = repeat (Applied None) 21
    ++ [RolledBack None; Applied None; Finalized None; Applied (Some WrongHeight)]
  ∧ match resolve_authenticated RouteReplay.final.2 Samples.alice 120,
          resolve_authenticated RouteReplay.final.2 RouteScenario.bob 120 with
    | Ok a, Ok b => rs_lifecycle a = Active ∧ rs_lifecycle b = Active
    | _, _ => False
    end.
Proof. split; [vm_compute; reflexivity|vm_compute; split; reflexivity]. Qed.

Lemma routes_in_lockstep_witness :
  ∃ given x,
    exact_host TransportScenario.runtime TransportScenario.deployment Regtest Samples.alice
      RouteScenario.host = Ok given
    ∧ calls exact_call given RouteReplay.resolver = (RouteReplay.final.1, x)
    ∧ exact_resolve x 120 = resolve_authenticated RouteReplay.final.2 Samples.alice 120.
Proof.
  destruct (routes_in_lockstep TransportScenario.runtime TransportScenario.deployment Regtest
    RouteScenario.parameters (Scenario.hash 99) tt RouteScenario.names Samples.alice RouteReplay.genesis
    RouteReplay.final.2 RouteReplay.resolver RouteScenario.host RouteScenario.complete
    RouteReplay.final.1 RouteReplay.parameters_typed TransportScenario.deployment_is_typed
    RouteScenario.names_separate (list_elem_of_here _ _) RouteReplay.initial_reducer_new
    RouteReplay.initial_resolver_new RouteScenario.host_unread RouteScenario.host_read
    (RouteScenario.host_evidence _) (surjective_pairing _)) as (given & x & Hg & Hx & _ & _ & Hr).
  exists given, x. split; [exact Hg|]. split; [exact Hx|exact (Hr 120)].
Defined.

(** Without the hypothesis on messages the two replays part: of a transaction with a
    COMMIT on the generic route and a REVEAL on bob's, a complete replay and bob's
    resolver keep nothing, and alice's resolver keeps the COMMIT; so does an inspection
    of the generic route alone, which is how the COMMIT a REVEAL names is read. *)
Definition two_messages : list (list byte * (list Z * ApplicationMessageStatus)) :=
  [RouteScenario.message RouteScenario.generic_route RouteScenario.commit;
   RouteScenario.message (RouteScenario.route_of RouteScenario.bob)
     (RouteScenario.reveal RouteScenario.bob)].

Lemma two_messages_shown :
  surviving (RouteScenario.statuses RouteScenario.names two_messages) = None
  ∧ surviving (RouteScenario.statuses [RouteScenario.bob] two_messages) = None
  ∧ surviving (RouteScenario.statuses [Samples.alice] two_messages) = Some RouteScenario.commit
  ∧ surviving (RouteScenario.statuses [] two_messages) = Some RouteScenario.commit.
Proof. vm_compute. split; [|split; [|split]]; reflexivity. Qed.

Example ambiguity_is_judged_per_name :
  complete_operation TransportScenario.runtime TransportScenario.deployment Regtest
    RouteScenario.names (RouteScenario.tx 2 two_messages) = Ok None
  ∧ core_operation (RouteScenario.tx 2 two_messages) TransportScenario.runtime
      TransportScenario.deployment Regtest RouteScenario.bob = Ok None
  ∧ core_operation (RouteScenario.tx 2 two_messages) TransportScenario.runtime
      TransportScenario.deployment Regtest Samples.alice = Ok (Some RouteScenario.commit)
  ∧ complete_operation TransportScenario.runtime TransportScenario.deployment Regtest
      [] (RouteScenario.tx 2 two_messages) = Ok (Some RouteScenario.commit).
Proof.
  assert (Forall RouteScenario.readable two_messages) as Hr.
  { apply Forall_cons. split; [apply RouteScenario.sent, list_elem_of_here|].
    apply Forall_cons. split; [|by apply Forall_nil].
    apply RouteScenario.sent, list_elem_of_further, list_elem_of_here. }
  destruct two_messages_shown as (Hn & Hb & Ha & H0).
  assert ([RouteScenario.bob] ⊆ RouteScenario.names) as Sb
    by (intros n ->%list_elem_of_singleton; exact (list_elem_of_further _ _ _ (list_elem_of_here _ _))).
  assert ([Samples.alice] ⊆ RouteScenario.names) as Sa
    by (intros n ->%list_elem_of_singleton; exact (list_elem_of_here _ _)).
  split; [|split; [|split]].
  - etransitivity; [exact (RouteScenario.operation_shown _ 2 _ (reflexivity _) Hr)|exact (f_equal Ok Hn)].
  - etransitivity; [apply core_operation_complete|].
    etransitivity; [exact (RouteScenario.operation_shown _ 2 _ Sb Hr)|exact (f_equal Ok Hb)].
  - etransitivity; [apply core_operation_complete|].
    etransitivity; [exact (RouteScenario.operation_shown _ 2 _ Sa Hr)|exact (f_equal Ok Ha)].
  - etransitivity; [exact (RouteScenario.operation_shown [] 2 _ (list_subseteq_nil _) Hr)|exact (f_equal Ok H0)].
Qed.
