(* ===== verification/StoreScenario.v ===== *)
(** * The store along the concrete chain

    A store opened for the parameters of [Scenario] follows its blocks; the store
    properties at its states, and the wallet's rollback on a database that no
    block produced. *)

From S2P Require Import Prelude Bytes BTree External Protocol Concrete Schedule Codec Statement.
From S2P Require Import Records State Reducer Journal Ledger Invariant Keys Safety Lifecycle Ruleset.
From S2P Require Import Resolver Snapshot Scenario SnapshotScenario Store StoreFacts Mirror.

Module StoreScenario.

#[global] Instance HeadRecord_countable : Countable HeadRecord.
Proof.
  refine (inj_countable' (λ h, (hr_name h, hr_ua h, hr_producer h, hr_commitment h, hr_future_nf h,
      hr_producer_epoch h, hr_expiry_height h, hr_terminal_height h))
    (λ '(a, b, c, d, e, f, g, i), MkHeadRecord a b c d e f g i) _). by intros [].
Defined.
#[global] Instance record_json : SerdeJson HeadRecord := countable_json.
#[global] Instance record_json_laws : SerdeJsonLaws HeadRecord := countable_json_laws.

(** A complete store that keeps three blocks. *)
Definition identity : StoreIdentity :=
  MkStoreIdentity (repeat x0f 32) (repeat x01 32) Regtest Complete 3.

Lemma block_stored_host h : stored_host Regtest (Scenario.block h) [].
Proof.
  split; [apply SnapshotScenario.block_typed_host|]. unfold sized, Scenario.block, Scenario.hash.
  cbn [bl_hash bl_prev_hash bl_transactions]. split; [apply length_be_bytes|]. split.
  - intros E%(f_equal be_val). rewrite !be_val_be_bytes in E.
    assert ((h - (h - 1)) mod 256 ^ Z.of_nat 32 = 0) as E1 by by rewrite Zminus_mod, E, Z.sub_diag.
    replace (h - (h - 1)) with 1 in E1 by lia. done.
  - split; [|by intros ev ?%not_elem_of_nil]. intros tx Hin. unfold Scenario.txs in Hin.
    repeat case_match; try (by apply not_elem_of_nil in Hin);
      apply list_elem_of_singleton in Hin as ->; apply length_be_bytes.
Qed.

(** The store of a complete host along a chain. *)
Lemma mirrors_chain l (r r' : Reducer unit) s :
  Forall (λ b, stored_host Regtest b.1 b.2) l → apply_chain l r = Some r' →
  recoverable (stored Regtest) r → mirrors (history r) s r →
  ∃ s', recoverable (stored Regtest) r' ∧ mirrors (history r') s' r'.
Proof.
  revert r s. induction l as [|[b refs] l IH]; intros r s Hf Hr Hrec Hm; simpl in Hr.
  { injection Hr as <-. by exists s. }
  apply Forall_cons in Hf as [Hb Hf]. simpl in Hb.
  destruct (apply_block_detailed b refs r) as [[out|e|] r1] eqn:Ea; [|done..].
  destruct (mirrored_apply identity (history r) s r b refs out r1) as (s1 & u & _ & _ & Hr1 & Hm1 & Hh);
    try done. apply (IH r1 s1); try done. by rewrite Hh.
Qed.

Lemma mirrors_after n :
  ∃ s, recoverable (stored Regtest) (Scenario.after n)
    ∧ mirrors (history (Scenario.after n)) s (Scenario.after n).
Proof.
  destruct (mirrored_open identity Scenario.params (Scenario.hash 9) tt Scenario.genesis Scenario.params_typed
    (length_be_bytes _ _) Scenario.genesis_new) as (s & _ & Hr & Hm & Hh). rewrite <- Hh in Hm.
  unfold Scenario.after. destruct (apply_chain (Scenario.chain n) Scenario.genesis) as [r'|] eqn:Er;
    [|by exists s]. eapply mirrors_chain; [|exact Er|done|exact Hm]. apply Forall_forall.
  intros b (h & -> & _)%list_elem_of_fmap. apply block_stored_host.
Qed.

Lemma tip_27 : tip_height (Scenario.after 18) = Some 27.
Proof. vm_compute. reflexivity. Qed.

Lemma history_27 : history (Scenario.after 18) ≠ [].
Proof.
  assert (negb (bool_decide (history (Scenario.after 18) = [])) = true) as Hb by by vm_compute.
  by apply negb_true_iff, bool_decide_eq_false in Hb.
Qed.

Lemma journaled_27 s :
  mirrors (history (Scenario.after 18)) s (Scenario.after 18) → db_rollback_blocks s ≠ ∅.
Proof.
  intros Hm He. pose proof history_27 as Hh. revert Hm Hh. generalize (history (Scenario.after 18)).
  intros [|u us] Hm Hh; [done|]. pose proof (jn_blocks _ _ (mi_journal _ _ _ Hm) (un_height u)) as Hb.
  rewrite He, lookup_empty in Hb. cbn [find_undo] in Hb. by rewrite Z.eqb_refl in Hb.
Qed.

(** A database with a journal of two absent records, which a block would not
    have written. *)
Definition odd_store : Store :=
  MkStore (Some (MkMetadata 1 (repeat x0f 32) (repeat x01 32) 2 0 None 3 (Some 27) (Some (Scenario.hash 27))
                   None None))
    {[ Scenario.alice_id := MkHeadRecord [] [] (MkStateRef 1 2 [] 3) [] [] 0 0 None ]}
    {[ MkCommitRef 20 1 (Scenario.hash 5) := [x01] ]} ∅
    {[ 27 := MkBlockRow (Scenario.hash 27) None None ]}
    {[ (27, Scenario.alice_id) := None ]} {[ (27, MkCommitRef 20 1 (Scenario.hash 5)) := None ]}.

Lemma odd_tip t s :
  read_tip odd_store = (Ok (Some t), s) → tip_hash t = Scenario.hash 27.
Proof.
  assert ((read_tip odd_store).1 = Ok (Some (MkReducerTip 27 (Scenario.hash 27)))) as E by by vm_compute.
  revert E. generalize (read_tip odd_store). intros [x y] E E2. cbn [fst] in E. subst x.
  apply (f_equal (λ z, match z with (Ok (Some t), _) => tip_hash t | _ => [] end)) in E2.
  by rewrite <- E2.
Qed.
End StoreScenario.

#[local] Opaque Scenario.after Scenario.outcome.

Lemma store_follows_blocks_witness :
  ∃ s s', mirrored StoreScenario.identity s (Scenario.after 17)
    ∧ with_transaction (apply_delta StoreScenario.identity (bo_state_delta (Scenario.outcome 27))) s = (Ok tt, s')
    ∧ mirrored StoreScenario.identity s' (Scenario.after 18).
Proof.
  destruct (StoreScenario.mirrors_after 17) as (s & Hr & Hm).
  assert (mirrored StoreScenario.identity s (Scenario.after 17)) as Hs
    by (split; [exact Hr|]; exists (history (Scenario.after 17)); split; [reflexivity|exact Hm]).
  destruct (proj2 (store_follows_blocks (V := unit) StoreScenario.identity) s (Scenario.after 17)
    (Scenario.block 27) [] (Scenario.outcome 27) (Scenario.after 18) Hs (StoreScenario.block_stored_host 27)
    Scenario.apply_27 eq_refl) as (s' & Ha & Hs' & _).
  exists s, s'. split; [exact Hs|]. split; [exact Ha|exact Hs'].
Defined.

Lemma store_follows_rollbacks_witness :
  ∃ s s', mirrored StoreScenario.identity s (Scenario.after 18)
    ∧ rollback_store_tip StoreScenario.identity (Scenario.hash 27) s = (Ok (tip (Scenario.after 17)), s')
    ∧ mirrored StoreScenario.identity s' (Scenario.after 17).
Proof.
  destruct (StoreScenario.mirrors_after 18) as (s & Hr & Hm).
  assert (mirrored StoreScenario.identity s (Scenario.after 18)) as Hs
    by (split; [exact Hr|]; exists (history (Scenario.after 18)); split; [reflexivity|exact Hm]).
  pose proof (rollback_apply (Scenario.block 27) [] (Scenario.after 17) (Scenario.after 18)
    (Scenario.outcome 27) (rk_indexed _ (Scenario.after_ok 17)) Scenario.apply_27) as Hb.
  destruct (proj1 (store_follows_rollbacks StoreScenario.identity s (Scenario.after 18) Hs) _ _ _ Hb)
    as [(s' & Hrun & Hs')|[_ He]].
  - exists s, s'. split; [exact Hs|]. split; [exact Hrun|exact Hs'].
  - exfalso. exact (StoreScenario.journaled_27 s Hm He).
Defined.

Lemma finalize_store_retains_witness :
  ∃ s s', mirrored StoreScenario.identity s (Scenario.after 18)
    ∧ finalize_store StoreScenario.identity 24 s = (Ok tt, s')
    ∧ finalize_store StoreScenario.identity 25 s = (Err InsufficientRollbackRetention, s).
Proof.
  destruct (StoreScenario.mirrors_after 18) as (s & Hr & Hm).
  assert (mirrored StoreScenario.identity s (Scenario.after 18)) as Hs
    by (split; [exact Hr|]; exists (history (Scenario.after 18)); split; [reflexivity|exact Hm]).
  pose proof (finalize_store_retains StoreScenario.identity s (Scenario.after 18) 24 Hs
    ltac:(unfold is_u32, u32_max; lia)) as H24.
  pose proof (finalize_store_retains StoreScenario.identity s (Scenario.after 18) 25 Hs
    ltac:(unfold is_u32, u32_max; lia)) as H25.
  rewrite StoreScenario.tip_27 in H24, H25. destruct H24 as (s' & Hf & _).
  exists s, s'. split; [exact Hs|]. split; [exact Hf|exact H25].
Defined.

Lemma wallet_rollback_equivalent_witness :
  ∃ s, (wallet_rollback_tip StoreScenario.identity s).1 ≠ Panic
    ∧ with_transaction (wallet_rollback_tip StoreScenario.identity) s
      = with_transaction (rollback_store_tip StoreScenario.identity (Scenario.hash 27)) s
    ∧ is_ok (wallet_rollback_tip StoreScenario.identity s).1 = true.
Proof.
  exists StoreScenario.odd_store.
  destruct (wallet_rollback_equivalent StoreScenario.identity StoreScenario.odd_store (Scenario.hash 27)
    StoreScenario.odd_tip) as [Hn Heq].
  split; [exact Hn|]. split; [exact Heq|vm_compute; reflexivity].
Defined.
