(* ===== verification/WalletConcrete.v ===== *)
(** * Concrete instances of the wallet's third-party classes

    What the witnesses of the wallet run, in the place of [orchard] and [pczt]:
    keys that are byte strings, notes identified by their hashes, proofs that are
    prefixes of the digest, and roles that do what the wallet expects of them.
    Nothing in the theorems depends on this file. *)

From S2P Require Import Prelude Bytes External Protocol Concrete Orchard Pczt.

Module OrchardRef.
(** A canonical field element made of a hash. *)
Definition element (personal input : list byte) : list byte :=
  PallasRef.encode (PallasRef.reduce (le_val (blake2b 32 personal [] input))).

Record RefNote := MkRefNote {
  rn_address : list byte;
  rn_value : Z;
  rn_rho : list byte;
  rn_seed : list byte;
}.

Definition commitment (n : RefNote) : list byte :=
  element (lit "RefNoteCm") (rn_address n ++ be_bytes 8 (rn_value n) ++ rn_rho n ++ rn_seed n).
Definition nullifier (n : RefNote) (fvk : list byte) : list byte :=
  element (lit "RefNoteNf") (fvk ++ rn_rho n ++ rn_seed n).
End OrchardRef.

#[export] Instance orchard_notes_ref : OrchardNotes := {|
  SpendingKey := list byte;
  sk_from_bytes b := Some b;
  sk_to_bytes sk := sk;
  sk_owner_commitment sk := OrchardRef.element (lit "RefOwner") sk;
  FullViewingKey := list byte;
  fvk_of sk := sk;
  Address := list byte;
  address_at fvk _ := fvk;
  address_from_raw b := Some b;
  Rho := list byte;
  rho_from_bytes b := Some b;
  rho_to_bytes rho := rho;
  RandomSeed := list byte;
  seed_from_bytes b _ := Some b;
  Note := OrchardRef.RefNote;
  note_from_parts address value rho seed := Some (OrchardRef.MkRefNote address value rho seed);
  note_value := OrchardRef.rn_value;
  note_rho := OrchardRef.rn_rho;
  note_commitment := OrchardRef.commitment;
  note_nullifier := OrchardRef.nullifier |}.

#[export] Instance orchard_notes_ref_laws : OrchardNotesLaws.
Proof. split; [by intros ? ? ? ? ? [= <-]|by intros ? ? [= <-]]. Defined.

#[export] Instance orchard_circuit_ref : OrchardCircuit := {|
  CIRCUIT_K := 13;
  REVEAL_PROOF_BYTES := 2;
  REFRESH_PROOF_BYTES := 3;
  ProvingKeys := unit;
  VerifyingKeys := unit;
  circuit_keygen := (tt, tt);
  reveal_fingerprint _ := repeat x07 32;
  refresh_fingerprint _ := repeat x08 32;
  StatementDigest := list byte;
  digest_from_bytes b := Some b;
  TranscriptField := list byte;
  transcript_from_bytes b := Some b;
  CommitSecret := list byte;
  secret_from_bytes b := Some b;
  Rng := unit;
  ProvingError := unit;
  circuit_prove_reveal _ _ digest _ := inr (take 2 digest);
  circuit_prove_refresh _ _ digest _ := inr (take 3 digest);
  circuit_verify_reveal _ proof digest := bool_decide (proof = take 2 digest);
  circuit_verify_refresh _ proof digest := bool_decide (proof = take 3 digest) |}.

(** ** The builder: the designated pair is put at its index, and the pairs that
    follow it at the next ones, round the bundle. *)

Module BuilderRef.
Record RefBuilder := MkRefBuilder {
  rb_spends : list (list byte);
  rb_outputs : list (list byte);
  rb_balance : Z;
}.
Record RefAction := MkRefAction {
  ra_nullifier : list byte;
  ra_commitment : list byte;
  ra_real : bool;
}.

Definition spend (b : RefBuilder) (nf : list byte) (value : Z) : RefBuilder :=
  MkRefBuilder (rb_spends b ++ [nf]) (rb_outputs b) (rb_balance b + value).
Definition output (b : RefBuilder) (cm : list byte) (value : Z) : RefBuilder :=
  MkRefBuilder (rb_spends b) (rb_outputs b ++ [cm]) (rb_balance b - value).
Definition memo_commitment (address memo : list byte) : list byte :=
  OrchardRef.element (lit "RefOutput") (address ++ take 16 memo).
Definition dummy (tag : string) (k : nat) : list byte :=
  OrchardRef.element (lit tag) (be_bytes 4 (Z.of_nat k)).

Definition pair_at (b : RefBuilder) (k : nat) : RefAction :=
  MkRefAction (default (dummy "RefDummyNf" k) (rb_spends b !! k))
    (default (dummy "RefDummyCm" k) (rb_outputs b !! k)) (k <? length (rb_spends b))%nat.
Definition actions (b : RefBuilder) (index : Z) : list RefAction :=
  let n := max (length (rb_spends b)) (length (rb_outputs b)) in
  map (λ j, pair_at b ((j + n - Z.to_nat index) mod n)%nat) (seq 0 n).
End BuilderRef.

#[export] Instance orchard_builder_ref : OrchardBuilder := {|
  OutgoingViewingKey := unit;
  num_actions s o := Some (Z.max s o);
  Builder := BuilderRef.RefBuilder;
  builder_new := Some (BuilderRef.MkRefBuilder [] [] 0);
  add_spend_unwitnessed b fvk n :=
    Some (BuilderRef.spend b (note_nullifier n fvk) (note_value n));
  add_output_note b _ n _ := Some (BuilderRef.output b (note_commitment n) (note_value n));
  add_output b _ a v m := Some (BuilderRef.output b (BuilderRef.memo_commitment a m) v);
  add_change_output b _ _ a v m := Some (BuilderRef.output b (BuilderRef.memo_commitment a m) v);
  value_balance b := Some (BuilderRef.rb_balance b);
  OrchardBundle := list BuilderRef.RefAction * Z;
  bundle_actions b := map (λ a, (BuilderRef.ra_nullifier a, BuilderRef.ra_commitment a)) b.1;
  BundleMetadata := Z;
  spend_action_index m _ := Some m;
  output_action_index m _ := Some m;
  BuilderRng := unit;
  build_for_pczt b _ := Some ((BuilderRef.actions b 0, BuilderRef.rb_balance b), 0);
  build_for_pczt_with_action_pair b _ _ _ index :=
    Some ((BuilderRef.actions b index, BuilderRef.rb_balance b), index) |}.

Module PcztRef.
Record RefPcztAction := MkRefPcztAction {
  rp_nullifier : list byte;
  rp_cmx : option (list byte);
  rp_witness : option (Z * list (list byte));
  rp_sig : option (list byte);
}.
Record RefPczt := MkRefPczt {
  rp_actions : list RefPcztAction;
  rp_balance : Z;
  rp_anchor : option (list byte);
  rp_proof : option (list byte);
  rp_modifiable : bool;
}.

Definition embed (a : BuilderRef.RefAction) : RefPcztAction :=
  MkRefPcztAction (BuilderRef.ra_nullifier a) (Some (BuilderRef.ra_commitment a))
    (if BuilderRef.ra_real a then None else Some (0, [])) None.
Definition with_sig (s : list byte) (a : RefPcztAction) : RefPcztAction :=
  MkRefPcztAction (rp_nullifier a) (rp_cmx a) (rp_witness a) (Some s).
Definition with_witness (w : Z * list (list byte)) (a : RefPcztAction) : RefPcztAction :=
  MkRefPcztAction (rp_nullifier a) (rp_cmx a) (Some w) (rp_sig a).
Definition with_actions (f : list RefPcztAction → list RefPcztAction) (p : RefPczt) : RefPczt :=
  MkRefPczt (f (rp_actions p)) (rp_balance p) (rp_anchor p) (rp_proof p) (rp_modifiable p).
Definition sign_padding (a : RefPcztAction) : RefPcztAction :=
  match rp_witness a with Some _ => with_sig [x00] a | None => a end.
Definition finalized (p : RefPczt) : RefPczt :=
  MkRefPczt (map sign_padding (rp_actions p)) (rp_balance p) (rp_anchor p) (rp_proof p) false.
Definition witnessed (p : RefPczt) (w : Z * (Z * list (list byte))) : RefPczt :=
  with_actions (alter (with_witness w.2) (Z.to_nat w.1)) p.
Definition complete (p : RefPczt) : bool :=
  forallb (λ a, bool_decide (is_Some (rp_sig a))) (rp_actions p).
End PcztRef.

#[export] Instance pczt_roles_ref : PcztRoles.
Proof.
  refine {|
    ConsensusParameters := unit;
    BranchId := bool;
    Nu6_3 := true;
    Anchor := list byte;
    anchor_bytes a := a;
    MerklePath := Z * list (list byte);
    path_witness p := p;
    SpendAuthorizingKey := list byte;
    CircuitProvingKey := unit;
    Pczt := PcztRef.RefPczt;
    PcztAction := PcztRef.RefPcztAction;
    pczt_actions := PcztRef.rp_actions;
    pa_nullifier := PcztRef.rp_nullifier;
    pa_cmx := PcztRef.rp_cmx;
    pa_witness := PcztRef.rp_witness;
    pa_spend_auth_sig := PcztRef.rp_sig;
    value_sum p := (Z.abs (PcztRef.rp_balance p), PcztRef.rp_balance p <? 0);
    pczt_anchor := PcztRef.rp_anchor;
    zkproof := PcztRef.rp_proof;
    inputs_modifiable := PcztRef.rp_modifiable;
    outputs_modifiable := PcztRef.rp_modifiable;
    shielded_modifiable := PcztRef.rp_modifiable;
    build_from_parts _ _ _ _ b := Some (PcztRef.MkRefPczt (map PcztRef.embed b.1) b.2 None None true);
    finalize_io p := Some (PcztRef.finalized p);
    Updater := PcztRef.RefPczt;
    updater_new p := p;
    set_ironwood_anchor p a := Some (PcztRef.MkRefPczt (PcztRef.rp_actions p) (PcztRef.rp_balance p)
      (Some a) (PcztRef.rp_proof p) (PcztRef.rp_modifiable p));
    set_ironwood_spend_witnesses p ws := Some (fold_left PcztRef.witnessed ws p);
    updater_finish p := p;
    Prover := PcztRef.RefPczt;
    prover_new p := p;
    create_ironwood_proof p _ := Some (PcztRef.MkRefPczt (PcztRef.rp_actions p) (PcztRef.rp_balance p)
      (PcztRef.rp_anchor p) (Some [x01; x02; x03]) (PcztRef.rp_modifiable p));
    prover_finish p := p;
    Signer := PcztRef.RefPczt;
    signer_new p := Some p;
    sign_ironwood p i ask := Some (PcztRef.with_actions (alter (PcztRef.with_sig ask) (Z.to_nat i)) p);
    signer_finish p := p |}.
Defined.

#[export] Instance consensus_ref : ConsensusTransactions := {|
  ConsensusTransaction := PcztRef.RefPczt;
  tx_extract p := if PcztRef.complete p then Some p else None;
  tx_is_v6 _ := true;
  TransactionId := list byte;
  tx_id _ := repeat x44 32;
  tx_write _ := Some (repeat x00 100);
  IronwoodBundle := PcztRef.RefPczt;
  ironwood_bundle p := Some p;
  ib_actions p := map (λ a, (PcztRef.rp_nullifier a, default [] (PcztRef.rp_cmx a))) (PcztRef.rp_actions p);
  ib_value_balance := PcztRef.rp_balance;
  ib_anchor p := default [] (PcztRef.rp_anchor p);
  ib_proof p := default [] (PcztRef.rp_proof p);
  fee_required _ _ _ _ _ _ _ n := Some (5000 * Z.max 2 n) |}.
