(* ===== verification/WalletScenario.v ===== *)
(** * A wallet, concretely

    The name of the other scenarios registered and refreshed by the wallet under
    the instances of [WalletConcrete]: COMMIT, REVEAL and REFRESH are prepared,
    their transactions constructed, and the properties of the wallet applied. *)

From S2P Require Import Prelude Bytes BTree External Protocol Concrete Schedule Codec Statement.
From S2P Require Import Records State Reducer Ruleset Deployment Transport Publication Orchard Pczt Builder.
From S2P Require Import BuilderFacts Authorizations ProofSystem Recovery Checkpoint Replacement Preparation.
From S2P Require Import TransportScenario WalletConcrete.

Module WalletScenario.
Import TransportScenario.

Definition seed : list byte := repeat x2a 64.
Definition alice : Name := Samples.alice.
Definition ua : CanonicalUa := Samples.ua.
Definition commit_ref : CommitRef := MkCommitRef 140 1 (repeat x55 32).
Definition value {E A : Type} (a : A) (m : res E A) : A := match m with Ok a => a | _ => a end.

(** Evaluated once. *)
Definition id : list byte := Eval vm_compute in identifier.
Definition alice_id : NameId := Eval vm_compute in value (MkNameId []) (Name_id alice).
Definition sk : list byte :=
  Eval vm_compute in value ([] : SpendingKey) (derive_name_spending_key seed id alice).
Definition no_opening : CommitOpening := MkCommitOpening (MkCommitment []) (MkFieldElement []).
Definition opening : CommitOpening :=
  Eval vm_compute in value no_opening (derive_commit_opening (sk : SpendingKey) id alice 1).

Lemma id_ok : dp_deployment_id deployment = Ok id.
Proof. rewrite deployment_identifier. vm_compute. reflexivity. Qed.
Lemma alice_id_ok : Name_id alice = Ok alice_id.
Proof. vm_compute. reflexivity. Qed.
Lemma sk_ok : derive_name_spending_key seed id alice = Ok (sk : SpendingKey).
Proof. vm_compute. reflexivity. Qed.
Lemma opening_ok : derive_commit_opening (sk : SpendingKey) id alice 1 = Ok opening.
Proof. vm_compute. reflexivity. Qed.

Definition schedule : Parameters := dp_schedule deployment id.
Lemma reveal_window : accepts_operation (E := string) schedule alice_id 152 = Ok true.
Proof. vm_compute. reflexivity. Qed.
Lemma refresh_window : accepts_operation (E := string) schedule alice_id 184 = Ok true.
Proof. vm_compute. reflexivity. Qed.
Lemma reveal_epoch : epoch schedule 152 = Ok 1.
Proof. vm_compute. reflexivity. Qed.
Lemma refresh_epoch : epoch schedule 184 = Ok 2.
Proof. vm_compute. reflexivity. Qed.

(** ** The COMMIT *)

Definition name_route_value : NameRoute :=
  Eval vm_compute in value (MkNameRoute [] []) (NameRoute_derive id alice_id).
Lemma name_route_derived : NameRoute_derive id alice_id = Ok name_route_value.
Proof. vm_compute. reflexivity. Qed.

Definition application : CarrierRef.bytes32 :=
  CarrierRef.application (NAMES_CANONICAL_APPLICATION_IDENTITY ++ [x00] ++ id).
Definition encoded (op : Operation) : list byte := value [] (encode op (codec_parameters deployment)).
Definition published_as (op : Operation) (route : PublicationRoute) : PreparedPublication :=
  let envelope := (application, encoded op) in
  MkPreparedPublication op route (encoded op) (envelope_encode (CoppiceCarrier := carrier_ref) envelope)
    [runtime_id_bytes runtime_id ++ envelope_encode (CoppiceCarrier := carrier_ref) envelope].

Lemma publication_ok op route :
  publication_route id op = Ok route → is_ok (encode op (codec_parameters deployment)) = true →
  prepare_publication op deployment = Ok (published_as op route).
Proof.
  intros Hr He.
  refine (prepare_publication_intro op deployment id route (encoded op) (application : ApplicationId)
    ((application, encoded op) : ApplicationEnvelope) _ deployment_valid id_ok Hr _ eq_refl eq_refl eq_refl).
  unfold encoded, value. by destruct (encode op (codec_parameters deployment)).
Qed.

Definition commit_op : Operation := Commit (co_commitment opening).
Definition prepared_commit : PreparedCommit := MkPreparedCommit 1 (published_as commit_op Generic).

Lemma commit_prepared : prepare_commit seed deployment alice 152 = Ok prepared_commit.
Proof.
  unfold prepare_commit. cbv zeta. rewrite deployment_valid. cbn [describe map_err res_bind].
  rewrite id_ok. cbn [describe map_err res_bind]. fold schedule.
  rewrite alice_id_ok. cbn [describe map_err res_bind]. rewrite reveal_window. cbn [ensures res_bind].
  rewrite reveal_epoch. cbn [describe map_err res_bind]. rewrite sk_ok. cbn [describe map_err res_bind].
  rewrite opening_ok. cbn [describe map_err res_bind].
  rewrite (publication_ok (Commit (co_commitment opening)) Generic); [reflexivity|reflexivity|].
  vm_compute. reflexivity.
Qed.

(** ** The REVEAL *)

Definition registration_fvk : FullViewingKey := repeat x0b 32 : list byte.
Definition registration_note : Note :=
  OrchardRef.MkRefNote (repeat x0b 32) BOND_ZATOSHIS (repeat x0c 32) (repeat x0d 32).
Definition reveal_inputs : RevealInputs :=
  MkRevealInputs seed deployment alice commit_ref ua 152 2 registration_fvk registration_note.

Definition registration_nf : FieldElement :=
  Eval vm_compute in MkFieldElement (note_nullifier registration_note registration_fvk).
Definition no_note : Note := OrchardRef.MkRefNote [] 0 [] [].
Definition bond : OrchardRef.RefNote :=
  Eval vm_compute in value no_note
    (derive_reveal_bond_note (sk : SpendingKey) id commit_ref 1 ua 2 registration_nf).
Definition bond_cm : FieldElement := Eval vm_compute in MkFieldElement (note_commitment (bond : Note)).
Definition bond_nf : FieldElement :=
  Eval vm_compute in MkFieldElement (note_nullifier (bond : Note) (fvk_of (sk : SpendingKey))).

Lemma registration_nf_ok :
  FieldElement_from_bytes (note_nullifier registration_note registration_fvk) = Ok registration_nf.
Proof. vm_compute. reflexivity. Qed.
Lemma bond_ok :
  derive_reveal_bond_note (sk : SpendingKey) id commit_ref 1 ua 2 registration_nf = Ok (bond : Note).
Proof. vm_compute. reflexivity. Qed.
Lemma bond_cm_ok : FieldElement_from_bytes (note_commitment (bond : Note)) = Ok bond_cm.
Proof. vm_compute. reflexivity. Qed.
Lemma bond_nf_ok :
  FieldElement_from_bytes (note_nullifier (bond : Note) (fvk_of (sk : SpendingKey))) = Ok bond_nf.
Proof. vm_compute. reflexivity. Qed.

Definition reveal_statement : RevealStatement := {|
  rvs_deployment_id := id;
  rvs_name_id := alice_id;
  rvs_inclusion_epoch := 1;
  rvs_commitment := co_commitment opening;
  rvs_commit_ref := commit_ref;
  rvs_ua := ua;
  rvs_action_index := 2;
  rvs_action_nullifier := registration_nf;
  rvs_action_commitment := bond_cm;
  rvs_successor_future_nf := bond_nf |}.

Definition prover_rng : Rng := tt.
Definition prover : OrchardProofProver := MkOrchardProofProver (tt : ProvingKeys).
Definition reveal_proof : list byte :=
  Eval vm_compute in value [] (prove_reveal prover reveal_statement (bond : Note) (sk : SpendingKey)
    (co_secret opening) prover_rng).
Lemma reveal_proof_ok :
  prove_reveal prover reveal_statement (bond : Note) (sk : SpendingKey) (co_secret opening) prover_rng
  = Ok reveal_proof.
Proof. vm_compute. reflexivity. Qed.

Definition reveal_op : Operation := Reveal alice commit_ref ua 2 bond_nf reveal_proof.
Definition prepared_reveal : PreparedReveal :=
  MkPreparedReveal reveal_statement (bond : Note) (published_as reveal_op (NameRouted name_route_value)) 152.

Lemma name_published op :
  match op with Commit _ => False | Reveal n _ _ _ _ _ | Refresh n _ _ _ _ _ => n = alice end →
  publication_route id op = Ok (NameRouted name_route_value).
Proof.
  intros Hn. unfold publication_route. destruct op as [|n ? ? ? ? ?|n ? ? ? ? ?]; [done|..]; subst n;
    rewrite alice_id_ok; cbn [map_err res_bind]; by rewrite name_route_derived.
Qed.

Lemma reveal_mature : accepts_commit schedule (cr_height commit_ref) 152 = true.
Proof. vm_compute. reflexivity. Qed.
Lemma reveal_encoded : is_ok (encode reveal_op (codec_parameters deployment)) = true.
Proof. vm_compute. reflexivity. Qed.

Lemma reveal_prepared_ok : prepare_reveal reveal_inputs prover prover_rng = Ok prepared_reveal.
Proof.
  refine (prepare_reveal_intro seed deployment alice commit_ref ua 152 2 registration_fvk registration_note
    id alice_id 1 (sk : SpendingKey) opening registration_nf (bond : Note) bond_cm bond_nf reveal_proof
    (published_as reveal_op (NameRouted name_route_value)) prover prover_rng
    deployment_valid id_ok alice_id_ok reveal_window reveal_mature eq_refl reveal_epoch sk_ok opening_ok
    registration_nf_ok bond_ok bond_cm_ok bond_nf_ok reveal_proof_ok _).
  exact (publication_ok reveal_op (NameRouted name_route_value) (name_published reveal_op eq_refl) reveal_encoded).
Qed.

(** ** Its transaction: two real spends, three outputs, three actions *)

Definition funding : FundingSpend :=
  MkFundingSpend (repeat x0e 32 : FullViewingKey)
    (OrchardRef.MkRefNote (repeat x0e 32) 50000 (repeat x10 32) (repeat x12 32) : Note).
Definition change : ChangeOutput :=
  MkChangeOutput (repeat x0e 32 : FullViewingKey) None (repeat x13 32 : Address) 35000 (repeat x00 512).

Definition plan_of (note : Note) (fvk : FullViewingKey) (spend : Note) (p : PreparedPublication) (h : Z)
  : NamesIronwoodPlan :=
  MkNamesIronwoodPlan fvk spend note None (repeat x00 512)
    (map (λ memo, MkCarrierOutput (receiver name_route_value : Address) 0 memo) (pp_frames p))
    [funding] [change] 2 h.

Lemma plan_of_ok note fvk spend p h :
  pp_route p = NameRouted name_route_value →
  match pp_operation p with Commit _ => False | Reveal _ _ _ i _ _ | Refresh _ _ _ i _ _ => i = 2 end →
  replacement_ironwood_plan p note fvk spend [funding] [change] h = Ok (plan_of note fvk spend p h).
Proof.
  intros Hr Hi. unfold replacement_ironwood_plan. rewrite Hr. destruct (pp_operation p); [done|..]; by subst.
Qed.

Definition reveal_publication : PreparedPublication := published_as reveal_op (NameRouted name_route_value).

Definition reveal_plan : NamesIronwoodPlan :=
  plan_of (bond : Note) registration_fvk registration_note reveal_publication 152.

Lemma reveal_plan_ok :
  reveal_ironwood_plan prepared_reveal registration_fvk registration_note [funding] [change] = Ok reveal_plan.
Proof.
  unfold reveal_ironwood_plan, prepared_reveal. cbn [pr_publication pr_successor_note pr_operation_height].
  fold reveal_publication. apply plan_of_ok; reflexivity.
Qed.

Definition anchor : Anchor := repeat x21 32 : list byte.
Definition path (k : Z) : MerklePath := (k, [repeat x22 32]).
Definition funding_nf : list byte := Eval vm_compute in note_nullifier (fs_note funding) (fs_fvk funding).
Definition witness_plan (nf : list byte) : NamesWitnessPlan :=
  MkNamesWitnessPlan anchor
    [MkNamesIronwoodWitness funding_nf (path 1); MkNamesIronwoodWitness nf (path 2)].
Definition signing_plan (nf : list byte) : NamesSigningPlan :=
  MkNamesSigningPlan
    [MkNamesIronwoodSigningKey nf ([x31] : SpendAuthorizingKey);
     MkNamesIronwoodSigningKey funding_nf ([x32] : SpendAuthorizingKey)].

Definition no_rng : BuilderRng := tt.
Definition no_parameters : ConsensusParameters := tt.
Definition no_key : CircuitProvingKey := tt.

(** The stages at a plan. *)
Definition built (plan : NamesIronwoodPlan) : res string NamesBuiltPczt :=
  let? bundle := build_names_bundle plan no_rng in
  build_names_pczt (MkNamesPcztPlan bundle no_parameters Nu6_3 500 0).

Definition no_metadata : NamesMetadata :=
  MkNamesMetadata 0 [] [] (MkNamesIronwoodShape 0 0 0 0 0) 0.
Definition no_pczt : Pczt := PcztRef.MkRefPczt [] 0 None None true.
Definition no_finalized : NamesFinalizedPczt := MkNamesFinalizedPczt no_pczt no_metadata.
Definition no_witnessed : NamesWitnessedPczt := MkNamesWitnessedPczt no_pczt anchor [] no_metadata.
Definition no_proved : NamesProvedPczt := MkNamesProvedPczt no_pczt anchor [] no_metadata 0.
Definition no_signed : NamesSignedPczt := MkNamesSignedPczt no_pczt anchor [] no_metadata 0.
Definition no_extracted : NamesExtractedTransaction :=
  MkNamesExtractedTransaction (no_pczt : ConsensusTransaction) (repeat x44 32 : TransactionId) 0 anchor
    no_metadata 0 0 true.

Definition reveal_built : NamesBuiltPczt :=
  Eval vm_compute in value (MkNamesBuiltPczt no_pczt no_metadata) (built reveal_plan).
Definition reveal_nf : list byte := field_bytes registration_nf.
Definition reveal_finalized : NamesFinalizedPczt :=
  ok_default no_finalized (finalize_names_pczt_io reveal_built).
Definition reveal_witnessed : NamesWitnessedPczt :=
  ok_default no_witnessed (install_names_ironwood_witnesses reveal_finalized (witness_plan reveal_nf)).
Definition reveal_proved : NamesProvedPczt :=
  ok_default no_proved (prove_names_ironwood_pczt reveal_witnessed no_key).
Definition reveal_signed : NamesSignedPczt :=
  ok_default no_signed (sign_names_ironwood_pczt reveal_proved (signing_plan reveal_nf)).

Lemma reveal_finalized_ok : finalize_names_pczt_io reveal_built = Ok reveal_finalized.
Proof. apply is_ok_default. vm_compute. reflexivity. Qed.
Lemma reveal_witnessed_ok :
  install_names_ironwood_witnesses reveal_finalized (witness_plan reveal_nf) = Ok reveal_witnessed.
Proof. apply is_ok_default. vm_compute. reflexivity. Qed.
Lemma reveal_proved_ok :
  prove_names_ironwood_pczt reveal_witnessed no_key = Ok reveal_proved.
Proof. apply is_ok_default. vm_compute. reflexivity. Qed.
Lemma reveal_signed_ok : sign_names_ironwood_pczt reveal_proved (signing_plan reveal_nf) = Ok reveal_signed.
Proof. apply is_ok_default. vm_compute. reflexivity. Qed.

Notation pipeline plan nf :=
  (names_pipeline plan no_rng no_parameters Nu6_3 500 0 (witness_plan nf)
    no_key (signing_plan nf)) (only parsing).
Definition reveal_transaction : NamesExtractedTransaction :=
  ok_default no_extracted (pipeline reveal_plan reveal_nf).
Lemma reveal_pipeline_ok : pipeline reveal_plan reveal_nf = Ok reveal_transaction.
Proof. apply is_ok_default. vm_compute. reflexivity. Qed.

Lemma reveal_constructed : constructed reveal_plan reveal_transaction.
Proof.
  exists no_rng, no_parameters, Nu6_3, 500, 0, (witness_plan reveal_nf), no_key, (signing_plan reveal_nf). exact reveal_pipeline_ok.
Qed.

(** ** Replay *)

Definition seen (t : NamesExtractedTransaction) (op : Operation) : Transaction :=
  MkTransaction 3 (repeat x44 32)
    (ok_default [] (res_mapM core_action (enumerate (ib_actions (xt_transaction t : IronwoodBundle))))) (Some op).
Definition reveal_tx : Transaction := seen reveal_transaction reveal_op.

Lemma bundle_of (t : NamesExtractedTransaction) b (P : IronwoodBundle → Prop) :
  ironwood_bundle (xt_transaction t) = Some b → P b → P (xt_transaction t).
Proof. by intros [= <-]. Qed.

Lemma seen_delivered t op :
  is_ok (res_mapM core_action (enumerate (ib_actions (xt_transaction t : IronwoodBundle)))) = true →
  delivered t (seen t op).
Proof. intros Hok. exists (xt_transaction t). split; [done|]. by apply is_ok_default. Qed.

Lemma reveal_tx_delivered : delivered reveal_transaction reveal_tx.
Proof. apply seen_delivered. vm_compute. reflexivity. Qed.

Definition verifying : OrchardProofVerifier := keygen.2.
Definition reducer_with (cs : gmap CommitRef Commitment) (hs : gmap NameId Head) : Reducer OrchardProofVerifier :=
  MkReducer schedule verifying (Some 152) (Some 151) (repeat x51 32) cs hs ∅ ∅ ∅ ∅ [].
Definition reveal_reducer : Reducer OrchardProofVerifier := reducer_with {[ commit_ref := co_commitment opening ]} ∅.
Definition no_undo : Undo := new_undo reveal_reducer 152 (repeat x52 32).

Lemma only_proof (P : list byte → Prop) a : P a → ∀ b, Some a = Some b → P b.
Proof. intros Ha b [= <-]. exact Ha. Qed.

Lemma reveal_verified : verify_reveal verifying reveal_statement reveal_proof = true.
Proof. vm_compute. reflexivity. Qed.

(** ** The REFRESH of the head it installs *)

Definition predecessor : Head :=
  MkHead alice ua (MkStateRef 152 3 (repeat x44 32) 2) bond_cm bond_nf 1 280 None.
Definition refresh_inputs : RefreshInputs :=
  MkRefreshInputs seed deployment alice predecessor (bond : Note) ua 184 2.

Definition next_bond : OrchardRef.RefNote :=
  Eval vm_compute in value no_note
    (derive_refresh_bond_note (sk : SpendingKey) id (hd_producer predecessor) 2 ua 2 bond_nf).
Definition next_cm : FieldElement := Eval vm_compute in MkFieldElement (note_commitment (next_bond : Note)).
Definition next_nf : FieldElement :=
  Eval vm_compute in MkFieldElement (note_nullifier (next_bond : Note) (fvk_of (sk : SpendingKey))).

Lemma next_bond_ok :
  derive_refresh_bond_note (sk : SpendingKey) id (hd_producer predecessor) 2 ua 2 (hd_future_nf predecessor)
  = Ok (next_bond : Note).
Proof. vm_compute. reflexivity. Qed.
Lemma next_cm_ok : FieldElement_from_bytes (note_commitment (next_bond : Note)) = Ok next_cm.
Proof. vm_compute. reflexivity. Qed.
Lemma next_nf_ok :
  FieldElement_from_bytes (note_nullifier (next_bond : Note) (fvk_of (sk : SpendingKey))) = Ok next_nf.
Proof. vm_compute. reflexivity. Qed.

Definition refresh_statement : RefreshStatement :=
  MkRefreshStatement id alice_id (hd_producer predecessor) bond_cm bond_nf 1 2 ua 2 bond_nf next_cm next_nf.
Definition refresh_proof : list byte :=
  Eval vm_compute in value [] (prove_refresh prover refresh_statement (bond : Note) (next_bond : Note)
    (sk : SpendingKey) prover_rng).
Lemma refresh_proof_ok :
  prove_refresh prover refresh_statement (bond : Note) (next_bond : Note) (sk : SpendingKey) prover_rng
  = Ok refresh_proof.
Proof. vm_compute. reflexivity. Qed.

Definition refresh_op : Operation := Refresh alice (hd_producer predecessor) ua 2 next_nf refresh_proof.
Definition refresh_publication : PreparedPublication := published_as refresh_op (NameRouted name_route_value).
Definition prepared_refresh : PreparedRefresh :=
  MkPreparedRefresh refresh_statement (next_bond : Note) refresh_publication 184.
Lemma refresh_active : lifecycle predecessor 184 schedule = Active.
Proof. vm_compute. reflexivity. Qed.
Lemma refresh_encoded : is_ok (encode refresh_op (codec_parameters deployment)) = true.
Proof. vm_compute. reflexivity. Qed.

Lemma refresh_prepared_ok : prepare_refresh refresh_inputs prover prover_rng = Ok prepared_refresh.
Proof.
  refine (prepare_refresh_intro seed deployment alice predecessor (bond : Note) ua 184 2 id alice_id 2
    (sk : SpendingKey) (next_bond : Note) next_cm next_nf refresh_proof refresh_publication prover prover_rng
    deployment_valid id_ok alice_id_ok eq_refl refresh_active refresh_window refresh_epoch eq_refl eq_refl
    sk_ok bond_cm_ok bond_nf_ok next_bond_ok next_cm_ok next_nf_ok refresh_proof_ok _).
  exact (publication_ok refresh_op (NameRouted name_route_value) (name_published refresh_op eq_refl) refresh_encoded).
Qed.

Definition refresh_plan : NamesIronwoodPlan :=
  plan_of (next_bond : Note) (fvk_of (sk : SpendingKey)) (bond : Note) refresh_publication 184.
Lemma refresh_plan_ok :
  refresh_ironwood_plan prepared_refresh (fvk_of (sk : SpendingKey)) (bond : Note) [funding] [change]
  = Ok refresh_plan.
Proof.
  unfold refresh_ironwood_plan, prepared_refresh. cbn [prf_publication prf_successor_note prf_operation_height].
  apply plan_of_ok; reflexivity.
Qed.

Definition refresh_transaction : NamesExtractedTransaction :=
  ok_default no_extracted (pipeline refresh_plan (field_bytes bond_nf)).
Lemma refresh_pipeline_ok : pipeline refresh_plan (field_bytes bond_nf) = Ok refresh_transaction.
Proof. apply is_ok_default. vm_compute. reflexivity. Qed.
Lemma refresh_constructed : constructed refresh_plan refresh_transaction.
Proof.
  exists no_rng, no_parameters, Nu6_3, 500, 0, (witness_plan (field_bytes bond_nf)), no_key,
    (signing_plan (field_bytes bond_nf)).
  exact refresh_pipeline_ok.
Qed.

Definition refresh_tx : Transaction := seen refresh_transaction refresh_op.
Lemma refresh_tx_delivered : delivered refresh_transaction refresh_tx.
Proof. apply seen_delivered. vm_compute. reflexivity. Qed.

Definition refresh_reducer : Reducer OrchardProofVerifier := reducer_with ∅ {[ alice_id := predecessor ]}.
Lemma refresh_verified : verify_refresh verifying refresh_statement refresh_proof = true.
Proof. vm_compute. reflexivity. Qed.

Definition wallet_key : SpendingKey := sk.
Definition bond_note : Note := bond.

(** ** The checkpoint *)

Definition payload : list byte := lit "replay state".
Definition sealed : list byte := ok_default [] (seal_checkpoint seed id payload).
End WalletScenario.

(** ** Instances of the properties *)

Import WalletScenario.

Lemma names_transaction_designated_witness :
  ib_actions (xt_transaction reveal_transaction) !! 2%nat
    = Some (note_nullifier registration_note registration_fvk, note_commitment bond).
Proof.
  destruct (names_transaction_designated reveal_plan no_rng no_parameters Nu6_3 500 0
    (witness_plan reveal_nf) no_key (signing_plan reveal_nf) reveal_transaction
    reveal_pipeline_ok) as (_ & (bundle & sh & bu & Hb & _ & _ & _ & Hi & _) & _).
  exact (bundle_of reveal_transaction bundle (λ b, ib_actions b !! 2%nat = _) Hb Hi).
Defined.

Lemma real_spends_authorized_witness :
  unwitnessed_indices (fp_pczt reveal_finalized) = [0; 2]
  ∧ ∀ i a0, pczt_actions (fp_pczt reveal_finalized) !! i = Some a0 →
      ∃ a, pczt_actions (sp_pczt reveal_signed) !! i = Some a ∧ pa_spend_auth_sig a ≠ None.
Proof.
  split; [vm_compute; reflexivity|].
  destruct (real_spends_authorized reveal_built reveal_finalized (witness_plan reveal_nf) reveal_witnessed
    no_key reveal_proved (signing_plan reveal_nf) reveal_signed
    reveal_finalized_ok reveal_witnessed_ok reveal_proved_ok reveal_signed_ok) as (_ & _ & _ & Hall).
  intros i a0 Ha. destruct (Hall i a0 Ha) as (a & Ha' & _ & _ & Hs & _). exists a. split; [exact Ha'|exact Hs].
Defined.

Lemma prepared_reveal_accepted_witness :
  ∃ head undo, apply_operation (E := string) 152 reveal_tx (reveal_reducer, no_undo)
      = Ok (MkOperationDecision (Some AcceptedReveal) "NAMES.REVEAL.ACCEPT",
            (replace_head reveal_reducer alice_id (Some head), undo))
    ∧ hd_ua head = ua ∧ hd_future_nf head = bond_nf ∧ hd_expiry_height head = 280.
Proof.
  destruct (prepared_reveal_accepted reveal_inputs 152 prepared_commit prover prover_rng prepared_reveal
    reveal_plan reveal_transaction reveal_reducer no_undo reveal_tx id (co_commitment opening)
    commit_prepared reveal_prepared_ok ltac:(split; vm_compute; discriminate) eq_refl
    (ex_intro _ _ (ex_intro _ _ (ex_intro _ _ (ex_intro _ _ reveal_plan_ok)))) reveal_constructed
    reveal_tx_delivered eq_refl id_ok eq_refl ltac:(vm_compute; discriminate) eq_refl
    ltac:(vm_compute; reflexivity) ltac:(vm_compute; reflexivity)
    (only_proof _ reveal_proof reveal_verified)) as (head & Hap & _ & Hua & _ & _ & _ & Hnf & Hex).
  exists head. eexists. split; [exact Hap|]. split; [exact Hua|]. split; [exact Hnf|exact Hex].
Defined.

Lemma prepared_refresh_accepted_witness :
  ∃ head undo, apply_operation (E := string) 184 refresh_tx (refresh_reducer, no_undo)
      = Ok (MkOperationDecision (Some AcceptedRefresh) "NAMES.REFRESH.ACCEPT",
            (replace_head refresh_reducer alice_id (Some head), undo))
    ∧ hd_ua head = ua ∧ hd_future_nf head = next_nf ∧ hd_expiry_height head = 312.
Proof.
  destruct (prepared_refresh_accepted refresh_inputs prover prover_rng prepared_refresh
    refresh_plan refresh_transaction refresh_reducer no_undo refresh_tx id
    refresh_prepared_ok ltac:(split; vm_compute; discriminate)
    (ex_intro _ _ (ex_intro _ _ (ex_intro _ _ (ex_intro _ _ refresh_plan_ok)))) refresh_constructed
    refresh_tx_delivered eq_refl id_ok eq_refl ltac:(vm_compute; discriminate)
    ltac:(vm_compute; reflexivity)
    (only_proof _ refresh_proof refresh_verified)) as (head & Hap & _ & Hua & _ & _ & _ & Hnf & Hex).
  exists head. eexists. split; [exact Hap|]. split; [exact Hua|]. split; [exact Hnf|exact Hex].
Defined.

Lemma commit_opening_recoverable_witness :
  ∃ i owner retry, Name_id alice = Ok i ∧ opens id i 1 owner opening ∧ is_u32 retry.
Proof.
  destruct (commit_opening_recoverable wallet_key id alice 1 eq_refl Samples.sample_alice_ok
    ltac:(split; vm_compute; discriminate)) as [_ Hall].
  destruct (Hall opening opening_ok) as (i & owner & retry & Hi & _ & Ho & Hr & _).
  exists i, owner, retry. split; [exact Hi|]. split; [exact Ho|exact Hr].
Defined.

Lemma bond_note_recoverable_witness :
  note_value bond_note = BOND_ZATOSHIS
  ∧ rho_from_bytes (field_bytes registration_nf) = Some (note_rho bond_note).
Proof.
  destruct (bond_note_recoverable wallet_key id commit_ref (hd_producer predecessor) 1 ua 2
    registration_nf bond_note ltac:(repeat split; vm_compute; discriminate)
    ltac:(repeat split; vm_compute; discriminate) ltac:(split; vm_compute; discriminate)
    ltac:(split; vm_compute; discriminate) (or_introl bond_ok)) as (Hv & Hr & _).
  split; [exact Hv|exact Hr].
Defined.

Lemma checkpoint_authentic_witness : open_checkpoint seed id sealed = Ok payload.
Proof.
  destruct (checkpoint_authentic seed id eq_refl) as (Hs & Ho & _).
  apply (proj2 (Ho payload sealed)). unfold sealed. apply is_ok_default. apply (proj2 (Hs payload)).
  split; [reflexivity|vm_compute; discriminate].
Defined.
